(** * Pregnancy data filter (filter.js): whitelist projection and validation

    A shallow embedding of the two variants of [filter.js] found in the
    repository: the strict variant, which rejects a whole client when any of
    its pregnancies fails validation, and the salvage variant, which drops
    only the failing pregnancies.  The helper, validation and filter functions
    are textually the same in both variants and are embedded once, over the
    configuration table; the two [validateClient]/[processData] pairs live in
    the modules [Strict] and [Salvage].

    JavaScript values are the values [JSON.parse] yields, plus [undefined].
    A thrown [TypeError], [process.exit(1)] and the parts of the language the
    model does not cover are outcomes of their own, so that no function of the
    model silently invents behaviour.

    The bounds of the model: numbers are integers; a property is an own
    property, the elements and the [length] of an array or of a string
    included, and nothing is inherited from a prototype; a character of a
    string is a code point; of the regular expressions a dynamic pattern can
    be compiled to, the ones made of literal characters and the escape for a
    run of digits are covered, any other is [Unmodelled].

    The pure functions come first.  The script is then embedded a second time
    over a store of objects with identities ([Store]), where a property
    assignment overwrites a cell, for the one property that needs it: that
    the input is never written to.  The report and the entry point come last
    ([StrictCli], [SalvageCli]), over the part of Node they use ([Node]): the
    file system and the clock are a world that reads and writes go through,
    the console is the list of the lines printed.

    Where a property depends on it, the statement says so: a list of keys that
    names nothing an object inherits ([own_name], [plain_config]), a value
    whose text in a template is the one [to_string] gives ([printable]),
    records without a null in their lists ([shaped_client]), records whose
    lists are arrays ([client_lists]). *)

From Stdlib Require Import String Ascii List ZArith NArith Bool Arith Lia.
From Stdlib Require Import DecimalString Decimal Permutation.
Import ListNotations.
Open Scope string_scope.
Open Scope list_scope.

Set Warnings "-register-all".

(* ------------------------------------------------------------------------- *)
(** ** Values *)

(** Numbers are carried around, tested for truthiness and printed into
    messages, never computed with: they are modelled as integers (the ids,
    counts and flags of the dataset). *)
Inductive value : Type :=
| VUndefined
| VNull
| VBool (b : bool)
| VNum (n : Z)
| VStr (s : string)
| VArr (xs : list value)
| VObj (ps : list (string * value)).

(** A plain object: its own properties in [Object.keys] order. *)
Definition obj := list (string * value).

(** How a computation ends. *)
Inductive outcome (A : Type) : Type :=
| Ok (a : A)
| TypeError          (* an uncaught TypeError *)
| Exit1              (* process.exit(1) *)
| Unmodelled.        (* behaviour of the language outside this model *)

Arguments Ok {A} a.
Arguments TypeError {A}.
Arguments Exit1 {A}.
Arguments Unmodelled {A}.

Definition bind {A B} (m : outcome A) (f : A -> outcome B) : outcome B :=
  match m with
  | Ok a => f a
  | TypeError => TypeError
  | Exit1 => Exit1
  | Unmodelled => Unmodelled
  end.

Declare Scope js_scope.
Delimit Scope js_scope with js.
Notation "x <- m ;; k" := (bind m (fun x => k))
  (at level 61, m at next level, right associativity) : js_scope.
Open Scope js_scope.

(** [xs.map(f)] for an [f] that may throw. *)
Fixpoint mapM {A B} (f : A -> outcome B) (xs : list A) : outcome (list B) :=
  match xs with
  | [] => Ok []
  | x :: xs' => y <- f x ;; ys <- mapM f xs' ;; Ok (y :: ys)
  end.

(** [xs.some(f)], left to right, stopping at the first hit. *)
Fixpoint someM {A} (f : A -> outcome bool) (xs : list A) : outcome bool :=
  match xs with
  | [] => Ok false
  | x :: xs' => b <- f x ;; if b then Ok true else someM f xs'
  end.

(** A loop over [xs] threading a state. *)
Fixpoint foldM {A S} (f : S -> A -> outcome S) (s : S) (xs : list A) : outcome S :=
  match xs with
  | [] => Ok s
  | x :: xs' => s' <- f s x ;; foldM f s' xs'
  end.

(* ------------------------------------------------------------------------- *)
(** ** Property keys *)

Definition dec_of_nat (n : nat) : string := NilEmpty.string_of_uint (Nat.to_uint n).
Definition dec_of_N (n : N) : string := NilEmpty.string_of_uint (N.to_uint n).
Definition dec_of_Z (z : Z) : string := NilZero.string_of_int (Z.to_int z).

(** An array index is the canonical decimal form of an integer below
    2^32 - 1; such keys come first, in ascending order, among the own keys of
    an object. *)
Definition array_index (k : string) : option N :=
  match NilEmpty.uint_of_string k with
  | Some u =>
      let n := N.of_uint u in
      if (String.eqb (dec_of_N n) k && (n <? 4294967295)%N)%bool then Some n else None
  | None => None
  end.

Definition keys (o : obj) : list string := map fst o.

Fixpoint lookup (k : string) (o : obj) : option value :=
  match o with
  | [] => None
  | (k', v) :: o' => if String.eqb k k' then Some v else lookup k o'
  end.

Definition has_own (k : string) (o : obj) : bool :=
  match lookup k o with Some _ => true | None => false end.

Fixpoint obj_update (k : string) (v : value) (o : obj) : obj :=
  match o with
  | [] => []
  | (k', v') :: o' =>
      if String.eqb k k' then (k', v) :: o' else (k', v') :: obj_update k v o'
  end.

Fixpoint obj_insert_index (n : N) (k : string) (v : value) (o : obj) : obj :=
  match o with
  | [] => [(k, v)]
  | (k', v') :: o' =>
      match array_index k' with
      | Some n' => if (n' <? n)%N then (k', v') :: obj_insert_index n k v o'
                   else (k, v) :: o
      | None => (k, v) :: o
      end
  end.

(** [o[k] = v] on a plain object: an existing property keeps its place, a new
    array index is put in ascending order among the indices, any other new key
    goes last. *)
Definition obj_set (k : string) (v : value) (o : obj) : obj :=
  if has_own k o then obj_update k v o
  else match array_index k with
       | Some n => obj_insert_index n k v o
       | None => o ++ [(k, v)]
       end.

(** The own keys of a real object: no key twice, the array indices first and
    ascending. *)
Fixpoint indices_then_names (lo : option N) (names : bool) (ks : list string) : bool :=
  match ks with
  | [] => true
  | k :: ks' =>
      match array_index k with
      | Some n =>
          negb names
          && match lo with Some m => (m <? n)%N | None => true end
          && indices_then_names (Some n) false ks'
      | None => indices_then_names lo true ks'
      end
  end.

Fixpoint mem (k : string) (ks : list string) : bool :=
  match ks with
  | [] => false
  | k' :: ks' => String.eqb k k' || mem k ks'
  end.

Fixpoint nodup_keys (ks : list string) : bool :=
  match ks with
  | [] => true
  | k :: ks' => negb (mem k ks') && nodup_keys ks'
  end.

Definition js_object (o : obj) : bool :=
  nodup_keys (keys o) && indices_then_names None false (keys o).

(* ------------------------------------------------------------------------- *)
(** ** Operators of the language used by the script *)

(** [!!v] *)
Definition truthy (v : value) : bool :=
  match v with
  | VUndefined | VNull => false
  | VBool b => b
  | VNum n => negb (n =? 0)%Z
  | VStr s => negb (String.eqb s "")
  | VArr _ | VObj _ => true
  end.

(** [typeof v === 'object'] *)
Definition typeof_object (v : value) : bool :=
  match v with
  | VNull | VArr _ | VObj _ => true
  | _ => false
  end.

(** [Array.isArray(v)] *)
Definition isArray (v : value) : bool :=
  match v with VArr _ => true | _ => false end.

Definition nullish (v : value) : bool :=
  match v with VUndefined | VNull => true | _ => false end.

Fixpoint chars (s : string) : list value :=
  match s with
  | EmptyString => []
  | String c s' => VStr (String c EmptyString) :: chars s'
  end.

(** [v[k]] for a [v] that is neither null nor undefined.  Only own properties
    are modelled: the keys the script reads name no member of a prototype. *)
Definition get_own (v : value) (k : string) : value :=
  match v with
  | VObj o => match lookup k o with Some x => x | None => VUndefined end
  | VArr xs =>
      if String.eqb k "length" then VNum (Z.of_nat (List.length xs))
      else match array_index k with
           | Some n => nth (N.to_nat n) xs VUndefined
           | None => VUndefined
           end
  | VStr s =>
      if String.eqb k "length" then VNum (Z.of_nat (String.length s))
      else match array_index k with
           | Some n => nth (N.to_nat n) (chars s) VUndefined
           | None => VUndefined
           end
  | _ => VUndefined
  end.

(** [v.k], [v[k]] *)
Definition get_prop (v : value) (k : string) : outcome value :=
  if nullish v then TypeError else Ok (get_own v k).

(** [v?.[k]] *)
Definition get_opt (v : value) (k : string) : value :=
  if nullish v then VUndefined else get_own v k.

(** [k in v], for a [v] with [typeof v === 'object'] that is not null. *)
Definition has_property (k : string) (v : value) : bool :=
  match v with
  | VObj o => has_own k o
  | VArr xs =>
      String.eqb k "length"
      || match array_index k with
         | Some n => (N.to_nat n <? List.length xs)%nat
         | None => false
         end
  | _ => false
  end.

(** [Object.keys(v)] for a [v] with [typeof v === 'object'] that is not null. *)
Definition object_keys (v : value) : list string :=
  match v with
  | VObj o => keys o
  | VArr xs => map dec_of_nat (seq 0 (List.length xs))
  | _ => []
  end.

(** [v.k = x].  Assigning to a property of a number, string or boolean does
    nothing outside strict mode; a named property on an array has no
    counterpart in [value]. *)
Definition set_prop (v : value) (k : string) (x : value) : outcome value :=
  match v with
  | VObj o => Ok (VObj (obj_set k x o))
  | VUndefined | VNull => TypeError
  | VArr _ => Unmodelled
  | _ => Ok v
  end.

(** [{ ...v, k: x }] *)
Definition spread_with (v : value) (k : string) (x : value) : value :=
  let copy := match v with
              | VObj o => fold_left (fun acc kv => obj_set (fst kv) (snd kv) acc) o []
              | VArr xs =>
                  fold_left (fun acc kv => obj_set (fst kv) (snd kv) acc)
                            (combine (map dec_of_nat (seq 0 (List.length xs))) xs) []
              | VStr s =>
                  fold_left (fun acc kv => obj_set (fst kv) (snd kv) acc)
                            (combine (map dec_of_nat (seq 0 (String.length s))) (chars s)) []
              | _ => []
              end in
  VObj (obj_set k x copy).

(** [for (const x of v)]: arrays and strings are iterable. *)
Definition iterate (v : value) : outcome (list value) :=
  match v with
  | VArr xs => Ok xs
  | VStr s => Ok (chars s)
  | _ => TypeError
  end.

(** The values [v[0], ..., v[v.length - 1]] that
    [for (let i = 0; i < v.length; i++)] visits, for a [v] that is neither
    null nor undefined.  The comparison [i < v.length] converts the length to
    a number: [true] counts as one, [false], null and undefined let the loop
    end at once, and so does an object, which becomes not-a-number, unless it
    has a [toString] of its own, which nothing read from JSON can be called
    as: then the comparison throws.  A [length] that is a string or an array
    would be parsed as a number; that is not modelled. *)
Definition indexed (v : value) : outcome (list value) :=
  match v with
  | VArr xs => Ok xs
  | VStr s => Ok (chars s)
  | VObj o =>
      match get_own v "length" with
      | VNum n => Ok (map (fun i => get_own v (dec_of_nat i)) (seq 0 (Z.to_nat n)))
      | VBool true => Ok [get_own v "0"]
      | VStr _ | VArr _ => Unmodelled
      | VObj len => if has_own "toString" len then TypeError else Ok []
      | _ => Ok []
      end
  | _ => Ok []
  end.

(** The text of [`${v}`] where the conversion returns and the number, if
    [v] is one, is an integer that a JavaScript number holds exactly (below
    2^53 in absolute value). *)
Fixpoint to_string (v : value) : string :=
  match v with
  | VUndefined => "undefined"
  | VNull => "null"
  | VBool true => "true"
  | VBool false => "false"
  | VNum n => dec_of_Z n
  | VStr s => s
  | VArr xs =>
      (fix join (first : bool) (l : list value) : string :=
         match l with
         | [] => ""
         | x :: l' =>
             ((if first then "" else ",")
                ++ (if nullish x then "" else to_string x)
                ++ join false l')%string
         end) true xs
  | VObj _ => "[object Object]"
  end.

(** A value a template literal turns into the text [to_string] gives: an
    integer below 2^53 in absolute value (beyond, a JavaScript number prints
    the shortest digits that read back as the same number, not all of them),
    a string, a boolean, null, undefined, an object without a [toString] of
    its own, or an array of such values. *)
Fixpoint printable (v : value) : bool :=
  match v with
  | VNum n => (Z.abs n <? 2 ^ 53)%Z
  | VArr xs =>
      (fix all (l : list value) : bool :=
         match l with
         | [] => true
         | x :: l' => printable x && all l'
         end) xs
  | VObj o => negb (has_own "toString" o)
  | _ => true
  end.

(** A value whose conversion to a string throws: an object with a [toString]
    of its own, which no value read from JSON can be called as, alone or in
    an array. *)
Fixpoint unprintable_object (v : value) : bool :=
  match v with
  | VObj o => has_own "toString" o
  | VArr xs =>
      (fix any (l : list value) : bool :=
         match l with
         | [] => false
         | x :: l' => unprintable_object x || any l'
         end) xs
  | _ => false
  end.

(** [`${v}`], where it may throw. *)
Definition template (v : value) : outcome string :=
  if printable v then Ok (to_string v)
  else if unprintable_object v then TypeError
       else Unmodelled.

(* ------------------------------------------------------------------------- *)
(** ** CONFIGURATION *)

Record Config : Type := {
  required_client : list string;
  required_pregnancy : list string;
  required_birth : list string;
  whitelist_client : list string;
  whitelist_pregnancy : list string;
  whitelist_birth : list string;
  whitelist_child : list string;
  whitelist_careAfter : list string;
  whitelist_careAfterPhone : list string;
  dataEncr_pregnancy : list string;
  dataEncr_birth : list string;
  dataEncr_child : list string;
  dataEncr_careAfter : list string;
  dataEncr_careAfterDynamicPatterns : list string
}.

(* ------------------------------------------------------------------------- *)
(** ** HELPER FUNCTIONS *)

(** Pick only specified properties from an object. *)
Definition pickProperties (obj : value) (keys : list string) : value :=
  if (negb (truthy obj) || negb (typeof_object obj))%bool then obj
  else VObj (fold_left
               (fun result key =>
                  if has_property key obj then obj_set key (get_own obj key) result
                  else result)
               keys []).

(** [pattern.replace(pat, by)]: the first occurrence only. *)
Fixpoint starts_with (p s : string) : option string :=
  match p, s with
  | EmptyString, _ => Some s
  | String a p', String b s' => if Ascii.eqb a b then starts_with p' s' else None
  | String _ _, EmptyString => None
  end.

Fixpoint replace_first (pat by_ s : string) : string :=
  match starts_with pat s with
  | Some rest => (by_ ++ rest)%string
  | None =>
      match s with
      | EmptyString => EmptyString
      | String c s' => String c (replace_first pat by_ s')
      end
  end.

(** The regular expressions the script builds: literal characters and
    backslash-d-plus (one or more decimal digits), matched against the whole
    key. *)
Definition backslash : ascii := "092"%char.

Inductive atom : Type :=
| ALit (c : ascii)
| ADigits.

Definition is_digit (c : ascii) : bool :=
  let n := nat_of_ascii c in ((48 <=? n) && (n <=? 57))%nat.

(** Characters with a meaning of their own in a pattern. *)
Definition is_meta (c : ascii) : bool :=
  existsb (Ascii.eqb c)
    [backslash; "^"; "$"; "."; "*"; "+"; "?"; "("; ")"; "["; "]"; "{"; "}"; "|"]%char.

(** The body of [new RegExp(`^${body}$`)]; [None] outside the fragment. *)
Fixpoint parse_regex (body : string) : option (list atom) :=
  match body with
  | EmptyString => Some []
  | String c rest =>
      if Ascii.eqb c backslash then
        match rest with
        | String "d"%char (String "+"%char rest') =>
            match parse_regex rest' with
            | Some r => Some (ADigits :: r)
            | None => None
            end
        | _ => None
        end
      else if is_meta c then None
      else match parse_regex rest with
           | Some r => Some (ALit c :: r)
           | None => None
           end
  end.

(** [regex.test(key)] for the anchored expression [^r$]. *)
Fixpoint regex_test (r : list atom) (key : string) {struct key} : bool :=
  match r, key with
  | [], EmptyString => true
  | [], String _ _ => false
  | _ :: _, EmptyString => false
  | ALit c :: r', String a key' => Ascii.eqb a c && regex_test r' key'
  | ADigits :: r', String a key' =>
      is_digit a && (regex_test r key' || regex_test r' key')
  end.

(** Check if a key matches a dynamic pattern like 'kind-{id}-nahrung'. *)
Definition matchesDynamicPattern (key pattern : string) : outcome bool :=
  let regexPattern := replace_first "{id}" (String backslash "d+") pattern in
  match parse_regex regexPattern with
  | Some regex => Ok (regex_test regex key)
  | None => Unmodelled
  end.

(** Filter data_encr object, keeping only allowed keys; [dynamicPatterns]
    defaults to null. *)
Definition filterDataEncr (dataEncr : value) (allowedKeys : list string)
    (dynamicPatterns : option (list string)) : outcome value :=
  if (negb (truthy dataEncr) || negb (typeof_object dataEncr))%bool then Ok dataEncr
  else
    result <- foldM
      (fun result key =>
         if mem key allowedKeys then Ok (obj_set key (get_own dataEncr key) result)
         else
           hit <- match dynamicPatterns with
                  | Some patterns =>
                      someM (fun pattern => matchesDynamicPattern key pattern) patterns
                  | None => Ok false
                  end ;;
           if hit then Ok (obj_set key (get_own dataEncr key) result)
           else Ok result)
      [] (object_keys dataEncr) ;;
    Ok (VObj result).

(** Check if a value is valid (not null, not undefined, and if array - not
    empty). *)
Definition isValidValue (value_ : value) (checkNonEmptyArray : bool) : bool :=
  if nullish value_ then false
  else if (checkNonEmptyArray && isArray value_
           && match value_ with VArr xs => (List.length xs =? 0)%nat | _ => false end)%bool
       then false
       else true.

(* ------------------------------------------------------------------------- *)
(** ** VALIDATION FUNCTIONS *)

Module Entity.
Record result : Type := { valid : bool; missingField : option string }.
End Entity.

Record validation : Type := { valid : bool; reason : option string }.

(** Validate a single entity against its required fields. *)
Fixpoint validateEntity (entity : value) (requiredFields : list string)
    (checkArrayNonEmpty : bool) : Entity.result :=
  match requiredFields with
  | [] => {| Entity.valid := true; Entity.missingField := None |}
  | field :: rest =>
      let value_ := get_opt entity field in
      if negb (isValidValue value_ checkArrayNonEmpty)
      then {| Entity.valid := false; Entity.missingField := Some field |}
      else validateEntity entity rest checkArrayNonEmpty
  end.

(* ------------------------------------------------------------------------- *)
(** ** FILTER FUNCTIONS *)

(** [if (filtered.k) { filtered.k = f(filtered.k) }] *)
Definition update_truthy (filtered : value) (k : string)
    (f : value -> outcome value) : outcome value :=
  x <- get_prop filtered k ;;
  if truthy x then y <- f x ;; set_prop filtered k y
  else Ok filtered.

(** [if (filtered.k && Array.isArray(filtered.k)) { filtered.k = filtered.k.map(f) }] *)
Definition update_array (filtered : value) (k : string)
    (f : value -> outcome value) : outcome value :=
  x <- get_prop filtered k ;;
  if (truthy x && isArray x)%bool then
    match x with
    | VArr xs => ys <- mapM f xs ;; set_prop filtered k (VArr ys)
    | _ => Ok filtered
    end
  else Ok filtered.

Section Filters.

Variable CONFIG : Config.

Definition filterCareAfterPhone (careAfterPhone : value) : outcome value :=
  Ok (pickProperties careAfterPhone (whitelist_careAfterPhone CONFIG)).

Definition filterCareAfter (careAfter : value) : outcome value :=
  let filtered := pickProperties careAfter (whitelist_careAfter CONFIG) in
  update_truthy filtered "data_encr"
    (fun d => filterDataEncr d (dataEncr_careAfter CONFIG)
                (Some (dataEncr_careAfterDynamicPatterns CONFIG))).

Definition filterChild (child : value) : outcome value :=
  let filtered := pickProperties child (whitelist_child CONFIG) in
  update_truthy filtered "data_encr"
    (fun d => filterDataEncr d (dataEncr_child CONFIG) None).

Definition filterBirth (birth : value) : outcome value :=
  if negb (truthy birth) then Ok VNull
  else
    let filtered := pickProperties birth (whitelist_birth CONFIG) in
    filtered <- update_truthy filtered "data_encr"
                  (fun d => filterDataEncr d (dataEncr_birth CONFIG) None) ;;
    update_array filtered "children" filterChild.

Definition filterPregnancy (pregnancy : value) : outcome value :=
  let filtered := pickProperties pregnancy (whitelist_pregnancy CONFIG) in
  filtered <- update_truthy filtered "data_encr"
                (fun d => filterDataEncr d (dataEncr_pregnancy CONFIG) None) ;;
  filtered <- update_truthy filtered "birth" filterBirth ;;
  filtered <- update_array filtered "cares_after" filterCareAfter ;;
  update_array filtered "cares_after_phone" filterCareAfterPhone.

Definition filterClient (client : value) : outcome value :=
  let filtered := pickProperties client (whitelist_client CONFIG) in
  update_array filtered "pregnancies" filterPregnancy.

End Filters.

Module SkippedClient.
Record t : Type := { id : value; reason : option string }.
End SkippedClient.

Module SkippedPregnancy.
Record t : Type :=
  { clientId : value; pregnancyId : value; reason : option string }.
End SkippedPregnancy.

(* ------------------------------------------------------------------------- *)
(** ** The strict variant: whole-client rejection *)

Module Strict.

Definition CONFIG : Config := {|
  required_client := ["pregnancies"];
  required_pregnancy := ["birth"];
  required_birth := ["children"];
  whitelist_client := ["id"; "pregnancies"];
  whitelist_pregnancy :=
    ["id"; "id_client"; "data_encr"; "expected_birth_date";
     "birth"; "cares_after"; "cares_after_phone"];
  whitelist_birth := ["id"; "id_pregnancy"; "data_encr"; "children"];
  whitelist_child :=
    ["id"; "id_birth"; "date_birth"; "data_encr";
     "created_at"; "updated_at"; "deleted_at";
     "created_by"; "updated_by"; "in_dashboard";
     "pregnancy_id"; "client_id"];
  whitelist_careAfter := ["id"; "id_pregnancy"; "data_encr"; "date_start"; "date_end"];
  whitelist_careAfterPhone :=
    ["id"; "id_user"; "id_pregnancy"; "date_start"; "date_end"; "is_breast_feeding"];
  dataEncr_pregnancy := ["fields-type"; "egt"; "grav"; "para"; "stillwunsch"];
  dataEncr_birth :=
    ["fields-type"; "geburts-modus"; "blutverlust"; "mother-entlassungdatum"];
  dataEncr_child := ["fields-type"; "birth_date"; "birth_time"];
  dataEncr_careAfter :=
    ["stillt"; "child-tab"; "ibds-left"; "ibds-right";
     "care_length"; "is_first_care"; "laktierend-left"; "laktierend-right";
     "regelrechtes-wochenbett"];
  dataEncr_careAfterDynamicPatterns :=
    ["kind-{id}-nahrung"; "kind-{id}-physiologisches-neugeborenes"]
|}.

Definition missing_msg (entity field table : string) : string :=
  ("Missing required field '" ++ entity ++ "." ++ field
     ++ "' (defined in CONFIG.required." ++ table ++ ")")%string.

(** The body of the loop over [client.pregnancies] for the pregnancy at
    index [i]: [Some r] when it returns from [validateClient].  The reason is
    a template that prints the id of the pregnancy, and throws when the id
    has no text. *)
Definition check_pregnancy (i : nat) (pregnancy : value) : outcome (option validation) :=
  let pregnancyValidation :=
    validateEntity pregnancy (required_pregnancy CONFIG) false in
  if negb (Entity.valid pregnancyValidation) then
    pid <- get_prop pregnancy "id" ;;
    shown <- template pid ;;
    Ok (Some {| valid := false;
                reason := Some ("Pregnancy[" ++ dec_of_nat i ++ "] (id: "
                                  ++ shown ++ "): "
                                  ++ missing_msg "pregnancy"
                                       (match Entity.missingField pregnancyValidation with
                                        | Some f => f | None => "null" end)
                                       "pregnancy")%string |})
  else
    birth <- get_prop pregnancy "birth" ;;
    if truthy birth then
      let birthValidation := validateEntity birth (required_birth CONFIG) true in
      if negb (Entity.valid birthValidation) then
        pid <- get_prop pregnancy "id" ;;
        shown <- template pid ;;
        Ok (Some {| valid := false;
                    reason := Some ("Pregnancy[" ++ dec_of_nat i ++ "] (id: "
                                      ++ shown ++ "): "
                                      ++ missing_msg "birth"
                                           (match Entity.missingField birthValidation with
                                            | Some f => f | None => "null" end)
                                           "birth")%string |})
      else Ok None
    else Ok None.

Fixpoint check_pregnancies (i : nat) (ps : list value) : outcome validation :=
  match ps with
  | [] => Ok {| valid := true; reason := None |}
  | pregnancy :: rest =>
      r <- check_pregnancy i pregnancy ;;
      match r with
      | Some v => Ok v
      | None => check_pregnancies (S i) rest
      end
  end.

(** Validate a client object against required fields defined in
    CONFIG.required. *)
Definition validateClient (client : value) : outcome validation :=
  let clientValidation := validateEntity client (required_client CONFIG) true in
  if negb (Entity.valid clientValidation) then
    Ok {| valid := false;
          reason := Some (missing_msg "client"
                            (match Entity.missingField clientValidation with
                             | Some f => f | None => "null" end)
                            "client") |}
  else
    pregnancies <- get_prop client "pregnancies" ;;
    ps <- (if nullish pregnancies then TypeError else indexed pregnancies) ;;
    check_pregnancies 0 ps.

Record results : Type := {
  totalClients : nat;
  successCount : nat;
  skippedCount : nat;
  skippedClients : list SkippedClient.t
}.

(** One turn of the loop of [processData]. *)
Definition process_client (st : list value * results) (client : value)
  : outcome (list value * results) :=
  let (outputData, res) := st in
  validation <- validateClient client ;;
  if valid validation then
    filteredClient <- filterClient CONFIG client ;;
    Ok (outputData ++ [filteredClient],
        {| totalClients := totalClients res;
           successCount := S (successCount res);
           skippedCount := skippedCount res;
           skippedClients := skippedClients res |})
  else
    cid <- get_prop client "id" ;;
    Ok (outputData,
        {| totalClients := totalClients res;
           successCount := successCount res;
           skippedCount := S (skippedCount res);
           skippedClients :=
             skippedClients res
               ++ [{| SkippedClient.id := cid;
                      SkippedClient.reason := reason validation |}] |}).

Definition processData (inputData : value) : outcome (list value * results) :=
  match inputData with
  | VArr clients =>
      foldM process_client
            ([], {| totalClients := List.length clients;
                    successCount := 0;
                    skippedCount := 0;
                    skippedClients := [] |})
            clients
  | _ => Exit1
  end.

End Strict.

(* ------------------------------------------------------------------------- *)
(** ** The salvage variant: per-pregnancy rejection *)

Module Salvage.

Definition CONFIG : Config := {|
  required_client := ["pregnancies"];
  required_pregnancy := ["birth"; "cares_after"; "cares_after_phone"];
  required_birth := ["children"];
  whitelist_client := ["id"; "pregnancies"];
  whitelist_pregnancy :=
    ["id"; "id_client"; "data_encr"; "expected_birth_date";
     "birth"; "cares_after"; "cares_after_phone"];
  whitelist_birth := ["id"; "id_pregnancy"; "data_encr"; "children"];
  whitelist_child :=
    ["id"; "id_birth"; "date_birth"; "data_encr";
     "created_at"; "updated_at"; "deleted_at";
     "created_by"; "updated_by"; "in_dashboard";
     "pregnancy_id"; "client_id"];
  whitelist_careAfter := ["id"; "id_pregnancy"; "data_encr"; "date_start"; "date_end"];
  whitelist_careAfterPhone :=
    ["id"; "id_user"; "id_pregnancy"; "date_start"; "date_end"; "is_breast_feeding"];
  dataEncr_pregnancy := ["fields-type"; "egt"; "grav"; "para"; "stillwunsch"];
  dataEncr_birth :=
    ["fields-type"; "geburts-modus"; "blutverlust"; "mother-entlassungdatum"];
  dataEncr_child := ["fields-type"; "birth_date"; "birth_time"];
  dataEncr_careAfter :=
    ["stillt"; "child-tab"; "ibds-left"; "ibds-right";
     "care_length"; "is_first_care"; "laktierend-left"; "laktierend-right";
     "regelrechtes-wochenbett"];
  dataEncr_careAfterDynamicPatterns :=
    ["kind-{id}-nahrung"; "kind-{id}-physiologisches-neugeborenes"]
|}.

Definition missing_msg (entity field table : string) : string :=
  ("Missing required field '" ++ entity ++ "." ++ field
     ++ "' (defined in CONFIG.required." ++ table ++ ")")%string.

(** Validate a single pregnancy against required fields defined in
    CONFIG.required. *)
Definition validatePregnancy (pregnancy : value) : outcome validation :=
  let pregnancyValidation :=
    validateEntity pregnancy (required_pregnancy CONFIG) true in
  if negb (Entity.valid pregnancyValidation) then
    Ok {| valid := false;
          reason := Some (missing_msg "pregnancy"
                            (match Entity.missingField pregnancyValidation with
                             | Some f => f | None => "null" end)
                            "pregnancy") |}
  else
    birth <- get_prop pregnancy "birth" ;;
    if truthy birth then
      let birthValidation := validateEntity birth (required_birth CONFIG) true in
      if negb (Entity.valid birthValidation) then
        Ok {| valid := false;
              reason := Some (missing_msg "birth"
                                (match Entity.missingField birthValidation with
                                 | Some f => f | None => "null" end)
                                "birth") |}
      else Ok {| valid := true; reason := None |}
    else Ok {| valid := true; reason := None |}.

(** Validate a client object against required fields defined in
    CONFIG.required. *)
Definition validateClient (client : value) : validation :=
  let clientValidation := validateEntity client (required_client CONFIG) true in
  if negb (Entity.valid clientValidation) then
    {| valid := false;
       reason := Some (missing_msg "client"
                         (match Entity.missingField clientValidation with
                          | Some f => f | None => "null" end)
                         "client") |}
  else {| valid := true; reason := None |}.

Record results : Type := {
  totalClients : nat;
  successCount : nat;
  skippedClientsCount : nat;
  skippedClients : list SkippedClient.t;
  skippedPregnanciesCount : nat;
  skippedPregnancies : list SkippedPregnancy.t
}.

(** One turn of the loop over [client.pregnancies]. *)
Definition process_pregnancy (client : value) (st : list value * results)
    (pregnancy : value) : outcome (list value * results) :=
  let (validPregnancies, res) := st in
  pregnancyValidation <- validatePregnancy pregnancy ;;
  if valid pregnancyValidation then Ok (validPregnancies ++ [pregnancy], res)
  else
    cid <- get_prop client "id" ;;
    pid <- get_prop pregnancy "id" ;;
    Ok (validPregnancies,
        {| totalClients := totalClients res;
           successCount := successCount res;
           skippedClientsCount := skippedClientsCount res;
           skippedClients := skippedClients res;
           skippedPregnanciesCount := S (skippedPregnanciesCount res);
           skippedPregnancies :=
             skippedPregnancies res
               ++ [{| SkippedPregnancy.clientId := cid;
                      SkippedPregnancy.pregnancyId := pid;
                      SkippedPregnancy.reason := reason pregnancyValidation |}] |}).

Definition skip_client (res : results) (cid : value) (why : option string) : results :=
  {| totalClients := totalClients res;
     successCount := successCount res;
     skippedClientsCount := S (skippedClientsCount res);
     skippedClients :=
       skippedClients res
         ++ [{| SkippedClient.id := cid; SkippedClient.reason := why |}];
     skippedPregnanciesCount := skippedPregnanciesCount res;
     skippedPregnancies := skippedPregnancies res |}.

(** One turn of the loop of [processData]. *)
Definition process_client (st : list value * results) (client : value)
  : outcome (list value * results) :=
  let (outputData, res) := st in
  let clientValidation := validateClient client in
  if negb (valid clientValidation) then
    cid <- get_prop client "id" ;;
    Ok (outputData, skip_client res cid (reason clientValidation))
  else
    pregnancies <- get_prop client "pregnancies" ;;
    ps <- iterate pregnancies ;;
    st' <- foldM (process_pregnancy client) ([], res) ps ;;
    let (validPregnancies, res') := st' in
    if (List.length validPregnancies =? 0)%nat then
      cid <- get_prop client "id" ;;
      Ok (outputData,
          skip_client res' cid (Some "No valid pregnancies remaining after validation"))
    else
      let clientWithValidPregnancies :=
        spread_with client "pregnancies" (VArr validPregnancies) in
      filteredClient <- filterClient CONFIG clientWithValidPregnancies ;;
      Ok (outputData ++ [filteredClient],
          {| totalClients := totalClients res';
             successCount := S (successCount res');
             skippedClientsCount := skippedClientsCount res';
             skippedClients := skippedClients res';
             skippedPregnanciesCount := skippedPregnanciesCount res';
             skippedPregnancies := skippedPregnancies res' |}).

Definition processData (inputData : value) : outcome (list value * results) :=
  match inputData with
  | VArr clients =>
      foldM process_client
            ([], {| totalClients := List.length clients;
                    successCount := 0;
                    skippedClientsCount := 0;
                    skippedClients := [];
                    skippedPregnanciesCount := 0;
                    skippedPregnancies := [] |})
            clients
  | _ => Exit1
  end.

End Salvage.

(* ------------------------------------------------------------------------- *)
(** ** Vocabulary of the properties *)

(** No character of [s] has a meaning of its own in a pattern. *)
Fixpoint plain (s : string) : bool :=
  match s with
  | EmptyString => true
  | String c s' => negb (is_meta c) && plain s'
  end.

Fixpoint all_digits (s : string) : bool :=
  match s with
  | EmptyString => true
  | String c s' => is_digit c && all_digits s'
  end.

Fixpoint lits (s : string) : list atom :=
  match s with
  | EmptyString => []
  | String c s' => ALit c :: lits s'
  end.


(** The pattern test as a boolean: a pattern outside the modelled fragment
    counts as no match. *)
Definition matches_key (key pattern : string) : bool :=
  match matchesDynamicPattern key pattern with
  | Ok b => b
  | _ => false
  end.

(** The keys [filterDataEncr] retains. *)
Definition kept (allowedKeys : list string) (dynamicPatterns : option (list string))
    (key : string) : bool :=
  mem key allowedKeys
  || match dynamicPatterns with
     | Some patterns => existsb (matches_key key) patterns
     | None => false
     end.

(** Every pattern is in the modelled fragment. *)
Definition patterns_ok (dynamicPatterns : option (list string)) : bool :=
  match dynamicPatterns with
  | Some patterns =>
      forallb (fun pattern =>
                 match parse_regex (replace_first "{id}" (String backslash "d+") pattern) with
                 | Some _ => true
                 | None => false
                 end) patterns
  | None => true
  end.


(** [k] is an array index below [n]. *)
Definition index_below (n : N) (k : string) : Prop :=
  exists n', array_index k = Some n' /\ (n' < n)%N.


(** A key that is neither [length] nor an array index: arrays, strings,
    numbers and booleans have no own property of that name. *)
Definition named (k : string) : bool :=
  negb (String.eqb k "length")
  && match array_index k with Some _ => false | None => true end.



Definition each (P : value -> bool) (v : value) : bool :=
  match v with
  | VArr xs => forallb P xs
  | _ => true
  end.


Section Closure.

Variable CONFIG : Config.










End Closure.


(** The body of the loop of [pickProperties]. *)
Definition pick_step (v : value) (result : obj) (key : string) : obj :=
  if has_property key v then obj_set key (get_own v key) result else result.


(* ------------------------------------------------------------------------- *)
(** ** Sample records *)

Module Sample.

Definition careAfter : value :=
  VObj [("id", VNum 7); ("visitor", VStr "M");
        ("data_encr",
         VObj [("stillt", VBool true); ("kind-5-nahrung", VStr "x");
               ("kind-5-unknown", VStr "y")])].

Definition child : value :=
  VObj [("id", VNum 1000); ("name", VStr "Bo");
        ("data_encr", VObj [("birth_time", VStr "09:00"); ("weight", VNum 3)])].

Definition birth : value :=
  VObj [("id", VNum 100); ("place", VStr "home"); ("children", VArr [child])].

(** A complete pregnancy. *)
Definition pregnancy : value :=
  VObj [("id", VNum 10); ("note", VStr "n"); ("birth", birth);
        ("cares_after", VArr [careAfter]);
        ("cares_after_phone", VArr [VObj [("id", VNum 3); ("caller", VStr "K")]])].

(** A pregnancy without after-care visits. *)
Definition pregnancy_no_care : value :=
  VObj [("id", VNum 11); ("birth", birth);
        ("cares_after_phone", VArr [VObj [("id", VNum 4)]])].

Definition client : value :=
  VObj [("id", VNum 1); ("name", VStr "Ann");
        ("pregnancies", VArr [pregnancy; pregnancy_no_care])].

Definition client_no_pregnancies : value :=
  VObj [("id", VNum 2); ("pregnancies", VArr [])].

(** A client whose [pregnancies] is a plain object. *)
Definition client_object_pregnancies : value :=
  VObj [("id", VNum 3); ("name", VStr "Cy"); ("pregnancies", VObj [])].

(** A client with a pregnancy that has no birth. *)
Definition client_missing_birth : value :=
  VObj [("id", VNum 4);
        ("pregnancies", VArr [pregnancy; VObj [("id", VNum 12); ("birth", VNull)]])].

Definition pregnancy_filtered : value :=
  VObj [("id", VNum 10);
        ("birth",
         VObj [("id", VNum 100);
               ("children",
                VArr [VObj [("id", VNum 1000);
                            ("data_encr", VObj [("birth_time", VStr "09:00")])]])]);
        ("cares_after",
         VArr [VObj [("id", VNum 7);
                     ("data_encr",
                      VObj [("stillt", VBool true); ("kind-5-nahrung", VStr "x")])]]);
        ("cares_after_phone", VArr [VObj [("id", VNum 3)]])].

Definition pregnancy_no_care_filtered : value :=
  VObj [("id", VNum 11);
        ("birth",
         VObj [("id", VNum 100);
               ("children",
                VArr [VObj [("id", VNum 1000);
                            ("data_encr", VObj [("birth_time", VStr "09:00")])]])]);
        ("cares_after_phone", VArr [VObj [("id", VNum 4)]])].

Definition client_filtered : value :=
  VObj [("id", VNum 1);
        ("pregnancies", VArr [pregnancy_filtered; pregnancy_no_care_filtered])].

Definition dataset : list value := [client; client_no_pregnancies].

End Sample.


(** Running [f] on what it returned changes nothing. *)
Definition idempotentM (f : value -> outcome value) : Prop :=
  forall x y, f x = Ok y -> f y = Ok y.

(** [b] is [a] itself or, when [a] is an object, an object with the keys of
    [a] in the same order. *)
Definition same_keys (a b : value) : Prop :=
  (forall o, a = VObj o -> exists o', b = VObj o' /\ keys o' = keys o)
  /\ ((forall o, a <> VObj o) -> b = a).

(** Field [k] of [z] is already what [update_truthy], respectively
    [update_array], would put there. *)
Definition fixed_truthy (k : string) (f : value -> outcome value) (z : value) : Prop :=
  truthy (get_opt z k) = true -> f (get_opt z k) = Ok (get_opt z k).

Definition fixed_array (k : string) (f : value -> outcome value) (z : value) : Prop :=
  forall xs, get_opt z k = VArr xs -> mapM f xs = Ok xs.


(** The test [filterDataEncr] applies to a key. *)
Definition keep_test (allowedKeys : list string)
    (dynamicPatterns : option (list string)) (key : string) : outcome bool :=
  if mem key allowedKeys then Ok true
  else match dynamicPatterns with
       | Some patterns => someM (fun pattern => matchesDynamicPattern key pattern) patterns
       | None => Ok false
       end.


(* ------------------------------------------------------------------------- *)
(** ** Validity of clients and pregnancies, stated on the records *)

(** What the strict loop accepts in one pregnancy: a [birth] that is not
    null or undefined and, when that birth is truthy, [children] that is
    neither null, undefined nor an empty array. *)
Definition pregnancy_ok_strict (p : value) : bool :=
  isValidValue (get_opt p "birth") false
  && (if truthy (get_opt p "birth")
      then isValidValue (get_opt (get_opt p "birth") "children") true
      else true).

Definition client_ok_strict (client : value) : bool :=
  isValidValue (get_opt client "pregnancies") true
  && match indexed (get_own client "pregnancies") with
     | Ok ps => forallb pregnancy_ok_strict ps
     | _ => false
     end.

(** The reading with arrays only: [pregnancies] is a non-empty array, every
    pregnancy has a [birth] that is not null, and a present [birth] has a
    non-empty array of [children]. *)
Definition nonempty_array (v : value) : bool :=
  match v with
  | VArr (_ :: _) => true
  | _ => false
  end.

Definition pregnancy_ok_arrays_only (p : value) : bool :=
  negb (nullish (get_opt p "birth"))
  && nonempty_array (get_opt (get_opt p "birth") "children").

Definition client_ok_arrays_only (client : value) : bool :=
  match get_opt client "pregnancies" with
  | VArr (p :: ps) => forallb pregnancy_ok_arrays_only (p :: ps)
  | _ => false
  end.

(** What the salvage variant accepts in one pregnancy. *)
Definition pregnancy_ok_salvage (p : value) : bool :=
  isValidValue (get_opt p "birth") true
  && isValidValue (get_opt p "cares_after") true
  && isValidValue (get_opt p "cares_after_phone") true
  && (if truthy (get_opt p "birth")
      then isValidValue (get_opt (get_opt p "birth") "children") true
      else true).


(** The record shapes of the data model, as far as the script relies on
    them: a client is an object as [JSON.parse] yields it, its [pregnancies],
    when present and not null, an array; no entry of [pregnancies], of a
    birth's [children] or of [cares_after] is null or undefined. *)
Definition entity (v : value) : bool := negb (nullish v).

Definition shaped_birth (b : value) : bool :=
  each entity (get_opt b "children").

Definition shaped_pregnancy (p : value) : bool :=
  entity p
  && shaped_birth (get_opt p "birth")
  && each entity (get_opt p "cares_after").

Definition shaped_client (client : value) : bool :=
  match client with
  | VObj o =>
      js_object o
      && match lookup "pregnancies" o with
         | Some (VArr ps) => forallb shaped_pregnancy ps
         | Some VNull | None => true
         | Some _ => false
         end
  | _ => false
  end.

(** The ids the strict variant prints: the reason it gives for a pregnancy
    that fails its check carries the id of that pregnancy, which must have a
    text. *)
Definition strict_reason_printable (p : value) : bool :=
  pregnancy_ok_strict p || printable (get_opt p "id").

Definition printable_ids (client : value) : bool :=
  each strict_reason_printable (get_opt client "pregnancies").

(** The pregnancies the salvage loop visits in a client: none when the
    client fails the client-level check. *)
Definition client_pregnancies (client : value) : list value :=
  if valid (Salvage.validateClient client) then
    match iterate (get_own client "pregnancies") with
    | Ok ps => ps
    | _ => []
    end
  else [].

Definition valid_pregnancies (client : value) : list value :=
  filter pregnancy_ok_salvage (client_pregnancies client).

Definition invalid_pregnancies (client : value) : list value :=
  filter (fun p => negb (pregnancy_ok_salvage p)) (client_pregnancies client).

(** The reasons the scripts give. *)
Definition reason_client_pregnancies : string :=
  "Missing required field 'client.pregnancies' (defined in CONFIG.required.client)".

Definition reason_pregnancy_field (field : string) : string :=
  ("Missing required field 'pregnancy." ++ field
     ++ "' (defined in CONFIG.required.pregnancy)")%string.

Definition reason_birth_children : string :=
  "Missing required field 'birth.children' (defined in CONFIG.required.birth)".

Definition reason_none_left : string :=
  "No valid pregnancies remaining after validation".

(** The reason the salvage variant gives for a pregnancy, in the words of
    the messages: the first of [birth], [cares_after] and [cares_after_phone]
    that is null, undefined or an empty array is reported as missing, then the
    [children] of a birth that is there; a pregnancy that passes has none. *)
Definition pregnancy_reason (p : value) : option string :=
  if negb (isValidValue (get_opt p "birth") true)
  then Some (reason_pregnancy_field "birth")
  else if negb (isValidValue (get_opt p "cares_after") true)
  then Some (reason_pregnancy_field "cares_after")
  else if negb (isValidValue (get_opt p "cares_after_phone") true)
  then Some (reason_pregnancy_field "cares_after_phone")
  else if (truthy (get_opt p "birth")
           && negb (isValidValue (get_opt (get_opt p "birth") "children") true))%bool
  then Some reason_birth_children
  else None.

(** The entry recorded for a skipped pregnancy. *)
Definition skipped_entry (client p : value) : SkippedPregnancy.t :=
  {| SkippedPregnancy.clientId := get_own client "id";
     SkippedPregnancy.pregnancyId := get_own p "id";
     SkippedPregnancy.reason := pregnancy_reason p |}.

Definition skipped_entries (client : value) : list SkippedPregnancy.t :=
  map (skipped_entry client) (invalid_pregnancies client).

(** The pregnancies held by an emitted client. *)
Definition out_pregnancies (filteredClient : value) : list value :=
  match get_own filteredClient "pregnancies" with
  | VArr ps => ps
  | _ => []
  end.

(** The statistics after recording skipped pregnancies, and after a
    success. *)
Definition add_skipped (res : Salvage.results) (entries : list SkippedPregnancy.t)
  : Salvage.results :=
  {| Salvage.totalClients := Salvage.totalClients res;
     Salvage.successCount := Salvage.successCount res;
     Salvage.skippedClientsCount := Salvage.skippedClientsCount res;
     Salvage.skippedClients := Salvage.skippedClients res;
     Salvage.skippedPregnanciesCount :=
       Salvage.skippedPregnanciesCount res + List.length entries;
     Salvage.skippedPregnancies := Salvage.skippedPregnancies res ++ entries |}.

Definition add_success (res : Salvage.results) : Salvage.results :=
  {| Salvage.totalClients := Salvage.totalClients res;
     Salvage.successCount := S (Salvage.successCount res);
     Salvage.skippedClientsCount := Salvage.skippedClientsCount res;
     Salvage.skippedClients := Salvage.skippedClients res;
     Salvage.skippedPregnanciesCount := Salvage.skippedPregnanciesCount res;
     Salvage.skippedPregnancies := Salvage.skippedPregnancies res |}.

(** The [id] property of an emitted client. *)
Definition id_part (o : obj) : obj :=
  match lookup "id" o with
  | Some v => [("id", v)]
  | None => []
  end.


(* ------------------------------------------------------------------------- *)
(** ** The same script over a store of objects

    To speak of mutation the objects need identities.  Here an object or an
    array is a cell of a store, a value refers to it by its location, a
    property assignment overwrites the cell, and [{}], [[]], [.map] and the
    spread allocate.  The functions below are the functions of the script
    once more, in this style. *)

Module Store.

Inductive hvalue : Type :=
| HUndefined
| HNull
| HBool (b : bool)
| HNum (n : Z)
| HStr (s : string)
| HRef (l : nat).

Inductive cell : Type :=
| CObj (ps : list (string * hvalue))
| CArr (xs : list hvalue).

Definition store : Type := list cell.

(** A computation reads and writes the store and may throw. *)
Definition M (A : Type) : Type := store -> outcome (A * store).

Definition ret {A} (a : A) : M A := fun s => Ok (a, s).

Definition mbind {A B} (m : M A) (f : A -> M B) : M B :=
  fun s => match m s with
           | Ok (a, s') => f a s'
           | TypeError => TypeError
           | Exit1 => Exit1
           | Unmodelled => Unmodelled
           end.

Definition lift {A} (o : outcome A) : M A :=
  fun s => match o with
           | Ok a => Ok (a, s)
           | TypeError => TypeError
           | Exit1 => Exit1
           | Unmodelled => Unmodelled
           end.

Definition throw {A} : M A := fun _ => TypeError.

Definition unmodelled {A} : M A := fun _ => Unmodelled.

Declare Scope store_scope.
Delimit Scope store_scope with store.
Notation "x <-- m ;; k" := (mbind m (fun x => k))
  (at level 61, m at next level, right associativity) : store_scope.
Notation "m ;;; k" := (mbind m (fun _ => k))
  (at level 61, right associativity) : store_scope.
Open Scope store_scope.

Fixpoint mapM {A B} (f : A -> M B) (xs : list A) : M (list B) :=
  match xs with
  | [] => ret []
  | x :: xs' => y <-- f x ;; ys <-- mapM f xs' ;; ret (y :: ys)
  end.

Fixpoint forM {A} (xs : list A) (f : A -> M unit) : M unit :=
  match xs with
  | [] => ret tt
  | x :: xs' => f x ;;; forM xs' f
  end.

Fixpoint foldM {A S} (f : S -> A -> M S) (s : S) (xs : list A) : M S :=
  match xs with
  | [] => ret s
  | x :: xs' => s' <-- f s x ;; foldM f s' xs'
  end.

(** Cells. *)
Definition alloc (c : cell) : M nat :=
  fun s => Ok (List.length s, s ++ [c]).

Definition read (l : nat) : M cell :=
  fun s => match nth_error s l with
           | Some c => Ok (c, s)
           | None => Unmodelled
           end.

Fixpoint put (l : nat) (c : cell) (s : store) : store :=
  match s, l with
  | [], _ => []
  | _ :: s', O => c :: s'
  | c' :: s', S l' => c' :: put l' c s'
  end.

Definition write (l : nat) (c : cell) : M unit :=
  fun s => match nth_error s l with
           | Some _ => Ok (tt, put l c s)
           | None => Unmodelled
           end.

(** Properties of an object cell, in own-key order. *)
Fixpoint lookup (k : string) (o : list (string * hvalue)) : option hvalue :=
  match o with
  | [] => None
  | (k', v) :: o' => if String.eqb k k' then Some v else lookup k o'
  end.

Definition has_own (k : string) (o : list (string * hvalue)) : bool :=
  match lookup k o with Some _ => true | None => false end.

Fixpoint obj_update (k : string) (v : hvalue) (o : list (string * hvalue))
  : list (string * hvalue) :=
  match o with
  | [] => []
  | (k', v') :: o' =>
      if String.eqb k k' then (k', v) :: o' else (k', v') :: obj_update k v o'
  end.

Fixpoint obj_insert_index (n : N) (k : string) (v : hvalue)
    (o : list (string * hvalue)) : list (string * hvalue) :=
  match o with
  | [] => [(k, v)]
  | (k', v') :: o' =>
      match array_index k' with
      | Some n' => if (n' <? n)%N then (k', v') :: obj_insert_index n k v o'
                   else (k, v) :: o
      | None => (k, v) :: o
      end
  end.

Definition obj_set (k : string) (v : hvalue) (o : list (string * hvalue))
  : list (string * hvalue) :=
  if has_own k o then obj_update k v o
  else match array_index k with
       | Some n => obj_insert_index n k v o
       | None => o ++ [(k, v)]
       end.

(** Operators. *)
Definition truthy (v : hvalue) : bool :=
  match v with
  | HUndefined | HNull => false
  | HBool b => b
  | HNum n => negb (n =? 0)%Z
  | HStr s => negb (String.eqb s "")
  | HRef _ => true
  end.

Definition typeof_object (v : hvalue) : bool :=
  match v with
  | HNull | HRef _ => true
  | _ => false
  end.

Definition nullish (v : hvalue) : bool :=
  match v with HUndefined | HNull => true | _ => false end.

Fixpoint chars (s : string) : list hvalue :=
  match s with
  | EmptyString => []
  | String c s' => HStr (String c EmptyString) :: chars s'
  end.

Definition isArray (v : hvalue) : M bool :=
  match v with
  | HRef l => c <-- read l ;; ret (match c with CArr _ => true | CObj _ => false end)
  | _ => ret false
  end.

Definition elements_of (k : string) (xs : list hvalue) : hvalue :=
  if String.eqb k "length" then HNum (Z.of_nat (List.length xs))
  else match array_index k with
       | Some n => nth (N.to_nat n) xs HUndefined
       | None => HUndefined
       end.

Definition get_own (v : hvalue) (k : string) : M hvalue :=
  match v with
  | HRef l =>
      c <-- read l ;;
      ret (match c with
           | CObj ps => match lookup k ps with Some x => x | None => HUndefined end
           | CArr xs => elements_of k xs
           end)
  | HStr s => ret (elements_of k (chars s))
  | _ => ret HUndefined
  end.

Definition get_prop (v : hvalue) (k : string) : M hvalue :=
  if nullish v then throw else get_own v k.

Definition get_opt (v : hvalue) (k : string) : M hvalue :=
  if nullish v then ret HUndefined else get_own v k.

Definition has_property (k : string) (v : hvalue) : M bool :=
  match v with
  | HRef l =>
      c <-- read l ;;
      ret (match c with
           | CObj ps => has_own k ps
           | CArr xs =>
               String.eqb k "length"
               || match array_index k with
                  | Some n => (N.to_nat n <? List.length xs)%nat
                  | None => false
                  end
           end)
  | _ => ret false
  end.

Definition object_keys (v : hvalue) : M (list string) :=
  match v with
  | HRef l =>
      c <-- read l ;;
      ret (match c with
           | CObj ps => map fst ps
           | CArr xs => map dec_of_nat (seq 0 (List.length xs))
           end)
  | _ => ret []
  end.

(** [v.k = x]: the cell of [v] is overwritten. *)
Definition set_prop (v : hvalue) (k : string) (x : hvalue) : M unit :=
  match v with
  | HRef l =>
      c <-- read l ;;
      match c with
      | CObj ps => write l (CObj (obj_set k x ps))
      | CArr _ => unmodelled
      end
  | HUndefined | HNull => throw
  | _ => ret tt
  end.

Definition iterate (v : hvalue) : M (list hvalue) :=
  match v with
  | HRef l =>
      c <-- read l ;;
      match c with
      | CArr xs => ret xs
      | CObj _ => throw
      end
  | HStr s => ret (chars s)
  | _ => throw
  end.

Definition indexed (v : hvalue) : M (list hvalue) :=
  match v with
  | HRef l =>
      c <-- read l ;;
      match c with
      | CArr xs => ret xs
      | CObj ps =>
          match lookup "length" ps with
          | Some (HNum n) =>
              ret (map (fun i => match lookup (dec_of_nat i) ps with
                                 | Some x => x
                                 | None => HUndefined
                                 end)
                       (seq 0 (Z.to_nat n)))
          | Some (HBool true) =>
              ret [match lookup "0" ps with Some x => x | None => HUndefined end]
          | Some (HStr _) => unmodelled
          | Some (HRef len) =>
              c' <-- read len ;;
              match c' with
              | CObj ps' => if has_own "toString" ps' then throw else ret []
              | CArr _ => unmodelled
              end
          | _ => ret []
          end
      end
  | HStr s => ret (chars s)
  | _ => ret []
  end.

(** [`${v}`]: it throws for an object with a [toString] of its own; joining
    an array and printing a number beyond 2^53 are left out here. *)
Definition template (v : hvalue) : M string :=
  match v with
  | HUndefined => ret "undefined"
  | HNull => ret "null"
  | HBool true => ret "true"
  | HBool false => ret "false"
  | HNum n => if (Z.abs n <? 2 ^ 53)%Z then ret (dec_of_Z n) else unmodelled
  | HStr s => ret s
  | HRef l =>
      c <-- read l ;;
      match c with
      | CObj ps => if has_own "toString" ps then throw else ret "[object Object]"
      | CArr _ => unmodelled
      end
  end.

(** HELPER FUNCTIONS *)

Definition pickProperties (obj : hvalue) (keys : list string) : M hvalue :=
  if (negb (truthy obj) || negb (typeof_object obj))%bool then ret obj
  else
    result <-- alloc (CObj []) ;;
    forM keys (fun key =>
                 present <-- has_property key obj ;;
                 if present then
                   x <-- get_own obj key ;; set_prop (HRef result) key x
                 else ret tt) ;;;
    ret (HRef result).

Definition filterDataEncr (dataEncr : hvalue) (allowedKeys : list string)
    (dynamicPatterns : option (list string)) : M hvalue :=
  if (negb (truthy dataEncr) || negb (typeof_object dataEncr))%bool then ret dataEncr
  else
    result <-- alloc (CObj []) ;;
    ks <-- object_keys dataEncr ;;
    forM ks (fun key =>
               if mem key allowedKeys then
                 x <-- get_own dataEncr key ;; set_prop (HRef result) key x
               else
                 hit <-- lift (match dynamicPatterns with
                               | Some patterns =>
                                   someM (fun pattern =>
                                            matchesDynamicPattern key pattern) patterns
                               | None => Ok false
                               end) ;;
                 if hit then
                   x <-- get_own dataEncr key ;; set_prop (HRef result) key x
                 else ret tt) ;;;
    ret (HRef result).

Definition isValidValue (value_ : hvalue) (checkNonEmptyArray : bool) : M bool :=
  if nullish value_ then ret false
  else
    arr <-- isArray value_ ;;
    len <-- (if arr then get_own value_ "length" else ret HUndefined) ;;
    if (checkNonEmptyArray && arr
        && match len with HNum n => (n =? 0)%Z | _ => false end)%bool
    then ret false
    else ret true.

Fixpoint validateEntity (entity : hvalue) (requiredFields : list string)
    (checkArrayNonEmpty : bool) : M Entity.result :=
  match requiredFields with
  | [] => ret {| Entity.valid := true; Entity.missingField := None |}
  | field :: rest =>
      value_ <-- get_opt entity field ;;
      ok <-- isValidValue value_ checkArrayNonEmpty ;;
      if negb ok
      then ret {| Entity.valid := false; Entity.missingField := Some field |}
      else validateEntity entity rest checkArrayNonEmpty
  end.

(** FILTER FUNCTIONS *)

Definition update_truthy (filtered : hvalue) (k : string)
    (f : hvalue -> M hvalue) : M unit :=
  x <-- get_prop filtered k ;;
  if truthy x then y <-- f x ;; set_prop filtered k y
  else ret tt.

Definition update_array (filtered : hvalue) (k : string)
    (f : hvalue -> M hvalue) : M unit :=
  x <-- get_prop filtered k ;;
  arr <-- isArray x ;;
  if (truthy x && arr)%bool then
    xs <-- iterate x ;;
    ys <-- mapM f xs ;;
    mapped <-- alloc (CArr ys) ;;
    set_prop filtered k (HRef mapped)
  else ret tt.

Section Filters.

Variable CONFIG : Config.

Definition filterCareAfterPhone (careAfterPhone : hvalue) : M hvalue :=
  pickProperties careAfterPhone (whitelist_careAfterPhone CONFIG).

Definition filterCareAfter (careAfter : hvalue) : M hvalue :=
  filtered <-- pickProperties careAfter (whitelist_careAfter CONFIG) ;;
  update_truthy filtered "data_encr"
    (fun d => filterDataEncr d (dataEncr_careAfter CONFIG)
                (Some (dataEncr_careAfterDynamicPatterns CONFIG))) ;;;
  ret filtered.

Definition filterChild (child : hvalue) : M hvalue :=
  filtered <-- pickProperties child (whitelist_child CONFIG) ;;
  update_truthy filtered "data_encr"
    (fun d => filterDataEncr d (dataEncr_child CONFIG) None) ;;;
  ret filtered.

Definition filterBirth (birth : hvalue) : M hvalue :=
  if negb (truthy birth) then ret HNull
  else
    filtered <-- pickProperties birth (whitelist_birth CONFIG) ;;
    update_truthy filtered "data_encr"
      (fun d => filterDataEncr d (dataEncr_birth CONFIG) None) ;;;
    update_array filtered "children" filterChild ;;;
    ret filtered.

Definition filterPregnancy (pregnancy : hvalue) : M hvalue :=
  filtered <-- pickProperties pregnancy (whitelist_pregnancy CONFIG) ;;
  update_truthy filtered "data_encr"
    (fun d => filterDataEncr d (dataEncr_pregnancy CONFIG) None) ;;;
  update_truthy filtered "birth" filterBirth ;;;
  update_array filtered "cares_after" filterCareAfter ;;;
  update_array filtered "cares_after_phone" filterCareAfterPhone ;;;
  ret filtered.

Definition filterClient (client : hvalue) : M hvalue :=
  filtered <-- pickProperties client (whitelist_client CONFIG) ;;
  update_array filtered "pregnancies" filterPregnancy ;;;
  ret filtered.

End Filters.

Record skipped_client : Type :=
  { sc_id : hvalue; sc_reason : option string }.

Record skipped_pregnancy : Type :=
  { sp_clientId : hvalue; sp_pregnancyId : hvalue; sp_reason : option string }.

Module Strict.

Definition CONFIG : Config := Strict.CONFIG.

Definition check_pregnancy (i : nat) (pregnancy : hvalue) : M (option validation) :=
  pregnancyValidation <-- validateEntity pregnancy (required_pregnancy CONFIG) false ;;
  if negb (Entity.valid pregnancyValidation) then
    pid <-- get_prop pregnancy "id" ;;
    shown <-- template pid ;;
    ret (Some {| valid := false;
                 reason := Some ("Pregnancy[" ++ dec_of_nat i ++ "] (id: "
                                   ++ shown ++ "): "
                                   ++ Strict.missing_msg "pregnancy"
                                        (match Entity.missingField pregnancyValidation with
                                         | Some f => f | None => "null" end)
                                        "pregnancy")%string |})
  else
    birth <-- get_prop pregnancy "birth" ;;
    if truthy birth then
      birthValidation <-- validateEntity birth (required_birth CONFIG) true ;;
      if negb (Entity.valid birthValidation) then
        pid <-- get_prop pregnancy "id" ;;
        shown <-- template pid ;;
        ret (Some {| valid := false;
                     reason := Some ("Pregnancy[" ++ dec_of_nat i ++ "] (id: "
                                       ++ shown ++ "): "
                                       ++ Strict.missing_msg "birth"
                                            (match Entity.missingField birthValidation with
                                             | Some f => f | None => "null" end)
                                            "birth")%string |})
      else ret None
    else ret None.

Fixpoint check_pregnancies (i : nat) (ps : list hvalue) : M validation :=
  match ps with
  | [] => ret {| valid := true; reason := None |}
  | pregnancy :: rest =>
      r <-- check_pregnancy i pregnancy ;;
      match r with
      | Some v => ret v
      | None => check_pregnancies (S i) rest
      end
  end.

Definition validateClient (client : hvalue) : M validation :=
  clientValidation <-- validateEntity client (required_client CONFIG) true ;;
  if negb (Entity.valid clientValidation) then
    ret {| valid := false;
           reason := Some (Strict.missing_msg "client"
                             (match Entity.missingField clientValidation with
                              | Some f => f | None => "null" end)
                             "client") |}
  else
    pregnancies <-- get_prop client "pregnancies" ;;
    ps <-- (if nullish pregnancies then throw else indexed pregnancies) ;;
    check_pregnancies 0 ps.

Record results : Type := {
  totalClients : nat;
  successCount : nat;
  skippedCount : nat;
  skippedClients : list skipped_client
}.

Definition process_client (st : list hvalue * results) (client : hvalue)
  : M (list hvalue * results) :=
  let (outputData, res) := st in
  validation <-- validateClient client ;;
  if valid validation then
    filteredClient <-- filterClient CONFIG client ;;
    ret (outputData ++ [filteredClient],
         {| totalClients := totalClients res;
            successCount := S (successCount res);
            skippedCount := skippedCount res;
            skippedClients := skippedClients res |})
  else
    cid <-- get_prop client "id" ;;
    ret (outputData,
         {| totalClients := totalClients res;
            successCount := successCount res;
            skippedCount := S (skippedCount res);
            skippedClients :=
              skippedClients res
                ++ [{| sc_id := cid; sc_reason := reason validation |}] |}).

Definition processData (inputData : hvalue) : M (list hvalue * results) :=
  arr <-- isArray inputData ;;
  if arr then
    clients <-- iterate inputData ;;
    foldM process_client
          ([], {| totalClients := List.length clients;
                  successCount := 0;
                  skippedCount := 0;
                  skippedClients := [] |})
          clients
  else lift Exit1.

End Strict.

Module Salvage.

Definition CONFIG : Config := Salvage.CONFIG.

Definition validatePregnancy (pregnancy : hvalue) : M validation :=
  pregnancyValidation <-- validateEntity pregnancy (required_pregnancy CONFIG) true ;;
  if negb (Entity.valid pregnancyValidation) then
    ret {| valid := false;
           reason := Some (Salvage.missing_msg "pregnancy"
                             (match Entity.missingField pregnancyValidation with
                              | Some f => f | None => "null" end)
                             "pregnancy") |}
  else
    birth <-- get_prop pregnancy "birth" ;;
    if truthy birth then
      birthValidation <-- validateEntity birth (required_birth CONFIG) true ;;
      if negb (Entity.valid birthValidation) then
        ret {| valid := false;
               reason := Some (Salvage.missing_msg "birth"
                                 (match Entity.missingField birthValidation with
                                  | Some f => f | None => "null" end)
                                 "birth") |}
      else ret {| valid := true; reason := None |}
    else ret {| valid := true; reason := None |}.

Definition validateClient (client : hvalue) : M validation :=
  clientValidation <-- validateEntity client (required_client CONFIG) true ;;
  if negb (Entity.valid clientValidation) then
    ret {| valid := false;
           reason := Some (Salvage.missing_msg "client"
                             (match Entity.missingField clientValidation with
                              | Some f => f | None => "null" end)
                             "client") |}
  else ret {| valid := true; reason := None |}.

Record results : Type := {
  totalClients : nat;
  successCount : nat;
  skippedClientsCount : nat;
  skippedClients : list skipped_client;
  skippedPregnanciesCount : nat;
  skippedPregnancies : list skipped_pregnancy
}.

Definition process_pregnancy (client : hvalue) (st : list hvalue * results)
    (pregnancy : hvalue) : M (list hvalue * results) :=
  let (validPregnancies, res) := st in
  pregnancyValidation <-- validatePregnancy pregnancy ;;
  if valid pregnancyValidation then ret (validPregnancies ++ [pregnancy], res)
  else
    cid <-- get_prop client "id" ;;
    pid <-- get_prop pregnancy "id" ;;
    ret (validPregnancies,
         {| totalClients := totalClients res;
            successCount := successCount res;
            skippedClientsCount := skippedClientsCount res;
            skippedClients := skippedClients res;
            skippedPregnanciesCount := S (skippedPregnanciesCount res);
            skippedPregnancies :=
              skippedPregnancies res
                ++ [{| sp_clientId := cid;
                       sp_pregnancyId := pid;
                       sp_reason := reason pregnancyValidation |}] |}).

Definition skip_client (res : results) (cid : hvalue) (why : option string) : results :=
  {| totalClients := totalClients res;
     successCount := successCount res;
     skippedClientsCount := S (skippedClientsCount res);
     skippedClients := skippedClients res ++ [{| sc_id := cid; sc_reason := why |}];
     skippedPregnanciesCount := skippedPregnanciesCount res;
     skippedPregnancies := skippedPregnancies res |}.

(** [{ ...client, pregnancies: validPregnancies }]: a fresh object gets the
    own properties of [client], in order, then [pregnancies]. *)
Definition spread_with (client : hvalue) (k : string) (x : hvalue) : M hvalue :=
  copy <-- alloc (CObj []) ;;
  (match client with
   | HRef l =>
       c <-- read l ;;
       match c with
       | CObj ps =>
           forM ps (fun kv => set_prop (HRef copy) (fst kv) (snd kv))
       | CArr xs =>
           forM (combine (map dec_of_nat (seq 0 (List.length xs))) xs)
                (fun kv => set_prop (HRef copy) (fst kv) (snd kv))
       end
   | HStr s =>
       forM (combine (map dec_of_nat (seq 0 (String.length s))) (chars s))
            (fun kv => set_prop (HRef copy) (fst kv) (snd kv))
   | _ => ret tt
   end) ;;;
  set_prop (HRef copy) k x ;;;
  ret (HRef copy).

(** One turn of the loop over the clients.  The arrays the script itself
    builds and never hands to a filter before they are complete
    ([validPregnancies], [outputData], the lists of [results]) are carried as
    lists; [validPregnancies] becomes a cell of the store when the loop over
    the pregnancies is done, before the spread refers to it. *)
Definition process_client (st : list hvalue * results) (client : hvalue)
  : M (list hvalue * results) :=
  let (outputData, res) := st in
  clientValidation <-- validateClient client ;;
  if negb (valid clientValidation) then
    cid <-- get_prop client "id" ;;
    ret (outputData, skip_client res cid (reason clientValidation))
  else
    pregnancies <-- get_prop client "pregnancies" ;;
    ps <-- iterate pregnancies ;;
    st' <-- foldM (process_pregnancy client) ([], res) ps ;;
    let (validPregnancies, res') := st' in
    if (List.length validPregnancies =? 0)%nat then
      cid <-- get_prop client "id" ;;
      ret (outputData,
           skip_client res' cid (Some "No valid pregnancies remaining after validation"))
    else
      valids <-- alloc (CArr validPregnancies) ;;
      clientWithValidPregnancies <-- spread_with client "pregnancies" (HRef valids) ;;
      filteredClient <-- filterClient CONFIG clientWithValidPregnancies ;;
      ret (outputData ++ [filteredClient],
           {| totalClients := totalClients res';
              successCount := S (successCount res');
              skippedClientsCount := skippedClientsCount res';
              skippedClients := skippedClients res';
              skippedPregnanciesCount := skippedPregnanciesCount res';
              skippedPregnancies := skippedPregnancies res' |}).

Definition processData (inputData : hvalue) : M (list hvalue * results) :=
  arr <-- isArray inputData ;;
  if arr then
    clients <-- iterate inputData ;;
    foldM process_client
          ([], {| totalClients := List.length clients;
                  successCount := 0;
                  skippedClientsCount := 0;
                  skippedClients := [];
                  skippedPregnanciesCount := 0;
                  skippedPregnancies := [] |})
          clients
  else lift Exit1.

End Salvage.

(** A store holds no more than it held before, in its old cells: the cells
    below [n] of [s'] are those of [s]. *)
Definition unchanged_below (n : nat) (s s' : store) : Prop :=
  firstn n s' = firstn n s.

(** A value that is not a reference to a cell below [n]. *)
Definition fresh_from (n : nat) (v : hvalue) : Prop :=
  match v with
  | HRef l => n <= l
  | _ => True
  end.

(** What a run guarantees, for a base [n] within the store it starts from:
    the cells below [n] are left as they are, the store does not shrink, and
    the result satisfies [Q]. *)
Definition frames {A} (n : nat) (m : M A) (Q : A -> Prop) : Prop :=
  forall s a s',
    n <= List.length s ->
    m s = Ok (a, s') ->
    unchanged_below n s s' /\ List.length s <= List.length s' /\ Q a.

(** The sample dataset laid out in a store: cell 0 the dataset, cell 1 a
    client with a complete pregnancy and one without after-care. *)
Definition sample_store : store :=
  [ CArr [HRef 1];
    CObj [("id", HNum 1); ("name", HStr "Ann"); ("pregnancies", HRef 2)];
    CArr [HRef 3; HRef 4];
    CObj [("id", HNum 10); ("note", HStr "n"); ("birth", HRef 5);
          ("cares_after", HRef 8); ("cares_after_phone", HRef 11)];
    CObj [("id", HNum 11); ("birth", HRef 5); ("cares_after_phone", HRef 11)];
    CObj [("id", HNum 100); ("place", HStr "home"); ("children", HRef 6)];
    CArr [HRef 7];
    CObj [("id", HNum 1000); ("name", HStr "Bo"); ("data_encr", HRef 13)];
    CArr [HRef 9];
    CObj [("id", HNum 7); ("visitor", HStr "M"); ("data_encr", HRef 10)];
    CObj [("stillt", HBool true); ("kind-5-nahrung", HStr "x");
          ("kind-5-unknown", HStr "y")];
    CArr [HRef 12];
    CObj [("id", HNum 3); ("caller", HStr "K")];
    CObj [("birth_time", HStr "09:00"); ("weight", HNum 3)] ].

(** No cell of the store refers to a cell the store does not have. *)
Definition in_store (s : store) (v : hvalue) : bool :=
  match v with
  | HRef l => (l <? List.length s)%nat
  | _ => true
  end.

Definition closed_store (s : store) : bool :=
  forallb (fun c => match c with
                    | CObj ps => forallb (fun kv => in_store s (snd kv)) ps
                    | CArr xs => forallb (in_store s) xs
                    end) s.

(** A computation that leaves the store as it is. *)
Definition readonly {A} (m : M A) : Prop :=
  forall s a s', m s = Ok (a, s') -> s' = s.

(** The value a store value stands for, read to depth [fuel]. *)
Fixpoint reify (fuel : nat) (s : store) (v : hvalue) : value :=
  match v with
  | HUndefined => VUndefined
  | HNull => VNull
  | HBool b => VBool b
  | HNum n => VNum n
  | HStr x => VStr x
  | HRef l =>
      match fuel with
      | O => VUndefined
      | S fuel' =>
          match nth_error s l with
          | Some (CObj ps) => VObj (map (fun kv => (fst kv, reify fuel' s (snd kv))) ps)
          | Some (CArr xs) => VArr (map (reify fuel' s) xs)
          | None => VUndefined
          end
      end
  end.

End Store.

(** What the salvage variant emits: a client object holding a non-empty array
    of valid pregnancies, which the client filter returns as it is. *)
Definition salvage_fixed_point (fc : value) : Prop :=
  exists o fps,
    fc = VObj o /\ js_object o = true
    /\ lookup "pregnancies" o = Some (VArr fps)
    /\ fps <> []
    /\ forallb pregnancy_ok_salvage fps = true
    /\ filterClient Salvage.CONFIG fc = Ok fc.

(** The data model of the specification, as far as validation looks:
    [pregnancies] and [children] are arrays, [birth] is an object, or they
    are missing. *)
Definition array_or_absent (v : value) : bool :=
  match v with
  | VArr _ | VNull | VUndefined => true
  | _ => false
  end.

Definition object_or_absent (v : value) : bool :=
  match v with
  | VObj _ | VNull | VUndefined => true
  | _ => false
  end.

Definition typed_pregnancy (p : value) : bool :=
  object_or_absent (get_opt p "birth")
  && array_or_absent (get_opt (get_opt p "birth") "children").

Definition typed_client (client : value) : bool :=
  match get_opt client "pregnancies" with
  | VArr ps => forallb typed_pregnancy ps
  | VNull | VUndefined => true
  | _ => false
  end.

(** Records whose lists are lists: [pregnancies], [children], [cares_after]
    and [cares_after_phone] are arrays or missing, all the way down. *)
Definition birth_lists (b : value) : bool :=
  array_or_absent (get_opt b "children").



(** A key that is no array index: assigned to an object that lacks it, it
    goes last. *)
Definition not_index (k : string) : bool :=
  match array_index k with Some _ => false | None => true end.

(** How a filter treats a field: [y] is what [f] returns for a truthy [x],
    and [x] itself otherwise; for a list, [ys] holds what [f] returns for the
    entries of [xs], one for one. *)
Definition through_truthy (f : value -> outcome value) (x y : value) : Prop :=
  if truthy x then f x = Ok y else y = x.

Definition through_array (f : value -> outcome value) (x y : value) : Prop :=
  match x with
  | VArr xs => exists ys, y = VArr ys /\ Forall2 (fun a b => f a = Ok b) xs ys
  | _ => y = x
  end.

(** The field [k] of [x] as the projector hands it on. *)
Definition listed_field (whitelist : list string) (x : value) (k : string) : value :=
  if mem k whitelist then get_opt x k else VUndefined.

(** A computation that returns or throws a TypeError. *)
Definition returns_or_throws {A} (m : outcome A) : Prop :=
  match m with
  | Ok _ | TypeError => True
  | _ => False
  end.

(** Records at the edge of the data model. *)
Module Edge.

(** A valid pregnancy whose list of visits holds a null. *)
Definition pregnancy_null_care : value :=
  VObj [("id", VNum 10);
        ("birth", VObj [("children", VArr [VObj [("id", VNum 1000)]])]);
        ("cares_after", VArr [VNull]);
        ("cares_after_phone", VArr [VObj [("id", VNum 3)]])].

Definition client_null_care : value :=
  VObj [("id", VNum 1); ("pregnancies", VArr [pregnancy_null_care])].

(** A client with a null among its pregnancies. *)
Definition client_null_pregnancy : value :=
  VObj [("id", VNum 5); ("pregnancies", VArr [Sample.pregnancy; VNull])].

(** A client whose first pregnancy is complete and whose second has a birth
    without children. *)
Definition client_no_children : value :=
  VObj [("id", VNum 6);
        ("pregnancies",
         VArr [Sample.pregnancy;
               VObj [("id", VNum 13); ("birth", VObj [("id", VNum 101)])]])].

(** A client whose [pregnancies] is a number. *)
Definition client_number_pregnancies : value :=
  VObj [("id", VNum 7); ("pregnancies", VNum 2)].

(** The results of the two variants on the sample dataset. *)
Definition strict_results : Strict.results :=
  match Strict.processData (VArr Sample.dataset) with
  | Ok (_, res) => res
  | _ => {| Strict.totalClients := 0; Strict.successCount := 0;
            Strict.skippedCount := 0; Strict.skippedClients := [] |}
  end.

Definition salvage_results : Salvage.results :=
  match Salvage.processData (VArr Sample.dataset) with
  | Ok (_, res) => res
  | _ => {| Salvage.totalClients := 0; Salvage.successCount := 0;
            Salvage.skippedClientsCount := 0; Salvage.skippedClients := [];
            Salvage.skippedPregnanciesCount := 0; Salvage.skippedPregnancies := [] |}
  end.






(** A client all of whose pregnancies are complete. *)
Definition client_complete : value :=
  VObj [("id", VNum 8); ("name", VStr "Di"); ("pregnancies", VArr [Sample.pregnancy])].

End Edge.

(** The reason the strict loop gives for the pregnancy [p] at index [i]. *)
Definition strict_pregnancy_reason (i : nat) (p : value) : string :=
  ("Pregnancy[" ++ dec_of_nat i ++ "] (id: " ++ to_string (get_own p "id") ++ "): "
     ++ (if nullish (get_opt p "birth") then reason_pregnancy_field "birth"
         else reason_birth_children))%string.

(** The statistics of two runs, put together. *)
Definition strict_plus (r1 r2 : Strict.results) : Strict.results :=
  {| Strict.totalClients := Strict.totalClients r1 + Strict.totalClients r2;
     Strict.successCount := Strict.successCount r1 + Strict.successCount r2;
     Strict.skippedCount := Strict.skippedCount r1 + Strict.skippedCount r2;
     Strict.skippedClients := Strict.skippedClients r1 ++ Strict.skippedClients r2 |}.

Definition salvage_plus (r1 r2 : Salvage.results) : Salvage.results :=
  {| Salvage.totalClients := Salvage.totalClients r1 + Salvage.totalClients r2;
     Salvage.successCount := Salvage.successCount r1 + Salvage.successCount r2;
     Salvage.skippedClientsCount :=
       Salvage.skippedClientsCount r1 + Salvage.skippedClientsCount r2;
     Salvage.skippedClients := Salvage.skippedClients r1 ++ Salvage.skippedClients r2;
     Salvage.skippedPregnanciesCount :=
       Salvage.skippedPregnanciesCount r1 + Salvage.skippedPregnanciesCount r2;
     Salvage.skippedPregnancies :=
       Salvage.skippedPregnancies r1 ++ Salvage.skippedPregnancies r2 |}.

Definition strict_zero : Strict.results :=
  {| Strict.totalClients := 0; Strict.successCount := 0;
     Strict.skippedCount := 0; Strict.skippedClients := [] |}.

Definition salvage_zero : Salvage.results :=
  {| Salvage.totalClients := 0; Salvage.successCount := 0;
     Salvage.skippedClientsCount := 0; Salvage.skippedClients := [];
     Salvage.skippedPregnanciesCount := 0; Salvage.skippedPregnancies := [] |}.

(** The outcome [m], reached from the state [s] instead of the empty one. *)
Definition shifted {S} (op : S -> S -> S) (s : S) (m : outcome S) : outcome S :=
  match m with
  | Ok d => Ok (op s d)
  | TypeError => TypeError
  | Exit1 => Exit1
  | Unmodelled => Unmodelled
  end.

Definition strict_join (s d : list value * Strict.results) : list value * Strict.results :=
  (fst s ++ fst d, strict_plus (snd s) (snd d)).

Definition salvage_join (s d : list value * Salvage.results)
  : list value * Salvage.results :=
  (fst s ++ fst d, salvage_plus (snd s) (snd d)).

(** A client all of whose pregnancies pass the salvage check: an object with
    a non-empty array of such pregnancies. *)
Definition complete_client (client : value) : bool :=
  match client with
  | VObj o =>
      js_object o
      && match lookup "pregnancies" o with
         | Some (VArr (p :: ps)) => forallb pregnancy_ok_salvage (p :: ps)
         | _ => false
         end
  | _ => false
  end.

(** The names a plain object or an array inherits from its prototype.  For
    them [k in v] holds on every object, and assigning to [__proto__] sets no
    property; the model, which has own properties only, speaks of key lists
    that avoid them. *)
Definition inherited_names : list string :=
  ["constructor"; "hasOwnProperty"; "isPrototypeOf"; "propertyIsEnumerable";
   "toLocaleString"; "toString"; "valueOf"; "__proto__";
   "__defineGetter__"; "__defineSetter__"; "__lookupGetter__"; "__lookupSetter__";
   "at"; "concat"; "copyWithin"; "entries"; "every"; "fill"; "filter"; "find";
   "findIndex"; "findLast"; "findLastIndex"; "flat"; "flatMap"; "forEach";
   "includes"; "indexOf"; "join"; "keys"; "lastIndexOf"; "map"; "pop"; "push";
   "reduce"; "reduceRight"; "reverse"; "shift"; "slice"; "some"; "sort";
   "splice"; "toReversed"; "toSorted"; "toSpliced"; "unshift"; "values"; "with"].

Definition own_name (k : string) : bool := negb (mem k inherited_names).

(** A configuration whose lists avoid the inherited names. *)
Definition plain_config (CONFIG : Config) : bool :=
  forallb own_name
    (whitelist_client CONFIG ++ whitelist_pregnancy CONFIG ++ whitelist_birth CONFIG
       ++ whitelist_child CONFIG ++ whitelist_careAfter CONFIG
       ++ whitelist_careAfterPhone CONFIG
       ++ dataEncr_pregnancy CONFIG ++ dataEncr_birth CONFIG ++ dataEncr_child CONFIG
       ++ dataEncr_careAfter CONFIG ++ dataEncr_careAfterDynamicPatterns CONFIG).

(* ------------------------------------------------------------------------- *)
(** ** The report and the entry point

    The entry point talks to Node: the arguments, the file system, the
    clock, the console.  The file system and the clock are a world [W] with
    Node's operations on it, the console is the list of the lines written, and
    a run ends by returning, by [process.exit], or with an uncaught error. *)

(** [s.repeat(n)] *)
Definition repeat_string (s : string) (n : nat) : string :=
  String.concat "" (List.repeat s n).

Definition newline : string := String "010"%char EmptyString.

(** [`${r}`] for a reason, a string or null. *)
Definition reason_text (r : option string) : string :=
  match r with
  | Some s => s
  | None => "null"
  end.

Inductive event : Type :=
| Log (line : string)         (* console.log *)
| Err (line : string).        (* console.error *)

Inductive ending : Type :=
| Returned                    (* main returns *)
| Exited (code : nat)         (* process.exit(code) *)
| Threw                       (* an uncaught TypeError *)
| Outside.                    (* behaviour outside this model *)

Record run (W : Type) : Type := {
  world : W;
  console : list event;
  ended : ending
}.

Arguments world {W} r.
Arguments console {W} r.
Arguments ended {W} r.

(** The part of Node the entry point uses.  Reading and parsing return the
    data or the message of the error thrown; a write returns the world after
    it and, when it throws, the message. *)
Record Node (W : Type) : Type := {
  path_resolve : W -> string -> string;
  path_dirname : string -> string;
  path_join : string -> string -> string;
  readFileSync : W -> string -> string + string;
  JSON_parse : string -> value + string;
  JSON_stringify : list value -> string;
  writeFileSync : W -> string -> string -> W * option string;
  toISOString : W -> string;
  conversion_message : string
}.

Arguments path_resolve {W} n w p.
Arguments path_dirname {W} n p.
Arguments path_join {W} n dir file.
Arguments readFileSync {W} n w p.
Arguments JSON_parse {W} n text.
Arguments JSON_stringify {W} n data.
Arguments writeFileSync {W} n w p text.
Arguments toISOString {W} n w.
Arguments conversion_message {W} n.

Definition usage : list event :=
  [Log "Usage: node filter.js <input.json> <output.json>";
   Log "";
   Log "This script filters pregnancy data to keep only statistical fields.";
   Log "A results.txt file will be generated alongside the output file."].

Definition skipped_client_lines (skipped : SkippedClient.t) : outcome (list string) :=
  idtext <- template (SkippedClient.id skipped) ;;
  Ok [("  Client ID: " ++ idtext)%string;
      ("    Reason: " ++ reason_text (SkippedClient.reason skipped))%string;
      ""].

Definition skipped_pregnancy_lines (skipped : SkippedPregnancy.t)
  : outcome (list string) :=
  cidtext <- template (SkippedPregnancy.clientId skipped) ;;
  pidtext <- template (SkippedPregnancy.pregnancyId skipped) ;;
  Ok [("  Client ID: " ++ cidtext ++ ", Pregnancy ID: " ++ pidtext)%string;
      ("    Reason: " ++ reason_text (SkippedPregnancy.reason skipped))%string;
      ""].

Module StrictCli.

(** The lines of the report; [now] is [new Date().toISOString()]. *)
Definition report_lines (now : string) (results : Strict.results)
  : outcome (list string) :=
  let lines :=
    [repeat_string "=" 60;
     "DATA FILTERING RESULTS REPORT";
     repeat_string "=" 60;
     "";
     ("Run Date: " ++ now)%string;
     "";
     repeat_string "-" 60;
     "SUMMARY";
     repeat_string "-" 60;
     ("Total Clients Processed: " ++ dec_of_nat (Strict.totalClients results))%string;
     ("Successfully Transformed: " ++ dec_of_nat (Strict.successCount results))%string;
     ("Skipped (Invalid): " ++ dec_of_nat (Strict.skippedCount results))%string;
     ""] in
  lines <- (if (0 <? List.length (Strict.skippedClients results))%nat then
              entries <- mapM skipped_client_lines (Strict.skippedClients results) ;;
              Ok (lines
                    ++ [repeat_string "-" 60; "SKIPPED CLIENTS"; repeat_string "-" 60]
                    ++ concat entries)
            else Ok lines) ;;
  Ok (lines ++ [repeat_string "=" 60; "END OF REPORT"; repeat_string "=" 60]).

Definition generateResultsReport (now : string) (results : Strict.results)
  : outcome string :=
  lines <- report_lines now results ;;
  Ok (String.concat newline lines).

(** The entry point, started with the arguments [argv] in the world [w].
    The message for an input that is no array is printed by [processData]
    itself before it exits; it is put on the console here.  A TypeError that
    [processData] throws is caught nowhere. *)
Definition main {W} (N : Node W) (argv : list string) (w : W) : run W :=
  let args := skipn 2 argv in
  if (List.length args <? 2)%nat then
    {| world := w; console := usage; ended := Exited 1 |}
  else
    let inputPath := path_resolve N w (nth 0 args "") in
    let outputPath := path_resolve N w (nth 1 args "") in
    let resultsPath := path_join N (path_dirname N outputPath) "results.txt" in
    let c1 := [Log ("Reading input file: " ++ inputPath)] in
    match match readFileSync N w inputPath with
          | inl rawData => JSON_parse N rawData
          | inr message => inr message
          end with
    | inr message =>
        {| world := w;
           console := c1 ++ [Err ("Error reading input file: " ++ message)];
           ended := Exited 1 |}
    | inl inputData =>
        let c2 := c1 ++ [Log "Processing data..."] in
        match Strict.processData inputData with
        | Exit1 =>
            {| world := w;
               console := c2 ++ [Err "Error: Input data must be an array"];
               ended := Exited 1 |}
        | TypeError => {| world := w; console := c2; ended := Threw |}
        | Unmodelled => {| world := w; console := c2; ended := Outside |}
        | Ok (outputData, results) =>
            let c3 := c2 ++ [Log ("Writing output file: " ++ outputPath)] in
            match writeFileSync N w outputPath (JSON_stringify N outputData) with
            | (w1, Some message) =>
                {| world := w1;
                   console := c3 ++ [Err ("Error writing output file: " ++ message)];
                   ended := Exited 1 |}
            | (w1, None) =>
                let c4 := c3 ++ [Log ("Writing results report: " ++ resultsPath)] in
                match generateResultsReport (toISOString N w1) results with
                | Ok report =>
                    match writeFileSync N w1 resultsPath report with
                    | (w2, Some message) =>
                        {| world := w2;
                           console :=
                             c4 ++ [Err ("Error writing results file: " ++ message)];
                           ended := Exited 1 |}
                    | (w2, None) =>
                        {| world := w2;
                           console :=
                             c4 ++ [Log "";
                                    Log "Processing complete!";
                                    Log ("  Total clients: "
                                           ++ dec_of_nat (Strict.totalClients results));
                                    Log ("  Transformed: "
                                           ++ dec_of_nat (Strict.successCount results));
                                    Log ("  Skipped: "
                                           ++ dec_of_nat (Strict.skippedCount results))];
                           ended := Returned |}
                    end
                | TypeError =>
                    {| world := w1;
                       console :=
                         c4 ++ [Err ("Error writing results file: "
                                       ++ conversion_message N)];
                       ended := Exited 1 |}
                | _ => {| world := w1; console := c4; ended := Outside |}
                end
            end
        end
    end.

End StrictCli.

Module SalvageCli.

(** The lines of the report; [now] is [new Date().toISOString()]. *)
Definition report_lines (now : string) (results : Salvage.results)
  : outcome (list string) :=
  let lines :=
    [repeat_string "=" 60;
     "DATA FILTERING RESULTS REPORT";
     repeat_string "=" 60;
     "";
     ("Run Date: " ++ now)%string;
     "";
     repeat_string "-" 60;
     "SUMMARY";
     repeat_string "-" 60;
     ("Total Clients Processed: " ++ dec_of_nat (Salvage.totalClients results))%string;
     ("Successfully Transformed: " ++ dec_of_nat (Salvage.successCount results))%string;
     ("Skipped Clients: " ++ dec_of_nat (Salvage.skippedClientsCount results))%string;
     ("Skipped Pregnancies: "
        ++ dec_of_nat (Salvage.skippedPregnanciesCount results))%string;
     ""] in
  lines <- (if (0 <? List.length (Salvage.skippedPregnancies results))%nat then
              entries <- mapM skipped_pregnancy_lines
                              (Salvage.skippedPregnancies results) ;;
              Ok (lines
                    ++ [repeat_string "-" 60; "SKIPPED PREGNANCIES";
                        repeat_string "-" 60]
                    ++ concat entries)
            else Ok lines) ;;
  lines <- (if (0 <? List.length (Salvage.skippedClients results))%nat then
              entries <- mapM skipped_client_lines (Salvage.skippedClients results) ;;
              Ok (lines
                    ++ [repeat_string "-" 60; "SKIPPED CLIENTS"; repeat_string "-" 60]
                    ++ concat entries)
            else Ok lines) ;;
  Ok (lines ++ [repeat_string "=" 60; "END OF REPORT"; repeat_string "=" 60]).

Definition generateResultsReport (now : string) (results : Salvage.results)
  : outcome string :=
  lines <- report_lines now results ;;
  Ok (String.concat newline lines).

(** The entry point, started with the arguments [argv] in the world [w].
    The message for an input that is no array is printed by [processData]
    itself before it exits; it is put on the console here.  A TypeError that
    [processData] throws is caught nowhere. *)
Definition main {W} (N : Node W) (argv : list string) (w : W) : run W :=
  let args := skipn 2 argv in
  if (List.length args <? 2)%nat then
    {| world := w; console := usage; ended := Exited 1 |}
  else
    let inputPath := path_resolve N w (nth 0 args "") in
    let outputPath := path_resolve N w (nth 1 args "") in
    let resultsPath := path_join N (path_dirname N outputPath) "results.txt" in
    let c1 := [Log ("Reading input file: " ++ inputPath)] in
    match match readFileSync N w inputPath with
          | inl rawData => JSON_parse N rawData
          | inr message => inr message
          end with
    | inr message =>
        {| world := w;
           console := c1 ++ [Err ("Error reading input file: " ++ message)];
           ended := Exited 1 |}
    | inl inputData =>
        let c2 := c1 ++ [Log "Processing data..."] in
        match Salvage.processData inputData with
        | Exit1 =>
            {| world := w;
               console := c2 ++ [Err "Error: Input data must be an array"];
               ended := Exited 1 |}
        | TypeError => {| world := w; console := c2; ended := Threw |}
        | Unmodelled => {| world := w; console := c2; ended := Outside |}
        | Ok (outputData, results) =>
            let c3 := c2 ++ [Log ("Writing output file: " ++ outputPath)] in
            match writeFileSync N w outputPath (JSON_stringify N outputData) with
            | (w1, Some message) =>
                {| world := w1;
                   console := c3 ++ [Err ("Error writing output file: " ++ message)];
                   ended := Exited 1 |}
            | (w1, None) =>
                let c4 := c3 ++ [Log ("Writing results report: " ++ resultsPath)] in
                match generateResultsReport (toISOString N w1) results with
                | Ok report =>
                    match writeFileSync N w1 resultsPath report with
                    | (w2, Some message) =>
                        {| world := w2;
                           console :=
                             c4 ++ [Err ("Error writing results file: " ++ message)];
                           ended := Exited 1 |}
                    | (w2, None) =>
                        {| world := w2;
                           console :=
                             c4 ++ [Log "";
                                    Log "Processing complete!";
                                    Log ("  Total clients: "
                                           ++ dec_of_nat (Salvage.totalClients results));
                                    Log ("  Transformed: "
                                           ++ dec_of_nat (Salvage.successCount results));
                                    Log ("  Skipped clients: "
                                           ++ dec_of_nat
                                                (Salvage.skippedClientsCount results));
                                    Log ("  Skipped pregnancies: "
                                           ++ dec_of_nat
                                                (Salvage.skippedPregnanciesCount
                                                   results))];
                           ended := Returned |}
                    end
                | TypeError =>
                    {| world := w1;
                       console :=
                         c4 ++ [Err ("Error writing results file: "
                                       ++ conversion_message N)];
                       ended := Exited 1 |}
                | _ => {| world := w1; console := c4; ended := Outside |}
                end
            end
        end
    end.

End SalvageCli.

(** The ids a report prints. *)
Definition strict_report_ids (results : Strict.results) : list value :=
  map SkippedClient.id (Strict.skippedClients results).

Definition salvage_report_ids (results : Salvage.results) : list value :=
  flat_map (fun s => [SkippedPregnancy.clientId s; SkippedPregnancy.pregnancyId s])
           (Salvage.skippedPregnancies results)
    ++ map SkippedClient.id (Salvage.skippedClients results).

(** The three lines of the report for a skipped client and for a skipped
    pregnancy. *)
Definition client_entry (s : SkippedClient.t) : list string :=
  [("  Client ID: " ++ to_string (SkippedClient.id s))%string;
   ("    Reason: " ++ reason_text (SkippedClient.reason s))%string;
   ""].

Definition pregnancy_entry (s : SkippedPregnancy.t) : list string :=
  [("  Client ID: " ++ to_string (SkippedPregnancy.clientId s)
      ++ ", Pregnancy ID: " ++ to_string (SkippedPregnancy.pregnancyId s))%string;
   ("    Reason: " ++ reason_text (SkippedPregnancy.reason s))%string;
   ""].

(** A section of the report: nothing for an empty list, else the title
    between two rules and the entries. *)
Definition report_section {A} (title : string) (entry : A -> list string)
    (xs : list A) : list string :=
  match xs with
  | [] => []
  | _ :: _ =>
      [repeat_string "-" 60; title; repeat_string "-" 60] ++ flat_map entry xs
  end.

(** What the entry point reads: the data, or the message of the error. *)
Definition read_input {W} (N : Node W) (argv : list string) (w : W) : value + string :=
  match readFileSync N w (path_resolve N w (nth 0 (skipn 2 argv) "")) with
  | inl rawData => JSON_parse N rawData
  | inr message => inr message
  end.

Definition outputPath {W} (N : Node W) (argv : list string) (w : W) : string :=
  path_resolve N w (nth 1 (skipn 2 argv) "").

Definition resultsPath {W} (N : Node W) (argv : list string) (w : W) : string :=
  path_join N (path_dirname N (outputPath N argv w)) "results.txt".

(** A small Node: files are a list of paths with their contents, the newest
    first, every write succeeds, and the parser knows two texts. *)
Module ToyNode.

Definition files : Type := list (string * string).

Fixpoint content (p : string) (w : files) : option string :=
  match w with
  | [] => None
  | (p', c) :: w' => if String.eqb p p' then Some c else content p w'
  end.

Definition node : Node files := {|
  path_resolve := fun _ p => ("/work/" ++ p)%string;
  path_dirname := fun _ => "/work";
  path_join := fun dir file => (dir ++ "/" ++ file)%string;
  readFileSync := fun w p =>
    match content p w with
    | Some c => inl c
    | None => inr "ENOENT: no such file or directory"
    end;
  JSON_parse := fun text =>
    if String.eqb text "sample" then inl (VArr Sample.dataset)
    else if String.eqb text "odd" then
      inl (VArr [VObj [("id", VObj [("toString", VNum 1)]); ("pregnancies", VArr [])]])
    else if String.eqb text "{}" then inl (VObj [])
    else inr "Unexpected token";
  JSON_stringify := fun data => ("<" ++ dec_of_nat (List.length data) ++ " clients>")%string;
  writeFileSync := fun w p text => ((p, text) :: w, None);
  toISOString := fun _ => "2026-01-01T00:00:00.000Z";
  conversion_message := "Cannot convert object to primitive value"
|}.

Definition disk : files :=
  [("/work/in.json", "sample"); ("/work/bad.json", "{}"); ("/work/odd.json", "odd")].

End ToyNode.

(** The salvage variant skips a client that is left with no valid
    pregnancy, for whichever reason. *)
Definition no_valid_pregnancy (client : value) : bool :=
  match valid_pregnancies client with
  | [] => true
  | _ :: _ => false
  end.

(* ========================================================================= *)
(** * Properties *)

(* ------------------------------------------------------------------------- *)
(** ** Keys and association lists *)

Lemma mem_In k ks : mem k ks = true <-> In k ks.
Proof.
  induction ks as [|k' ks IH]; simpl.
  - split; [discriminate | tauto].
  - rewrite orb_true_iff, IH, String.eqb_eq. split; intros [H|H]; subst; auto.
Qed.

Lemma mem_false_In k ks : mem k ks = false <-> ~ In k ks.
Proof.
  rewrite <- mem_In. destruct (mem k ks); split; congruence.
Qed.

Lemma nodup_keys_NoDup ks : nodup_keys ks = true <-> NoDup ks.
Proof.
  induction ks as [|k ks IH]; simpl.
  - split; [constructor | reflexivity].
  - rewrite andb_true_iff, negb_true_iff, mem_false_In, IH.
    split; [intros [H1 H2]; constructor; assumption | intros H; inversion H; auto].
Qed.

Lemma lookup_None k o : lookup k o = None <-> ~ In k (keys o).
Proof.
  induction o as [|[k' v] o IH]; simpl.
  - tauto.
  - destruct (String.eqb_spec k k') as [->|Hne].
    + split; [discriminate | intros H; exfalso; apply H; auto].
    + rewrite IH. split; [intros H [E|E]; [congruence | auto] | tauto].
Qed.

Lemma has_own_In k o : has_own k o = true <-> In k (keys o).
Proof.
  unfold has_own. destruct (lookup k o) eqn:E.
  - split; [intros _ | reflexivity].
    destruct (in_dec string_dec k (keys o)) as [H|H]; [assumption |].
    apply lookup_None in H. congruence.
  - apply lookup_None in E. split; [discriminate | tauto].
Qed.

Lemma has_own_false k o : has_own k o = false <-> ~ In k (keys o).
Proof.
  rewrite <- has_own_In. destruct (has_own k o); split; congruence.
Qed.

Lemma keys_obj_update k v o : keys (obj_update k v o) = keys o.
Proof.
  induction o as [|[k' v'] o IH]; simpl; [reflexivity |].
  destruct (String.eqb k k'); simpl; [reflexivity | now rewrite IH].
Qed.

Lemma lookup_obj_update k v o k' :
  lookup k' (obj_update k v o)
  = if String.eqb k' k then (if has_own k o then Some v else None) else lookup k' o.
Proof.
  unfold has_own.
  induction o as [|[k0 v0] o IH]; simpl.
  - destruct (String.eqb k' k); reflexivity.
  - destruct (String.eqb_spec k k0) as [->|Hne]; simpl.
    + destruct (String.eqb_spec k' k0); reflexivity.
    + rewrite IH. destruct (String.eqb_spec k' k) as [E|E].
      * subst k'. destruct (String.eqb_spec k k0); [congruence | reflexivity].
      * reflexivity.
Qed.

Lemma keys_obj_insert_index_In n k v o k' :
  In k' (keys (obj_insert_index n k v o)) <-> k' = k \/ In k' (keys o).
Proof.
  induction o as [|[k0 v0] o IH]; simpl.
  - intuition.
  - destruct (array_index k0) as [n'|]; [destruct (n' <? n)%N |]; simpl;
      try rewrite IH; intuition.
Qed.

Lemma lookup_obj_insert_index n k v o k' :
  has_own k o = false ->
  lookup k' (obj_insert_index n k v o)
  = if String.eqb k' k then Some v else lookup k' o.
Proof.
  unfold has_own.
  induction o as [|[k0 v0] o IH]; simpl; intros Hno.
  - reflexivity.
  - destruct (String.eqb_spec k k0) as [->|Hne]; [discriminate |].
    destruct (array_index k0) as [n'|]; [destruct (n' <? n)%N |]; simpl;
      try reflexivity.
    rewrite (IH Hno).
    destruct (String.eqb_spec k' k0) as [->|]; [|reflexivity].
    destruct (String.eqb_spec k0 k); [congruence | reflexivity].
Qed.

Lemma lookup_app k o1 o2 :
  lookup k (o1 ++ o2) = match lookup k o1 with Some v => Some v | None => lookup k o2 end.
Proof.
  induction o1 as [|[k0 v0] o1 IH]; simpl; [reflexivity |].
  destruct (String.eqb k k0); [reflexivity | apply IH].
Qed.

Lemma lookup_obj_set k v o k' :
  lookup k' (obj_set k v o) = if String.eqb k' k then Some v else lookup k' o.
Proof.
  unfold obj_set. destruct (has_own k o) eqn:Hk.
  - rewrite lookup_obj_update, Hk. reflexivity.
  - destruct (array_index k) as [n|].
    + apply lookup_obj_insert_index; assumption.
    + rewrite lookup_app. simpl.
      destruct (String.eqb_spec k' k) as [->|Hne].
      * unfold has_own in Hk. destruct (lookup k o); [discriminate | reflexivity].
      * destruct (lookup k' o); reflexivity.
Qed.

Lemma keys_obj_set_In k v o k' :
  In k' (keys (obj_set k v o)) <-> k' = k \/ In k' (keys o).
Proof.
  unfold obj_set. destruct (has_own k o) eqn:Hk.
  - rewrite keys_obj_update. apply has_own_In in Hk.
    split; [auto | intros [->|H]; assumption].
  - destruct (array_index k) as [n|].
    + apply keys_obj_insert_index_In.
    + unfold keys. rewrite map_app, in_app_iff. simpl. intuition.
Qed.

Lemma has_own_obj_set k v o k' :
  has_own k' (obj_set k v o) = (String.eqb k' k || has_own k' o)%bool.
Proof.
  unfold has_own at 1. rewrite lookup_obj_set.
  destruct (String.eqb k' k); reflexivity.
Qed.

Lemma NoDup_keys_obj_insert_index n k v o :
  ~ In k (keys o) -> NoDup (keys o) -> NoDup (keys (obj_insert_index n k v o)).
Proof.
  induction o as [|[k0 v0] o IH]; simpl; intros Hk Hnd.
  - constructor; [intros [] | constructor].
  - inversion Hnd as [|? ? Hk0 Hnd']; subst.
    assert (Hhd : NoDup (k :: k0 :: keys o)).
    { constructor; [simpl; tauto | assumption]. }
    destruct (array_index k0) as [n'|]; [destruct (n' <? n)%N |]; simpl; try assumption.
    constructor.
    + rewrite keys_obj_insert_index_In. intros [E|E]; [subst; tauto | tauto].
    + apply IH; tauto.
Qed.

Lemma NoDup_keys_obj_set k v o : NoDup (keys o) -> NoDup (keys (obj_set k v o)).
Proof.
  intros Hnd. unfold obj_set. destruct (has_own k o) eqn:Hk.
  - now rewrite keys_obj_update.
  - apply has_own_false in Hk. destruct (array_index k) as [n|].
    + apply NoDup_keys_obj_insert_index; assumption.
    + unfold keys. rewrite map_app. simpl.
      apply NoDup_app; [assumption | constructor; [intros [] | constructor] |].
      intros x Hx [E|[]]; subst. tauto.
Qed.

(** Two objects with the same keys, in the same order and without repetition,
    and the same value under every key are the same object. *)
Lemma obj_ext (o1 o2 : obj) :
  keys o1 = keys o2 -> NoDup (keys o1) ->
  (forall k, In k (keys o1) -> lookup k o1 = lookup k o2) -> o1 = o2.
Proof.
  revert o2. induction o1 as [|[k v] o1 IH]; intros [|[k2 v2] o2]; simpl;
    intros Hk Hnd Hl; try discriminate; [reflexivity |].
  injection Hk as E Hk. subst k2. inversion Hnd as [|? ? Hnotin Hnd']; subst.
  assert (Hv := Hl k (or_introl eq_refl)).
  rewrite String.eqb_refl in Hv. injection Hv as E. subst v2.
  f_equal. apply IH; [assumption | assumption |].
  intros k' Hin. specialize (Hl k' (or_intror Hin)).
  destruct (String.eqb_spec k' k) as [E|E]; [subst; tauto | assumption].
Qed.

(* ------------------------------------------------------------------------- *)
(** ** Entity validation *)

Lemma isValidValue_spec v chk :
  isValidValue v chk = false
  <-> v = VNull \/ v = VUndefined \/ (chk = true /\ v = VArr []).
Proof.
  unfold isValidValue. split.
  - destruct v as [| |b|n|s|xs|ps]; destruct chk; simpl;
      try discriminate; auto.
    destruct xs; simpl; [auto | discriminate].
  - intros [->|[->|[-> ->]]]; reflexivity.
Qed.

Lemma validateEntity_find entity fields chk :
  validateEntity entity fields chk
  = match find (fun f => negb (isValidValue (get_opt entity f) chk)) fields with
    | Some f => {| Entity.valid := false; Entity.missingField := Some f |}
    | None => {| Entity.valid := true; Entity.missingField := None |}
    end.
Proof.
  induction fields as [|f fields IH]; simpl; [reflexivity |].
  destruct (negb (isValidValue (get_opt entity f) chk)); [reflexivity | apply IH].
Qed.

Lemma validateEntity_valid_iff entity fields chk :
  Entity.valid (validateEntity entity fields chk) = true
  <-> forall f, In f fields -> isValidValue (get_opt entity f) chk = true.
Proof.
  induction fields as [|f fields IH]; simpl.
  - split; [intros _ f [] | reflexivity].
  - destruct (isValidValue (get_opt entity f) chk) eqn:E; simpl.
    + rewrite IH. split; [intros H g [<-|Hg]; auto | auto].
    + split; [discriminate | intros H]. rewrite <- E. apply H. auto.
Qed.

(** C5.  [validateEntity] walks the required fields in order and returns at
    the first invalid one, naming it, whatever fields come after it; a value
    is invalid exactly when it is null or undefined or, with the
    non-empty-array check on, an empty array, so that the empty string, zero
    and false are valid; a null or undefined entity is read as having every
    field absent. *)
Theorem validateEntity_first_invalid (entity : value) (fields : list string) (chk : bool) :
  validateEntity entity fields chk
  = match find (fun f => negb (isValidValue (get_opt entity f) chk)) fields with
    | Some f => {| Entity.valid := false; Entity.missingField := Some f |}
    | None => {| Entity.valid := true; Entity.missingField := None |}
    end
  /\ (forall pre f post,
        forallb (fun g => isValidValue (get_opt entity g) chk) pre = true ->
        isValidValue (get_opt entity f) chk = false ->
        validateEntity entity (pre ++ f :: post) chk
        = {| Entity.valid := false; Entity.missingField := Some f |})
  /\ (forall v, isValidValue v chk = false
                <-> v = VNull \/ v = VUndefined \/ (chk = true /\ v = VArr []))
  /\ isValidValue (VStr "") chk = true
  /\ isValidValue (VNum 0) chk = true
  /\ isValidValue (VBool false) chk = true
  /\ (nullish entity = true ->
      forall f rest,
        get_opt entity f = VUndefined
        /\ validateEntity entity (f :: rest) chk
           = {| Entity.valid := false; Entity.missingField := Some f |}).
Proof.
  split; [apply validateEntity_find |].
  split.
  { intros pre f post Hpre Hf. rewrite validateEntity_find.
    induction pre as [|g pre IH]; simpl in *.
    - now rewrite Hf.
    - apply andb_true_iff in Hpre as [Hg Hpre]. rewrite Hg. simpl. now apply IH. }
  split; [intros v; apply isValidValue_spec |].
  repeat split; try (destruct chk; reflexivity).
  - unfold get_opt. now rewrite H.
  - simpl. unfold get_opt. now rewrite H.
Qed.

Lemma validateEntity_first_invalid_witness :
  validateEntity (VObj [("a", VNum 0); ("b", VArr []); ("c", VNull)]) ["a"; "b"; "c"] true
  = {| Entity.valid := false; Entity.missingField := Some "b" |}
  /\ validateEntity VNull ["a"; "b"] false
     = {| Entity.valid := false; Entity.missingField := Some "a" |}.
Proof.
  split.
  - apply (proj1 (proj2 (validateEntity_first_invalid
                           (VObj [("a", VNum 0); ("b", VArr []); ("c", VNull)])
                           ["a"; "b"; "c"] true)) ["a"] "b" ["c"]);
      reflexivity.
  - apply (proj2 (proj2 (proj2 (proj2 (proj2 (proj2
             (validateEntity_first_invalid VNull ["a"; "b"] false))))))
             eq_refl "a" ["b"]).
Defined.

Lemma get_opt_not_nullish entity k :
  nullish (get_opt entity k) = false ->
  nullish entity = false /\ get_prop entity k = Ok (get_opt entity k).
Proof.
  unfold get_opt, get_prop. destruct (nullish entity); [discriminate | auto].
Qed.

(** C10.  A client whose [pregnancies] is present and is neither null,
    undefined nor an empty array passes the client-level check of both
    variants, array or not: the salvage [validateClient] answers valid, and
    the strict one goes on to the loop over the pregnancies. *)
Theorem client_check_accepts_non_arrays (client v : value) :
  get_opt client "pregnancies" = v ->
  nullish v = false ->
  v <> VArr [] ->
  Entity.valid (validateEntity client (required_client Strict.CONFIG) true) = true
  /\ Entity.valid (validateEntity client (required_client Salvage.CONFIG) true) = true
  /\ Salvage.validateClient client = {| valid := true; reason := None |}
  /\ Strict.validateClient client = (ps <- indexed v ;; Strict.check_pregnancies 0 ps).
Proof.
  intros Hv Hn Hne. subst v.
  set (v := get_opt client "pregnancies") in *.
  assert (Hval : isValidValue v true = true).
  { destruct (isValidValue v true) eqn:E; [reflexivity |].
    apply isValidValue_spec in E as [E|[E|[_ E]]]; rewrite E in *;
      try discriminate; congruence. }
  assert (Hent : validateEntity client ["pregnancies"] true
                 = {| Entity.valid := true; Entity.missingField := None |}).
  { simpl. fold v. rewrite Hval. reflexivity. }
  repeat split.
  - simpl required_client. now rewrite Hent.
  - simpl required_client. now rewrite Hent.
  - unfold Salvage.validateClient. simpl required_client. now rewrite Hent.
  - unfold Strict.validateClient. simpl required_client. rewrite Hent. simpl.
    destruct (get_opt_not_nullish _ _ Hn) as [_ E]. rewrite E. fold v.
    simpl. now rewrite Hn.
Qed.

Lemma client_check_accepts_non_arrays_witness :
  Strict.validateClient (VObj [("id", VNum 1); ("pregnancies", VObj [])])
  = Ok {| valid := true; reason := None |}
  /\ Salvage.validateClient (VObj [("id", VNum 2); ("pregnancies", VStr "ab")])
     = {| valid := true; reason := None |}.
Proof.
  split.
  - assert (H := client_check_accepts_non_arrays
                   (VObj [("id", VNum 1); ("pregnancies", VObj [])]) (VObj [])
                   eq_refl eq_refl).
    destruct H as (_ & _ & _ & H); [discriminate |].
    rewrite H. reflexivity.
  - assert (H := client_check_accepts_non_arrays
                   (VObj [("id", VNum 2); ("pregnancies", VStr "ab")]) (VStr "ab")
                   eq_refl eq_refl).
    destruct H as (_ & _ & H & _); [discriminate |].
    exact H.
Defined.

(* ------------------------------------------------------------------------- *)
(** ** The pattern matcher *)

Lemma starts_with_Some p s rest : starts_with p s = Some rest <-> s = (p ++ rest)%string.
Proof.
  revert s. induction p as [|a p IH]; intros s; simpl.
  - split; [intros [= ->]; reflexivity | intros ->; reflexivity].
  - destruct s as [|b s]; [split; discriminate |].
    destruct (Ascii.eqb_spec a b) as [->|Hne].
    + rewrite IH. split; [intros ->; reflexivity | intros [= ->]; reflexivity].
    + split; [discriminate | intros [= E _]; congruence].
Qed.

Lemma starts_with_app p rest : starts_with p (p ++ rest) = Some rest.
Proof. now apply starts_with_Some. Qed.

Lemma replace_first_skip pat by_ c s :
  starts_with pat (String c s) = None ->
  replace_first pat by_ (String c s) = String c (replace_first pat by_ s).
Proof.
  intros H. destruct pat as [|a pat]; [discriminate |].
  cbn [replace_first]. now rewrite H.
Qed.

Lemma replace_first_plain pre by_ post :
  plain pre = true ->
  replace_first "{id}" by_ (pre ++ "{id}" ++ post) = (pre ++ by_ ++ post)%string.
Proof.
  induction pre as [|c pre IH]; intros Hp.
  - reflexivity.
  - simpl in Hp. apply andb_true_iff in Hp as [Hc Hp].
    change ((String c pre ++ "{id}" ++ post)%string)
      with (String c (pre ++ "{id}" ++ post)%string).
    rewrite replace_first_skip, (IH Hp); [reflexivity |].
    cbn [starts_with].
    destruct (Ascii.eqb_spec "{"%char c) as [E|Hne]; [|reflexivity].
    subst c. discriminate Hc.
Qed.

Lemma parse_regex_plain s r :
  plain s = true ->
  parse_regex (s ++ r)
  = match parse_regex r with Some a => Some (lits s ++ a) | None => None end.
Proof.
  induction s as [|c s IH]; intros Hp; simpl.
  - destruct (parse_regex r); reflexivity.
  - simpl in Hp. apply andb_true_iff in Hp as [Hc Hp].
    apply negb_true_iff in Hc.
    destruct (Ascii.eqb_spec c backslash) as [->|Hne]; [discriminate Hc |].
    rewrite Hc, IH by assumption. destruct (parse_regex r); reflexivity.
Qed.

Lemma parse_regex_pattern pre post :
  plain pre = true -> plain post = true ->
  parse_regex (pre ++ String backslash "d+" ++ post)
  = Some (lits pre ++ ADigits :: lits post).
Proof.
  intros Hpre Hpost. rewrite parse_regex_plain by assumption.
  change (parse_regex (String backslash "d+" ++ post))
    with (match parse_regex post with Some r => Some (ADigits :: r) | None => None end).
  replace post with (post ++ "")%string at 1
    by (clear; induction post; simpl; congruence).
  rewrite parse_regex_plain by assumption. simpl. now rewrite app_nil_r.
Qed.

Lemma regex_test_lits_only post s : regex_test (lits post) s = true <-> s = post.
Proof.
  revert s. induction post as [|c post IH]; intros [|a s]; simpl;
    try (split; [discriminate | discriminate]); [tauto |].
  rewrite andb_true_iff, IH.
  destruct (Ascii.eqb_spec a c) as [->|Hne].
  - split; [intros [_ ->]; reflexivity | intros [= ->]; auto].
  - split; [intros [H _]; discriminate | intros [= E _]; congruence].
Qed.

Lemma regex_test_lits pre r key :
  regex_test (lits pre ++ r) key
  = match starts_with pre key with Some rest => regex_test r rest | None => false end.
Proof.
  revert key. induction pre as [|c pre IH]; intros key; simpl.
  - reflexivity.
  - destruct key as [|a key]; [reflexivity |].
    change (regex_test (ALit c :: lits pre ++ r) (String a key))
      with (Ascii.eqb a c && regex_test (lits pre ++ r) key)%bool.
    rewrite Ascii.eqb_sym. destruct (Ascii.eqb c a); [apply IH | reflexivity].
Qed.

Lemma regex_test_digits post s :
  regex_test (ADigits :: lits post) s = true
  <-> exists ds, ds <> "" /\ all_digits ds = true /\ s = (ds ++ post)%string.
Proof.
  split.
  - induction s as [|a s IH]; simpl; [discriminate |].
    rewrite andb_true_iff, orb_true_iff. intros [Ha [H|H]].
    + destruct (IH H) as (ds & _ & Hd & ->).
      exists (String a ds). simpl. rewrite Ha, Hd. repeat split. discriminate.
    + apply regex_test_lits_only in H as ->.
      exists (String a ""). simpl. rewrite Ha. repeat split. discriminate.
  - intros (ds & Hne & Hd & ->).
    induction ds as [|a ds IH]; [congruence |].
    simpl in Hd. apply andb_true_iff in Hd as [Ha Hd].
    change (regex_test (ADigits :: lits post) (String a (ds ++ post)) = true).
    cbn [regex_test]. rewrite Ha. simpl.
    destruct ds as [|b ds].
    + apply orb_true_iff. right. now apply regex_test_lits_only.
    + apply orb_true_iff. left. apply IH; [discriminate | assumption].
Qed.

(** C6.  The matcher tests the whole key against the pattern with its
    placeholder read as one or more decimal digits: the three sample keys
    give true, false and false, and with plain text around the placeholder a
    key matches exactly when it is that text with a non-empty run of digits in
    the placeholder's place. *)
Theorem matchesDynamicPattern_exact (pre post key : string) :
  plain pre = true ->
  plain post = true ->
  matchesDynamicPattern "kind-12-nahrung" "kind-{id}-nahrung" = Ok true
  /\ matchesDynamicPattern "kind-nahrung" "kind-{id}-nahrung" = Ok false
  /\ matchesDynamicPattern "kind-12-nahrungx" "kind-{id}-nahrung" = Ok false
  /\ exists b,
       matchesDynamicPattern key (pre ++ "{id}" ++ post) = Ok b
       /\ (b = true
           <-> exists ds, ds <> "" /\ all_digits ds = true
                          /\ key = (pre ++ ds ++ post)%string).
Proof.
  intros Hpre Hpost. repeat split; try reflexivity.
  unfold matchesDynamicPattern.
  rewrite replace_first_plain, parse_regex_pattern by assumption.
  eexists. split; [reflexivity |].
  rewrite regex_test_lits.
  destruct (starts_with pre key) as [rest|] eqn:E.
  - apply starts_with_Some in E as ->. rewrite regex_test_digits.
    split; intros (ds & Hne & Hd & Hk); exists ds; repeat split; auto.
    + now rewrite Hk.
    + clear -Hk. induction pre; simpl in Hk; [assumption | injection Hk; auto].
  - split; [discriminate |]. intros (ds & _ & _ & ->).
    rewrite starts_with_app in E. discriminate.
Qed.

Lemma matchesDynamicPattern_exact_witness :
  exists b,
    matchesDynamicPattern "kind-007-physiologisches-neugeborenes"
                          "kind-{id}-physiologisches-neugeborenes" = Ok b
    /\ (b = true
        <-> exists ds, ds <> "" /\ all_digits ds = true
                       /\ "kind-007-physiologisches-neugeborenes"
                          = ("kind-" ++ ds ++ "-physiologisches-neugeborenes")%string).
Proof.
  exact (proj2 (proj2 (proj2
           (matchesDynamicPattern_exact "kind-" "-physiologisches-neugeborenes"
              "kind-007-physiologisches-neugeborenes" eq_refl eq_refl)))).
Defined.

(* ------------------------------------------------------------------------- *)
(** ** The order of own keys *)

Lemma indices_then_names_split lo names p k q n :
  indices_then_names lo names (p ++ k :: q) = true ->
  array_index k = Some n ->
  Forall (index_below n) p
  /\ names = false
  /\ (forall m, lo = Some m -> (m < n)%N).
Proof.
  revert lo names. induction p as [|k0 p IH]; intros lo names H Hk; simpl in H.
  - rewrite Hk in H. apply andb_true_iff in H as [H _].
    apply andb_true_iff in H as [Hn Hlo]. apply negb_true_iff in Hn.
    repeat split; [constructor | assumption |].
    intros m ->. now apply N.ltb_lt.
  - destruct (array_index k0) as [n0|] eqn:E0.
    + apply andb_true_iff in H as [H Hrest].
      apply andb_true_iff in H as [Hn Hlo]. apply negb_true_iff in Hn.
      destruct (IH _ _ Hrest Hk) as (Hp & _ & Hlt).
      specialize (Hlt n0 eq_refl).
      repeat split; [constructor; [exists n0; auto | assumption] | assumption |].
      intros m ->. apply N.ltb_lt in Hlo. lia.
    + destruct (IH _ _ H Hk) as (_ & Hcontra & _). discriminate.
Qed.

Lemma obj_insert_index_append n k v r :
  Forall (index_below n) (keys r) -> obj_insert_index n k v r = r ++ [(k, v)].
Proof.
  induction r as [|[k0 v0] r IH]; simpl; intros H; [reflexivity |].
  inversion H as [|? ? (n' & E & Hlt) Hr]; subst.
  rewrite E. apply N.ltb_lt in Hlt. rewrite Hlt. now rewrite IH.
Qed.

Lemma obj_set_append k v r :
  ~ In k (keys r) ->
  (forall n, array_index k = Some n -> Forall (index_below n) (keys r)) ->
  obj_set k v r = r ++ [(k, v)].
Proof.
  intros Hk Hidx. unfold obj_set.
  apply has_own_false in Hk. rewrite Hk.
  destruct (array_index k) as [n|]; [|reflexivity].
  apply obj_insert_index_append. now apply Hidx.
Qed.

Lemma keys_filter_incl (keep : string -> bool) (p : obj) :
  incl (keys (filter (fun kv => keep (fst kv)) p)) (keys p).
Proof.
  induction p as [|[k v] p IH]; simpl; [apply incl_refl |].
  destruct (keep k); simpl.
  - intros x [<-|Hx]; [left; reflexivity | right; now apply IH].
  - now apply incl_tl.
Qed.

Lemma lookup_middle k v (p q : obj) :
  ~ In k (keys p) -> lookup k (p ++ (k, v) :: q) = Some v.
Proof.
  intros H. rewrite lookup_app. apply lookup_None in H. rewrite H.
  simpl. now rewrite String.eqb_refl.
Qed.

(** Re-inserting the properties of a real object in their own order rebuilds
    the object. *)
Lemma rebuild_js_object (keep : string -> bool) (o : obj) :
  js_object o = true ->
  forall p q, o = p ++ q ->
    fold_left (fun acc kv => if keep (fst kv) then obj_set (fst kv) (snd kv) acc else acc)
              q (filter (fun kv => keep (fst kv)) p)
    = filter (fun kv => keep (fst kv)) o.
Proof.
  intros Hjs. unfold js_object in Hjs. apply andb_true_iff in Hjs as [Hnd Hord].
  apply nodup_keys_NoDup in Hnd.
  intros p q. revert p. induction q as [|[k v] q IH]; intros p Ho; simpl.
  - now rewrite Ho, app_nil_r.
  - assert (Hk : ~ In k (keys p)).
    { subst o. unfold keys in Hnd. rewrite map_app in Hnd. simpl in Hnd.
      apply NoDup_remove_2 in Hnd. rewrite in_app_iff in Hnd. tauto. }
    assert (Ho' : o = (p ++ [(k, v)]) ++ q) by (now rewrite <- app_assoc).
    specialize (IH _ Ho'). rewrite filter_app in IH. simpl in IH.
    destruct (keep k); [|now rewrite app_nil_r in IH].
    rewrite obj_set_append; [exact IH | |].
    + intros Hin. apply Hk. now apply (keys_filter_incl keep p).
    + intros n Hn. subst o. unfold keys in Hord. rewrite map_app in Hord.
      simpl in Hord.
      destruct (indices_then_names_split _ _ _ _ _ _ Hord Hn) as (Hp & _ & _).
      rewrite Forall_forall in *. intros x Hx. apply Hp.
      now apply (keys_filter_incl keep p).
Qed.

(* ------------------------------------------------------------------------- *)
(** ** The encrypted-field filter *)

Lemma bind_Ok {A B} (m : outcome A) (f : A -> outcome B) r :
  bind m f = Ok r -> exists a, m = Ok a /\ f a = Ok r.
Proof. destruct m; simpl; try discriminate. eauto. Qed.

Lemma foldM_pure {A S} (f : S -> A -> outcome S) (g : S -> A -> S) xs s :
  (forall s x, In x xs -> f s x = Ok (g s x)) ->
  foldM f s xs = Ok (fold_left g xs s).
Proof.
  revert s. induction xs as [|x xs IH]; intros s H; simpl; [reflexivity |].
  rewrite H by (left; reflexivity). simpl. apply IH.
  intros s' y Hy. apply H. now right.
Qed.

Lemma someM_matches key patterns :
  patterns_ok (Some patterns) = true ->
  someM (fun pattern => matchesDynamicPattern key pattern) patterns
  = Ok (existsb (matches_key key) patterns).
Proof.
  induction patterns as [|p ps IH]; simpl; intros H; [reflexivity |].
  apply andb_true_iff in H as [Hp Hps].
  assert (E : matchesDynamicPattern key p = Ok (matches_key key p)).
  { unfold matches_key, matchesDynamicPattern.
    destruct (parse_regex _); [reflexivity | discriminate]. }
  rewrite E. simpl.
  destruct (matches_key key p); [reflexivity | now apply IH].
Qed.

Lemma lookup_entry k v (o : obj) :
  NoDup (keys o) -> In (k, v) o -> lookup k o = Some v.
Proof.
  induction o as [|[k0 v0] o IH]; simpl; intros Hnd Hin; [contradiction |].
  destruct Hin as [E|Hin].
  - injection E as E1 E2. subst. now rewrite String.eqb_refl.
  - inversion Hnd as [|? ? Hk0 Hnd']; subst.
    destruct (String.eqb_spec k k0) as [->|_]; [|now apply IH].
    exfalso. apply Hk0. change k0 with (fst (k0, v)). now apply in_map.
Qed.

Lemma filterDataEncr_fold (o : obj) allowed pats :
  patterns_ok pats = true ->
  filterDataEncr (VObj o) allowed pats
  = Ok (VObj (fold_left
                (fun acc k => if kept allowed pats k
                              then obj_set k (get_own (VObj o) k) acc else acc)
                (keys o) [])).
Proof.
  intros Hok. unfold filterDataEncr. simpl truthy. simpl typeof_object.
  cbn [negb orb object_keys].
  rewrite foldM_pure
    with (g := fun acc k => if kept allowed pats k
                            then obj_set k (get_own (VObj o) k) acc else acc);
    [reflexivity |].
  intros acc k _. unfold kept. destruct (mem k allowed); [reflexivity |].
  destruct pats as [ps|]; simpl.
  - rewrite someM_matches by assumption. simpl.
    destruct (existsb (matches_key k) ps); reflexivity.
  - reflexivity.
Qed.

Lemma fold_keys_entries (G : obj -> string -> value -> obj) (o : obj) :
  NoDup (keys o) ->
  forall q acc, incl q o ->
    fold_left (fun acc k => G acc k (get_own (VObj o) k)) (keys q) acc
    = fold_left (fun acc kv => G acc (fst kv) (snd kv)) q acc.
Proof.
  intros Hnd q. induction q as [|[k v] q IH]; intros acc Hq; simpl; [reflexivity |].
  rewrite (lookup_entry k v o Hnd) by (apply Hq; left; reflexivity).
  apply IH. intros x Hx. apply Hq. now right.
Qed.

Lemma filterDataEncr_object (o : obj) allowed pats :
  js_object o = true ->
  patterns_ok pats = true ->
  filterDataEncr (VObj o) allowed pats
  = Ok (VObj (filter (fun kv => kept allowed pats (fst kv)) o)).
Proof.
  intros Hjs Hok. rewrite filterDataEncr_fold by assumption. do 2 f_equal.
  assert (Hnd : NoDup (keys o)).
  { unfold js_object in Hjs. apply andb_true_iff in Hjs as [H _].
    now apply nodup_keys_NoDup. }
  rewrite (fold_keys_entries
             (fun acc k v => if kept allowed pats k then obj_set k v acc else acc)
             o Hnd o [] (incl_refl o)).
  exact (rebuild_js_object (kept allowed pats) o Hjs [] o eq_refl).
Qed.




(* ------------------------------------------------------------------------- *)
(** ** The projector *)

Lemma pickProperties_object v ks :
  truthy v = true -> typeof_object v = true ->
  pickProperties v ks = VObj (fold_left (pick_step v) ks []).
Proof.
  intros Ht Ho. unfold pickProperties. now rewrite Ht, Ho.
Qed.

Lemma pickProperties_other v ks :
  truthy v = false \/ typeof_object v = false -> pickProperties v ks = v.
Proof.
  intros [H|H]; unfold pickProperties; rewrite H; simpl;
    [reflexivity | now rewrite orb_true_r].
Qed.

Lemma pick_fold_keys v ks acc k :
  In k (keys (fold_left (pick_step v) ks acc))
  <-> In k (keys acc) \/ (In k ks /\ has_property k v = true).
Proof.
  revert acc. induction ks as [|k0 ks IH]; intros acc; simpl.
  - tauto.
  - rewrite IH. unfold pick_step.
    destruct (has_property k0 v) eqn:E.
    + rewrite keys_obj_set_In. split.
      * intros [[->|H]|[H1 H2]]; auto.
      * intros [H|[[->|H1] H2]]; auto.
    + split.
      * intros [H|[H1 H2]]; auto.
      * intros [H|[[->|H1] H2]]; auto. congruence.
Qed.

Lemma pick_fold_NoDup v ks acc :
  NoDup (keys acc) -> NoDup (keys (fold_left (pick_step v) ks acc)).
Proof.
  revert acc. induction ks as [|k0 ks IH]; intros acc H; simpl; [assumption |].
  apply IH. unfold pick_step. destruct (has_property k0 v); [|assumption].
  now apply NoDup_keys_obj_set.
Qed.

Lemma pick_fold_lookup v ks acc k :
  lookup k (fold_left (pick_step v) ks acc)
  = if (mem k ks && has_property k v)%bool then Some (get_own v k) else lookup k acc.
Proof.
  revert acc. induction ks as [|k0 ks IH]; intros acc; simpl; [reflexivity |].
  rewrite IH. unfold pick_step.
  destruct (String.eqb_spec k k0) as [->|Hne]; simpl.
  - destruct (has_property k0 v) eqn:E.
    + rewrite lookup_obj_set, String.eqb_refl. destruct (mem k0 ks); reflexivity.
    + now rewrite andb_false_r.
  - destruct (has_property k0 v); [|reflexivity].
    rewrite lookup_obj_set.
    destruct (String.eqb_spec k k0); [congruence | reflexivity].
Qed.


(** What [pickProperties] returns is the argument itself or a fresh object,
    never an array. *)
Lemma pickProperties_not_array v ks xs : pickProperties v ks <> VArr xs.
Proof.
  destruct (truthy v) eqn:Ht; [destruct (typeof_object v) eqn:Ho |].
  - rewrite pickProperties_object by assumption. discriminate.
  - rewrite pickProperties_other by auto. intros ->. discriminate.
  - rewrite pickProperties_other by auto. intros ->. discriminate.
Qed.

(* ------------------------------------------------------------------------- *)
(** ** In-place updates of the filtered object *)

Lemma get_own_named v k :
  named k = true -> (forall o, v <> VObj o) -> get_own v k = VUndefined.
Proof.
  unfold named. intros H Hv. apply andb_true_iff in H as [Hl Hi].
  apply negb_true_iff in Hl.
  destruct v as [| |b|n|s|xs|o]; simpl; try reflexivity.
  - rewrite Hl. destruct (array_index k); [discriminate | reflexivity].
  - rewrite Hl. destruct (array_index k); [discriminate | reflexivity].
  - now destruct (Hv o).
Qed.

Lemma lookup_truthy o k :
  truthy (get_own (VObj o) k) = true ->
  lookup k o = Some (get_own (VObj o) k) /\ has_own k o = true.
Proof.
  unfold has_own. simpl. destruct (lookup k o); [auto | discriminate].
Qed.

Lemma obj_set_present k v o : has_own k o = true -> obj_set k v o = obj_update k v o.
Proof. intros H. unfold obj_set. now rewrite H. Qed.

Lemma update_truthy_cases filtered k f r :
  named k = true ->
  update_truthy filtered k f = Ok r ->
  (r = filtered /\ truthy (get_opt filtered k) = false /\ nullish filtered = false)
  \/ (exists o x y,
        filtered = VObj o /\ lookup k o = Some x /\ truthy x = true
        /\ f x = Ok y /\ r = VObj (obj_update k y o)).
Proof.
  intros Hk. unfold update_truthy, get_prop, get_opt.
  destruct (nullish filtered) eqn:Hn; [discriminate |]. simpl.
  destruct (truthy (get_own filtered k)) eqn:Ht.
  - destruct filtered as [| |b|n|s|xs|o];
      try (rewrite get_own_named in Ht by (assumption || discriminate); discriminate).
    destruct (lookup_truthy _ _ Ht) as [Hl Hh].
    destruct (f (get_own (VObj o) k)) as [y| | |] eqn:Ef; simpl; try discriminate.
    rewrite obj_set_present by assumption. intros [= <-].
    right. exists o, (get_own (VObj o) k), y. auto.
  - intros [= <-]. auto.
Qed.

Lemma update_array_cases filtered k f r :
  named k = true ->
  update_array filtered k f = Ok r ->
  (r = filtered /\ isArray (get_opt filtered k) = false /\ nullish filtered = false)
  \/ (exists o xs ys,
        filtered = VObj o /\ lookup k o = Some (VArr xs)
        /\ mapM f xs = Ok ys /\ r = VObj (obj_update k (VArr ys) o)).
Proof.
  intros Hk. unfold update_array, get_prop, get_opt.
  destruct (nullish filtered) eqn:Hn; [discriminate |]. simpl.
  destruct (get_own filtered k) as [| |b|n|s|xs|d] eqn:Ex; simpl;
    try (destruct (_ && false)%bool); try (intros [= <-]; auto).
  destruct filtered as [| |b|n|s|zs|o];
    try (rewrite get_own_named in Ex by (assumption || discriminate); discriminate).
  assert (Ht : truthy (get_own (VObj o) k) = true) by now rewrite Ex.
  destruct (lookup_truthy _ _ Ht) as [Hl Hh]. rewrite Ex in Hl.
  destruct (mapM f xs) as [ys| | |] eqn:Em; simpl; try discriminate.
  rewrite obj_set_present by assumption. intros [= <-].
  right. exists o, xs, ys. auto.
Qed.

Lemma get_opt_obj_update o k y k' :
  has_own k o = true ->
  get_opt (VObj (obj_update k y o)) k'
  = if String.eqb k' k then y else get_opt (VObj o) k'.
Proof.
  intros H. unfold get_opt. simpl. rewrite lookup_obj_update, H.
  destruct (String.eqb k' k); reflexivity.
Qed.

Lemma lookup_has_own k o x : lookup k o = Some x -> has_own k o = true.
Proof. unfold has_own. now intros ->. Qed.

Lemma mapM_Forall2 {A B} (f : A -> outcome B) xs ys :
  mapM f xs = Ok ys <-> Forall2 (fun x y => f x = Ok y) xs ys.
Proof.
  revert ys. induction xs as [|x xs IH]; intros ys; simpl.
  - split; [intros [= <-]; constructor | intros H; inversion H; reflexivity].
  - destruct (f x) as [y| | |] eqn:Ef; simpl;
      try (split; [discriminate | intros H; inversion H; congruence]).
    destruct (mapM f xs) as [ys'| | |] eqn:Em; simpl.
    + split.
      * intros [= <-]. constructor; [assumption | now apply IH].
      * intros H. inversion H as [|? y' ? ys'' Hy Hys]; subst.
        apply IH in Hys. congruence.
    + split; [discriminate | intros H; inversion H as [|? ? ? ? _ Hys]; subst].
      apply IH in Hys. discriminate.
    + split; [discriminate | intros H; inversion H as [|? ? ? ? _ Hys]; subst].
      apply IH in Hys. discriminate.
    + split; [discriminate | intros H; inversion H as [|? ? ? ? _ Hys]; subst].
      apply IH in Hys. discriminate.
Qed.




(* ------------------------------------------------------------------------- *)
(** ** Whitelist closure *)

Lemma foldM_inv {A S} (I : S -> Prop) (f : S -> A -> outcome S) xs s s' :
  I s ->
  (forall s x s', I s -> f s x = Ok s' -> I s') ->
  foldM f s xs = Ok s' -> I s'.
Proof.
  intros Hs Hstep. revert s Hs. induction xs as [|x xs IH]; intros s Hs; simpl.
  - now intros [= <-].
  - destruct (f s x) as [s1| | |] eqn:E; simpl; try discriminate.
    apply IH. now apply (Hstep s x).
Qed.





Lemma get_opt_pick_not_object v ks k :
  named k = true ->
  (forall o, pickProperties v ks <> VObj o) ->
  get_opt (pickProperties v ks) k = VUndefined.
Proof.
  intros Hk Hno. unfold get_opt.
  destruct (nullish _); [reflexivity | now apply get_own_named].
Qed.

Section ClosureProofs.

Variable CONFIG : Config.








End ClosureProofs.




(* ------------------------------------------------------------------------- *)
(** ** Assignments keep an object well formed *)

Lemma array_index_canonical k n : array_index k = Some n -> k = dec_of_N n.
Proof.
  unfold array_index. destruct (NilEmpty.uint_of_string k) as [u|]; [|discriminate].
  destruct (String.eqb_spec (dec_of_N (N.of_uint u)) k) as [E|]; simpl; [|discriminate].
  destruct (N.of_uint u <? 4294967295)%N; [|discriminate].
  intros [= <-]. now symmetry.
Qed.

Lemma indices_then_names_after_name lo lo' ks :
  indices_then_names lo true ks = true -> indices_then_names lo' true ks = true.
Proof.
  induction ks as [|k ks IH]; simpl; [reflexivity |].
  destruct (array_index k); [discriminate | assumption].
Qed.

Lemma indices_then_names_append lo names ks k :
  array_index k = None ->
  indices_then_names lo names ks = true ->
  indices_then_names lo names (ks ++ [k]) = true.
Proof.
  intros Hk. revert lo names. induction ks as [|k0 ks IH]; intros lo names; simpl.
  - now rewrite Hk.
  - destruct (array_index k0).
    + intros H. apply andb_true_iff in H as [H1 H2]. rewrite H1. now apply IH.
    + apply IH.
Qed.

Lemma indices_then_names_insert lo names o n k v :
  array_index k = Some n ->
  ~ In k (keys o) ->
  names = false ->
  (forall m, lo = Some m -> (m < n)%N) ->
  indices_then_names lo names (keys o) = true ->
  indices_then_names lo names (keys (obj_insert_index n k v o)) = true.
Proof.
  intros Hk. revert lo names.
  induction o as [|[k0 v0] o IH]; intros lo names Hnotin -> Hlo; simpl.
  - intros _. rewrite Hk. simpl.
    destruct lo as [m|]; [|reflexivity].
    rewrite andb_true_r. apply N.ltb_lt. now apply Hlo.
  - assert (Hlo' : match lo with Some m => (m <? n)%N | None => true end = true).
    { destruct lo as [m|]; [|reflexivity]. apply N.ltb_lt. now apply Hlo. }
    destruct (array_index k0) as [n0|] eqn:E0.
    + intros H. apply andb_true_iff in H as [H1 H2].
      destruct (n0 <? n)%N eqn:Elt; simpl.
      * rewrite E0, H1. simpl. apply IH; auto.
        -- simpl in Hnotin. tauto.
        -- intros m [= <-]. now apply N.ltb_lt.
      * rewrite Hk, E0. simpl. rewrite Hlo', H2. simpl.
        rewrite andb_true_r. apply N.ltb_lt. apply N.ltb_ge in Elt.
        assert (n <> n0); [|lia].
        intros E. subst n0. apply Hnotin. left. simpl.
        apply array_index_canonical in Hk. apply array_index_canonical in E0.
        congruence.
    + intros H. simpl. rewrite Hk, E0. simpl. rewrite Hlo'. simpl.
      now apply indices_then_names_after_name with (lo := lo).
Qed.

Lemma js_object_obj_set k v o : js_object o = true -> js_object (obj_set k v o) = true.
Proof.
  unfold js_object. intros H. apply andb_true_iff in H as [Hnd Hord].
  apply andb_true_iff. split.
  - apply nodup_keys_NoDup. apply NoDup_keys_obj_set. now apply nodup_keys_NoDup.
  - unfold obj_set. destruct (has_own k o) eqn:Hh.
    + now rewrite keys_obj_update.
    + apply has_own_false in Hh. destruct (array_index k) as [n|] eqn:Ek.
      * apply indices_then_names_insert; auto. discriminate.
      * unfold keys. rewrite map_app. simpl.
        now apply indices_then_names_append.
Qed.

Lemma obj_update_same k y o : lookup k o = Some y -> obj_update k y o = o.
Proof.
  induction o as [|[k0 v0] o IH]; simpl; [reflexivity |].
  destruct (String.eqb_spec k k0) as [->|Hne].
  - now intros [= ->].
  - intros H. now rewrite IH.
Qed.

(** Assigning to every key of a real object, in key order, the value it
    already has there rebuilds the object. *)
Lemma rebuild_all (o : obj) :
  js_object o = true ->
  fold_left (fun acc k => obj_set k (get_own (VObj o) k) acc) (keys o) [] = o.
Proof.
  intros Hjs.
  assert (Hnd : NoDup (keys o)).
  { unfold js_object in Hjs. apply andb_true_iff in Hjs as [H _].
    now apply nodup_keys_NoDup. }
  rewrite (fold_keys_entries (fun acc k v => obj_set k v acc) o Hnd o []
             (incl_refl o)).
  assert (H := rebuild_js_object (fun _ => true) o Hjs [] o eq_refl).
  simpl in H. rewrite H.
  clear. induction o as [|kv o IH]; simpl; [reflexivity | now rewrite IH].
Qed.

(* ------------------------------------------------------------------------- *)
(** ** Idempotence *)

Lemma filterDataEncr_step d allowed pats :
  (negb (truthy d) || negb (typeof_object d))%bool = false ->
  filterDataEncr d allowed pats
  = (result <- foldM (fun result key =>
                        b <- keep_test allowed pats key ;;
                        Ok (if b then obj_set key (get_own d key) result else result))
                     [] (object_keys d) ;;
     Ok (VObj result)).
Proof.
  intros E. unfold filterDataEncr. rewrite E. f_equal.
  generalize (@nil (string * value)). generalize (object_keys d).
  intros l. induction l as [|k l IH]; intros acc; simpl; [reflexivity |].
  unfold keep_test at 1. destruct (mem k allowed); simpl; [apply IH |].
  destruct pats as [ps|]; simpl; [|apply IH].
  destruct (someM _ ps) as [[|]| | |]; simpl; try reflexivity; apply IH.
Qed.

Lemma filterDataEncr_idem allowed pats :
  idempotentM (fun d => filterDataEncr d allowed pats).
Proof.
  intros x y H.
  destruct (negb (truthy x) || negb (typeof_object x))%bool eqn:E.
  - unfold filterDataEncr in H. rewrite E in H. injection H as <-.
    unfold filterDataEncr. now rewrite E.
  - rewrite filterDataEncr_step in H by assumption.
    apply bind_Ok in H as (result & Hf & [= <-]).
    assert (Hinv : js_object result = true
                   /\ forall k, In k (keys result) -> keep_test allowed pats k = Ok true).
    { revert Hf.
      apply (foldM_inv
               (fun r => js_object r = true
                         /\ forall k, In k (keys r) -> keep_test allowed pats k = Ok true));
        [split; [reflexivity | intros k []] |].
      intros s k s' [Hjs Hk] Hs. apply bind_Ok in Hs as (b & Hb & [= <-]).
      destruct b; [|auto]. split; [now apply js_object_obj_set |].
      intros k' Hk'. apply keys_obj_set_In in Hk' as [->|Hk']; auto. }
    destruct Hinv as [Hjs Hk].
    rewrite filterDataEncr_step by reflexivity. simpl object_keys.
    rewrite foldM_pure
      with (g := fun acc k => obj_set k (get_own (VObj result) k) acc).
    + cbn [bind]. now rewrite rebuild_all.
    + intros s k Hin. now rewrite (Hk k Hin).
Qed.

Lemma same_keys_refl a : same_keys a a.
Proof. split; [intros o ->; eauto | reflexivity]. Qed.

Lemma same_keys_trans a b c : same_keys a b -> same_keys b c -> same_keys a c.
Proof.
  intros [H1 H2] [H3 H4]. split.
  - intros o Ha. destruct (H1 o Ha) as (o' & Hb & Hk).
    destruct (H3 o' Hb) as (o'' & Hc & Hk'). exists o''. split; congruence.
  - intros Ha. assert (Hb := H2 Ha). subst b. exact (H4 Ha).
Qed.

Lemma same_keys_nullish a b : same_keys a b -> nullish b = nullish a.
Proof.
  intros [H1 H2]. destruct a as [| |x|n|s|xs|o];
    try (rewrite H2 by discriminate; reflexivity).
  destruct (H1 o eq_refl) as (o' & -> & _). reflexivity.
Qed.

Lemma pick_fold_keys_congr v v' ks acc acc' :
  (forall k, In k ks -> has_property k v = has_property k v') ->
  keys acc = keys acc' ->
  keys (fold_left (pick_step v) ks acc) = keys (fold_left (pick_step v') ks acc').
Proof.
  revert acc acc'. induction ks as [|k ks IH]; intros acc acc' Hp Hk; simpl;
    [assumption |].
  apply IH; [intros k' Hk'; apply Hp; now right |].
  unfold pick_step. rewrite <- (Hp k) by (left; reflexivity).
  destruct (has_property k v); [|assumption].
  clear -Hk. unfold obj_set.
  assert (Hh : has_own k acc = has_own k acc').
  { destruct (has_own k acc') eqn:E.
    - apply has_own_In. rewrite Hk. now apply has_own_In.
    - apply has_own_false. rewrite Hk. now apply has_own_false. }
  rewrite Hh. destruct (has_own k acc').
  - now rewrite !keys_obj_update.
  - destruct (array_index k) as [n|].
    + clear Hh. revert acc' Hk. induction acc as [|[k0 v0] acc IHa];
        intros [|[k1 v1] acc'] Hk; simpl in *; try discriminate; [reflexivity |].
      injection Hk as E Hk. subst k1.
      destruct (array_index k0) as [n1|]; [destruct (n1 <? n)%N |]; simpl;
        try (now rewrite Hk).
      f_equal. now apply IHa.
    + unfold keys in *. rewrite !map_app. now rewrite Hk.
Qed.

(** Projecting again an object that has the keys of a projection returns
    it. *)
Lemma pick_stable x ks y :
  same_keys (pickProperties x ks) y -> pickProperties y ks = y.
Proof.
  intros [H1 H2].
  destruct (truthy x) eqn:Ht; [destruct (typeof_object x) eqn:Ho |].
  - rewrite pickProperties_object in H1 by assumption.
    destruct (H1 _ eq_refl) as (o' & -> & Hk).
    rewrite pickProperties_object by reflexivity. f_equal.
    assert (Hkeys : keys (fold_left (pick_step (VObj o')) ks []) = keys o').
    { rewrite Hk. apply pick_fold_keys_congr; [|reflexivity].
      intros k Hin. simpl.
      destruct (has_property k x) eqn:E.
      - apply has_own_In. rewrite Hk. apply pick_fold_keys. auto.
      - apply has_own_false. rewrite Hk. rewrite pick_fold_keys.
        simpl. intros [[]|[_ H]]. congruence. }
    apply obj_ext; [assumption | rewrite Hkeys, Hk; now apply pick_fold_NoDup; constructor |].
    intros k Hin. rewrite pick_fold_lookup. rewrite Hkeys in Hin.
    assert (Hh : has_own k o' = true) by now apply has_own_In.
    assert (Hm : mem k ks = true).
    { apply mem_In. rewrite Hk in Hin. apply pick_fold_keys in Hin as [[]|[H _]].
      assumption. }
    simpl has_property. rewrite Hm, Hh. simpl.
    unfold has_own in Hh. destruct (lookup k o'); [reflexivity | discriminate].
  - rewrite pickProperties_other in H2 by auto.
    rewrite H2 by (intros o ->; discriminate).
    apply pickProperties_other. auto.
  - rewrite pickProperties_other in H2 by auto.
    rewrite H2 by (intros o ->; discriminate).
    apply pickProperties_other. auto.
Qed.

Lemma pickProperties_idem x ks :
  pickProperties (pickProperties x ks) ks = pickProperties x ks.
Proof. apply (pick_stable x). apply same_keys_refl. Qed.

Lemma mapM_idem f xs ys : idempotentM f -> mapM f xs = Ok ys -> mapM f ys = Ok ys.
Proof.
  intros Hf H. apply mapM_Forall2 in H. apply mapM_Forall2.
  induction H as [|x y xs ys Hxy _ IH]; constructor; [|assumption].
  now apply (Hf x).
Qed.

Lemma update_truthy_establishes filtered k f r :
  named k = true ->
  update_truthy filtered k f = Ok r ->
  idempotentM f ->
  fixed_truthy k f r
  /\ same_keys filtered r
  /\ nullish filtered = false
  /\ (forall k', k' <> k -> get_opt r k' = get_opt filtered k').
Proof.
  intros Hk Hr Hf.
  destruct (update_truthy_cases _ _ _ _ Hk Hr)
    as [(-> & Ht & Hn)|(o & x & y & -> & Hl & Ht & Hfx & ->)].
  - repeat split; auto.
    + intros H. congruence.
    + intros o ->. eauto.
  - assert (Hh := lookup_has_own _ _ _ Hl). repeat split.
    + unfold fixed_truthy. rewrite get_opt_obj_update, String.eqb_refl by assumption.
      intros _. now apply (Hf x).
    + intros o' [= <-]. eexists. split; [reflexivity | apply keys_obj_update].
    + intros H. now destruct (H o).
    + intros k' Hne. rewrite get_opt_obj_update by assumption.
      destruct (String.eqb_spec k' k); [congruence | reflexivity].
Qed.

Lemma update_array_establishes filtered k f r :
  named k = true ->
  update_array filtered k f = Ok r ->
  idempotentM f ->
  fixed_array k f r
  /\ same_keys filtered r
  /\ nullish filtered = false
  /\ (forall k', k' <> k -> get_opt r k' = get_opt filtered k').
Proof.
  intros Hk Hr Hf.
  destruct (update_array_cases _ _ _ _ Hk Hr)
    as [(-> & Ha & Hn)|(o & xs & ys & -> & Hl & Hm & ->)].
  - repeat split; auto.
    + intros xs H. rewrite H in Ha. discriminate.
    + intros o ->. eauto.
  - assert (Hh := lookup_has_own _ _ _ Hl). repeat split.
    + unfold fixed_array. rewrite get_opt_obj_update, String.eqb_refl by assumption.
      intros zs [= <-]. now apply (mapM_idem f xs).
    + intros o' [= <-]. eexists. split; [reflexivity | apply keys_obj_update].
    + intros H. now destruct (H o).
    + intros k' Hne. rewrite get_opt_obj_update by assumption.
      destruct (String.eqb_spec k' k); [congruence | reflexivity].
Qed.

Lemma set_prop_same z k :
  truthy (get_own z k) = true -> named k = true ->
  set_prop z k (get_own z k) = Ok z.
Proof.
  intros Ht Hk.
  destruct z as [| |b|n|s|xs|o];
    try (rewrite get_own_named in Ht by (assumption || discriminate); discriminate).
  destruct (lookup_truthy _ _ Ht) as [Hl Hh]. simpl set_prop.
  rewrite obj_set_present by assumption. now rewrite obj_update_same.
Qed.

Lemma update_truthy_fixed z k f :
  named k = true -> nullish z = false -> fixed_truthy k f z ->
  update_truthy z k f = Ok z.
Proof.
  intros Hk Hn Hfix. unfold fixed_truthy, get_opt in Hfix. rewrite Hn in Hfix.
  unfold update_truthy, get_prop. rewrite Hn. simpl.
  destruct (truthy (get_own z k)) eqn:Ht; [|reflexivity].
  rewrite Hfix by reflexivity. simpl. now apply set_prop_same.
Qed.

Lemma update_array_fixed z k f :
  named k = true -> nullish z = false -> fixed_array k f z ->
  update_array z k f = Ok z.
Proof.
  intros Hk Hn Hfix. unfold fixed_array, get_opt in Hfix. rewrite Hn in Hfix.
  unfold update_array, get_prop. rewrite Hn. simpl.
  destruct (get_own z k) as [| |b|n|s|xs|d] eqn:Ex; simpl;
    try (destruct (_ && false)%bool); try reflexivity.
  rewrite (Hfix xs eq_refl). simpl. rewrite <- Ex. apply set_prop_same; [|assumption].
  now rewrite Ex.
Qed.

Lemma fixed_truthy_transport k f r y :
  get_opt y k = get_opt r k -> fixed_truthy k f r -> fixed_truthy k f y.
Proof. unfold fixed_truthy. now intros ->. Qed.

Lemma fixed_array_transport k f r y :
  get_opt y k = get_opt r k -> fixed_array k f r -> fixed_array k f y.
Proof. unfold fixed_array. now intros ->. Qed.

Lemma same_keys_pick_truthy x ks y :
  truthy x = true -> same_keys (pickProperties x ks) y -> truthy y = true.
Proof.
  intros Ht [H1 H2]. destruct (typeof_object x) eqn:Eo.
  - rewrite pickProperties_object in H1 by assumption.
    destruct (H1 _ eq_refl) as (o' & -> & _). reflexivity.
  - rewrite pickProperties_other in H2 by auto.
    rewrite H2; [assumption |]. intros o ->. discriminate.
Qed.

Section IdempotenceProofs.

Variable CONFIG : Config.

Lemma filterCareAfterPhone_idem : idempotentM (filterCareAfterPhone CONFIG).
Proof.
  intros x y. unfold filterCareAfterPhone. intros [= <-].
  now rewrite pickProperties_idem.
Qed.

Lemma filterCareAfter_idem : idempotentM (filterCareAfter CONFIG).
Proof.
  intros x y H. unfold filterCareAfter in H.
  apply update_truthy_establishes in H as (Hfix & Hsk & Hn & _);
    [| reflexivity | apply filterDataEncr_idem].
  unfold filterCareAfter. rewrite (pick_stable x) by assumption.
  apply update_truthy_fixed; [reflexivity | | assumption].
  now rewrite (same_keys_nullish _ _ Hsk).
Qed.

Lemma filterChild_idem : idempotentM (filterChild CONFIG).
Proof.
  intros x y H. unfold filterChild in H.
  apply update_truthy_establishes in H as (Hfix & Hsk & Hn & _);
    [| reflexivity | apply filterDataEncr_idem].
  unfold filterChild. rewrite (pick_stable x) by assumption.
  apply update_truthy_fixed; [reflexivity | | assumption].
  now rewrite (same_keys_nullish _ _ Hsk).
Qed.

Lemma filterBirth_idem : idempotentM (filterBirth CONFIG).
Proof.
  intros x y H. unfold filterBirth in H.
  destruct (negb (truthy x)) eqn:Et; [injection H as <-; reflexivity |].
  apply bind_Ok in H as (f1 & H1 & H2).
  apply update_truthy_establishes in H1 as (Hfix1 & Hsk1 & Hn1 & _);
    [| reflexivity | apply filterDataEncr_idem].
  apply update_array_establishes in H2 as (Hfix2 & Hsk2 & Hn2 & Ho2);
    [| reflexivity | apply filterChild_idem].
  assert (Hsk : same_keys (pickProperties x (whitelist_birth CONFIG)) y)
    by (eapply same_keys_trans; eassumption).
  assert (Hny : nullish y = false) by now rewrite (same_keys_nullish _ _ Hsk).
  unfold filterBirth.
  assert (Hty : negb (truthy y) = false).
  { apply negb_false_iff in Et. apply negb_false_iff.
    now apply (same_keys_pick_truthy x (whitelist_birth CONFIG)). }
  rewrite Hty, (pick_stable x) by assumption.
  rewrite update_truthy_fixed; [simpl | reflexivity | assumption |].
  - now apply update_array_fixed.
  - eapply fixed_truthy_transport; [|eassumption]. now apply Ho2.
Qed.

Lemma filterPregnancy_idem : idempotentM (filterPregnancy CONFIG).
Proof.
  intros x y H. unfold filterPregnancy in H.
  apply bind_Ok in H as (f1 & H1 & H).
  apply bind_Ok in H as (f2 & H2 & H).
  apply bind_Ok in H as (f3 & H3 & H4).
  apply update_truthy_establishes in H1 as (Hfix1 & Hsk1 & Hn1 & _);
    [| reflexivity | apply filterDataEncr_idem].
  apply update_truthy_establishes in H2 as (Hfix2 & Hsk2 & Hn2 & Ho2);
    [| reflexivity | apply filterBirth_idem].
  apply update_array_establishes in H3 as (Hfix3 & Hsk3 & Hn3 & Ho3);
    [| reflexivity | apply filterCareAfter_idem].
  apply update_array_establishes in H4 as (Hfix4 & Hsk4 & Hn4 & Ho4);
    [| reflexivity | apply filterCareAfterPhone_idem].
  assert (Hsk : same_keys (pickProperties x (whitelist_pregnancy CONFIG)) y).
  { eapply same_keys_trans; [eassumption |].
    eapply same_keys_trans; [eassumption |].
    eapply same_keys_trans; eassumption. }
  assert (Hny : nullish y = false) by now rewrite (same_keys_nullish _ _ Hsk).
  unfold filterPregnancy. rewrite (pick_stable x) by assumption.
  rewrite update_truthy_fixed; [simpl | reflexivity | assumption |].
  2:{ eapply fixed_truthy_transport; [|eassumption].
      rewrite Ho4, Ho3, Ho2 by discriminate. reflexivity. }
  rewrite update_truthy_fixed; [simpl | reflexivity | assumption |].
  2:{ eapply fixed_truthy_transport; [|eassumption].
      rewrite Ho4, Ho3 by discriminate. reflexivity. }
  rewrite update_array_fixed; [simpl | reflexivity | assumption |].
  2:{ eapply fixed_array_transport; [|eassumption].
      rewrite Ho4 by discriminate. reflexivity. }
  now apply update_array_fixed.
Qed.

Lemma filterClient_idem : idempotentM (filterClient CONFIG).
Proof.
  intros x y H. unfold filterClient in H.
  apply update_array_establishes in H as (Hfix & Hsk & Hn & _);
    [| reflexivity | apply filterPregnancy_idem].
  unfold filterClient. rewrite (pick_stable x) by assumption.
  apply update_array_fixed; [reflexivity | | assumption].
  now rewrite (same_keys_nullish _ _ Hsk).
Qed.

End IdempotenceProofs.

Lemma idempotentM_bind (f : value -> outcome value) x :
  idempotentM f -> (y <- f x ;; f y) = f x.
Proof.
  intros Hf. destruct (f x) as [y| | |] eqn:E; simpl; try reflexivity.
  now apply (Hf x).
Qed.

(* ------------------------------------------------------------------------- *)
(** ** Strict validation *)

Lemma validateEntity_one entity field chk :
  Entity.valid (validateEntity entity [field] chk)
  = isValidValue (get_opt entity field) chk.
Proof. simpl. destruct (isValidValue _ _); reflexivity. Qed.

Lemma isValidValue_not_nullish v chk : isValidValue v chk = true -> nullish v = false.
Proof. unfold isValidValue. destruct (nullish v); [discriminate | reflexivity]. Qed.

Lemma get_prop_valid entity k chk :
  isValidValue (get_opt entity k) chk = true ->
  get_prop entity k = Ok (get_opt entity k).
Proof.
  intros H. apply isValidValue_not_nullish in H.
  now destruct (get_opt_not_nullish _ _ H).
Qed.

Lemma template_printable v : printable v = true -> template v = Ok (to_string v).
Proof. unfold template. now intros ->. Qed.

Lemma strict_check_pregnancy_ok i p :
  pregnancy_ok_strict p = true -> Strict.check_pregnancy i p = Ok None.
Proof.
  unfold pregnancy_ok_strict, Strict.check_pregnancy. intros H.
  apply andb_true_iff in H as [Hb Hc]. change (required_pregnancy Strict.CONFIG) with ["birth"].
  change (required_birth Strict.CONFIG) with ["children"].
  rewrite validateEntity_one, Hb. cbn [negb].
  rewrite (get_prop_valid _ _ _ Hb). cbn [bind].
  destruct (truthy (get_opt p "birth")); [|reflexivity].
  rewrite validateEntity_one, Hc. reflexivity.
Qed.

Lemma strict_check_pregnancy_bad i p r :
  pregnancy_ok_strict p = false ->
  Strict.check_pregnancy i p = Ok r ->
  exists v, r = Some v /\ valid v = false.
Proof.
  unfold pregnancy_ok_strict, Strict.check_pregnancy. intros H.
  change (required_pregnancy Strict.CONFIG) with ["birth"].
  change (required_birth Strict.CONFIG) with ["children"].
  rewrite validateEntity_one.
  destruct (isValidValue (get_opt p "birth") false) eqn:Hb; cbn [negb andb] in *.
  - rewrite (get_prop_valid _ _ _ Hb). cbn [bind].
    destruct (truthy (get_opt p "birth")); [|discriminate].
    rewrite validateEntity_one, H. cbn [negb].
    intros Hr. apply bind_Ok in Hr as (pid & _ & Hr).
    apply bind_Ok in Hr as (shown & _ & [= <-]). eauto.
  - intros Hr. apply bind_Ok in Hr as (pid & _ & Hr).
    apply bind_Ok in Hr as (shown & _ & [= <-]). eauto.
Qed.

Lemma strict_check_pregnancies_valid i ps r :
  Strict.check_pregnancies i ps = Ok r ->
  valid r = forallb pregnancy_ok_strict ps.
Proof.
  revert i. induction ps as [|p ps IH]; intros i; simpl.
  - now intros [= <-].
  - intros H. apply bind_Ok in H as (c & Hc & H).
    destruct (pregnancy_ok_strict p) eqn:Ep.
    + rewrite strict_check_pregnancy_ok in Hc by assumption.
      injection Hc as <-. simpl. now apply IH in H.
    + destruct (strict_check_pregnancy_bad _ _ _ Ep Hc) as (v & -> & Hv).
      injection H as <-. assumption.
Qed.

Lemma strict_check_pregnancies_ok i ps :
  forallb pregnancy_ok_strict ps = true ->
  Strict.check_pregnancies i ps = Ok {| valid := true; reason := None |}.
Proof.
  revert i. induction ps as [|p ps IH]; intros i; simpl; [reflexivity |].
  intros H. apply andb_true_iff in H as [Hp Hps].
  rewrite strict_check_pregnancy_ok by assumption. simpl. now apply IH.
Qed.

Lemma strict_validateClient_valid client r :
  Strict.validateClient client = Ok r -> valid r = client_ok_strict client.
Proof.
  unfold Strict.validateClient, client_ok_strict. change (required_client Strict.CONFIG) with ["pregnancies"].
  rewrite validateEntity_one.
  destruct (isValidValue (get_opt client "pregnancies") true) eqn:Hp; simpl.
  - rewrite (get_prop_valid _ _ _ Hp). simpl.
    assert (Hn := isValidValue_not_nullish _ _ Hp). rewrite Hn.
    apply get_opt_not_nullish in Hn as [Hc _].
    unfold get_opt. rewrite Hc.
    destruct (indexed (get_own client "pregnancies")) as [ps| | |]; simpl;
      try discriminate.
    apply strict_check_pregnancies_valid.
  - now intros [= <-].
Qed.

Lemma strict_validateClient_ok client :
  client_ok_strict client = true ->
  Strict.validateClient client = Ok {| valid := true; reason := None |}.
Proof.
  unfold Strict.validateClient, client_ok_strict. change (required_client Strict.CONFIG) with ["pregnancies"].
  rewrite validateEntity_one. intros H. apply andb_true_iff in H as [Hp Hps].
  rewrite Hp. simpl. rewrite (get_prop_valid _ _ _ Hp). simpl.
  assert (Hn := isValidValue_not_nullish _ _ Hp). rewrite Hn.
  apply get_opt_not_nullish in Hn as [Hc _].
  unfold get_opt. rewrite Hc.
  destruct (indexed (get_own client "pregnancies")) as [ps| | |]; simpl;
    try discriminate.
  now apply strict_check_pregnancies_ok.
Qed.

(** C2, as amended.  The strict [validateClient] answers valid exactly when
    [pregnancies] is neither null, undefined nor an empty array and every
    element the index loop visits has a [birth] that is not null or undefined
    and, when that birth is truthy, [children] that is neither null, undefined
    nor an empty array; a valid client is emitted whole, as [filterClient]
    returns it, and a client found invalid is skipped whole and recorded with
    its id and the reason. *)
Theorem strict_validation_exact (client : value) :
  (Strict.validateClient client = Ok {| valid := true; reason := None |}
   <-> client_ok_strict client = true)
  /\ (forall r, Strict.validateClient client = Ok r ->
                valid r = client_ok_strict client)
  /\ (forall out res,
        client_ok_strict client = true ->
        Strict.process_client (out, res) client
        = (filteredClient <- filterClient Strict.CONFIG client ;;
           Ok (out ++ [filteredClient],
               {| Strict.totalClients := Strict.totalClients res;
                  Strict.successCount := S (Strict.successCount res);
                  Strict.skippedCount := Strict.skippedCount res;
                  Strict.skippedClients := Strict.skippedClients res |})))
  /\ (forall out res r,
        Strict.validateClient client = Ok r ->
        valid r = false ->
        nullish client = false ->
        Strict.process_client (out, res) client
        = Ok (out,
              {| Strict.totalClients := Strict.totalClients res;
                 Strict.successCount := Strict.successCount res;
                 Strict.skippedCount := S (Strict.skippedCount res);
                 Strict.skippedClients :=
                   Strict.skippedClients res
                     ++ [{| SkippedClient.id := get_own client "id";
                            SkippedClient.reason := reason r |}] |})).
Proof.
  split; [|split; [|split]].
  - split; [|apply strict_validateClient_ok].
    intros H. now rewrite <- (strict_validateClient_valid _ _ H).
  - apply strict_validateClient_valid.
  - intros out res H. unfold Strict.process_client.
    now rewrite strict_validateClient_ok.
  - intros out res r Hr Hv Hn. unfold Strict.process_client.
    rewrite Hr. simpl. rewrite Hv. unfold get_prop. now rewrite Hn.
Qed.

Lemma strict_validation_exact_witness :
  Strict.process_client
    ([], {| Strict.totalClients := 1; Strict.successCount := 0;
            Strict.skippedCount := 0; Strict.skippedClients := [] |})
    Sample.client_missing_birth
  = Ok ([], {| Strict.totalClients := 1; Strict.successCount := 0;
               Strict.skippedCount := 1;
               Strict.skippedClients :=
                 [{| SkippedClient.id := VNum 4;
                     SkippedClient.reason :=
                       Some "Pregnancy[1] (id: 12): Missing required field 'pregnancy.birth' (defined in CONFIG.required.pregnancy)" |}] |})
  /\ Strict.validateClient Sample.client
     = Ok {| valid := true; reason := None |}.
Proof.
  split.
  - exact (proj2 (proj2 (proj2 (strict_validation_exact Sample.client_missing_birth)))
             [] _ _ eq_refl eq_refl eq_refl).
  - exact (proj2 (proj1 (strict_validation_exact Sample.client)) eq_refl).
Defined.

(** C2, as the claim words it, fails: a client whose [pregnancies] is a plain
    object is valid for the strict [validateClient] and is emitted, although
    its [pregnancies] is no non-empty array. *)
Lemma strict_valid_without_array :
  Strict.validateClient Sample.client_object_pregnancies
  = Ok {| valid := true; reason := None |}
  /\ client_ok_arrays_only Sample.client_object_pregnancies = false
  /\ Strict.processData (VArr [Sample.client_object_pregnancies])
     = Ok ([VObj [("id", VNum 3); ("pregnancies", VObj [])]],
           {| Strict.totalClients := 1; Strict.successCount := 1;
              Strict.skippedCount := 0; Strict.skippedClients := [] |}).
Proof. repeat split. Qed.

(** On records of the data model the strict check is the reading with arrays
    only: the two part on values of another type alone. *)
Lemma strict_pregnancy_arrays_only_on_typed p :
  typed_pregnancy p = true -> pregnancy_ok_strict p = pregnancy_ok_arrays_only p.
Proof.
  unfold typed_pregnancy, pregnancy_ok_strict, pregnancy_ok_arrays_only.
  destruct (get_opt p "birth") as [| |b|n|s|xs|o]; try discriminate;
    try reflexivity.
  cbn [object_or_absent andb truthy].
  destruct (get_opt (VObj o) "children") as [| |b|n|s|xs|o']; try discriminate;
    try reflexivity.
  now destruct xs.
Qed.

Lemma strict_arrays_only_on_typed client :
  typed_client client = true ->
  client_ok_strict client = client_ok_arrays_only client.
Proof.
  unfold typed_client, client_ok_strict, client_ok_arrays_only.
  destruct (get_opt client "pregnancies") as [| |b|n|s|ps|o] eqn:E;
    try discriminate; try reflexivity.
  intros Ht.
  assert (Eo : get_own client "pregnancies" = VArr ps).
  { unfold get_opt in E. destruct (nullish client); [discriminate | assumption]. }
  rewrite Eo. cbn [indexed].
  destruct ps as [|p ps]; [reflexivity |].
  change (isValidValue (VArr (p :: ps)) true) with true. cbn [andb].
  revert Ht. generalize (p :: ps). clear. intros ps.
  induction ps as [|q ps IH]; simpl; [reflexivity |].
  intros H. apply andb_true_iff in H as [Hq Hps].
  now rewrite (strict_pregnancy_arrays_only_on_typed q Hq), IH.
Qed.

(* ------------------------------------------------------------------------- *)
(** ** Salvage validation *)

Lemma validateEntity_three entity f1 f2 f3 chk :
  Entity.valid (validateEntity entity [f1; f2; f3] chk)
  = (isValidValue (get_opt entity f1) chk
     && isValidValue (get_opt entity f2) chk
     && isValidValue (get_opt entity f3) chk)%bool.
Proof.
  simpl. repeat (destruct (isValidValue _ _); simpl; try reflexivity).
Qed.

(** [validatePregnancy] always returns, and answers [pregnancy_ok_salvage]. *)
Lemma salvage_validatePregnancy p :
  exists r, Salvage.validatePregnancy p = Ok r
            /\ valid r = pregnancy_ok_salvage p
            /\ reason r = pregnancy_reason p.
Proof.
  unfold pregnancy_reason, pregnancy_ok_salvage, Salvage.validatePregnancy.
  change (required_pregnancy Salvage.CONFIG)
    with ["birth"; "cares_after"; "cares_after_phone"].
  change (required_birth Salvage.CONFIG) with ["children"].
  cbn [validateEntity].
  destruct (isValidValue (get_opt p "birth") true) eqn:Hb; cbn [negb andb];
    [|eexists; repeat split; reflexivity].
  destruct (isValidValue (get_opt p "cares_after") true); cbn [negb andb];
    [|eexists; repeat split; reflexivity].
  destruct (isValidValue (get_opt p "cares_after_phone") true); cbn [negb andb];
    [|eexists; repeat split; reflexivity].
  cbn [Entity.valid negb].
  rewrite (get_prop_valid _ _ _ Hb). cbn [bind].
  destruct (truthy (get_opt p "birth")); cbn [andb];
    [|eexists; repeat split; reflexivity].
  destruct (isValidValue (get_opt (get_opt p "birth") "children") true);
    cbn [negb Entity.valid]; eexists; repeat split; reflexivity.
Qed.

Lemma get_prop_Ok v k x : get_prop v k = Ok x -> x = get_own v k /\ nullish v = false.
Proof.
  unfold get_prop. destruct (nullish v); [discriminate |]. now intros [= <-].
Qed.

Lemma add_skipped_nil res : add_skipped res [] = res.
Proof.
  destruct res. unfold add_skipped. simpl. now rewrite Nat.add_0_r, app_nil_r.
Qed.

Lemma add_skipped_cons res e es :
  add_skipped
    {| Salvage.totalClients := Salvage.totalClients res;
       Salvage.successCount := Salvage.successCount res;
       Salvage.skippedClientsCount := Salvage.skippedClientsCount res;
       Salvage.skippedClients := Salvage.skippedClients res;
       Salvage.skippedPregnanciesCount := S (Salvage.skippedPregnanciesCount res);
       Salvage.skippedPregnancies := Salvage.skippedPregnancies res ++ [e] |} es
  = add_skipped res (e :: es).
Proof.
  unfold add_skipped. simpl. f_equal; [lia | now rewrite <- app_assoc].
Qed.

(** The loop over the pregnancies of a client partitions them. *)
Lemma salvage_inner_loop client ps acc res st :
  foldM (Salvage.process_pregnancy client) (acc, res) ps = Ok st ->
  st = (acc ++ filter pregnancy_ok_salvage ps,
        add_skipped res
          (map (skipped_entry client)
               (filter (fun p => negb (pregnancy_ok_salvage p)) ps))).
Proof.
  revert acc res. induction ps as [|p ps IH]; intros acc res; simpl.
  - intros [= <-]. now rewrite app_nil_r, add_skipped_nil.
  - destruct (salvage_validatePregnancy p) as (r & Hr & Hv & Hwhy).
    unfold Salvage.process_pregnancy at 1. rewrite Hr. cbn [bind]. rewrite Hv.
    destruct (pregnancy_ok_salvage p); cbn [negb].
    + intros H. apply IH in H. now rewrite <- app_assoc in H.
    + intros H. apply bind_Ok in H as (st1 & H1 & H).
      apply bind_Ok in H1 as (cid & Hcid & H1).
      apply bind_Ok in H1 as (pid & Hpid & [= <-]).
      apply get_prop_Ok in Hcid as [-> _]. apply get_prop_Ok in Hpid as [-> _].
      apply IH in H. rewrite H. f_equal. rewrite Hwhy.
      apply add_skipped_cons.
Qed.

Lemma salvage_process_pregnancy_returns client st p :
  nullish client = false -> nullish p = false ->
  exists st', Salvage.process_pregnancy client st p = Ok st'.
Proof.
  intros Hc Hp. destruct st as [acc res].
  destruct (salvage_validatePregnancy p) as (r & Hr & _).
  unfold Salvage.process_pregnancy. rewrite Hr. cbn [bind].
  unfold get_prop. rewrite Hc, Hp. cbn [bind].
  destruct (valid r); eauto.
Qed.

Lemma salvage_inner_loop_total client ps acc res :
  nullish client = false ->
  forallb entity ps = true ->
  foldM (Salvage.process_pregnancy client) (acc, res) ps
  = Ok (acc ++ filter pregnancy_ok_salvage ps,
        add_skipped res
          (map (skipped_entry client)
               (filter (fun p => negb (pregnancy_ok_salvage p)) ps))).
Proof.
  intros Hc Hps.
  assert (H : exists st, foldM (Salvage.process_pregnancy client) (acc, res) ps = Ok st).
  { generalize (acc, res). clear acc res.
    induction ps as [|p ps IH]; intros st; simpl; [eauto |].
    simpl in Hps. apply andb_true_iff in Hps as [Hp Hps].
    apply negb_true_iff in Hp.
    destruct (salvage_process_pregnancy_returns client st p Hc Hp) as (st' & ->).
    cbn [bind]. now apply IH. }
  destruct H as (st & H). rewrite H. f_equal. now apply salvage_inner_loop.
Qed.

Lemma salvage_validateClient_valid c :
  valid (Salvage.validateClient c) = isValidValue (get_opt c "pregnancies") true.
Proof.
  unfold Salvage.validateClient.
  change (required_client Salvage.CONFIG) with ["pregnancies"].
  rewrite validateEntity_one.
  destruct (isValidValue (get_opt c "pregnancies") true); reflexivity.
Qed.

(** One turn of the salvage loop, whenever it returns: the client is skipped
    at the client level, or skipped for want of a valid pregnancy, or emitted
    with its valid pregnancies; the invalid ones are recorded. *)
Lemma salvage_process_client_spec out res c out' res' :
  Salvage.process_client (out, res) c = Ok (out', res') ->
  nullish c = false
  /\ ((valid (Salvage.validateClient c) = false
       /\ out' = out
       /\ res' = Salvage.skip_client res (get_own c "id")
                   (reason (Salvage.validateClient c)))
      \/ (valid (Salvage.validateClient c) = true
          /\ valid_pregnancies c = []
          /\ out' = out
          /\ res' = Salvage.skip_client (add_skipped res (skipped_entries c))
                      (get_own c "id")
                      (Some "No valid pregnancies remaining after validation"))
      \/ (valid (Salvage.validateClient c) = true
          /\ valid_pregnancies c <> []
          /\ exists fc,
               filterClient Salvage.CONFIG
                 (spread_with c "pregnancies" (VArr (valid_pregnancies c))) = Ok fc
               /\ out' = out ++ [fc]
               /\ res' = add_success (add_skipped res (skipped_entries c)))).
Proof.
  unfold Salvage.process_client, valid_pregnancies, skipped_entries,
    invalid_pregnancies, client_pregnancies.
  destruct (valid (Salvage.validateClient c)) eqn:Hv; cbn [negb].
  - intros H. apply bind_Ok in H as (pregs & Hp & H).
    apply get_prop_Ok in Hp as [-> Hn]. split; [assumption |].
    apply bind_Ok in H as (ps & Hps & H). rewrite Hps.
    apply bind_Ok in H as ([vps r'] & Hloop & H).
    apply salvage_inner_loop in Hloop. simpl in Hloop.
    injection Hloop as -> ->.
    destruct (filter pregnancy_ok_salvage ps) as [|v vs] eqn:Ef; cbn [List.length Nat.eqb] in H.
    + apply bind_Ok in H as (cid & Hcid & [= <- <-]).
      apply get_prop_Ok in Hcid as [-> _]. right. left. auto.
    + apply bind_Ok in H as (fc & Hfc & [= <- <-]).
      right. right. repeat split; [discriminate |]. exists fc. auto.
  - intros H. apply bind_Ok in H as (cid & Hcid & [= <- <-]).
    apply get_prop_Ok in Hcid as [-> Hn]. split; [assumption |]. left. auto.
Qed.

Lemma get_opt_obj_lookup o k v :
  lookup k o = Some v -> get_opt (VObj o) k = v /\ get_own (VObj o) k = v.
Proof. unfold get_opt. simpl. now intros ->. Qed.

Lemma filterClient_spread_pregnancies c vs fc :
  filterClient Salvage.CONFIG (spread_with c "pregnancies" (VArr vs)) = Ok fc ->
  exists fps,
    mapM (filterPregnancy Salvage.CONFIG) vs = Ok fps
    /\ get_own fc "pregnancies" = VArr fps.
Proof.
  unfold filterClient, spread_with.
  set (copy := match c with VObj o => _ | VArr xs => _ | VStr s => _ | _ => _ end).
  rewrite pickProperties_object by reflexivity.
  assert (Hl : lookup "pregnancies"
                 (fold_left (pick_step (VObj (obj_set "pregnancies" (VArr vs) copy)))
                            (whitelist_client Salvage.CONFIG) [])
               = Some (VArr vs)).
  { rewrite pick_fold_lookup. simpl has_property. rewrite has_own_obj_set.
    simpl. now rewrite lookup_obj_set. }
  revert Hl. generalize (fold_left
                           (pick_step (VObj (obj_set "pregnancies" (VArr vs) copy)))
                           (whitelist_client Salvage.CONFIG) []).
  intros picked Hl H. apply update_array_cases in H; [|reflexivity].
  destruct H as [(_ & Ha & _)|(o & xs & ys & [= <-] & Hx & Hm & ->)].
  - rewrite (proj1 (get_opt_obj_lookup _ _ _ Hl)) in Ha. discriminate.
  - rewrite Hl in Hx. injection Hx as <-. exists ys. split; [assumption |].
    assert (Hh := lookup_has_own _ _ _ Hl).
    apply (get_opt_obj_lookup _ "pregnancies").
    rewrite lookup_obj_update, Hh. reflexivity.
Qed.

Lemma get_opt_spread_with c k x : get_opt (spread_with c k x) k = x.
Proof.
  unfold spread_with, get_opt. cbn [nullish get_own].
  now rewrite lookup_obj_set, String.eqb_refl.
Qed.

Lemma spread_with_js_object o k x :
  js_object o = true -> spread_with (VObj o) k x = VObj (obj_set k x o).
Proof.
  intros Hjs. unfold spread_with. do 2 f_equal.
  assert (H := rebuild_js_object (fun _ => true) o Hjs [] o eq_refl).
  simpl in H. rewrite H.
  clear. induction o as [|kv o IH]; simpl; [reflexivity | now rewrite IH].
Qed.

(** The client the salvage variant emits: the id, when there is one, and the
    filtered valid pregnancies. *)
Lemma salvage_emitted_client o vs fc :
  js_object o = true ->
  filterClient Salvage.CONFIG (spread_with (VObj o) "pregnancies" (VArr vs)) = Ok fc ->
  exists fps,
    mapM (filterPregnancy Salvage.CONFIG) vs = Ok fps
    /\ fc = VObj (id_part o ++ [("pregnancies", VArr fps)]).
Proof.
  intros Hjs H.
  destruct (filterClient_spread_pregnancies _ _ _ H) as (fps & Hm & _).
  exists fps. split; [assumption |].
  rewrite spread_with_js_object in H by assumption.
  unfold filterClient in H. rewrite pickProperties_object in H by reflexivity.
  assert (Hpick : fold_left (pick_step (VObj (obj_set "pregnancies" (VArr vs) o)))
                    (whitelist_client Salvage.CONFIG) []
                  = id_part o ++ [("pregnancies", VArr vs)]).
  { simpl. unfold pick_step. simpl has_property. rewrite !has_own_obj_set.
    simpl. unfold id_part, has_own.
    rewrite !lookup_obj_set. simpl.
    destruct (lookup "id" o); reflexivity. }
  rewrite Hpick in H. unfold update_array in H.
  assert (Hg : get_prop (VObj (id_part o ++ [("pregnancies", VArr vs)])) "pregnancies"
               = Ok (VArr vs)).
  { unfold id_part. destruct (lookup "id" o); reflexivity. }
  rewrite Hg in H. cbn [bind truthy isArray andb] in H. rewrite Hm in H.
  cbn [bind] in H. injection H as <-.
  unfold id_part. destruct (lookup "id" o); reflexivity.
Qed.

(* ------------------------------------------------------------------------- *)
(** ** The filters return on records of the data model *)

Lemma keep_test_ok allowed pats k :
  patterns_ok pats = true -> keep_test allowed pats k = Ok (kept allowed pats k).
Proof.
  intros H. unfold keep_test, kept. destruct (mem k allowed); [reflexivity |].
  destruct pats as [ps|]; [|reflexivity]. now apply someM_matches.
Qed.

Lemma filterDataEncr_total d allowed pats :
  patterns_ok pats = true -> exists y, filterDataEncr d allowed pats = Ok y.
Proof.
  intros Hok.
  destruct (negb (truthy d) || negb (typeof_object d))%bool eqn:E.
  - exists d. unfold filterDataEncr. now rewrite E.
  - rewrite filterDataEncr_step by assumption.
    rewrite foldM_pure
      with (g := fun acc k => if kept allowed pats k
                              then obj_set k (get_own d k) acc else acc).
    + cbn [bind]. eauto.
    + intros s k _. now rewrite keep_test_ok.
Qed.

Lemma mapM_total {A B} (f : A -> outcome B) xs :
  (forall x, In x xs -> exists y, f x = Ok y) -> exists ys, mapM f xs = Ok ys.
Proof.
  induction xs as [|x xs IH]; intros H; simpl; [eauto |].
  destruct (H x (or_introl eq_refl)) as (y & ->).
  destruct IH as (ys & ->); [intros z Hz; apply H; now right |].
  cbn [bind]. eauto.
Qed.

Lemma set_prop_named_total filtered k y :
  named k = true -> truthy (get_own filtered k) = true ->
  exists r, set_prop filtered k y = Ok r.
Proof.
  intros Hk Ht.
  destruct filtered as [| |b|n|s|xs|o];
    try (rewrite get_own_named in Ht by (assumption || discriminate); discriminate).
  simpl. eauto.
Qed.

Lemma update_truthy_total filtered k f :
  named k = true ->
  nullish filtered = false ->
  (truthy (get_opt filtered k) = true -> exists y, f (get_opt filtered k) = Ok y) ->
  exists r, update_truthy filtered k f = Ok r.
Proof.
  intros Hk Hn Hf. unfold get_opt in Hf. rewrite Hn in Hf.
  unfold update_truthy, get_prop. rewrite Hn. cbn [bind].
  destruct (truthy (get_own filtered k)) eqn:Ht; [|eauto].
  destruct (Hf eq_refl) as (y & ->). cbn [bind].
  now apply set_prop_named_total.
Qed.

Lemma update_array_total filtered k f :
  named k = true ->
  nullish filtered = false ->
  (forall xs, get_opt filtered k = VArr xs -> exists ys, mapM f xs = Ok ys) ->
  exists r, update_array filtered k f = Ok r.
Proof.
  intros Hk Hn Hf. unfold get_opt in Hf. rewrite Hn in Hf.
  unfold update_array, get_prop. rewrite Hn. cbn [bind].
  destruct (get_own filtered k) as [| |b|n|s|xs|d] eqn:Ex; cbn [truthy isArray andb];
    try (destruct (_ && false)%bool); eauto.
  destruct (Hf xs eq_refl) as (ys & ->). cbn [bind].
  apply set_prop_named_total; [assumption | now rewrite Ex].
Qed.

Lemma nullish_pickProperties v ks : nullish (pickProperties v ks) = nullish v.
Proof.
  destruct (truthy v) eqn:Ht; [destruct (typeof_object v) eqn:Ho |].
  - rewrite pickProperties_object by assumption. destruct v; try discriminate; reflexivity.
  - now rewrite pickProperties_other by auto.
  - now rewrite pickProperties_other by auto.
Qed.

Lemma has_property_named k v :
  named k = true -> (forall o, v <> VObj o) -> has_property k v = false.
Proof.
  unfold named. intros H Hv. apply andb_true_iff in H as [Hl Hi].
  apply negb_true_iff in Hl.
  destruct v as [| |b|n|s|xs|o]; simpl; try reflexivity.
  - rewrite Hl. destruct (array_index k); [discriminate | reflexivity].
  - now destruct (Hv o).
Qed.

(** A named field of a projection is the field of the record when the key is
    whitelisted, and absent otherwise. *)
Lemma get_opt_pickProperties v ks k :
  named k = true ->
  get_opt (pickProperties v ks) k = if mem k ks then get_opt v k else VUndefined.
Proof.
  intros Hk.
  destruct (truthy v) eqn:Ht; [destruct (typeof_object v) eqn:Ho |].
  - rewrite pickProperties_object by assumption. unfold get_opt at 1.
    cbn [nullish get_own]. rewrite pick_fold_lookup. cbn [lookup].
    destruct (mem k ks); [|reflexivity]. cbn [andb].
    destruct v as [| |b|n|s|xs|o]; try discriminate.
    + rewrite has_property_named by (assumption || discriminate).
      unfold get_opt. cbn [nullish].
      now rewrite get_own_named by (assumption || discriminate).
    + unfold get_opt. simpl. unfold has_own. destruct (lookup k o); reflexivity.
  - rewrite pickProperties_other by auto.
    destruct (mem k ks); [reflexivity |].
    unfold get_opt. destruct (nullish v); [reflexivity |].
    apply get_own_named; [assumption |]. intros o ->. discriminate.
  - rewrite pickProperties_other by auto.
    destruct (mem k ks); [reflexivity |].
    unfold get_opt. destruct (nullish v); [reflexivity |].
    apply get_own_named; [assumption |]. intros o ->. discriminate.
Qed.

Lemma each_get_opt_pick P v ks k :
  named k = true ->
  each P (get_opt v k) = true ->
  each P (get_opt (pickProperties v ks) k) = true.
Proof.
  intros Hk H. rewrite get_opt_pickProperties by assumption.
  destruct (mem k ks); [assumption | reflexivity].
Qed.

Section Totality.

Variable CONFIG : Config.
Hypothesis patterns_in_fragment :
  patterns_ok (Some (dataEncr_careAfterDynamicPatterns CONFIG)) = true.

Lemma filterChild_total c :
  entity c = true -> exists r, filterChild CONFIG c = Ok r.
Proof.
  intros Hc. apply negb_true_iff in Hc. unfold filterChild.
  apply update_truthy_total; [reflexivity | now rewrite nullish_pickProperties |].
  intros _. now apply filterDataEncr_total.
Qed.

Lemma filterCareAfter_total c :
  entity c = true -> exists r, filterCareAfter CONFIG c = Ok r.
Proof.
  intros Hc. apply negb_true_iff in Hc. unfold filterCareAfter.
  apply update_truthy_total; [reflexivity | now rewrite nullish_pickProperties |].
  intros _. now apply filterDataEncr_total.
Qed.

Lemma mapM_each_total (f : value -> outcome value) v :
  (forall x, entity x = true -> exists y, f x = Ok y) ->
  each entity v = true ->
  forall xs, v = VArr xs -> exists ys, mapM f xs = Ok ys.
Proof.
  intros Hf He xs ->. simpl in He. apply mapM_total.
  intros x Hx. apply Hf. rewrite forallb_forall in He. now apply He.
Qed.

Lemma filterBirth_total b :
  shaped_birth b = true -> exists r, filterBirth CONFIG b = Ok r.
Proof.
  unfold shaped_birth. intros Hb. unfold filterBirth.
  destruct (truthy b) eqn:Ht; cbn [negb]; [|eauto].
  assert (Hn : nullish b = false) by (destruct b; try discriminate; reflexivity).
  destruct (update_truthy_total (pickProperties b (whitelist_birth CONFIG))
              "data_encr"
              (fun d => filterDataEncr d (dataEncr_birth CONFIG) None))
    as (f1 & H1);
    [reflexivity | now rewrite nullish_pickProperties
     | intros _; now apply filterDataEncr_total |].
  rewrite H1. cbn [bind].
  apply update_truthy_establishes in H1 as (_ & Hsk & _ & Ho);
    [| reflexivity | apply filterDataEncr_idem].
  apply update_array_total; [reflexivity | |].
  - rewrite (same_keys_nullish _ _ Hsk). now rewrite nullish_pickProperties.
  - apply (mapM_each_total (filterChild CONFIG)); [apply filterChild_total |].
    rewrite Ho by discriminate. now apply each_get_opt_pick.
Qed.

Lemma shaped_birth_through_pick p ks :
  shaped_birth (get_opt p "birth") = true ->
  shaped_birth (get_opt (pickProperties p ks) "birth") = true.
Proof.
  intros H. rewrite get_opt_pickProperties by reflexivity.
  destruct (mem "birth" ks); [assumption | reflexivity].
Qed.

Lemma filterPregnancy_total p :
  shaped_pregnancy p = true -> exists r, filterPregnancy CONFIG p = Ok r.
Proof.
  unfold shaped_pregnancy. intros H.
  apply andb_true_iff in H as [H Hca]. apply andb_true_iff in H as [Hp Hb].
  apply negb_true_iff in Hp. unfold filterPregnancy.
  set (f0 := pickProperties p (whitelist_pregnancy CONFIG)).
  assert (Hn0 : nullish f0 = false) by (unfold f0; now rewrite nullish_pickProperties).
  destruct (update_truthy_total f0 "data_encr"
              (fun d => filterDataEncr d (dataEncr_pregnancy CONFIG) None))
    as (f1 & H1);
    [reflexivity | assumption | intros _; now apply filterDataEncr_total |].
  rewrite H1. cbn [bind].
  apply update_truthy_establishes in H1 as (_ & Hsk1 & _ & Ho1);
    [| reflexivity | apply filterDataEncr_idem].
  assert (Hn1 : nullish f1 = false) by now rewrite (same_keys_nullish _ _ Hsk1).
  destruct (update_truthy_total f1 "birth" (filterBirth CONFIG)) as (f2 & H2);
    [reflexivity | assumption | |].
  { intros _. apply filterBirth_total. rewrite Ho1 by discriminate.
    now apply shaped_birth_through_pick. }
  rewrite H2. cbn [bind].
  apply update_truthy_establishes in H2 as (_ & Hsk2 & _ & Ho2);
    [| reflexivity | apply filterBirth_idem].
  assert (Hn2 : nullish f2 = false) by now rewrite (same_keys_nullish _ _ Hsk2).
  destruct (update_array_total f2 "cares_after" (filterCareAfter CONFIG)) as (f3 & H3);
    [reflexivity | assumption | |].
  { apply (mapM_each_total (filterCareAfter CONFIG)); [apply filterCareAfter_total |].
    rewrite Ho2, Ho1 by discriminate. now apply each_get_opt_pick. }
  rewrite H3. cbn [bind].
  apply update_array_establishes in H3 as (_ & Hsk3 & _ & _);
    [| reflexivity | apply filterCareAfter_idem].
  apply update_array_total; [reflexivity | now rewrite (same_keys_nullish _ _ Hsk3) |].
  intros xs _. apply mapM_total. intros x _. unfold filterCareAfterPhone. eauto.
Qed.

Lemma filterClient_total c :
  entity c = true ->
  each shaped_pregnancy (get_opt c "pregnancies") = true ->
  exists r, filterClient CONFIG c = Ok r.
Proof.
  intros Hc Hps. apply negb_true_iff in Hc. unfold filterClient.
  apply update_array_total; [reflexivity | now rewrite nullish_pickProperties |].
  intros xs Hx. apply mapM_total. intros x Hin. apply filterPregnancy_total.
  assert (He := each_get_opt_pick shaped_pregnancy c (whitelist_client CONFIG)
                  "pregnancies" eq_refl Hps).
  rewrite Hx in He. simpl in He. rewrite forallb_forall in He. now apply He.
Qed.

End Totality.

(* ------------------------------------------------------------------------- *)
(** ** The salvage policy *)

Lemma salvage_validatePregnancy_eq p :
  Salvage.validatePregnancy p
  = Ok {| valid := pregnancy_ok_salvage p; reason := pregnancy_reason p |}.
Proof.
  destruct (salvage_validatePregnancy p) as ([v why] & -> & Hv & Hwhy).
  simpl in *. now subst.
Qed.

Lemma salvage_invalid_has_reason p :
  pregnancy_ok_salvage p = false -> pregnancy_reason p <> None.
Proof.
  unfold pregnancy_reason, pregnancy_ok_salvage.
  destruct (isValidValue (get_opt p "birth") true); cbn [negb andb];
    [|discriminate].
  destruct (isValidValue (get_opt p "cares_after") true); cbn [negb andb];
    [|discriminate].
  destruct (isValidValue (get_opt p "cares_after_phone") true); cbn [negb andb];
    [|discriminate].
  destruct (truthy (get_opt p "birth")); [|discriminate].
  intros ->. discriminate.
Qed.

Lemma forallb_filter {A} (P Q : A -> bool) xs :
  forallb P xs = true -> forallb P (filter Q xs) = true.
Proof.
  rewrite !forallb_forall. intros H x Hx. apply filter_In in Hx as [Hx _]. auto.
Qed.

Lemma shaped_pregnancy_entity ps :
  forallb shaped_pregnancy ps = true -> forallb entity ps = true.
Proof.
  rewrite !forallb_forall. intros H x Hx. specialize (H x Hx).
  unfold shaped_pregnancy in H. apply andb_true_iff in H as [H _].
  now apply andb_true_iff in H as [H _].
Qed.

Lemma salvage_filterClient_valids o vs :
  js_object o = true ->
  forallb shaped_pregnancy vs = true ->
  exists fps,
    mapM (filterPregnancy Salvage.CONFIG) vs = Ok fps
    /\ filterClient Salvage.CONFIG (spread_with (VObj o) "pregnancies" (VArr vs))
       = Ok (VObj (id_part o ++ [("pregnancies", VArr fps)])).
Proof.
  intros Hjs Hvs.
  destruct (filterClient_total Salvage.CONFIG eq_refl
              (spread_with (VObj o) "pregnancies" (VArr vs))) as (fc & Hfc).
  - reflexivity.
  - rewrite spread_with_js_object by assumption.
    assert (E : lookup "pregnancies" (obj_set "pregnancies" (VArr vs) o)
                = Some (VArr vs))
      by (rewrite lookup_obj_set; now rewrite String.eqb_refl).
    now rewrite (proj1 (get_opt_obj_lookup _ _ _ E)).
  - destruct (salvage_emitted_client _ _ _ Hjs Hfc) as (fps & Hm & ->). eauto.
Qed.

Lemma salvage_keeps_valid_pregnancies_general o ps out res :
  js_object o = true ->
  lookup "pregnancies" o = Some (VArr ps) ->
  ps <> [] ->
  forallb shaped_pregnancy ps = true ->
  exists st', Salvage.process_client (out, res) (VObj o) = Ok st'.
Proof.
  intros Hjs Hl Hne Hsh.
  unfold Salvage.process_client. rewrite salvage_validateClient_valid.
  rewrite (proj1 (get_opt_obj_lookup _ _ _ Hl)).
  assert (Hval : isValidValue (VArr ps) true = true)
    by (destruct ps; [congruence | reflexivity]).
  rewrite Hval. cbn [negb]. unfold get_prop. cbn [nullish].
  rewrite (proj2 (get_opt_obj_lookup _ _ _ Hl)). cbn [bind iterate].
  rewrite salvage_inner_loop_total;
    [| reflexivity | now apply shaped_pregnancy_entity].
  cbn [bind]. rewrite !app_nil_l.
  destruct (filter pregnancy_ok_salvage ps) as [|v vs] eqn:Ev;
    cbn [List.length Nat.eqb bind]; [eauto |].
  destruct (salvage_filterClient_valids o (v :: vs) Hjs) as (fps & Hm & Hfc).
  { rewrite <- Ev. now apply forallb_filter. }
  rewrite Hfc. cbn [bind]. eauto.
Qed.

(** C1, as amended.  For a client object whose [pregnancies] is a non-empty
    array of pregnancy records, none of them null or undefined and none with
    a null or undefined entry in its [cares_after] or in the [children] of
    its birth, the salvage variant validates each pregnancy on its own
    ([birth], [cares_after] and [cares_after_phone] with non-empty-array
    semantics, and [birth.children] when the birth is truthy), giving for a
    failing one the message that names the first missing field; it records
    every failing pregnancy as a skipped-pregnancy entry with the client id,
    the pregnancy id and that reason, in order, and then either skips the
    client with the reason that no valid pregnancy remains, when none does, or
    emits the client with exactly its valid pregnancies, filtered. *)
Theorem salvage_keeps_valid_pregnancies
    (o : obj) (ps out : list value) (res : Salvage.results) :
  js_object o = true ->
  lookup "pregnancies" o = Some (VArr ps) ->
  ps <> [] ->
  forallb shaped_pregnancy ps = true ->
  let client := VObj o in
  let valids := filter pregnancy_ok_salvage ps in
  let invalids := filter (fun p => negb (pregnancy_ok_salvage p)) ps in
  let res1 := add_skipped res (map (skipped_entry client) invalids) in
  (forall p, Salvage.validatePregnancy p
             = Ok {| valid := pregnancy_ok_salvage p; reason := pregnancy_reason p |})
  /\ (forall p, pregnancy_ok_salvage p = false -> pregnancy_reason p <> None)
  /\ (valids = [] ->
      Salvage.process_client (out, res) client
      = Ok (out,
            Salvage.skip_client res1 (get_own client "id")
              (Some "No valid pregnancies remaining after validation")))
  /\ (valids <> [] ->
      exists fps,
        mapM (filterPregnancy Salvage.CONFIG) valids = Ok fps
        /\ Salvage.process_client (out, res) client
           = Ok (out ++ [VObj (id_part o ++ [("pregnancies", VArr fps)])],
                 add_success res1)).
Proof.
  intros Hjs Hl Hne Hsh client valids invalids res1.
  split; [apply salvage_validatePregnancy_eq |].
  split; [apply salvage_invalid_has_reason |].
  assert (Hstep :
    Salvage.process_client (out, res) client
    = (if (List.length valids =? 0)%nat then
         cid <- get_prop client "id" ;;
         Ok (out, Salvage.skip_client res1 cid
                    (Some "No valid pregnancies remaining after validation"))
       else
         filteredClient <- filterClient Salvage.CONFIG
                             (spread_with client "pregnancies" (VArr valids)) ;;
         Ok (out ++ [filteredClient], add_success res1))).
  { unfold Salvage.process_client, client. rewrite salvage_validateClient_valid.
    rewrite (proj1 (get_opt_obj_lookup _ _ _ Hl)).
    assert (Hval : isValidValue (VArr ps) true = true)
      by (destruct ps; [congruence | reflexivity]).
    rewrite Hval. cbn [negb].
    unfold get_prop. cbn [nullish].
    rewrite (proj2 (get_opt_obj_lookup _ _ _ Hl)). cbn [bind iterate].
    rewrite salvage_inner_loop_total;
      [reflexivity | reflexivity | now apply shaped_pregnancy_entity]. }
  rewrite Hstep. split.
  - intros E. rewrite E. reflexivity.
  - intros E. destruct valids as [|v vs] eqn:Ev; [congruence |].
    cbn [List.length Nat.eqb].
    destruct (salvage_filterClient_valids o (v :: vs) Hjs) as (fps & Hm & Hfc).
    { rewrite <- Ev. now apply forallb_filter. }
    exists fps. split; [assumption |]. unfold client. now rewrite Hfc.
Qed.

Lemma salvage_keeps_valid_pregnancies_witness :
  Salvage.process_client
    ([], {| Salvage.totalClients := 1; Salvage.successCount := 0;
            Salvage.skippedClientsCount := 0; Salvage.skippedClients := [];
            Salvage.skippedPregnanciesCount := 0; Salvage.skippedPregnancies := [] |})
    Sample.client
  = Ok ([VObj [("id", VNum 1); ("pregnancies", VArr [Sample.pregnancy_filtered])]],
        {| Salvage.totalClients := 1; Salvage.successCount := 1;
           Salvage.skippedClientsCount := 0; Salvage.skippedClients := [];
           Salvage.skippedPregnanciesCount := 1;
           Salvage.skippedPregnancies :=
             [{| SkippedPregnancy.clientId := VNum 1;
                 SkippedPregnancy.pregnancyId := VNum 11;
                 SkippedPregnancy.reason :=
                   Some "Missing required field 'pregnancy.cares_after' (defined in CONFIG.required.pregnancy)" |}] |}).
Proof.
  destruct (proj2 (proj2 (proj2
              (salvage_keeps_valid_pregnancies
                 [("id", VNum 1); ("name", VStr "Ann");
                  ("pregnancies", VArr [Sample.pregnancy; Sample.pregnancy_no_care])]
                 [Sample.pregnancy; Sample.pregnancy_no_care] []
                 {| Salvage.totalClients := 1; Salvage.successCount := 0;
                    Salvage.skippedClientsCount := 0; Salvage.skippedClients := [];
                    Salvage.skippedPregnanciesCount := 0;
                    Salvage.skippedPregnancies := [] |}
                 eq_refl eq_refl ltac:(discriminate) eq_refl)))
              ltac:(discriminate)) as (fps & Hm & H).
  vm_compute in Hm. injection Hm as <-. exact H.
Defined.

(** C1, as the claim words it, fails: passing the client-level check is not
    enough for a client to be emitted or recorded.  A client whose
    [pregnancies] is a plain object passes the check, and so does one with a
    null among its pregnancies and one whose valid pregnancy has a null among
    its visits; for each of them the run throws a TypeError, so that nothing
    is emitted and nothing recorded, not even for the clients before it. *)
Lemma salvage_checked_client_throws :
  valid (Salvage.validateClient Sample.client_object_pregnancies) = true
  /\ Salvage.process_client ([], salvage_zero) Sample.client_object_pregnancies
     = TypeError
  /\ Salvage.processData (VArr [Sample.client; Sample.client_object_pregnancies])
     = TypeError
  /\ valid (Salvage.validateClient Edge.client_null_pregnancy) = true
  /\ Salvage.processData (VArr [Sample.client; Edge.client_null_pregnancy])
     = TypeError
  /\ valid (Salvage.validateClient Edge.client_null_care) = true
  /\ pregnancy_ok_salvage Edge.pregnancy_null_care = true
  /\ Salvage.processData (VArr [Sample.client; Edge.client_null_care]) = TypeError.
Proof. repeat split. Qed.

(* ------------------------------------------------------------------------- *)
(** ** Conservation of counts *)

Lemma strict_loop_counts clients out0 res0 out res :
  foldM Strict.process_client (out0, res0) clients = Ok (out, res) ->
  Strict.totalClients res = Strict.totalClients res0
  /\ Strict.successCount res + Strict.skippedCount res
     = Strict.successCount res0 + Strict.skippedCount res0 + List.length clients
  /\ List.length out + Strict.successCount res0
     = List.length out0 + Strict.successCount res
  /\ List.length (Strict.skippedClients res) + Strict.skippedCount res0
     = List.length (Strict.skippedClients res0) + Strict.skippedCount res.
Proof.
  revert out0 res0. induction clients as [|c cs IH]; intros out0 res0; simpl.
  - intros [= <- <-]. lia.
  - intros H. apply bind_Ok in H as ([out1 res1] & Hstep & H).
    apply IH in H as (Ht & Hc & Ho & Hs).
    unfold Strict.process_client in Hstep.
    apply bind_Ok in Hstep as (v & _ & Hstep).
    destruct (valid v).
    + apply bind_Ok in Hstep as (fc & _ & [= <- <-]).
      simpl in *. rewrite length_app in Ho. simpl in Ho. lia.
    + apply bind_Ok in Hstep as (cid & _ & [= <- <-]).
      simpl in *. rewrite length_app in Hs. simpl in Hs. lia.
Qed.

Lemma filter_partition {A} (P : A -> bool) xs :
  Permutation xs (filter P xs ++ filter (fun x => negb (P x)) xs).
Proof.
  induction xs as [|x xs IH]; simpl; [constructor |].
  destruct (P x); simpl.
  - now constructor.
  - now apply Permutation_cons_app.
Qed.

Lemma client_pregnancies_invalid c :
  valid (Salvage.validateClient c) = false -> client_pregnancies c = [].
Proof. unfold client_pregnancies. now intros ->. Qed.

Lemma salvage_loop_spec clients out0 res0 out res :
  foldM Salvage.process_client (out0, res0) clients = Ok (out, res) ->
  exists new,
    out = out0 ++ new
    /\ Forall2 (fun p fp => filterPregnancy Salvage.CONFIG p = Ok fp)
               (flat_map valid_pregnancies clients) (flat_map out_pregnancies new)
    /\ Salvage.skippedPregnancies res
       = Salvage.skippedPregnancies res0 ++ flat_map skipped_entries clients
    /\ Salvage.skippedPregnanciesCount res
       = Salvage.skippedPregnanciesCount res0
         + List.length (flat_map skipped_entries clients)
    /\ Salvage.successCount res = Salvage.successCount res0 + List.length new
    /\ Salvage.skippedClientsCount res + List.length new
       = Salvage.skippedClientsCount res0 + List.length clients
    /\ List.length (Salvage.skippedClients res) + List.length new
       = List.length (Salvage.skippedClients res0) + List.length clients
    /\ Salvage.totalClients res = Salvage.totalClients res0.
Proof.
  revert out0 res0. induction clients as [|c cs IH]; intros out0 res0; simpl.
  - intros [= <- <-]. exists []. rewrite !app_nil_r. simpl.
    repeat split; try lia. constructor.
  - intros H. apply bind_Ok in H as ([out1 res1] & Hstep & H).
    apply IH in H as (new & -> & Hf & Hsp & Hspc & Hsc & Hskc & Hskl & Ht).
    apply salvage_process_client_spec in Hstep
      as (_ & [(Hv & -> & ->)|[(Hv & He & -> & ->)|(Hv & He & fc & Hfc & -> & ->)]]).
    + exists new. unfold valid_pregnancies, skipped_entries, invalid_pregnancies.
      rewrite (client_pregnancies_invalid _ Hv). clear IH. simpl in *.
      rewrite ?length_app in *. simpl in *.
      repeat split; try assumption; lia.
    + exists new. rewrite He. clear IH. simpl in *.
      rewrite ?length_app in *. rewrite <- ?app_assoc in *. simpl in *.
      repeat split; try assumption; lia.
    + exists (fc :: new). clear IH. simpl in *.
      destruct (filterClient_spread_pregnancies _ _ _ Hfc) as (fps & Hm & Hg).
      unfold out_pregnancies at 1. rewrite Hg.
      rewrite ?length_app in *. rewrite <- ?app_assoc in *. simpl in *.
      repeat split; try assumption; try lia.
      apply Forall2_app; [now apply mapM_Forall2 | assumption].
Qed.

Lemma foldM_total {A S} (f : S -> A -> outcome S) xs s :
  (forall s x, In x xs -> exists s', f s x = Ok s') ->
  exists s', foldM f s xs = Ok s'.
Proof.
  revert s. induction xs as [|x xs IH]; intros s H; simpl; [eauto |].
  destruct (H s x (or_introl eq_refl)) as (s1 & ->). cbn [bind].
  apply IH. intros s' y Hy. apply H. now right.
Qed.

Lemma shaped_client_inv c :
  shaped_client c = true ->
  exists o, c = VObj o /\ js_object o = true
            /\ each shaped_pregnancy (get_opt c "pregnancies") = true
            /\ (isValidValue (get_opt c "pregnancies") true = true ->
                exists ps, lookup "pregnancies" o = Some (VArr ps)
                           /\ forallb shaped_pregnancy ps = true).
Proof.
  destruct c as [| |b|n|s|xs|o]; try discriminate. simpl.
  intros H. apply andb_true_iff in H as [Hjs H].
  exists o. repeat split; [assumption | |].
  - unfold get_opt. simpl.
    destruct (lookup "pregnancies" o) as [[| |b|n|s|xs|d]|]; try discriminate;
      try reflexivity. assumption.
  - unfold get_opt. simpl.
    destruct (lookup "pregnancies" o) as [[| |b|n|s|xs|d]|]; try discriminate.
    intros _. eauto.
Qed.

Lemma strict_check_pregnancy_returns i p :
  entity p = true -> strict_reason_printable p = true ->
  exists r, Strict.check_pregnancy i p = Ok r.
Proof.
  intros Hp Hpr. destruct (pregnancy_ok_strict p) eqn:Eok.
  - rewrite strict_check_pregnancy_ok by assumption. eauto.
  - unfold strict_reason_printable in Hpr. rewrite Eok in Hpr. cbn [orb] in Hpr.
    apply negb_true_iff in Hp. unfold get_opt in Hpr. rewrite Hp in Hpr.
    unfold Strict.check_pregnancy, get_prop. rewrite Hp. cbn [bind].
    rewrite (template_printable _ Hpr). cbn [bind].
    destruct (negb _); [eauto |].
    destruct (truthy _); [destruct (negb _) |]; eauto.
Qed.

Lemma strict_check_pregnancies_total i ps :
  forallb entity ps = true ->
  forallb strict_reason_printable ps = true ->
  exists r, Strict.check_pregnancies i ps = Ok r.
Proof.
  revert i. induction ps as [|p ps IH]; intros i; simpl; [eauto |].
  intros H Hpr. apply andb_true_iff in H as [Hp Hps].
  apply andb_true_iff in Hpr as [Hpp Hpps].
  destruct (strict_check_pregnancy_returns i p Hp Hpp) as ([v|] & ->); cbn [bind];
    [eauto | now apply IH].
Qed.

Lemma strict_process_client_total st c :
  shaped_client c = true -> printable_ids c = true ->
  exists st', Strict.process_client st c = Ok st'.
Proof.
  intros Hs Hpr. destruct (shaped_client_inv _ Hs) as (o & -> & Hjs & He & Hps).
  destruct st as [out res]. unfold Strict.process_client.
  assert (Hv : exists r, Strict.validateClient (VObj o) = Ok r).
  { unfold Strict.validateClient.
    change (required_client Strict.CONFIG) with ["pregnancies"].
    rewrite validateEntity_one.
    destruct (isValidValue (get_opt (VObj o) "pregnancies") true) eqn:E;
      cbn [negb]; [|eauto].
    destruct (Hps eq_refl) as (ps & Hl & Hsh).
    unfold printable_ids in Hpr.
    rewrite (proj1 (get_opt_obj_lookup _ _ _ Hl)) in Hpr. cbn [each] in Hpr.
    unfold get_prop. cbn [nullish]. rewrite (proj2 (get_opt_obj_lookup _ _ _ Hl)).
    cbn [bind nullish indexed]. apply strict_check_pregnancies_total;
      [now apply shaped_pregnancy_entity | assumption]. }
  destruct Hv as (r & ->). cbn [bind]. destruct (valid r).
  - destruct (filterClient_total Strict.CONFIG eq_refl (VObj o) eq_refl He)
      as (fc & ->). cbn [bind]. eauto.
  - cbn [get_prop nullish bind]. eauto.
Qed.

Lemma salvage_process_client_total st c :
  shaped_client c = true -> exists st', Salvage.process_client st c = Ok st'.
Proof.
  intros Hs. destruct (shaped_client_inv _ Hs) as (o & -> & Hjs & He & Hps).
  destruct st as [out res].
  destruct (isValidValue (get_opt (VObj o) "pregnancies") true) eqn:E.
  - destruct (Hps eq_refl) as (ps & Hl & Hsh).
    assert (Hne : ps <> []).
    { intros ->. rewrite (proj1 (get_opt_obj_lookup _ _ _ Hl)) in E. discriminate. }
    destruct (salvage_keeps_valid_pregnancies_general o ps out res Hjs Hl Hne Hsh)
      as (st' & ->). eauto.
  - unfold Salvage.process_client. rewrite salvage_validateClient_valid, E.
    cbn [negb get_prop nullish bind]. eauto.
Qed.

Lemma pregnancies_accounted clients :
  List.length (flat_map valid_pregnancies clients)
  + List.length (flat_map skipped_entries clients)
  = List.length (flat_map client_pregnancies clients).
Proof.
  induction clients as [|c cs IH]; simpl; [reflexivity |].
  rewrite !length_app. unfold skipped_entries at 1. rewrite length_map.
  assert (H := Permutation_length
                 (filter_partition pregnancy_ok_salvage (client_pregnancies c))).
  rewrite length_app in H. unfold valid_pregnancies at 1, invalid_pregnancies. lia.
Qed.

Lemma Forall2_length_eq {A B} (R : A -> B -> Prop) xs ys :
  Forall2 R xs ys -> List.length xs = List.length ys.
Proof. induction 1; simpl; congruence. Qed.

(** C4.  When [processData] returns, the successes and the skipped clients
    add up to the total, which is the length of the input, in both variants;
    in the salvage variant the pregnancies of the clients that pass the
    client-level check are split between the emitted clients, which hold the
    filtered valid ones in order, and the skipped-pregnancy entries, one for
    each invalid one in order: each pregnancy is on exactly one side.  On
    records of the data model the salvage variant does return, and so does
    the strict variant when every pregnancy that fails its check has an id
    with a text, which the reason it gives prints. *)
Theorem conservation_of_counts (clients : list value) :
  (forall out res,
     Strict.processData (VArr clients) = Ok (out, res) ->
     Strict.successCount res + Strict.skippedCount res = Strict.totalClients res
     /\ Strict.totalClients res = List.length clients
     /\ List.length out = Strict.successCount res
     /\ List.length (Strict.skippedClients res) = Strict.skippedCount res)
  /\ (forall out res,
        Salvage.processData (VArr clients) = Ok (out, res) ->
        Salvage.successCount res + Salvage.skippedClientsCount res
        = Salvage.totalClients res
        /\ Salvage.totalClients res = List.length clients
        /\ List.length out = Salvage.successCount res
        /\ List.length (Salvage.skippedClients res) = Salvage.skippedClientsCount res
        /\ Forall2 (fun p fp => filterPregnancy Salvage.CONFIG p = Ok fp)
                   (flat_map valid_pregnancies clients) (flat_map out_pregnancies out)
        /\ Salvage.skippedPregnancies res = flat_map skipped_entries clients
        /\ Salvage.skippedPregnanciesCount res
           = List.length (Salvage.skippedPregnancies res)
        /\ List.length (flat_map out_pregnancies out)
           + Salvage.skippedPregnanciesCount res
           = List.length (flat_map client_pregnancies clients))
  /\ (forall c,
        Permutation (client_pregnancies c)
                    (valid_pregnancies c ++ invalid_pregnancies c))
  /\ (forallb shaped_client clients = true ->
      (forallb printable_ids clients = true ->
       exists out res, Strict.processData (VArr clients) = Ok (out, res))
      /\ (exists out res, Salvage.processData (VArr clients) = Ok (out, res))).
Proof.
  split; [|split; [|split]].
  - intros out res H. simpl in H.
    apply strict_loop_counts in H as (Ht & Hc & Ho & Hs). simpl in *. lia.
  - intros out res H. simpl in H.
    apply salvage_loop_spec in H
      as (new & -> & Hf & Hsp & Hspc & Hsc & Hskc & Hskl & Ht).
    simpl in *. subst.
    assert (Hlen := Forall2_length_eq _ _ _ Hf).
    assert (Hacc := pregnancies_accounted clients).
    repeat split; try assumption; try lia.
    now rewrite Hsp.
  - intros c. apply filter_partition.
  - intros Hsh. rewrite forallb_forall in Hsh. split.
    + intros Hpr. rewrite forallb_forall in Hpr.
      destruct (foldM_total Strict.process_client clients
                  ([], {| Strict.totalClients := List.length clients;
                          Strict.successCount := 0;
                          Strict.skippedCount := 0;
                          Strict.skippedClients := [] |}))
        as ([out res] & H).
      * intros st c Hc. apply strict_process_client_total; auto.
      * exists out, res. exact H.
    + destruct (foldM_total Salvage.process_client clients
                  ([], {| Salvage.totalClients := List.length clients;
                          Salvage.successCount := 0;
                          Salvage.skippedClientsCount := 0;
                          Salvage.skippedClients := [];
                          Salvage.skippedPregnanciesCount := 0;
                          Salvage.skippedPregnancies := [] |}))
        as ([out res] & H).
      * intros st c Hc. apply salvage_process_client_total. now apply Hsh.
      * exists out, res. exact H.
Qed.

Lemma conservation_of_counts_witness :
  (exists out res,
     Salvage.processData (VArr Sample.dataset) = Ok (out, res)
     /\ Salvage.successCount res + Salvage.skippedClientsCount res = 2
     /\ List.length (flat_map out_pregnancies out)
        + Salvage.skippedPregnanciesCount res = 2)
  /\ (exists out res,
        Strict.processData (VArr [Sample.client; Sample.client_missing_birth])
        = Ok (out, res)
        /\ Strict.successCount res + Strict.skippedCount res = 2).
Proof.
  split.
  - destruct (proj2 (proj2 (proj2 (proj2 (conservation_of_counts Sample.dataset)))
                      eq_refl)) as (out & res & H).
    exists out, res. split; [exact H |].
    destruct (proj1 (proj2 (conservation_of_counts Sample.dataset)) out res H)
      as (H1 & H2 & _ & _ & _ & _ & _ & H8).
    split.
    + rewrite H1, H2. reflexivity.
    + rewrite H8. reflexivity.
  - destruct (proj1 (proj2 (proj2 (proj2
                (conservation_of_counts [Sample.client; Sample.client_missing_birth])))
                eq_refl) eq_refl) as (out & res & H).
    exists out, res. split; [exact H |].
    destruct (proj1 (conservation_of_counts [Sample.client; Sample.client_missing_birth])
                out res H) as (H1 & H2 & _).
    rewrite H1, H2. reflexivity.
Defined.

(** The condition on the ids is needed: the reason for a pregnancy without a
    birth prints the id of the pregnancy, and an id that is an object with a
    [toString] of its own has no text, so the strict variant throws on a
    dataset of well-shaped records, where the salvage variant, which prints
    no id while it processes, records the pregnancy and returns. *)
Lemma strict_unprintable_id_throws :
  let p := VObj [("id", VObj [("toString", VNum 1)]); ("birth", VNull)] in
  let c := VObj [("id", VNum 1); ("pregnancies", VArr [p])] in
  shaped_client c = true
  /\ printable_ids c = false
  /\ Strict.processData (VArr [c]) = TypeError
  /\ exists res, Salvage.processData (VArr [c]) = Ok ([], res).
Proof. repeat split. eexists. reflexivity. Qed.

(* ------------------------------------------------------------------------- *)
(** ** Filtering keeps validity *)

Lemma update_truthy_get filtered k f r :
  named k = true ->
  update_truthy filtered k f = Ok r ->
  (truthy (get_opt filtered k) = false /\ get_opt r k = get_opt filtered k)
  \/ (truthy (get_opt filtered k) = true /\ f (get_opt filtered k) = Ok (get_opt r k)).
Proof.
  intros Hk Hr.
  destruct (update_truthy_cases _ _ _ _ Hk Hr)
    as [(-> & Ht & _)|(o & x & y & -> & Hl & Ht & Hfx & ->)]; [auto |].
  right. rewrite (proj1 (get_opt_obj_lookup _ _ _ Hl)).
  rewrite get_opt_obj_update, String.eqb_refl by (eapply lookup_has_own; eassumption).
  auto.
Qed.

Lemma update_array_get filtered k f r :
  named k = true ->
  update_array filtered k f = Ok r ->
  (isArray (get_opt filtered k) = false /\ get_opt r k = get_opt filtered k)
  \/ (exists xs ys, get_opt filtered k = VArr xs /\ mapM f xs = Ok ys
                    /\ get_opt r k = VArr ys).
Proof.
  intros Hk Hr.
  destruct (update_array_cases _ _ _ _ Hk Hr)
    as [(-> & Ha & _)|(o & xs & ys & -> & Hl & Hm & ->)]; [auto |].
  right. exists xs, ys. rewrite (proj1 (get_opt_obj_lookup _ _ _ Hl)).
  rewrite get_opt_obj_update, String.eqb_refl by (eapply lookup_has_own; eassumption).
  auto.
Qed.

Lemma mapM_length {A B} (f : A -> outcome B) xs ys :
  mapM f xs = Ok ys -> List.length ys = List.length xs.
Proof.
  intros H. apply mapM_Forall2 in H. symmetry. eapply Forall2_length_eq. eassumption.
Qed.

(** Mapping a filter over a field keeps it valid for the non-empty-array
    check. *)
Lemma update_array_valid filtered k f r :
  named k = true ->
  update_array filtered k f = Ok r ->
  isValidValue (get_opt filtered k) true = true ->
  isValidValue (get_opt r k) true = true.
Proof.
  intros Hk Hr Hv.
  destruct (update_array_get _ _ _ _ Hk Hr) as [(_ & ->)|(xs & ys & Hx & Hm & ->)];
    [assumption |].
  rewrite Hx in Hv. apply mapM_length in Hm.
  destruct xs; [discriminate |]. destruct ys; [discriminate | reflexivity].
Qed.

Lemma same_keys_not_array a b xs :
  same_keys a b -> (forall ys, a <> VArr ys) -> b <> VArr xs.
Proof.
  intros [H1 H2] Ha. destruct a as [| |x|n|s|ys|o];
    try (rewrite H2 by discriminate; discriminate).
  - now destruct (Ha ys).
  - destruct (H1 o eq_refl) as (o' & -> & _). discriminate.
Qed.

Lemma isValidValue_truthy_not_array v chk :
  truthy v = true -> (forall xs, v <> VArr xs) -> isValidValue v chk = true.
Proof.
  intros Ht Hv. destruct v as [| |b|n|s|xs|o]; try discriminate;
    try (destruct chk; reflexivity).
  now destruct (Hv xs).
Qed.

Section ValidityKept.

Variable CONFIG : Config.
Hypothesis children_listed : mem "children" (whitelist_birth CONFIG) = true.
Hypothesis birth_listed : mem "birth" (whitelist_pregnancy CONFIG) = true.
Hypothesis cares_after_listed : mem "cares_after" (whitelist_pregnancy CONFIG) = true.
Hypothesis cares_after_phone_listed :
  mem "cares_after_phone" (whitelist_pregnancy CONFIG) = true.
Hypothesis pregnancies_listed : mem "pregnancies" (whitelist_client CONFIG) = true.

Lemma filterBirth_keeps_children b fb :
  filterBirth CONFIG b = Ok fb ->
  truthy b = true ->
  isValidValue (get_opt b "children") true = true ->
  truthy fb = true
  /\ (forall xs, fb <> VArr xs)
  /\ isValidValue (get_opt fb "children") true = true.
Proof.
  unfold filterBirth. intros H Ht Hv. rewrite Ht in H. cbn [negb] in H.
  apply bind_Ok in H as (f1 & H1 & H2).
  assert (H1' := H1).
  apply update_truthy_establishes in H1' as (_ & Hsk1 & _ & Ho1);
    [| reflexivity | apply filterDataEncr_idem].
  assert (H2' := H2).
  apply update_array_establishes in H2' as (_ & Hsk2 & _ & _);
    [| reflexivity | apply filterChild_idem].
  assert (Hsk := same_keys_trans _ _ _ Hsk1 Hsk2).
  split; [now apply (same_keys_pick_truthy b (whitelist_birth CONFIG)) |].
  split.
  - intros xs. apply (same_keys_not_array _ _ xs Hsk).
    intros ys. apply pickProperties_not_array.
  - apply (update_array_valid _ "children" _ _ eq_refl H2).
    rewrite Ho1 by discriminate.
    rewrite get_opt_pickProperties by reflexivity. now rewrite children_listed.
Qed.

(** What the pregnancy filter does to the fields validation reads. *)
Lemma filterPregnancy_fields p fp :
  filterPregnancy CONFIG p = Ok fp ->
  ((truthy (get_opt p "birth") = false /\ get_opt fp "birth" = get_opt p "birth")
   \/ (truthy (get_opt p "birth") = true
       /\ filterBirth CONFIG (get_opt p "birth") = Ok (get_opt fp "birth")))
  /\ (isValidValue (get_opt p "cares_after") true = true ->
      isValidValue (get_opt fp "cares_after") true = true)
  /\ (isValidValue (get_opt p "cares_after_phone") true = true ->
      isValidValue (get_opt fp "cares_after_phone") true = true).
Proof.
  unfold filterPregnancy. intros H.
  apply bind_Ok in H as (f1 & H1 & H).
  apply bind_Ok in H as (f2 & H2 & H).
  apply bind_Ok in H as (f3 & H3 & H4).
  assert (H1' := H1).
  apply update_truthy_establishes in H1' as (_ & _ & _ & Ho1);
    [| reflexivity | apply filterDataEncr_idem].
  assert (H2' := H2).
  apply update_truthy_establishes in H2' as (_ & _ & _ & Ho2);
    [| reflexivity | apply filterBirth_idem].
  assert (H3' := H3).
  apply update_array_establishes in H3' as (_ & _ & _ & Ho3);
    [| reflexivity | apply filterCareAfter_idem].
  assert (H4' := H4).
  apply update_array_establishes in H4' as (_ & _ & _ & Ho4);
    [| reflexivity | apply filterCareAfterPhone_idem].
  assert (Eb : get_opt f1 "birth" = get_opt p "birth").
  { rewrite Ho1 by discriminate. rewrite get_opt_pickProperties by reflexivity.
    now rewrite birth_listed. }
  assert (Eca : get_opt f2 "cares_after" = get_opt p "cares_after").
  { rewrite Ho2, Ho1 by discriminate. rewrite get_opt_pickProperties by reflexivity.
    now rewrite cares_after_listed. }
  assert (Ecap : get_opt f3 "cares_after_phone" = get_opt p "cares_after_phone").
  { rewrite Ho3, Ho2, Ho1 by discriminate.
    rewrite get_opt_pickProperties by reflexivity.
    now rewrite cares_after_phone_listed. }
  split; [|split].
  - rewrite (Ho4 "birth"), (Ho3 "birth") by discriminate.
    destruct (update_truthy_get _ "birth" _ _ eq_refl H2) as [(Ht & E)|(Ht & E)];
      rewrite Eb in *; auto.
  - intros Hv. rewrite (Ho4 "cares_after") by discriminate.
    apply (update_array_valid _ "cares_after" _ _ eq_refl H3). now rewrite Eca.
  - intros Hv. apply (update_array_valid _ "cares_after_phone" _ _ eq_refl H4).
    now rewrite Ecap.
Qed.

Lemma filterPregnancy_keeps_birth p fp chk :
  filterPregnancy CONFIG p = Ok fp ->
  isValidValue (get_opt p "birth") chk = true ->
  (if truthy (get_opt p "birth")
   then isValidValue (get_opt (get_opt p "birth") "children") true
   else true) = true ->
  isValidValue (get_opt fp "birth") chk = true
  /\ (if truthy (get_opt fp "birth")
      then isValidValue (get_opt (get_opt fp "birth") "children") true
      else true) = true.
Proof.
  intros H Hb Hc.
  destruct (proj1 (filterPregnancy_fields _ _ H)) as [(Ht & ->)|(Ht & Hfb)].
  - rewrite Ht in *. auto.
  - rewrite Ht in Hc.
    destruct (filterBirth_keeps_children _ _ Hfb Ht Hc) as (Ht' & Hna & Hv').
    rewrite Ht'. split; [now apply isValidValue_truthy_not_array | assumption].
Qed.

Lemma filterPregnancy_keeps_strict p fp :
  filterPregnancy CONFIG p = Ok fp ->
  pregnancy_ok_strict p = true -> pregnancy_ok_strict fp = true.
Proof.
  unfold pregnancy_ok_strict. intros H Hok.
  apply andb_true_iff in Hok as [Hb Hc].
  destruct (filterPregnancy_keeps_birth _ _ _ H Hb Hc) as [-> ->]. reflexivity.
Qed.

Lemma filterPregnancy_keeps_salvage p fp :
  filterPregnancy CONFIG p = Ok fp ->
  pregnancy_ok_salvage p = true -> pregnancy_ok_salvage fp = true.
Proof.
  unfold pregnancy_ok_salvage. intros H Hok.
  apply andb_true_iff in Hok as [Hok Hc].
  apply andb_true_iff in Hok as [Hok Hcap].
  apply andb_true_iff in Hok as [Hb Hca].
  destruct (filterPregnancy_keeps_birth _ _ _ H Hb Hc) as [-> ->].
  destruct (filterPregnancy_fields _ _ H) as (_ & H1 & H2).
  now rewrite (H1 Hca), (H2 Hcap).
Qed.

Lemma forallb_Forall2 {A B} (P : A -> bool) (Q : B -> bool) (R : A -> B -> Prop) xs ys :
  (forall x y, R x y -> P x = true -> Q y = true) ->
  Forall2 R xs ys -> forallb P xs = true -> forallb Q ys = true.
Proof.
  intros HPQ H. induction H as [|x y xs ys Hxy _ IH]; simpl; [reflexivity |].
  intros Hp. apply andb_true_iff in Hp as [Hx Hxs].
  now rewrite (HPQ _ _ Hxy Hx), IH.
Qed.

Lemma filterClient_keeps_strict c fc :
  filterClient CONFIG c = Ok fc ->
  client_ok_strict c = true -> client_ok_strict fc = true.
Proof.
  unfold filterClient. intros H Hok.
  assert (H' := H).
  apply update_array_establishes in H' as (_ & Hsk & Hn & _);
    [| reflexivity | apply filterPregnancy_idem].
  assert (Hnfc : nullish fc = false) by now rewrite (same_keys_nullish _ _ Hsk).
  assert (Hnc : nullish c = false) by now rewrite nullish_pickProperties in Hn.
  assert (Ep : get_opt (pickProperties c (whitelist_client CONFIG)) "pregnancies"
               = get_opt c "pregnancies").
  { rewrite get_opt_pickProperties by reflexivity. now rewrite pregnancies_listed. }
  unfold client_ok_strict in *.
  replace (get_own fc "pregnancies") with (get_opt fc "pregnancies")
    by (unfold get_opt; now rewrite Hnfc).
  replace (get_own c "pregnancies") with (get_opt c "pregnancies") in Hok
    by (unfold get_opt; now rewrite Hnc).
  destruct (update_array_get _ "pregnancies" _ _ eq_refl H)
    as [(_ & E)|(xs & ys & Hx & Hm & E)];
    rewrite E; rewrite Ep in *; [assumption |].
  rewrite Hx in Hok. apply andb_true_iff in Hok as [Hv Hps]. simpl in Hps.
  assert (Hlen := mapM_length _ _ _ Hm).
  apply andb_true_iff. split.
  - destruct xs; [discriminate |]. destruct ys; [discriminate | reflexivity].
  - simpl. apply mapM_Forall2 in Hm.
    apply (forallb_Forall2 pregnancy_ok_strict pregnancy_ok_strict _ xs ys
             filterPregnancy_keeps_strict Hm Hps).
Qed.

End ValidityKept.

(* ------------------------------------------------------------------------- *)
(** ** Whitelist closure, and the lists that are no arrays *)





Section ClosureOfLists.

Variable CONFIG : Config.


Lemma birth_lists_falsy v : truthy v = false -> birth_lists v = true.
Proof. destruct v as [| |b|n|s|xs|o]; try discriminate; reflexivity. Qed.




End ClosureOfLists.






(* ------------------------------------------------------------------------- *)
(** ** Filtering a filtered dataset *)

Lemma strict_emits_fixed_points input out res :
  Strict.processData input = Ok (out, res) ->
  Forall (fun fc => client_ok_strict fc = true
                    /\ filterClient Strict.CONFIG fc = Ok fc) out.
Proof.
  destruct input as [| |b|n|s|clients|o]; try discriminate. simpl.
  apply (foldM_inv
           (fun st => Forall (fun fc => client_ok_strict fc = true
                                        /\ filterClient Strict.CONFIG fc = Ok fc)
                             (fst st))); [constructor |].
  intros [o1 r1] c [o2 r2] Hs. unfold Strict.process_client.
  intros H. apply bind_Ok in H as (v & Hv & H).
  apply strict_validateClient_valid in Hv.
  destruct (valid v).
  - apply bind_Ok in H as (fc & Hfc & [= <- <-]). simpl in *.
    apply Forall_app. split; [assumption |]. constructor; [|constructor]. split.
    + symmetry in Hv.
      apply filterClient_keeps_strict with (CONFIG := Strict.CONFIG) (c := c);
        solve [reflexivity | assumption].
    + now apply (filterClient_idem Strict.CONFIG c).
  - apply bind_Ok in H as (cid & _ & [= <- <-]). assumption.
Qed.

Lemma strict_rerun clients acc res :
  Forall (fun fc => client_ok_strict fc = true
                    /\ filterClient Strict.CONFIG fc = Ok fc) clients ->
  foldM Strict.process_client (acc, res) clients
  = Ok (acc ++ clients,
        {| Strict.totalClients := Strict.totalClients res;
           Strict.successCount := Strict.successCount res + List.length clients;
           Strict.skippedCount := Strict.skippedCount res;
           Strict.skippedClients := Strict.skippedClients res |}).
Proof.
  intros H. revert acc res. induction H as [|fc cs [Hok Hfix] _ IH]; intros acc res.
  - simpl. rewrite app_nil_r, Nat.add_0_r. now destruct res.
  - cbn [foldM]. unfold Strict.process_client at 1.
    rewrite strict_validateClient_ok by assumption. cbn [bind valid].
    rewrite Hfix. cbn [bind]. rewrite IH. simpl.
    rewrite <- app_assoc. simpl. do 3 f_equal. lia.
Qed.

Lemma pick_fold_js_object v ks acc :
  js_object acc = true -> js_object (fold_left (pick_step v) ks acc) = true.
Proof.
  revert acc. induction ks as [|k ks IH]; intros acc H; simpl; [assumption |].
  apply IH. unfold pick_step. destruct (has_property k v); [|assumption].
  now apply js_object_obj_set.
Qed.

(** A filter applied to an object returns an object as [JSON.parse] could
    yield it. *)
Lemma same_keys_pick_js_object o ks y :
  same_keys (pickProperties (VObj o) ks) y ->
  exists o', y = VObj o' /\ js_object o' = true.
Proof.
  rewrite pickProperties_object by reflexivity. intros [H _].
  destruct (H _ eq_refl) as (o' & -> & Hk). exists o'. split; [reflexivity |].
  unfold js_object. rewrite Hk. now apply (pick_fold_js_object (VObj o) ks []).
Qed.

Lemma forallb_filter_same {A} (P : A -> bool) xs : forallb P (filter P xs) = true.
Proof.
  apply forallb_forall. intros x Hx. now apply filter_In in Hx as [_ Hx].
Qed.

Lemma filter_all {A} (P : A -> bool) xs : forallb P xs = true -> filter P xs = xs.
Proof.
  induction xs as [|x xs IH]; simpl; [reflexivity |].
  intros H. apply andb_true_iff in H as [-> H]. now rewrite IH.
Qed.

Lemma filter_none {A} (P : A -> bool) xs :
  forallb P xs = true -> filter (fun x => negb (P x)) xs = [].
Proof.
  induction xs as [|x xs IH]; simpl; [reflexivity |].
  intros H. apply andb_true_iff in H as [-> H]. simpl. now apply IH.
Qed.

Lemma pregnancy_ok_salvage_entity ps :
  forallb pregnancy_ok_salvage ps = true -> forallb entity ps = true.
Proof.
  rewrite !forallb_forall. intros H p Hp. specialize (H p Hp).
  unfold pregnancy_ok_salvage in H.
  apply andb_true_iff in H as [H _]. apply andb_true_iff in H as [H _].
  apply andb_true_iff in H as [H _]. apply isValidValue_not_nullish in H.
  unfold entity. now destruct (get_opt_not_nullish _ _ H) as [-> _].
Qed.

Lemma salvage_emits_fixed_points input out res :
  Salvage.processData input = Ok (out, res) -> Forall salvage_fixed_point out.
Proof.
  destruct input as [| |b|n|s|clients|o]; try discriminate. simpl.
  apply (foldM_inv (fun st => Forall salvage_fixed_point (fst st))); [constructor |].
  intros [o1 r1] c [o2 r2] Hs H.
  apply salvage_process_client_spec in H
    as (Hn & [(_ & -> & _)|[(_ & _ & -> & _)|(Hv & He & fc & Hfc & -> & _)]]);
    try assumption.
  simpl in *. apply Forall_app. split; [assumption |]. constructor; [|constructor].
  destruct (filterClient_spread_pregnancies _ _ _ Hfc) as (fps & Hm & Hg).
  assert (Hfc' := Hfc). unfold filterClient in Hfc'.
  apply update_array_establishes in Hfc' as (_ & Hsk & _ & _);
    [| reflexivity | apply filterPregnancy_idem].
  unfold spread_with in Hsk.
  destruct (same_keys_pick_js_object _ _ _ Hsk) as (o' & -> & Hjs).
  exists o', fps. split; [reflexivity |]. split; [assumption |].
  split; [|split; [|split]].
  - simpl in Hg. destruct (lookup "pregnancies" o') as [x|]; [now subst | discriminate].
  - apply mapM_length in Hm. intros ->. destruct (valid_pregnancies c);
      [now apply He | discriminate].
  - apply mapM_Forall2 in Hm.
    apply (forallb_Forall2 pregnancy_ok_salvage pregnancy_ok_salvage _ _ _) in Hm;
      [assumption | | apply forallb_filter_same].
    intros p fp Hp Hok.
    apply filterPregnancy_keeps_salvage with (CONFIG := Salvage.CONFIG) (p := p);
      solve [reflexivity | assumption].
  - now apply (filterClient_idem Salvage.CONFIG
                 (spread_with c "pregnancies" (VArr (valid_pregnancies c)))).
Qed.

Lemma salvage_rerun_client acc res fc :
  salvage_fixed_point fc ->
  Salvage.process_client (acc, res) fc = Ok (acc ++ [fc], add_success res).
Proof.
  intros (o & fps & -> & Hjs & Hl & Hne & Hok & Hfix).
  unfold Salvage.process_client. rewrite salvage_validateClient_valid.
  rewrite (proj1 (get_opt_obj_lookup _ _ _ Hl)).
  assert (Hval : isValidValue (VArr fps) true = true)
    by (destruct fps; [congruence | reflexivity]).
  rewrite Hval. cbn [negb]. unfold get_prop. cbn [nullish].
  rewrite (proj2 (get_opt_obj_lookup _ _ _ Hl)). cbn [bind iterate].
  rewrite salvage_inner_loop_total;
    [| reflexivity | now apply pregnancy_ok_salvage_entity].
  cbn [bind]. rewrite app_nil_l, filter_all, filter_none by assumption.
  simpl map. rewrite add_skipped_nil.
  destruct fps as [|p fps]; [congruence |]. cbn [List.length Nat.eqb].
  rewrite spread_with_js_object by assumption.
  rewrite obj_set_present by (eapply lookup_has_own; eassumption).
  rewrite obj_update_same by assumption.
  rewrite Hfix. reflexivity.
Qed.

Lemma iter_add_success n res :
  Nat.iter n add_success res
  = {| Salvage.totalClients := Salvage.totalClients res;
       Salvage.successCount := n + Salvage.successCount res;
       Salvage.skippedClientsCount := Salvage.skippedClientsCount res;
       Salvage.skippedClients := Salvage.skippedClients res;
       Salvage.skippedPregnanciesCount := Salvage.skippedPregnanciesCount res;
       Salvage.skippedPregnancies := Salvage.skippedPregnancies res |}.
Proof.
  induction n as [|n IH]; simpl; [now destruct res |].
  rewrite IH. reflexivity.
Qed.

Lemma salvage_rerun clients acc res :
  Forall salvage_fixed_point clients ->
  foldM Salvage.process_client (acc, res) clients
  = Ok (acc ++ clients, Nat.iter (List.length clients) add_success res).
Proof.
  intros H. revert acc res. induction H as [|fc cs Hfc _ IH]; intros acc res.
  - simpl. now rewrite app_nil_r.
  - cbn [foldM]. rewrite salvage_rerun_client by assumption. cbn [bind].
    rewrite IH, <- app_assoc. simpl. f_equal. f_equal.
    clear. induction (List.length cs) as [|n IHn]; simpl; [reflexivity |].
    now rewrite IHn.
Qed.

(** C8.  Every filter is idempotent: filtering what a filter returned returns
    it again, for the client filter, the nested pregnancy, birth, child,
    care-after and care-after-phone filters, the encrypted-field filter and
    the projector, and so for a whole list of clients; and either script, run
    on the dataset it wrote, writes that dataset again, every client counted
    as a success and none skipped. *)
Theorem filters_idempotent
    (CONFIG : Config) (x : value) (clients : list value)
    (allowedKeys : list string) (dynamicPatterns : option (list string)) :
  (y <- filterClient CONFIG x ;; filterClient CONFIG y) = filterClient CONFIG x
  /\ (y <- filterPregnancy CONFIG x ;; filterPregnancy CONFIG y)
     = filterPregnancy CONFIG x
  /\ (y <- filterBirth CONFIG x ;; filterBirth CONFIG y) = filterBirth CONFIG x
  /\ (y <- filterChild CONFIG x ;; filterChild CONFIG y) = filterChild CONFIG x
  /\ (y <- filterCareAfter CONFIG x ;; filterCareAfter CONFIG y)
     = filterCareAfter CONFIG x
  /\ (y <- filterCareAfterPhone CONFIG x ;; filterCareAfterPhone CONFIG y)
     = filterCareAfterPhone CONFIG x
  /\ (y <- filterDataEncr x allowedKeys dynamicPatterns ;;
      filterDataEncr y allowedKeys dynamicPatterns)
     = filterDataEncr x allowedKeys dynamicPatterns
  /\ pickProperties (pickProperties x allowedKeys) allowedKeys
     = pickProperties x allowedKeys
  /\ (ys <- mapM (filterClient CONFIG) clients ;; mapM (filterClient CONFIG) ys)
     = mapM (filterClient CONFIG) clients
  /\ (forall input out res,
        Strict.processData input = Ok (out, res) ->
        Strict.processData (VArr out)
        = Ok (out, {| Strict.totalClients := List.length out;
                      Strict.successCount := List.length out;
                      Strict.skippedCount := 0;
                      Strict.skippedClients := [] |}))
  /\ (forall input out res,
        Salvage.processData input = Ok (out, res) ->
        Salvage.processData (VArr out)
        = Ok (out, {| Salvage.totalClients := List.length out;
                      Salvage.successCount := List.length out;
                      Salvage.skippedClientsCount := 0;
                      Salvage.skippedClients := [];
                      Salvage.skippedPregnanciesCount := 0;
                      Salvage.skippedPregnancies := [] |})).
Proof.
  repeat match goal with |- _ /\ _ => split end.
  - apply idempotentM_bind, filterClient_idem.
  - apply idempotentM_bind, filterPregnancy_idem.
  - apply idempotentM_bind, filterBirth_idem.
  - apply idempotentM_bind, filterChild_idem.
  - apply idempotentM_bind, filterCareAfter_idem.
  - apply idempotentM_bind, filterCareAfterPhone_idem.
  - apply (idempotentM_bind (fun d => filterDataEncr d allowedKeys dynamicPatterns)),
      filterDataEncr_idem.
  - apply pickProperties_idem.
  - destruct (mapM (filterClient CONFIG) clients) as [ys| | |] eqn:E; simpl;
      try reflexivity.
    apply (mapM_idem _ clients); [apply filterClient_idem | assumption].
  - intros input out res H. apply strict_emits_fixed_points in H.
    unfold Strict.processData. now rewrite strict_rerun.
  - intros input out res H. apply salvage_emits_fixed_points in H.
    unfold Salvage.processData. rewrite salvage_rerun by assumption.
    rewrite iter_add_success. simpl. now rewrite Nat.add_0_r.
Qed.

(** The salvage script on the sample dataset, then on what it wrote. *)
Lemma filters_idempotent_witness :
  let out := [VObj [("id", VNum 1);
                    ("pregnancies", VArr [Sample.pregnancy_filtered])]] in
  (exists res, Salvage.processData (VArr Sample.dataset) = Ok (out, res))
  /\ Salvage.processData (VArr out)
     = Ok (out, {| Salvage.totalClients := 1;
                   Salvage.successCount := 1;
                   Salvage.skippedClientsCount := 0;
                   Salvage.skippedClients := [];
                   Salvage.skippedPregnanciesCount := 0;
                   Salvage.skippedPregnancies := [] |}).
Proof.
  intros out. split; [eexists; reflexivity |].
  eapply (proj2 (proj2 (proj2 (proj2 (proj2 (proj2 (proj2 (proj2 (proj2 (proj2
            (filters_idempotent Salvage.CONFIG VNull [] [] None))))))))))
            (VArr Sample.dataset) out).
  reflexivity.
Defined.

(* ------------------------------------------------------------------------- *)
(** ** Input immutability, over the store *)

Module StoreFacts.

Import Store.

Create HintDb readonly.
Create HintDb frames.

Lemma readonly_ret {A} (a : A) : readonly (ret a).
Proof. intros s x s'. unfold ret. now intros [= _ <-]. Qed.

Lemma readonly_bind {A B} (m : M A) (f : A -> M B) :
  readonly m -> (forall a, readonly (f a)) -> readonly (mbind m f).
Proof.
  intros Hm Hf s b s'. unfold mbind.
  destruct (m s) as [[a s1]| | |] eqn:E; try discriminate.
  intros H. apply Hm in E. subst s1. now apply (Hf a) in H.
Qed.

Lemma readonly_throw {A} : readonly (@throw A).
Proof. intros s a s'. discriminate. Qed.

Lemma readonly_unmodelled {A} : readonly (@unmodelled A).
Proof. intros s a s'. discriminate. Qed.

Lemma readonly_lift {A} (o : outcome A) : readonly (lift o).
Proof. intros s a s'. unfold lift. destruct o; try discriminate. now intros [= _ <-]. Qed.

Lemma readonly_read l : readonly (read l).
Proof.
  intros s a s'. unfold read. destruct (nth_error s l); [|discriminate].
  now intros [= _ <-].
Qed.

(** Steps through a computation built from reads. *)
Ltac ro :=
  lazymatch goal with
  | |- readonly (ret _) => apply readonly_ret
  | |- readonly throw => apply readonly_throw
  | |- readonly unmodelled => apply readonly_unmodelled
  | |- readonly (lift _) => apply readonly_lift
  | |- readonly (read _) => apply readonly_read
  | |- readonly (mbind _ _) => apply readonly_bind; [ro | intros ?; ro]
  | |- readonly (if ?b then _ else _) => destruct b; ro
  | |- readonly (match ?c with CObj _ => _ | CArr _ => _ end) => destruct c; ro
  | |- readonly (match ?o with Some _ => _ | None => _ end) => destruct o; ro
  | |- readonly (match ?v with
                 | HUndefined => _ | HNull => _ | HBool _ => _
                 | HNum _ => _ | HStr _ => _ | HRef _ => _ end) => destruct v; ro
  | |- readonly _ => solve [auto with readonly]
  end.

Lemma readonly_isArray v : readonly (isArray v).
Proof. unfold isArray. ro. Qed.

Lemma readonly_get_own v k : readonly (get_own v k).
Proof. unfold get_own. ro. Qed.

#[local] Hint Resolve readonly_isArray readonly_get_own : readonly.

Lemma readonly_get_prop v k : readonly (get_prop v k).
Proof. unfold get_prop. ro. Qed.

Lemma readonly_get_opt v k : readonly (get_opt v k).
Proof. unfold get_opt. ro. Qed.

Lemma readonly_has_property k v : readonly (has_property k v).
Proof. unfold has_property. ro. Qed.

Lemma readonly_object_keys v : readonly (object_keys v).
Proof. unfold object_keys. ro. Qed.

Lemma readonly_iterate v : readonly (iterate v).
Proof. unfold iterate. ro. Qed.

Lemma readonly_indexed v : readonly (indexed v).
Proof. unfold indexed. ro. Qed.

Lemma readonly_template v : readonly (template v).
Proof. unfold template. ro. Qed.

#[local] Hint Resolve readonly_get_prop readonly_get_opt readonly_has_property
  readonly_object_keys readonly_iterate readonly_indexed readonly_template : readonly.

Lemma readonly_isValidValue v chk : readonly (isValidValue v chk).
Proof. unfold isValidValue. ro. Qed.

#[local] Hint Resolve readonly_isValidValue : readonly.

Lemma readonly_validateEntity entity fields chk :
  readonly (validateEntity entity fields chk).
Proof.
  induction fields as [|f fields IH]; simpl; ro.
Qed.

#[local] Hint Resolve readonly_validateEntity : readonly.

Lemma readonly_strict_check_pregnancy i p : readonly (Strict.check_pregnancy i p).
Proof. unfold Strict.check_pregnancy. ro. Qed.

#[local] Hint Resolve readonly_strict_check_pregnancy : readonly.

Lemma readonly_strict_check_pregnancies i ps : readonly (Strict.check_pregnancies i ps).
Proof.
  revert i. induction ps as [|p ps IH]; intros i; simpl; ro.
Qed.

#[local] Hint Resolve readonly_strict_check_pregnancies : readonly.

(** Validation only reads. *)
Lemma readonly_strict_validateClient client : readonly (Strict.validateClient client).
Proof. unfold Strict.validateClient. ro. Qed.

Lemma readonly_salvage_validatePregnancy p : readonly (Salvage.validatePregnancy p).
Proof. unfold Salvage.validatePregnancy. ro. Qed.

Lemma readonly_salvage_validateClient client : readonly (Salvage.validateClient client).
Proof. unfold Salvage.validateClient. ro. Qed.

Lemma frames_readonly {A} n (m : M A) : readonly m -> frames n m (fun _ => True).
Proof.
  intros Hm s a s' Hn H. apply Hm in H. subst s'.
  unfold unchanged_below. auto.
Qed.

Lemma frames_weaken {A} n (m : M A) (P Q : A -> Prop) :
  frames n m P -> (forall a, P a -> Q a) -> frames n m Q.
Proof.
  intros Hm HPQ s a s' Hn H. destruct (Hm s a s' Hn H) as (H1 & H2 & H3). auto.
Qed.

Lemma frames_ret {A} n (a : A) (Q : A -> Prop) : Q a -> frames n (ret a) Q.
Proof.
  intros HQ s x s' Hn. unfold ret. intros [= <- <-].
  unfold unchanged_below. auto.
Qed.

Lemma frames_bind {A B} n (m : M A) (f : A -> M B) (P : A -> Prop) (Q : B -> Prop) :
  frames n m P -> (forall a, P a -> frames n (f a) Q) -> frames n (mbind m f) Q.
Proof.
  intros Hm Hf s b s' Hn. unfold mbind.
  destruct (m s) as [[a s1]| | |] eqn:E; try discriminate.
  intros H. destruct (Hm s a s1 Hn E) as (U1 & L1 & HP).
  destruct (Hf a HP s1 b s' (Nat.le_trans _ _ _ Hn L1) H) as (U2 & L2 & HQ).
  unfold unchanged_below in *. repeat split; [congruence | lia | assumption].
Qed.

Lemma frames_throw {A} n (Q : A -> Prop) : frames n throw Q.
Proof. intros s a s' _. discriminate. Qed.

Lemma frames_unmodelled {A} n (Q : A -> Prop) : frames n unmodelled Q.
Proof. intros s a s' _. discriminate. Qed.

Lemma frames_lift_exit {A} n (Q : A -> Prop) : frames n (lift Exit1) Q.
Proof. intros s a s' _. discriminate. Qed.

Lemma frames_alloc n c : frames n (alloc c) (fun l => n <= l).
Proof.
  intros s l s' Hn. unfold alloc. intros [= <- <-].
  unfold unchanged_below. rewrite length_app. simpl.
  repeat split; [|lia | assumption].
  rewrite firstn_app. replace (n - List.length s) with 0 by lia.
  simpl. now rewrite app_nil_r.
Qed.

Lemma firstn_put n l c s : n <= l -> firstn n (put l c s) = firstn n s.
Proof.
  revert n l. induction s as [|c0 s IH]; intros n l Hn; simpl.
  - now destruct l.
  - destruct l as [|l].
    + assert (n = 0) by lia. subst. reflexivity.
    + destruct n as [|n]; [reflexivity |]. simpl. f_equal. apply IH. lia.
Qed.

Lemma length_put l c s : List.length (put l c s) = List.length s.
Proof.
  revert l. induction s as [|c0 s IH]; intros l; simpl; [now destruct l |].
  destruct l; simpl; [reflexivity | now rewrite IH].
Qed.

Lemma frames_write n l c : n <= l -> frames n (write l c) (fun _ => True).
Proof.
  intros Hl s a s' Hn. unfold write. destruct (nth_error s l); [|discriminate].
  intros [= _ <-]. unfold unchanged_below. rewrite length_put.
  repeat split; [now apply firstn_put | lia].
Qed.

(** An assignment to a property of a value that is no old cell leaves the old
    cells alone. *)
Lemma frames_set_prop n v k x :
  fresh_from n v -> frames n (set_prop v k x) (fun _ => True).
Proof.
  intros Hv. unfold set_prop.
  destruct v as [| |b|z|str|l];
    try apply frames_throw; try (apply frames_ret; exact I).
  simpl in Hv. eapply frames_bind; [apply frames_readonly, readonly_read |].
  intros [ps|xs] _; [now apply frames_write | apply frames_unmodelled].
Qed.

Lemma frames_forM {A} n (xs : list A) (f : A -> M unit) :
  (forall x, frames n (f x) (fun _ => True)) ->
  frames n (forM xs f) (fun _ => True).
Proof.
  intros Hf. induction xs as [|x xs IH]; simpl.
  - now apply frames_ret.
  - eapply frames_bind; [apply Hf | intros _ _; exact IH].
Qed.

Lemma frames_mapM {A B} n (f : A -> M B) xs :
  (forall x, frames n (f x) (fun _ => True)) ->
  frames n (mapM f xs) (fun _ => True).
Proof.
  intros Hf. induction xs as [|x xs IH]; simpl.
  - now apply frames_ret.
  - eapply frames_bind; [apply Hf | intros y _].
    eapply frames_bind; [exact IH | intros ys _]. now apply frames_ret.
Qed.

Lemma frames_foldM {A S} n (f : S -> A -> M S) xs s :
  (forall s x, frames n (f s x) (fun _ => True)) ->
  frames n (foldM f s xs) (fun _ => True).
Proof.
  intros Hf. revert s. induction xs as [|x xs IH]; intros s; simpl.
  - now apply frames_ret.
  - eapply frames_bind; [apply Hf | intros s' _; apply IH].
Qed.

Lemma frames_true {A} n (m : M A) (P : A -> Prop) :
  frames n m P -> frames n m (fun _ => True).
Proof. intros H. eapply frames_weaken; [exact H | auto]. Qed.

(** The projector builds a new object: what it returns is the argument, when
    that is no object, or a cell that did not exist before. *)
Lemma frames_pickProperties n obj keys :
  frames n (pickProperties obj keys) (fresh_from n).
Proof.
  unfold pickProperties.
  destruct (negb (truthy obj) || negb (typeof_object obj))%bool eqn:E.
  - apply frames_ret. destruct obj; simpl in *; try exact I. discriminate.
  - eapply frames_bind; [apply frames_alloc | intros result Hr].
    eapply frames_bind.
    + apply frames_forM. intros key.
      eapply frames_bind; [apply frames_readonly, readonly_has_property |].
      intros present _. destruct present; [|now apply frames_ret].
      eapply frames_bind; [apply frames_readonly, readonly_get_own |].
      intros x _. now apply frames_set_prop.
    + intros _ _. now apply frames_ret.
Qed.

Lemma frames_filterDataEncr n dataEncr allowedKeys dynamicPatterns :
  frames n (filterDataEncr dataEncr allowedKeys dynamicPatterns) (fresh_from n).
Proof.
  unfold filterDataEncr.
  destruct (negb (truthy dataEncr) || negb (typeof_object dataEncr))%bool eqn:E.
  - apply frames_ret. destruct dataEncr; simpl in *; try exact I. discriminate.
  - eapply frames_bind; [apply frames_alloc | intros result Hr].
    eapply frames_bind; [apply frames_readonly, readonly_object_keys | intros ks _].
    eapply frames_bind.
    + apply frames_forM. intros key.
      assert (Hset : frames n (x <-- get_own dataEncr key ;;
                               set_prop (HRef result) key x) (fun _ => True)).
      { eapply frames_bind; [apply frames_readonly, readonly_get_own |].
        intros x _. now apply frames_set_prop. }
      destruct (mem key allowedKeys); [exact Hset |].
      eapply frames_bind; [apply frames_readonly, readonly_lift |].
      intros hit _. destruct hit; [exact Hset | now apply frames_ret].
    + intros _ _. now apply frames_ret.
Qed.

Lemma frames_update_truthy n filtered k f :
  fresh_from n filtered ->
  (forall x, frames n (f x) (fun _ => True)) ->
  frames n (update_truthy filtered k f) (fun _ => True).
Proof.
  intros Hfr Hf. unfold update_truthy.
  eapply frames_bind; [apply frames_readonly, readonly_get_prop | intros x _].
  destruct (truthy x); [|now apply frames_ret].
  eapply frames_bind; [apply Hf | intros y _]. now apply frames_set_prop.
Qed.

Lemma frames_update_array n filtered k f :
  fresh_from n filtered ->
  (forall x, frames n (f x) (fun _ => True)) ->
  frames n (update_array filtered k f) (fun _ => True).
Proof.
  intros Hfr Hf. unfold update_array.
  eapply frames_bind; [apply frames_readonly, readonly_get_prop | intros x _].
  eapply frames_bind; [apply frames_readonly, readonly_isArray | intros arr _].
  destruct (truthy x && arr)%bool; [|now apply frames_ret].
  eapply frames_bind; [apply frames_readonly, readonly_iterate | intros xs _].
  eapply frames_bind; [now apply frames_mapM | intros ys _].
  eapply frames_bind; [apply frames_alloc | intros mapped _].
  now apply frames_set_prop.
Qed.

Section FilterFrames.

Variable CONFIG : Config.
Variable n : nat.

Lemma frames_filterCareAfterPhone x :
  frames n (filterCareAfterPhone CONFIG x) (fresh_from n).
Proof. apply frames_pickProperties. Qed.

Lemma frames_filterCareAfter x :
  frames n (filterCareAfter CONFIG x) (fresh_from n).
Proof.
  unfold filterCareAfter.
  eapply frames_bind; [apply frames_pickProperties | intros filtered Hf].
  eapply frames_bind; [|intros _ _; now apply frames_ret].
  apply frames_update_truthy; [assumption |].
  intros d. eapply frames_true, frames_filterDataEncr.
Qed.

Lemma frames_filterChild x :
  frames n (filterChild CONFIG x) (fresh_from n).
Proof.
  unfold filterChild.
  eapply frames_bind; [apply frames_pickProperties | intros filtered Hf].
  eapply frames_bind; [|intros _ _; now apply frames_ret].
  apply frames_update_truthy; [assumption |].
  intros d. eapply frames_true, frames_filterDataEncr.
Qed.

Lemma frames_filterBirth x :
  frames n (filterBirth CONFIG x) (fresh_from n).
Proof.
  unfold filterBirth. destruct (negb (truthy x)); [now apply frames_ret |].
  eapply frames_bind; [apply frames_pickProperties | intros filtered Hf].
  eapply frames_bind.
  { apply frames_update_truthy; [assumption |].
    intros d. eapply frames_true, frames_filterDataEncr. }
  intros _ _. eapply frames_bind; [|intros _ _; now apply frames_ret].
  apply frames_update_array; [assumption |].
  intros c. eapply frames_true, frames_filterChild.
Qed.

Lemma frames_filterPregnancy x :
  frames n (filterPregnancy CONFIG x) (fresh_from n).
Proof.
  unfold filterPregnancy.
  eapply frames_bind; [apply frames_pickProperties | intros filtered Hf].
  eapply frames_bind.
  { apply frames_update_truthy; [assumption |].
    intros d. eapply frames_true, frames_filterDataEncr. }
  intros _ _. eapply frames_bind.
  { apply frames_update_truthy; [assumption |].
    intros b. eapply frames_true, frames_filterBirth. }
  intros _ _. eapply frames_bind.
  { apply frames_update_array; [assumption |].
    intros c. eapply frames_true, frames_filterCareAfter. }
  intros _ _. eapply frames_bind; [|intros _ _; now apply frames_ret].
  apply frames_update_array; [assumption |].
  intros c. eapply frames_true, frames_filterCareAfterPhone.
Qed.

Lemma frames_filterClient x :
  frames n (filterClient CONFIG x) (fresh_from n).
Proof.
  unfold filterClient.
  eapply frames_bind; [apply frames_pickProperties | intros filtered Hf].
  eapply frames_bind; [|intros _ _; now apply frames_ret].
  apply frames_update_array; [assumption |].
  intros p. eapply frames_true, frames_filterPregnancy.
Qed.

End FilterFrames.

Lemma frames_foldM_inv {A S} n (I : S -> Prop) (f : S -> A -> M S) xs s :
  (forall s x, I s -> frames n (f s x) I) ->
  I s ->
  frames n (foldM f s xs) I.
Proof.
  intros Hf. revert s. induction xs as [|x xs IH]; intros s Hs; simpl.
  - now apply frames_ret.
  - eapply frames_bind; [now apply Hf | intros s' Hs'; now apply IH].
Qed.

Lemma frames_strict_process_client n st client :
  Forall (fresh_from n) (fst st) ->
  frames n (Strict.process_client st client)
         (fun st' => Forall (fresh_from n) (fst st')).
Proof.
  destruct st as [out res]. simpl. intros Hout. unfold Strict.process_client.
  eapply frames_bind;
    [apply frames_readonly, readonly_strict_validateClient | intros v _].
  destruct (valid v).
  - eapply frames_bind; [apply frames_filterClient | intros fc Hfc].
    apply frames_ret. simpl. apply Forall_app. auto.
  - eapply frames_bind; [apply frames_readonly, readonly_get_prop | intros cid _].
    now apply frames_ret.
Qed.

Lemma frames_strict_processData n input :
  frames n (Strict.processData input) (fun st => Forall (fresh_from n) (fst st)).
Proof.
  unfold Strict.processData.
  eapply frames_bind; [apply frames_readonly, readonly_isArray | intros arr _].
  destruct arr; [|apply frames_lift_exit].
  eapply frames_bind; [apply frames_readonly, readonly_iterate | intros clients _].
  apply frames_foldM_inv; [|constructor].
  intros st c Hst. now apply frames_strict_process_client.
Qed.

(** The spread builds a new object. *)
Lemma frames_salvage_spread_with n client k x :
  frames n (Salvage.spread_with client k x) (fresh_from n).
Proof.
  unfold Salvage.spread_with.
  eapply frames_bind; [apply frames_alloc | intros copy Hcopy].
  assert (Hset : forall (kvs : list (string * hvalue)),
             frames n (forM kvs (fun kv => set_prop (HRef copy) (fst kv) (snd kv)))
                    (fun _ => True)).
  { intros kvs. apply frames_forM. intros kv. now apply frames_set_prop. }
  eapply frames_bind with (P := fun _ => True).
  - destruct client as [| |b|z|str|l]; try (now apply frames_ret); [apply Hset |].
    eapply frames_bind; [apply frames_readonly, readonly_read | intros c _].
    destruct c; apply Hset.
  - intros _ _. eapply frames_bind; [now apply frames_set_prop | intros _ _].
    now apply frames_ret.
Qed.

Lemma readonly_salvage_process_pregnancy client st p :
  readonly (Salvage.process_pregnancy client st p).
Proof.
  destruct st as [vps res]. unfold Salvage.process_pregnancy.
  apply readonly_bind; [apply readonly_salvage_validatePregnancy | intros v].
  destruct (valid v); [apply readonly_ret |].
  apply readonly_bind; [apply readonly_get_prop | intros cid].
  apply readonly_bind; [apply readonly_get_prop | intros pid].
  apply readonly_ret.
Qed.

Lemma frames_salvage_process_client n st client :
  Forall (fresh_from n) (fst st) ->
  frames n (Salvage.process_client st client)
         (fun st' => Forall (fresh_from n) (fst st')).
Proof.
  destruct st as [out res]. simpl. intros Hout. unfold Salvage.process_client.
  eapply frames_bind;
    [apply frames_readonly, readonly_salvage_validateClient | intros v _].
  destruct (negb (valid v)).
  - eapply frames_bind; [apply frames_readonly, readonly_get_prop | intros cid _].
    now apply frames_ret.
  - eapply frames_bind; [apply frames_readonly, readonly_get_prop | intros pregs _].
    eapply frames_bind; [apply frames_readonly, readonly_iterate | intros ps _].
    eapply frames_bind with (P := fun _ => True).
    { apply frames_foldM. intros st p.
      apply frames_readonly, readonly_salvage_process_pregnancy. }
    intros [vps res'] _. destruct (List.length vps =? 0)%nat.
    + eapply frames_bind; [apply frames_readonly, readonly_get_prop | intros cid _].
      now apply frames_ret.
    + eapply frames_bind; [apply frames_alloc | intros valids _].
      eapply frames_bind; [apply frames_salvage_spread_with | intros c' _].
      eapply frames_bind; [apply frames_filterClient | intros fc Hfc].
      apply frames_ret. simpl. apply Forall_app. auto.
Qed.

Lemma frames_salvage_processData n input :
  frames n (Salvage.processData input) (fun st => Forall (fresh_from n) (fst st)).
Proof.
  unfold Salvage.processData.
  eapply frames_bind; [apply frames_readonly, readonly_isArray | intros arr _].
  destruct arr; [|apply frames_lift_exit].
  eapply frames_bind; [apply frames_readonly, readonly_iterate | intros clients _].
  apply frames_foldM_inv; [|constructor].
  intros st c Hst. now apply frames_salvage_process_client.
Qed.

Lemma frames_whole_store {A} (m : M A) (Q : A -> Prop) s a s' :
  frames (List.length s) m Q ->
  m s = Ok (a, s') ->
  firstn (List.length s) s' = s /\ Q a.
Proof.
  intros Hm H. destruct (Hm s a s' (Nat.le_refl _) H) as (U & _ & HQ).
  unfold unchanged_below in U. rewrite firstn_all in U. auto.
Qed.

Lemma nth_error_firstn_eq (s s' : store) l :
  firstn (List.length s) s' = s -> l < List.length s ->
  nth_error s' l = nth_error s l.
Proof.
  intros H Hl. transitivity (nth_error (firstn (List.length s) s') l).
  - rewrite nth_error_firstn. now rewrite (proj2 (Nat.ltb_lt _ _) Hl).
  - now rewrite H.
Qed.

(** Over a store without dangling references, what a value of the old store
    stands for is the same in any store that keeps the old cells. *)
Lemma reify_unchanged (s s' : store) :
  closed_store s = true ->
  firstn (List.length s) s' = s ->
  forall fuel v, in_store s v = true -> reify fuel s' v = reify fuel s v.
Proof.
  intros Hc Hs. induction fuel as [|fuel IH]; intros v Hv.
  - destruct v; reflexivity.
  - destruct v as [| |b|z|str|l]; try reflexivity.
    simpl in Hv. apply Nat.ltb_lt in Hv. simpl.
    rewrite (nth_error_firstn_eq s s' l Hs Hv).
    destruct (nth_error s l) as [c|] eqn:E; [|reflexivity].
    unfold closed_store in Hc. rewrite forallb_forall in Hc.
    specialize (Hc c (nth_error_In _ _ E)).
    destruct c as [ps|xs]; rewrite forallb_forall in Hc; f_equal.
    + apply map_ext_in. intros kv Hkv. f_equal. apply IH. now apply Hc.
    + apply map_ext_in. intros x Hx. apply IH. now apply Hc.
Qed.

(** C9.  Over the store, a run of [processData], in either variant, and
    every filter leave each cell that existed before as it was: the store
    afterwards is the store before followed by new cells.  What a filter
    returns for an object, every emitted client and the object the spread
    builds are new cells, and validation does not write at all; so the input
    dataset stands for the same value before and after the run. *)
Theorem input_never_mutated (s : store) (input : hvalue) :
  (forall out res s',
     Strict.processData input s = Ok (out, res, s') ->
     firstn (List.length s) s' = s
     /\ Forall (fresh_from (List.length s)) out
     /\ (closed_store s = true -> in_store s input = true ->
         forall fuel, reify fuel s' input = reify fuel s input))
  /\ (forall out res s',
        Salvage.processData input s = Ok (out, res, s') ->
        firstn (List.length s) s' = s
        /\ Forall (fresh_from (List.length s)) out
        /\ (closed_store s = true -> in_store s input = true ->
            forall fuel, reify fuel s' input = reify fuel s input))
  /\ (forall CONFIG r s',
        (filterClient CONFIG input s = Ok (r, s')
         \/ filterPregnancy CONFIG input s = Ok (r, s')
         \/ filterBirth CONFIG input s = Ok (r, s')
         \/ filterChild CONFIG input s = Ok (r, s')
         \/ filterCareAfter CONFIG input s = Ok (r, s')
         \/ filterCareAfterPhone CONFIG input s = Ok (r, s')) ->
        firstn (List.length s) s' = s /\ fresh_from (List.length s) r)
  /\ (forall keys patterns r s',
        (pickProperties input keys s = Ok (r, s')
         \/ filterDataEncr input keys patterns s = Ok (r, s')
         \/ Salvage.spread_with input "pregnancies" HNull s = Ok (r, s')) ->
        firstn (List.length s) s' = s /\ fresh_from (List.length s) r)
  /\ (forall v s',
        (Strict.validateClient input s = Ok (v, s')
         \/ Salvage.validateClient input s = Ok (v, s')
         \/ Salvage.validatePregnancy input s = Ok (v, s')) ->
        s' = s).
Proof.
  split; [|split; [|split; [|split]]].
  - intros out res s' H.
    destruct (frames_whole_store _ _ s (out, res) s'
                (frames_strict_processData _ input) H) as [Hs Hout].
    split; [assumption |]. split; [exact Hout |].
    intros Hc Hin fuel. now apply reify_unchanged.
  - intros out res s' H.
    destruct (frames_whole_store _ _ s (out, res) s'
                (frames_salvage_processData _ input) H) as [Hs Hout].
    split; [assumption |]. split; [exact Hout |].
    intros Hc Hin fuel. now apply reify_unchanged.
  - intros CONFIG r s' H.
    destruct H as [H|[H|[H|[H|[H|H]]]]];
      (eapply frames_whole_store; [|exact H]);
      [ apply frames_filterClient | apply frames_filterPregnancy
      | apply frames_filterBirth | apply frames_filterChild
      | apply frames_filterCareAfter | apply frames_filterCareAfterPhone ].
  - intros keys patterns r s' H.
    destruct H as [H|[H|H]];
      (eapply frames_whole_store; [|exact H]);
      [ apply frames_pickProperties | apply frames_filterDataEncr
      | apply frames_salvage_spread_with ].
  - intros v s' H.
    destruct H as [H|[H|H]];
      [ now apply readonly_strict_validateClient in H
      | now apply readonly_salvage_validateClient in H
      | now apply readonly_salvage_validatePregnancy in H ].
Qed.

Lemma input_never_mutated_witness :
  match Salvage.processData (HRef 0) sample_store with
  | Ok (out, res, s') =>
      firstn (List.length sample_store) s' = sample_store
      /\ Forall (fresh_from (List.length sample_store)) out
      /\ reify 8 s' (HRef 0) = reify 8 sample_store (HRef 0)
  | _ => False
  end.
Proof.
  assert (H := proj1 (proj2 (input_never_mutated sample_store (HRef 0)))).
  destruct (Salvage.processData (HRef 0) sample_store) as [[[out res] s']| | |] eqn:E;
    try (vm_compute in E; discriminate E).
  destruct (H out res s' eq_refl) as (H1 & H2 & H3).
  split; [exact H1 |]. split; [exact H2 |].
  exact (H3 eq_refl eq_refl 8).
Defined.

End StoreFacts.

(** On the sample the run over the store and the run over values agree: the
    client in the store stands for a client record, and the clients emitted
    over the store stand for the clients emitted over values. *)
Example store_run_agrees_on_sample :
  Store.reify 8 Store.sample_store (Store.HRef 1)
  = VObj [("id", VNum 1); ("name", VStr "Ann");
          ("pregnancies",
           VArr [Sample.pregnancy;
                 VObj [("id", VNum 11); ("birth", Sample.birth);
                       ("cares_after_phone",
                        VArr [VObj [("id", VNum 3); ("caller", VStr "K")]])]])]
  /\ match Store.Salvage.processData (Store.HRef 0) Store.sample_store with
     | Ok (out, res, s') => Ok (map (Store.reify 8 s') out)
     | _ => TypeError
     end
     = match Salvage.processData (Store.reify 8 Store.sample_store (Store.HRef 0)) with
       | Ok (out, res) => Ok out
       | _ => TypeError
       end
  /\ match Store.Strict.processData (Store.HRef 0) Store.sample_store with
     | Ok (out, res, s') => Ok (map (Store.reify 8 s') out)
     | _ => TypeError
     end
     = match Strict.processData (Store.reify 8 Store.sample_store (Store.HRef 0)) with
       | Ok (out, res) => Ok out
       | _ => TypeError
       end.
Proof. repeat split; vm_compute; reflexivity. Qed.

(* ========================================================================= *)
(** * Further properties of the script *)

(* ------------------------------------------------------------------------- *)
(** ** The projector and the encrypted-field filter *)

Lemma pick_fold_order (o : obj) ks acc :
  NoDup ks ->
  forallb not_index ks = true ->
  (forall k, In k ks -> ~ In k (keys acc)) ->
  fold_left (pick_step (VObj o)) ks acc
  = acc ++ map (fun k => (k, get_own (VObj o) k)) (filter (fun k => has_own k o) ks).
Proof.
  intros Hnd. revert acc. induction Hnd as [|k ks Hk Hnd IH]; intros acc Hni Hacc.
  - simpl. now rewrite app_nil_r.
  - simpl in Hni. apply andb_true_iff in Hni as [Hki Hni].
    cbn [fold_left filter]. unfold pick_step at 2. cbn [has_property].
    destruct (has_own k o) eqn:Hh.
    + rewrite obj_set_append.
      * rewrite IH; [now rewrite <- app_assoc | assumption |].
        intros k' Hk'. unfold keys. rewrite map_app, in_app_iff. simpl.
        intros [H|[H|[]]]; [apply (Hacc k'); simpl; auto | congruence].
      * apply Hacc. now left.
      * intros n Hn. unfold not_index in Hki. now rewrite Hn in Hki.
    + apply IH; [assumption |]. intros k' Hk'. apply Hacc. now right.
Qed.

(** X1.  What the projector returns for an object: the listed keys the
    object has, in the order of the list and not of the object, each with
    the value it has in the object.  (The list names no key twice, no array
    index and nothing an object inherits.) *)
Theorem pickProperties_key_order (o : obj) (ks : list string) :
  nodup_keys ks = true ->
  forallb not_index ks = true ->
  forallb own_name ks = true ->
  pickProperties (VObj o) ks
  = VObj (map (fun k => (k, get_own (VObj o) k)) (filter (fun k => has_own k o) ks)).
Proof.
  intros Hnd Hni _. rewrite pickProperties_object by reflexivity. f_equal.
  apply nodup_keys_NoDup in Hnd.
  now rewrite (pick_fold_order o ks [] Hnd Hni) by (intros k _ []).
Qed.

Lemma pickProperties_key_order_witness :
  pickProperties (VObj [("name", VStr "Ann"); ("pregnancies", VArr []); ("id", VNum 1)])
                 ["id"; "pregnancies"; "birth"]
  = VObj [("id", VNum 1); ("pregnancies", VArr [])].
Proof.
  exact (pickProperties_key_order
           [("name", VStr "Ann"); ("pregnancies", VArr []); ("id", VNum 1)]
           ["id"; "pregnancies"; "birth"] eq_refl eq_refl eq_refl).
Defined.

(** X2.  Reading the projection back.  A value that is falsy or no object is
    returned as it is; for an object or an array the result is an object, well
    formed, that has key [k] exactly when [k] is listed and is a property of
    the argument, with the argument's value.  (The list names nothing an
    object or an array inherits.) *)
Theorem pickProperties_lookup (v : value) (ks : list string) :
  forallb own_name ks = true ->
  (truthy v = false \/ typeof_object v = false -> pickProperties v ks = v)
  /\ (truthy v = true -> typeof_object v = true ->
      exists r,
        pickProperties v ks = VObj r
        /\ js_object r = true
        /\ forall k, lookup k r
                     = if (mem k ks && has_property k v)%bool
                       then Some (get_own v k) else None).
Proof.
  intros _. split; [apply pickProperties_other |].
  intros Ht Ho. exists (fold_left (pick_step v) ks []).
  split; [now apply pickProperties_object |].
  split; [now apply pick_fold_js_object |].
  intros k. now rewrite pick_fold_lookup.
Qed.

Lemma pickProperties_lookup_witness :
  pickProperties VNull ["id"; "length"; "1"] = VNull
  /\ pickProperties (VArr [VStr "a"; VStr "b"]) ["id"; "length"; "1"]
     = VObj [("1", VStr "b"); ("length", VNum 2)].
Proof.
  destruct (pickProperties_lookup VNull ["id"; "length"; "1"] eq_refl) as [H _].
  split; [exact (H (or_introl eq_refl)) | reflexivity].
Defined.

Lemma pickProperties_array_named xs ks :
  forallb named ks = true -> pickProperties (VArr xs) ks = VObj [].
Proof.
  intros H. rewrite pickProperties_object by reflexivity. f_equal.
  induction ks as [|k ks IH]; simpl; [reflexivity |].
  simpl in H. apply andb_true_iff in H as [Hk H].
  unfold pick_step at 2. rewrite has_property_named by (assumption || discriminate).
  now apply IH.
Qed.

(** X3.  The projector never returns an array: an array given as a record
    becomes a plain object, the empty one when the list names neither
    [length] nor an index nor anything an array inherits, and so every filter
    turns a record that is an array into the empty object. *)
Theorem pickProperties_never_array (v : value) (ks : list string) (xs : list value) :
  pickProperties v ks <> VArr xs
  /\ (forallb named ks = true -> forallb own_name ks = true ->
      pickProperties (VArr xs) ks = VObj [])
  /\ filterClient Strict.CONFIG (VArr xs) = Ok (VObj [])
  /\ filterPregnancy Strict.CONFIG (VArr xs) = Ok (VObj [])
  /\ filterBirth Strict.CONFIG (VArr xs) = Ok (VObj [])
  /\ filterChild Strict.CONFIG (VArr xs) = Ok (VObj [])
  /\ filterCareAfter Strict.CONFIG (VArr xs) = Ok (VObj [])
  /\ filterCareAfterPhone Strict.CONFIG (VArr xs) = Ok (VObj []).
Proof.
  split; [apply pickProperties_not_array |].
  split; [intros H _; now apply pickProperties_array_named |].
  unfold filterClient, filterPregnancy, filterBirth, filterChild, filterCareAfter,
    filterCareAfterPhone.
  cbn [truthy negb].
  rewrite !pickProperties_array_named by reflexivity.
  repeat split.
Qed.

Lemma lookup_filter_keys (keep : string -> bool) k (o : obj) :
  lookup k (filter (fun kv => keep (fst kv)) o) = if keep k then lookup k o else None.
Proof.
  induction o as [|[k' v] o IH]; simpl; [now destruct (keep k) |].
  destruct (String.eqb_spec k k') as [->|Hne].
  - destruct (keep k') eqn:Hk; simpl; [now rewrite String.eqb_refl | exact IH].
  - destruct (keep k') eqn:Hk'; simpl; [|assumption].
    now destruct (String.eqb_spec k k').
Qed.

Lemma lookup_In_entry k v (o : obj) : lookup k o = Some v -> In (k, v) o.
Proof.
  induction o as [|[k' v'] o IH]; simpl; [discriminate |].
  destruct (String.eqb_spec k k') as [->|Hne]; [intros [= ->]; now left | auto].
Qed.

Lemma NoDup_entries (o : obj) : NoDup (keys o) -> NoDup o.
Proof. unfold keys. apply NoDup_map_inv. Qed.

(** X4.  Without dynamic patterns the encrypted-field filter and the
    projector select the same properties of an object: the two results hold
    the same values under the same keys, the filter in the order of the
    object, the projector in the order of the list.  (The list names nothing
    an object inherits.) *)
Theorem filterDataEncr_agrees_with_pickProperties (o : obj) (allowedKeys : list string) :
  js_object o = true ->
  forallb own_name allowedKeys = true ->
  exists r r',
    filterDataEncr (VObj o) allowedKeys None = Ok (VObj r)
    /\ pickProperties (VObj o) allowedKeys = VObj r'
    /\ (forall k, lookup k r = lookup k r')
    /\ keys r = filter (fun k => mem k allowedKeys) (keys o)
    /\ Permutation r r'.
Proof.
  intros Hjs _.
  exists (filter (fun kv => kept allowedKeys None (fst kv)) o),
         (fold_left (pick_step (VObj o)) allowedKeys []).
  assert (Hl : forall k,
             lookup k (filter (fun kv => kept allowedKeys None (fst kv)) o)
             = lookup k (fold_left (pick_step (VObj o)) allowedKeys [])).
  { intros k. rewrite lookup_filter_keys, pick_fold_lookup.
    unfold kept. rewrite orb_false_r. cbn [has_property lookup].
    unfold has_own. destruct (mem k allowedKeys); [|reflexivity]. simpl.
    now destruct (lookup k o). }
  assert (Hnd : NoDup (keys o)).
  { apply nodup_keys_NoDup. unfold js_object in Hjs.
    now apply andb_true_iff in Hjs as [Hjs _]. }
  split; [now apply filterDataEncr_object |].
  split; [now apply pickProperties_object |].
  split; [assumption |]. split.
  - unfold kept, keys. clear. induction o as [|[k v] o IH]; simpl; [reflexivity |].
    rewrite orb_false_r. destruct (mem k allowedKeys); simpl; now rewrite IH.
  - apply NoDup_Permutation.
    + apply NoDup_filter. now apply NoDup_entries.
    + apply NoDup_entries. apply pick_fold_NoDup. constructor.
    + intros [k v]. split; intros H.
      * apply lookup_In_entry. rewrite <- Hl. apply lookup_entry; [|assumption].
        unfold keys. clear - Hnd. induction o as [|[k' v'] o IH]; simpl; [constructor |].
        inversion Hnd as [|? ? Hk' Hnd']; subst.
        destruct (kept allowedKeys None k'); simpl; [|now apply IH].
        constructor; [|now apply IH]. intros Hin. apply Hk'.
        apply in_map_iff in Hin as ([k2 v2] & <- & Hin).
        apply filter_In in Hin as [Hin _]. apply in_map_iff. now exists (k2, v2).
      * apply lookup_In_entry. rewrite Hl. apply lookup_entry; [|assumption].
        apply pick_fold_NoDup. constructor.
Qed.

Lemma filterDataEncr_agrees_with_pickProperties_witness :
  exists r r',
    filterDataEncr (VObj [("weight", VNum 3); ("birth_time", VStr "09:00");
                          ("fields-type", VStr "c")])
                   (dataEncr_child Strict.CONFIG) None = Ok (VObj r)
    /\ pickProperties (VObj [("weight", VNum 3); ("birth_time", VStr "09:00");
                             ("fields-type", VStr "c")])
                      (dataEncr_child Strict.CONFIG) = VObj r'
    /\ (forall k, lookup k r = lookup k r')
    /\ keys r = filter (fun k => mem k (dataEncr_child Strict.CONFIG))
                       ["weight"; "birth_time"; "fields-type"]
    /\ Permutation r r'.
Proof.
  exact (filterDataEncr_agrees_with_pickProperties
           [("weight", VNum 3); ("birth_time", VStr "09:00"); ("fields-type", VStr "c")]
           (dataEncr_child Strict.CONFIG) eq_refl eq_refl).
Defined.

Lemma plain_no_placeholder by_ s :
  plain s = true -> replace_first "{id}" by_ s = s.
Proof.
  induction s as [|c s IH]; [reflexivity |].
  cbn [plain]. intros H. apply andb_true_iff in H as [Hc Hs].
  rewrite replace_first_skip; [now rewrite IH |].
  cbn [starts_with]. destruct (Ascii.eqb_spec "{"%char c) as [<-|]; [discriminate | reflexivity].
Qed.

Lemma string_app_empty (s : string) : (s ++ "")%string = s.
Proof. induction s as [|c s IH]; simpl; [reflexivity | now rewrite IH]. Qed.

(** X5.  A dynamic pattern without the placeholder, and without a character
    that means something in a regular expression, matches the key equal to it
    and no other key. *)
Theorem matchesDynamicPattern_literal (key pattern : string) :
  plain pattern = true ->
  matchesDynamicPattern key pattern = Ok (String.eqb key pattern).
Proof.
  intros Hp. unfold matchesDynamicPattern.
  rewrite plain_no_placeholder by assumption.
  rewrite <- (string_app_empty pattern) at 1.
  rewrite parse_regex_plain by assumption. cbn [parse_regex].
  rewrite app_nil_r. f_equal.
  destruct (String.eqb_spec key pattern) as [->|Hne].
  - now apply regex_test_lits_only.
  - destruct (regex_test (lits pattern) key) eqn:E; [|reflexivity].
    apply regex_test_lits_only in E. contradiction.
Qed.

Lemma matchesDynamicPattern_literal_witness :
  matchesDynamicPattern "kind-5-nahrung" "kind-5-nahrung" = Ok true
  /\ matchesDynamicPattern "kind-6-nahrung" "kind-5-nahrung" = Ok false.
Proof.
  split.
  - exact (matchesDynamicPattern_literal "kind-5-nahrung" "kind-5-nahrung" eq_refl).
  - exact (matchesDynamicPattern_literal "kind-6-nahrung" "kind-5-nahrung" eq_refl).
Defined.

(* ------------------------------------------------------------------------- *)
(** ** The filters on values that are no records *)

(** X6.  A missing record.  Given null or undefined, the care-after-phone
    filter returns it as it is and the birth filter returns null, while the
    care-after, child, pregnancy and client filters throw a TypeError. *)
Theorem filters_on_missing_records (CONFIG : Config) (v : value) :
  nullish v = true ->
  filterCareAfterPhone CONFIG v = Ok v
  /\ filterBirth CONFIG v = Ok VNull
  /\ filterCareAfter CONFIG v = TypeError
  /\ filterChild CONFIG v = TypeError
  /\ filterPregnancy CONFIG v = TypeError
  /\ filterClient CONFIG v = TypeError.
Proof.
  destruct v; try discriminate; intros _; repeat split.
Qed.

Lemma filters_on_missing_records_witness :
  filterCareAfterPhone Strict.CONFIG VUndefined = Ok VUndefined
  /\ filterBirth Strict.CONFIG VUndefined = Ok VNull
  /\ filterCareAfter Strict.CONFIG VUndefined = TypeError
  /\ filterChild Strict.CONFIG VUndefined = TypeError
  /\ filterPregnancy Strict.CONFIG VUndefined = TypeError
  /\ filterClient Strict.CONFIG VUndefined = TypeError.
Proof. exact (filters_on_missing_records Strict.CONFIG VUndefined eq_refl). Defined.

(** X7.  A number, a string or a boolean in the place of a record passes
    every filter unchanged, but for the birth filter, which turns the falsy
    ones (zero, the empty string, false) into null. *)
Theorem filters_pass_scalars (CONFIG : Config) (v : value) :
  typeof_object v = false ->
  nullish v = false ->
  filterCareAfterPhone CONFIG v = Ok v
  /\ filterCareAfter CONFIG v = Ok v
  /\ filterChild CONFIG v = Ok v
  /\ filterPregnancy CONFIG v = Ok v
  /\ filterClient CONFIG v = Ok v
  /\ filterBirth CONFIG v = Ok (if truthy v then v else VNull).
Proof.
  intros Ho Hn.
  assert (Hp : forall ks, pickProperties v ks = v)
    by (intros ks; apply pickProperties_other; auto).
  unfold filterCareAfterPhone, filterCareAfter, filterChild, filterPregnancy,
    filterClient, filterBirth.
  rewrite !Hp.
  destruct v as [| |b|n|s|xs|o]; try discriminate; repeat split;
    try (destruct b; reflexivity);
    try (destruct (n =? 0)%Z eqn:E; cbn [truthy negb]; rewrite ?E; reflexivity);
    try (destruct s; reflexivity).
Qed.

Lemma filters_pass_scalars_witness :
  filterCareAfterPhone Strict.CONFIG (VStr "x") = Ok (VStr "x")
  /\ filterCareAfter Strict.CONFIG (VStr "x") = Ok (VStr "x")
  /\ filterChild Strict.CONFIG (VStr "x") = Ok (VStr "x")
  /\ filterPregnancy Strict.CONFIG (VStr "x") = Ok (VStr "x")
  /\ filterClient Strict.CONFIG (VStr "x") = Ok (VStr "x")
  /\ filterBirth Strict.CONFIG (VStr "x") = Ok (VStr "x").
Proof. exact (filters_pass_scalars Strict.CONFIG (VStr "x") eq_refl eq_refl). Defined.

(* ------------------------------------------------------------------------- *)
(** ** The filters, field by field *)

Lemma update_truthy_through filtered k f r :
  named k = true ->
  update_truthy filtered k f = Ok r ->
  through_truthy f (get_opt filtered k) (get_opt r k)
  /\ (forall k', k' <> k -> get_opt r k' = get_opt filtered k').
Proof.
  intros Hk H. split.
  - unfold through_truthy.
    destruct (update_truthy_get _ _ _ _ Hk H) as [[Ht E]|[Ht E]]; now rewrite Ht.
  - intros k' Hne.
    destruct (update_truthy_cases _ _ _ _ Hk H)
      as [(-> & _)|(o & x & y & -> & Hl & _ & _ & ->)]; [reflexivity |].
    rewrite get_opt_obj_update by (eapply lookup_has_own; eassumption).
    now destruct (String.eqb_spec k' k).
Qed.

Lemma update_array_through filtered k f r :
  named k = true ->
  update_array filtered k f = Ok r ->
  through_array f (get_opt filtered k) (get_opt r k)
  /\ (forall k', k' <> k -> get_opt r k' = get_opt filtered k').
Proof.
  intros Hk H. split.
  - unfold through_array.
    destruct (update_array_get _ _ _ _ Hk H) as [[Ha E]|(xs & ys & Ex & Hm & Ey)].
    + rewrite E. destruct (get_opt filtered k); try reflexivity. discriminate.
    + rewrite Ex. exists ys. split; [assumption | now apply mapM_Forall2].
  - intros k' Hne.
    destruct (update_array_cases _ _ _ _ Hk H)
      as [(-> & _)|(o & xs & ys & -> & Hl & _ & ->)]; [reflexivity |].
    rewrite get_opt_obj_update by (eapply lookup_has_own; eassumption).
    now destruct (String.eqb_spec k' k).
Qed.

Lemma get_opt_listed v ks k :
  named k = true -> get_opt (pickProperties v ks) k = listed_field ks v k.
Proof. apply get_opt_pickProperties. Qed.

(** X8.  What a filter does to each field of a record.  A field that is
    not listed is dropped; a listed field comes out as it went in, except the
    nested ones: the encrypted blob and the birth, when truthy, are replaced by
    their filtered versions, and a list of pregnancies, children or visits by
    the list of the filtered entries, one for one and in order.  (The lists
    of the configuration, and the field read, name nothing an object
    inherits.) *)
Theorem filters_act_fieldwise (CONFIG : Config) (x r : value) :
  plain_config CONFIG = true ->
  (filterClient CONFIG x = Ok r ->
   through_array (filterPregnancy CONFIG)
     (listed_field (whitelist_client CONFIG) x "pregnancies")
     (get_opt r "pregnancies")
   /\ forall k, named k = true -> own_name k = true -> k <> "pregnancies" ->
                get_opt r k = listed_field (whitelist_client CONFIG) x k)
  /\ (filterPregnancy CONFIG x = Ok r ->
      through_truthy (fun d => filterDataEncr d (dataEncr_pregnancy CONFIG) None)
        (listed_field (whitelist_pregnancy CONFIG) x "data_encr")
        (get_opt r "data_encr")
      /\ through_truthy (filterBirth CONFIG)
           (listed_field (whitelist_pregnancy CONFIG) x "birth")
           (get_opt r "birth")
      /\ through_array (filterCareAfter CONFIG)
           (listed_field (whitelist_pregnancy CONFIG) x "cares_after")
           (get_opt r "cares_after")
      /\ through_array (filterCareAfterPhone CONFIG)
           (listed_field (whitelist_pregnancy CONFIG) x "cares_after_phone")
           (get_opt r "cares_after_phone")
      /\ forall k, named k = true -> own_name k = true ->
                   k <> "data_encr" -> k <> "birth" ->
                   k <> "cares_after" -> k <> "cares_after_phone" ->
                   get_opt r k = listed_field (whitelist_pregnancy CONFIG) x k)
  /\ (filterBirth CONFIG x = Ok r ->
      truthy x = true ->
      through_truthy (fun d => filterDataEncr d (dataEncr_birth CONFIG) None)
        (listed_field (whitelist_birth CONFIG) x "data_encr")
        (get_opt r "data_encr")
      /\ through_array (filterChild CONFIG)
           (listed_field (whitelist_birth CONFIG) x "children")
           (get_opt r "children")
      /\ forall k, named k = true -> own_name k = true -> k <> "data_encr" -> k <> "children" ->
                   get_opt r k = listed_field (whitelist_birth CONFIG) x k)
  /\ (filterChild CONFIG x = Ok r ->
      through_truthy (fun d => filterDataEncr d (dataEncr_child CONFIG) None)
        (listed_field (whitelist_child CONFIG) x "data_encr")
        (get_opt r "data_encr")
      /\ forall k, named k = true -> own_name k = true -> k <> "data_encr" ->
                   get_opt r k = listed_field (whitelist_child CONFIG) x k)
  /\ (filterCareAfter CONFIG x = Ok r ->
      through_truthy
        (fun d => filterDataEncr d (dataEncr_careAfter CONFIG)
                    (Some (dataEncr_careAfterDynamicPatterns CONFIG)))
        (listed_field (whitelist_careAfter CONFIG) x "data_encr")
        (get_opt r "data_encr")
      /\ forall k, named k = true -> own_name k = true -> k <> "data_encr" ->
                   get_opt r k = listed_field (whitelist_careAfter CONFIG) x k)
  /\ (filterCareAfterPhone CONFIG x = Ok r ->
      forall k, named k = true -> own_name k = true ->
                get_opt r k = listed_field (whitelist_careAfterPhone CONFIG) x k).
Proof.
  intros _. split; [|split; [|split; [|split; [|split]]]].
  - unfold filterClient. intros H.
    apply update_array_through in H as [T O]; [|reflexivity].
    rewrite get_opt_listed in T by reflexivity. split; [assumption |].
    intros k Hk _ Hne. rewrite O by assumption. now apply get_opt_listed.
  - unfold filterPregnancy. intros H.
    apply bind_Ok in H as (a & H1 & H).
    apply bind_Ok in H as (b & H2 & H).
    apply bind_Ok in H as (c & H3 & H4).
    apply update_truthy_through in H1 as [T1 O1]; [|reflexivity].
    apply update_truthy_through in H2 as [T2 O2]; [|reflexivity].
    apply update_array_through in H3 as [T3 O3]; [|reflexivity].
    apply update_array_through in H4 as [T4 O4]; [|reflexivity].
    rewrite get_opt_listed in T1 by reflexivity.
    rewrite (O1 "birth"), get_opt_listed in T2 by (reflexivity || discriminate).
    rewrite (O2 "cares_after"), (O1 "cares_after"), get_opt_listed in T3
      by (reflexivity || discriminate).
    rewrite (O3 "cares_after_phone"), (O2 "cares_after_phone"),
      (O1 "cares_after_phone"), get_opt_listed in T4
      by (reflexivity || discriminate).
    rewrite <- (O2 "data_encr"), <- (O3 "data_encr"), <- (O4 "data_encr") in T1
      by discriminate.
    rewrite <- (O3 "birth"), <- (O4 "birth") in T2 by discriminate.
    rewrite <- (O4 "cares_after") in T3 by discriminate.
    repeat (split; [assumption |]).
    intros k Hk _ N1 N2 N3 N4.
    rewrite O4, O3, O2, O1 by assumption. now apply get_opt_listed.
  - unfold filterBirth. intros H Ht. rewrite Ht in H. cbn [negb] in H.
    apply bind_Ok in H as (a & H1 & H2).
    apply update_truthy_through in H1 as [T1 O1]; [|reflexivity].
    apply update_array_through in H2 as [T2 O2]; [|reflexivity].
    rewrite get_opt_listed in T1 by reflexivity.
    rewrite (O1 "children"), get_opt_listed in T2 by (reflexivity || discriminate).
    rewrite <- (O2 "data_encr") in T1 by discriminate.
    repeat (split; [assumption |]).
    intros k Hk _ N1 N2. rewrite O2, O1 by assumption. now apply get_opt_listed.
  - unfold filterChild. intros H.
    apply update_truthy_through in H as [T O]; [|reflexivity].
    rewrite get_opt_listed in T by reflexivity. split; [assumption |].
    intros k Hk _ Hne. rewrite O by assumption. now apply get_opt_listed.
  - unfold filterCareAfter. intros H.
    apply update_truthy_through in H as [T O]; [|reflexivity].
    rewrite get_opt_listed in T by reflexivity. split; [assumption |].
    intros k Hk _ Hne. rewrite O by assumption. now apply get_opt_listed.
  - unfold filterCareAfterPhone. intros [= <-] k Hk _. now apply get_opt_listed.
Qed.

Lemma filters_act_fieldwise_witness :
  through_array (filterPregnancy Strict.CONFIG)
    (listed_field (whitelist_client Strict.CONFIG) Sample.client "pregnancies")
    (get_opt Sample.client_filtered "pregnancies")
  /\ get_opt Sample.client_filtered "id" = VNum 1
  /\ get_opt Sample.client_filtered "name" = VUndefined.
Proof.
  destruct (proj1 (filters_act_fieldwise Strict.CONFIG Sample.client
                     Sample.client_filtered eq_refl) eq_refl) as [T O].
  split; [exact T |]. split.
  - exact (O "id" eq_refl eq_refl
             (fun H : "id" = "pregnancies" =>
                eq_ind "id" (fun s => match s with
                                      | String "i" _ => True
                                      | _ => False
                                      end) I "pregnancies" H)).
  - exact (O "name" eq_refl eq_refl
             (fun H : "name" = "pregnancies" =>
                eq_ind "name" (fun s => match s with
                                        | String "n" _ => True
                                        | _ => False
                                        end) I "pregnancies" H)).
Defined.

(* ------------------------------------------------------------------------- *)
(** ** Null entries in the lists of a record *)

Lemma rt_bind {A B} (m : outcome A) (k : A -> outcome B) :
  returns_or_throws m ->
  (forall a, m = Ok a -> returns_or_throws (k a)) ->
  returns_or_throws (bind m k).
Proof. destruct m; simpl; auto. Qed.

Lemma rt_mapM {A B} (f : A -> outcome B) xs :
  (forall x, returns_or_throws (f x)) -> returns_or_throws (mapM f xs).
Proof.
  intros Hf. induction xs as [|x xs IH]; simpl; [exact I |].
  apply rt_bind; [apply Hf |]. intros y _.
  apply rt_bind; [assumption |]. intros ys _. exact I.
Qed.

Lemma mapM_throws {A B} (f : A -> outcome B) pre x post :
  (forall y, returns_or_throws (f y)) ->
  f x = TypeError ->
  mapM f (pre ++ x :: post) = TypeError.
Proof.
  intros Hf Hx. induction pre as [|p pre IH]; simpl.
  - now rewrite Hx.
  - specialize (Hf p). destruct (f p); simpl; try contradiction; [|reflexivity].
    now rewrite IH.
Qed.

Lemma rt_filterDataEncr d allowed pats :
  patterns_ok pats = true -> returns_or_throws (filterDataEncr d allowed pats).
Proof.
  intros H. destruct (filterDataEncr_total d allowed pats H) as [y ->]. exact I.
Qed.

Lemma rt_update_truthy filtered k f :
  (forall xs, filtered <> VArr xs) ->
  (forall x, returns_or_throws (f x)) ->
  returns_or_throws (update_truthy filtered k f).
Proof.
  intros Ha Hf. unfold update_truthy.
  apply rt_bind; [unfold get_prop; now destruct (nullish filtered) |].
  intros x _. destruct (truthy x); [|exact I].
  apply rt_bind; [apply Hf |]. intros y _.
  destruct filtered; try exact I. now destruct (Ha xs).
Qed.

Lemma rt_update_array filtered k f :
  (forall xs, filtered <> VArr xs) ->
  (forall x, returns_or_throws (f x)) ->
  returns_or_throws (update_array filtered k f).
Proof.
  intros Ha Hf. unfold update_array.
  apply rt_bind; [unfold get_prop; now destruct (nullish filtered) |].
  intros x _.
  destruct x; cbn [truthy isArray andb]; try exact I;
    try (destruct (_ && false)%bool; exact I).
  apply rt_bind; [now apply rt_mapM |]. intros ys _.
  destruct filtered; try exact I. now destruct (Ha xs0).
Qed.

Lemma update_truthy_not_array filtered k f r :
  named k = true ->
  update_truthy filtered k f = Ok r ->
  (forall xs, filtered <> VArr xs) -> forall xs, r <> VArr xs.
Proof.
  intros Hk H Ha.
  destruct (update_truthy_cases _ _ _ _ Hk H)
    as [(-> & _)|(o & x & y & _ & _ & _ & _ & ->)]; [assumption | discriminate].
Qed.

Lemma update_array_not_array filtered k f r :
  named k = true ->
  update_array filtered k f = Ok r ->
  (forall xs, filtered <> VArr xs) -> forall xs, r <> VArr xs.
Proof.
  intros Hk H Ha.
  destruct (update_array_cases _ _ _ _ Hk H)
    as [(-> & _)|(o & x & y & _ & _ & _ & ->)]; [assumption | discriminate].
Qed.

(** Mapping over a list with an entry on which [f] throws. *)
Lemma update_array_throws filtered k f pre e post :
  get_opt filtered k = VArr (pre ++ e :: post) ->
  (forall y, returns_or_throws (f y)) ->
  f e = TypeError ->
  update_array filtered k f = TypeError.
Proof.
  intros Hg Hf He. unfold update_array, get_prop. unfold get_opt in Hg.
  destruct (nullish filtered); [reflexivity |]. cbn [bind]. rewrite Hg.
  cbn [truthy isArray andb]. now rewrite mapM_throws.
Qed.

Section Throwing.

Variable CONFIG : Config.
Hypothesis patterns_in_fragment :
  patterns_ok (Some (dataEncr_careAfterDynamicPatterns CONFIG)) = true.

Lemma rt_filterCareAfter x : returns_or_throws (filterCareAfter CONFIG x).
Proof.
  unfold filterCareAfter.
  apply rt_update_truthy; [intros xs; apply pickProperties_not_array |].
  intros d. now apply rt_filterDataEncr.
Qed.

Lemma rt_filterChild x : returns_or_throws (filterChild CONFIG x).
Proof.
  unfold filterChild.
  apply rt_update_truthy; [intros xs; apply pickProperties_not_array |].
  intros d. now apply rt_filterDataEncr.
Qed.

Lemma rt_filterBirth x : returns_or_throws (filterBirth CONFIG x).
Proof.
  unfold filterBirth. destruct (negb (truthy x)); [exact I |].
  apply rt_bind.
  - apply rt_update_truthy; [intros xs; apply pickProperties_not_array |].
    intros d. now apply rt_filterDataEncr.
  - intros a Ha. apply rt_update_array; [|apply rt_filterChild].
    apply (update_truthy_not_array _ "data_encr" _ _ eq_refl Ha).
    intros xs. apply pickProperties_not_array.
Qed.

Lemma rt_filterPregnancy x : returns_or_throws (filterPregnancy CONFIG x).
Proof.
  unfold filterPregnancy.
  assert (N0 : forall xs, pickProperties x (whitelist_pregnancy CONFIG) <> VArr xs)
    by (intros xs; apply pickProperties_not_array).
  apply rt_bind.
  { apply rt_update_truthy; [assumption |]. intros d. now apply rt_filterDataEncr. }
  intros a Ha. assert (N1 := update_truthy_not_array _ "data_encr" _ _ eq_refl Ha N0).
  apply rt_bind.
  { apply rt_update_truthy; [assumption | apply rt_filterBirth]. }
  intros b Hb. assert (N2 := update_truthy_not_array _ "birth" _ _ eq_refl Hb N1).
  apply rt_bind.
  { apply rt_update_array; [assumption | apply rt_filterCareAfter]. }
  intros c Hc. assert (N3 := update_array_not_array _ "cares_after" _ _ eq_refl Hc N2).
  apply rt_update_array; [assumption |]. intros y. exact I.
Qed.

Lemma filterBirth_throws_below x pre e post :
  mem "children" (whitelist_birth CONFIG) = true ->
  get_opt x "children" = VArr (pre ++ e :: post) ->
  filterChild CONFIG e = TypeError ->
  filterBirth CONFIG x = TypeError.
Proof.
  intros Hm Hg He. unfold filterBirth.
  assert (Hx : truthy x = true).
  { destruct x; try discriminate; reflexivity. }
  rewrite Hx. cbn [negb].
  destruct (update_truthy _ "data_encr" _) as [a| | |] eqn:Ha; cbn [bind];
    try reflexivity;
    try (assert (R := rt_update_truthy
                        (pickProperties x (whitelist_birth CONFIG)) "data_encr"
                        (fun d => filterDataEncr d (dataEncr_birth CONFIG) None)
                        (fun xs => pickProperties_not_array _ _ xs)
                        (fun d => rt_filterDataEncr d _ None eq_refl));
         rewrite Ha in R; contradiction).
  apply update_truthy_through in Ha as [_ O]; [|reflexivity].
  apply (update_array_throws _ _ _ pre e post); [|apply rt_filterChild | assumption].
  rewrite O by discriminate. rewrite get_opt_listed by reflexivity.
  unfold listed_field. now rewrite Hm.
Qed.

Lemma filterPregnancy_throws_at_birth x :
  mem "birth" (whitelist_pregnancy CONFIG) = true ->
  truthy (get_opt x "birth") = true ->
  filterBirth CONFIG (get_opt x "birth") = TypeError ->
  filterPregnancy CONFIG x = TypeError.
Proof.
  intros Hm Ht Hb. unfold filterPregnancy.
  destruct (update_truthy _ "data_encr" _) as [a| | |] eqn:Ha; cbn [bind];
    try reflexivity;
    try (assert (R := rt_update_truthy
                        (pickProperties x (whitelist_pregnancy CONFIG)) "data_encr"
                        (fun d => filterDataEncr d (dataEncr_pregnancy CONFIG) None)
                        (fun xs => pickProperties_not_array _ _ xs)
                        (fun d => rt_filterDataEncr d _ None eq_refl));
         rewrite Ha in R; contradiction).
  apply update_truthy_through in Ha as [_ O]; [|reflexivity].
  assert (Eb : get_opt a "birth" = get_opt x "birth").
  { rewrite O by discriminate. rewrite get_opt_listed by reflexivity.
    unfold listed_field. now rewrite Hm. }
  unfold update_truthy at 1. unfold get_prop. unfold get_opt in Eb at 1.
  destruct (nullish a); [reflexivity |]. cbn [bind].
  rewrite Eb, Ht, Hb. reflexivity.
Qed.

Lemma filterPregnancy_throws_at_care x pre e post :
  mem "cares_after" (whitelist_pregnancy CONFIG) = true ->
  get_opt x "cares_after" = VArr (pre ++ e :: post) ->
  filterCareAfter CONFIG e = TypeError ->
  filterPregnancy CONFIG x = TypeError.
Proof.
  intros Hm Hg He. unfold filterPregnancy.
  assert (N0 : forall xs, pickProperties x (whitelist_pregnancy CONFIG) <> VArr xs)
    by (intros xs; apply pickProperties_not_array).
  destruct (update_truthy _ "data_encr" _) as [a| | |] eqn:Ha; cbn [bind];
    try reflexivity;
    try (assert (R := rt_update_truthy
                        (pickProperties x (whitelist_pregnancy CONFIG)) "data_encr"
                        (fun d => filterDataEncr d (dataEncr_pregnancy CONFIG) None)
                        N0 (fun d => rt_filterDataEncr d _ None eq_refl));
         rewrite Ha in R; contradiction).
  assert (N1 := update_truthy_not_array _ "data_encr" _ _ eq_refl Ha N0).
  apply update_truthy_through in Ha as [_ O1]; [|reflexivity].
  destruct (update_truthy a "birth" _) as [b| | |] eqn:Hb; cbn [bind];
    try reflexivity;
    try (assert (R := rt_update_truthy a "birth" (filterBirth CONFIG) N1 rt_filterBirth);
         rewrite Hb in R; contradiction).
  apply update_truthy_through in Hb as [_ O2]; [|reflexivity].
  rewrite (update_array_throws _ _ _ pre e post); [reflexivity | | apply rt_filterCareAfter | assumption].
  rewrite O2, O1 by discriminate. rewrite get_opt_listed by reflexivity.
  unfold listed_field. now rewrite Hm.
Qed.

Lemma filterClient_throws_below x pre e post :
  mem "pregnancies" (whitelist_client CONFIG) = true ->
  get_opt x "pregnancies" = VArr (pre ++ e :: post) ->
  filterPregnancy CONFIG e = TypeError ->
  filterClient CONFIG x = TypeError.
Proof.
  intros Hm Hg He. unfold filterClient.
  apply (update_array_throws _ _ _ pre e post); [|apply rt_filterPregnancy | assumption].
  rewrite get_opt_listed by reflexivity. unfold listed_field. now rewrite Hm.
Qed.

End Throwing.

Lemma filterPregnancy_phone (CONFIG : Config) x r :
  filterPregnancy CONFIG x = Ok r ->
  through_array (filterCareAfterPhone CONFIG)
    (listed_field (whitelist_pregnancy CONFIG) x "cares_after_phone")
    (get_opt r "cares_after_phone").
Proof.
  unfold filterPregnancy. intros H.
  apply bind_Ok in H as (a & H1 & H).
  apply bind_Ok in H as (b & H2 & H).
  apply bind_Ok in H as (c & H3 & H4).
  apply update_truthy_through in H1 as [_ O1]; [|reflexivity].
  apply update_truthy_through in H2 as [_ O2]; [|reflexivity].
  apply update_array_through in H3 as [_ O3]; [|reflexivity].
  apply update_array_through in H4 as [T4 _]; [|reflexivity].
  now rewrite (O3 "cares_after_phone"), (O2 "cares_after_phone"),
    (O1 "cares_after_phone"), get_opt_listed in T4
    by (reflexivity || discriminate).
Qed.

Lemma children_make_truthy b xs : get_opt b "children" = VArr xs -> truthy b = true.
Proof. destruct b; try discriminate; reflexivity. Qed.

(** X9.  A null or undefined entry in a list.  In [children] it makes the
    birth filter throw a TypeError, in [cares_after] the pregnancy filter, and
    the error goes up through the pregnancy and the client filter; in
    [cares_after_phone] it is handed on as it is, in its place.  (The lists of
    the configuration name nothing an object inherits, and its patterns are
    in the fragment.) *)
Theorem null_entries_throw
    (CONFIG : Config) (x e : value) (pre post : list value) :
  plain_config CONFIG = true ->
  patterns_ok (Some (dataEncr_careAfterDynamicPatterns CONFIG)) = true ->
  nullish e = true ->
  (mem "children" (whitelist_birth CONFIG) = true ->
   get_opt x "children" = VArr (pre ++ e :: post) ->
   filterBirth CONFIG x = TypeError)
  /\ (mem "cares_after" (whitelist_pregnancy CONFIG) = true ->
      get_opt x "cares_after" = VArr (pre ++ e :: post) ->
      filterPregnancy CONFIG x = TypeError)
  /\ (mem "birth" (whitelist_pregnancy CONFIG) = true ->
      mem "children" (whitelist_birth CONFIG) = true ->
      get_opt (get_opt x "birth") "children" = VArr (pre ++ e :: post) ->
      filterPregnancy CONFIG x = TypeError)
  /\ (mem "pregnancies" (whitelist_client CONFIG) = true ->
      forall p,
        get_opt x "pregnancies" = VArr (pre ++ p :: post) ->
        filterPregnancy CONFIG p = TypeError ->
        filterClient CONFIG x = TypeError)
  /\ (mem "cares_after_phone" (whitelist_pregnancy CONFIG) = true ->
      get_opt x "cares_after_phone" = VArr (pre ++ e :: post) ->
      forall r,
        filterPregnancy CONFIG x = Ok r ->
        exists pre' post',
          get_opt r "cares_after_phone" = VArr (pre' ++ e :: post')
          /\ List.length pre' = List.length pre).
Proof.
  intros _ Hp He.
  assert (Hchild : filterChild CONFIG e = TypeError)
    by (destruct e; try discriminate; reflexivity).
  assert (Hcare : filterCareAfter CONFIG e = TypeError)
    by (destruct e; try discriminate; reflexivity).
  split; [|split; [|split; [|split]]].
  - intros Hm Hg. now apply (filterBirth_throws_below CONFIG x pre e post).
  - intros Hm Hg. now apply (filterPregnancy_throws_at_care CONFIG Hp x pre e post).
  - intros Hb Hc Hg.
    apply (filterPregnancy_throws_at_birth CONFIG x Hb).
    + now apply (children_make_truthy _ _ Hg).
    + now apply (filterBirth_throws_below CONFIG _ pre e post).
  - intros Hm p Hg Hthrow.
    now apply (filterClient_throws_below CONFIG Hp x pre p post).
  - intros Hm Hg r Hr. apply filterPregnancy_phone in Hr.
    unfold listed_field in Hr. rewrite Hm, Hg in Hr. cbn [through_array] in Hr.
    destruct Hr as (ys & -> & HF).
    apply Forall2_app_inv_l in HF as (pre' & rest & Hpre & Hrest & ->).
    inversion Hrest as [|? e' ? post' Hee Hpost]; subst.
    exists pre', post'. split; [|symmetry; now apply (Forall2_length Hpre)].
    unfold filterCareAfterPhone in Hee.
    rewrite pickProperties_other in Hee
      by (left; destruct e; try discriminate; reflexivity).
    now injection Hee as <-.
Qed.

Lemma null_entries_throw_witness :
  filterBirth Strict.CONFIG (VObj [("children", VArr [VObj []; VNull])]) = TypeError
  /\ filterPregnancy Strict.CONFIG
       (VObj [("cares_after", VArr [VObj []; VNull])]) = TypeError
  /\ filterPregnancy Strict.CONFIG
       (VObj [("cares_after_phone", VArr [VObj []; VNull])])
     = Ok (VObj [("cares_after_phone", VArr [VObj []; VNull])]).
Proof.
  split; [|split].
  - exact (proj1 (null_entries_throw Strict.CONFIG
                    (VObj [("children", VArr [VObj []; VNull])]) VNull
                    [VObj []] [] eq_refl eq_refl eq_refl) eq_refl eq_refl).
  - exact (proj1 (proj2 (null_entries_throw Strict.CONFIG
                           (VObj [("cares_after", VArr [VObj []; VNull])]) VNull
                           [VObj []] [] eq_refl eq_refl eq_refl)) eq_refl eq_refl).
  - reflexivity.
Defined.

Lemma foldM_never_returns {A S} (f : S -> A -> outcome S) pre x post s r :
  (forall s s', f s x <> Ok s') -> foldM f s (pre ++ x :: post) <> Ok r.
Proof.
  intros Hx. revert s. induction pre as [|p pre IH]; intros s; simpl.
  - destruct (f s x) as [s'| | |] eqn:E; simpl; try discriminate.
    now destruct (Hx s s').
  - destruct (f s p) as [s'| | |]; simpl; try discriminate. apply IH.
Qed.

Lemma salvage_process_pregnancy_rt client st p :
  returns_or_throws (Salvage.process_pregnancy client st p).
Proof.
  destruct st as [vs res]. unfold Salvage.process_pregnancy.
  rewrite salvage_validatePregnancy_eq. cbn [bind valid].
  destruct (pregnancy_ok_salvage p); [exact I |].
  unfold get_prop. destruct (nullish client); [exact I |].
  destruct (nullish p); exact I.
Qed.

Lemma salvage_inner_loop_rt client ps st :
  returns_or_throws (foldM (Salvage.process_pregnancy client) st ps).
Proof.
  revert st. induction ps as [|p ps IH]; intros st; simpl; [exact I |].
  apply rt_bind; [apply salvage_process_pregnancy_rt |]. intros st' _. apply IH.
Qed.

Lemma pregnancy_throws_on_null_entry p e es1 es2 :
  nullish e = true ->
  get_opt p "cares_after" = VArr (es1 ++ e :: es2)
  \/ get_opt (get_opt p "birth") "children" = VArr (es1 ++ e :: es2) ->
  filterPregnancy Strict.CONFIG p = TypeError.
Proof.
  intros He [Hg|Hg].
  - apply (filterPregnancy_throws_at_care Strict.CONFIG eq_refl p es1 e es2 eq_refl Hg).
    destruct e; try discriminate; reflexivity.
  - apply (filterPregnancy_throws_at_birth Strict.CONFIG p eq_refl).
    + now apply (children_make_truthy _ _ Hg).
    + apply (filterBirth_throws_below Strict.CONFIG _ es1 e es2 eq_refl Hg).
      destruct e; try discriminate; reflexivity.
Qed.

Lemma strict_turn_throws c p e ps1 ps2 es1 es2 st :
  nullish e = true ->
  get_opt c "pregnancies" = VArr (ps1 ++ p :: ps2) ->
  get_opt p "cares_after" = VArr (es1 ++ e :: es2)
  \/ get_opt (get_opt p "birth") "children" = VArr (es1 ++ e :: es2) ->
  client_ok_strict c = true ->
  Strict.process_client st c = TypeError.
Proof.
  intros He Hc Hp Hok. destruct st as [out res]. unfold Strict.process_client.
  rewrite strict_validateClient_ok by assumption. cbn [bind valid].
  rewrite (filterClient_throws_below Strict.CONFIG eq_refl c ps1 p ps2 eq_refl Hc);
    [reflexivity |].
  now apply (pregnancy_throws_on_null_entry p e es1 es2).
Qed.

Lemma salvage_turn_throws c p e ps1 ps2 es1 es2 st :
  nullish e = true ->
  get_opt c "pregnancies" = VArr (ps1 ++ p :: ps2) ->
  get_opt p "cares_after" = VArr (es1 ++ e :: es2)
  \/ get_opt (get_opt p "birth") "children" = VArr (es1 ++ e :: es2) ->
  pregnancy_ok_salvage p = true ->
  Salvage.process_client st c = TypeError.
Proof.
  intros He Hc Hp Hok. destruct st as [out res]. unfold Salvage.process_client.
  assert (Hv : valid (Salvage.validateClient c) = true).
  { rewrite salvage_validateClient_valid, Hc. now destruct ps1. }
  rewrite Hv. cbn [negb].
  assert (Hn : nullish c = false) by (destruct c; try discriminate; reflexivity).
  unfold get_prop. rewrite Hn. cbn [bind].
  unfold get_opt in Hc. rewrite Hn in Hc. rewrite Hc. cbn [iterate bind].
  assert (R := salvage_inner_loop_rt c (ps1 ++ p :: ps2) ([], res)).
  destruct (foldM (Salvage.process_pregnancy c) ([], res) (ps1 ++ p :: ps2))
    as [[vs res']| | |] eqn:E; try contradiction; [|reflexivity].
  cbn [bind]. apply salvage_inner_loop in E. injection E as -> ->.
  cbn [app]. rewrite filter_app. cbn [filter]. rewrite Hok.
  rewrite length_app. cbn [List.length].
  replace (List.length (filter pregnancy_ok_salvage ps1)
           + S (List.length (filter pregnancy_ok_salvage ps2)) =? 0)%nat
    with false by (symmetry; apply Nat.eqb_neq; lia).
  rewrite (filterClient_throws_below Salvage.CONFIG eq_refl _
             (filter pregnancy_ok_salvage ps1) p (filter pregnancy_ok_salvage ps2)
             eq_refl (get_opt_spread_with _ _ _));
    [reflexivity |].
  now apply (pregnancy_throws_on_null_entry p e es1 es2).
Qed.

(** X10.  A client that passes validation and has a pregnancy with a null
    or undefined entry in [cares_after], or in the [children] of its birth,
    ends the run with a TypeError: the turn of the loop for that client
    throws, in the strict variant when the client is valid, in the salvage
    variant when that pregnancy is, and [processData] returns nothing for a
    dataset that holds such a client. *)
Theorem null_list_entries_end_the_run
    (c p e : value) (ps1 ps2 es1 es2 : list value) :
  nullish e = true ->
  get_opt c "pregnancies" = VArr (ps1 ++ p :: ps2) ->
  get_opt p "cares_after" = VArr (es1 ++ e :: es2)
  \/ get_opt (get_opt p "birth") "children" = VArr (es1 ++ e :: es2) ->
  (client_ok_strict c = true ->
   (forall st, Strict.process_client st c = TypeError)
   /\ forall before after r,
        Strict.processData (VArr (before ++ c :: after)) <> Ok r)
  /\ (pregnancy_ok_salvage p = true ->
      (forall st, Salvage.process_client st c = TypeError)
      /\ forall before after r,
           Salvage.processData (VArr (before ++ c :: after)) <> Ok r).
Proof.
  intros He Hc Hp. split; intros Hok.
  - assert (T : forall st, Strict.process_client st c = TypeError)
      by (intros st; now apply (strict_turn_throws c p e ps1 ps2 es1 es2)).
    split; [assumption |]. intros before after r. unfold Strict.processData.
    apply foldM_never_returns. intros s s'. now rewrite T.
  - assert (T : forall st, Salvage.process_client st c = TypeError)
      by (intros st; now apply (salvage_turn_throws c p e ps1 ps2 es1 es2)).
    split; [assumption |]. intros before after r. unfold Salvage.processData.
    apply foldM_never_returns. intros s s'. now rewrite T.
Qed.

Lemma null_list_entries_end_the_run_witness :
  (forall st, Strict.process_client st Edge.client_null_care = TypeError)
  /\ (forall st, Salvage.process_client st Edge.client_null_care = TypeError)
  /\ (forall r, Strict.processData (VArr [Sample.client; Edge.client_null_care]) <> Ok r).
Proof.
  assert (H := null_list_entries_end_the_run
                 Edge.client_null_care Edge.pregnancy_null_care VNull
                 [] [] [] [] eq_refl eq_refl (or_introl eq_refl)).
  split; [|split].
  - exact (proj1 (proj1 H eq_refl)).
  - exact (proj1 (proj2 H eq_refl)).
  - exact (proj2 (proj1 H eq_refl) [Sample.client] []).
Defined.

(* ------------------------------------------------------------------------- *)
(** ** What validation reports, and where it throws *)

Lemma strict_check_pregnancies_skip i pre rest :
  forallb pregnancy_ok_strict pre = true ->
  Strict.check_pregnancies i (pre ++ rest)
  = Strict.check_pregnancies (i + List.length pre) rest.
Proof.
  revert i. induction pre as [|p pre IH]; intros i H; simpl.
  - now rewrite Nat.add_0_r.
  - simpl in H. apply andb_true_iff in H as [Hp H].
    rewrite strict_check_pregnancy_ok by assumption. cbn [bind].
    rewrite IH by assumption. f_equal. lia.
Qed.

Lemma template_Ok v s : template v = Ok s -> printable v = true /\ s = to_string v.
Proof.
  unfold template. destruct (printable v); [now intros [= <-] |].
  destruct (unprintable_object v); discriminate.
Qed.

Lemma template_then {A} v (k : string -> outcome A) :
  (shown <- template v ;; k shown) = (shown <- template v ;; k (to_string v)).
Proof.
  destruct (template v) as [s| | |] eqn:E; try reflexivity.
  apply template_Ok in E as [_ ->]. reflexivity.
Qed.

(** The pregnancy that fails the strict check: the reason is made, unless
    the id of the pregnancy has no text. *)
Lemma strict_check_pregnancy_reason i p :
  pregnancy_ok_strict p = false ->
  nullish p = false ->
  Strict.check_pregnancy i p
  = (shown <- template (get_own p "id") ;;
     Ok (Some {| valid := false; reason := Some (strict_pregnancy_reason i p) |})).
Proof.
  unfold pregnancy_ok_strict, Strict.check_pregnancy, strict_pregnancy_reason.
  intros H Hn.
  change (required_pregnancy Strict.CONFIG) with ["birth"].
  change (required_birth Strict.CONFIG) with ["children"].
  rewrite validateEntity_one. unfold get_prop. rewrite Hn. cbn [bind].
  destruct (isValidValue (get_opt p "birth") false) eqn:Hb; cbn [negb andb] in *.
  - rewrite (isValidValue_not_nullish _ _ Hb).
    assert (Eb : get_own p "birth" = get_opt p "birth")
      by (unfold get_opt; now rewrite Hn).
    rewrite Eb. destruct (truthy (get_opt p "birth")); [|discriminate].
    rewrite validateEntity_one, H. cbn [negb].
    assert (Em : Entity.missingField (validateEntity (get_opt p "birth") ["children"] true)
                 = Some "children").
    { cbn [validateEntity]. now rewrite H. }
    rewrite Em. destruct (template (get_own p "id")) as [shown| | |] eqn:Et;
      try reflexivity.
    apply template_Ok in Et as [_ ->]. reflexivity.
  - assert (Hnb : nullish (get_opt p "birth") = true).
    { unfold isValidValue in Hb. now destruct (nullish (get_opt p "birth")). }
    rewrite Hnb.
    assert (Em : Entity.missingField (validateEntity p ["birth"] false) = Some "birth").
    { cbn [validateEntity]. now rewrite Hb. }
    rewrite Em. destruct (template (get_own p "id")) as [shown| | |] eqn:Et;
      try reflexivity.
    apply template_Ok in Et as [_ ->]. reflexivity.
Qed.

Lemma strict_validateClient_reaches client ps :
  get_opt client "pregnancies" = VArr ps ->
  ps <> [] ->
  Strict.validateClient client = Strict.check_pregnancies 0 ps.
Proof.
  intros Hg Hne. unfold Strict.validateClient.
  change (required_client Strict.CONFIG) with ["pregnancies"].
  rewrite validateEntity_one, Hg.
  assert (Hv : isValidValue (VArr ps) true = true) by (destruct ps; [congruence | reflexivity]).
  rewrite Hv. cbn [negb].
  assert (Hn : nullish client = false) by (destruct client; try discriminate; reflexivity).
  unfold get_prop. rewrite Hn. cbn [bind].
  unfold get_opt in Hg. rewrite Hn in Hg. now rewrite Hg.
Qed.

(** X11.  The strict variant reports the first pregnancy that fails, and
    nothing after it: when the pregnancies before index [i] are valid and the
    one at [i] is a record that is not, the client is invalid with the reason
    [Pregnancy[i] (id: ...)] naming [pregnancy.birth] when the birth is null
    or undefined and [birth.children] otherwise, and the client is recorded as
    skipped with its id and that reason, whatever pregnancies follow.  (The
    id of the pregnancy is a value whose text [to_string] gives.) *)
Theorem strict_reports_first_failure
    (client p : value) (pre post : list value) :
  get_opt client "pregnancies" = VArr (pre ++ p :: post) ->
  forallb pregnancy_ok_strict pre = true ->
  pregnancy_ok_strict p = false ->
  nullish p = false ->
  printable (get_own p "id") = true ->
  Strict.validateClient client
  = Ok {| valid := false;
          reason := Some (strict_pregnancy_reason (List.length pre) p) |}
  /\ forall out res,
       Strict.process_client (out, res) client
       = Ok (out,
             {| Strict.totalClients := Strict.totalClients res;
                Strict.successCount := Strict.successCount res;
                Strict.skippedCount := S (Strict.skippedCount res);
                Strict.skippedClients :=
                  Strict.skippedClients res
                    ++ [{| SkippedClient.id := get_own client "id";
                           SkippedClient.reason :=
                             Some (strict_pregnancy_reason (List.length pre) p) |}] |}).
Proof.
  intros Hg Hpre Hp Hn Hid.
  assert (Hv : Strict.validateClient client
               = Ok {| valid := false;
                       reason := Some (strict_pregnancy_reason (List.length pre) p) |}).
  { rewrite (strict_validateClient_reaches client (pre ++ p :: post) Hg)
      by (now destruct pre).
    rewrite strict_check_pregnancies_skip by assumption. cbn [Strict.check_pregnancies].
    rewrite strict_check_pregnancy_reason by assumption.
    now rewrite (template_printable _ Hid). }
  split; [assumption |]. intros out res. unfold Strict.process_client.
  rewrite Hv. cbn [bind valid reason].
  assert (Hc : nullish client = false) by (destruct client; try discriminate; reflexivity).
  unfold get_prop. now rewrite Hc.
Qed.

Lemma strict_reports_first_failure_witness :
  Strict.validateClient Edge.client_no_children
  = Ok {| valid := false;
          reason := Some "Pregnancy[1] (id: 13): Missing required field 'birth.children' (defined in CONFIG.required.birth)" |}.
Proof.
  exact (proj1 (strict_reports_first_failure
                  Edge.client_no_children
                  (VObj [("id", VNum 13); ("birth", VObj [("id", VNum 101)])])
                  [Sample.pregnancy] [] eq_refl eq_refl eq_refl eq_refl eq_refl)).
Defined.

Lemma salvage_inner_loop_throws client pre e post st :
  nullish client = false ->
  nullish e = true ->
  foldM (Salvage.process_pregnancy client) st (pre ++ e :: post) = TypeError.
Proof.
  intros Hc He. revert st. induction pre as [|p pre IH]; intros [vs res];
    rewrite ?app_nil_l, <- ?app_comm_cons; cbn [foldM].
  - unfold Salvage.process_pregnancy. rewrite salvage_validatePregnancy_eq.
    cbn [bind valid].
    assert (Hbad : pregnancy_ok_salvage e = false)
      by (destruct e; try discriminate; reflexivity).
    rewrite Hbad. unfold get_prop. rewrite Hc, He. reflexivity.
  - assert (R := salvage_process_pregnancy_rt client (vs, res) p).
    destruct (Salvage.process_pregnancy client (vs, res) p) as [st'| | |];
      try contradiction; [|reflexivity].
    cbn [bind]. apply IH.
Qed.

(** X12.  A null or undefined entry among the pregnancies of a client is
    not reported, it ends the run: the salvage variant throws a TypeError when
    it records the entry, the strict variant when it builds the reason, unless
    an earlier pregnancy has already failed validation; [processData] returns
    nothing for a dataset that holds such a client. *)
Theorem null_pregnancy_entry_throws
    (client e : value) (pre post : list value) :
  nullish e = true ->
  get_opt client "pregnancies" = VArr (pre ++ e :: post) ->
  (forall st, Salvage.process_client st client = TypeError)
  /\ (forall before after r,
        Salvage.processData (VArr (before ++ client :: after)) <> Ok r)
  /\ (forallb pregnancy_ok_strict pre = true ->
      Strict.validateClient client = TypeError
      /\ (forall st, Strict.process_client st client = TypeError)
      /\ forall before after r,
           Strict.processData (VArr (before ++ client :: after)) <> Ok r).
Proof.
  intros He Hg.
  assert (Hc : nullish client = false) by (destruct client; try discriminate; reflexivity).
  assert (Hs : forall st, Salvage.process_client st client = TypeError).
  { intros [out res]. unfold Salvage.process_client.
    assert (Hv : valid (Salvage.validateClient client) = true).
    { rewrite salvage_validateClient_valid, Hg. now destruct pre. }
    rewrite Hv. cbn [negb]. unfold get_prop. rewrite Hc. cbn [bind].
    unfold get_opt in Hg. rewrite Hc in Hg. rewrite Hg. cbn [iterate bind].
    now rewrite salvage_inner_loop_throws. }
  split; [assumption |]. split.
  { intros before after r. unfold Salvage.processData.
    apply foldM_never_returns. intros s s'. now rewrite Hs. }
  intros Hpre.
  assert (Hv : Strict.validateClient client = TypeError).
  { rewrite (strict_validateClient_reaches client (pre ++ e :: post) Hg)
      by (now destruct pre).
    rewrite strict_check_pregnancies_skip by assumption. cbn [Strict.check_pregnancies].
    destruct e; try discriminate; reflexivity. }
  assert (Ht : forall st, Strict.process_client st client = TypeError).
  { intros [out res]. unfold Strict.process_client. now rewrite Hv. }
  split; [assumption |]. split; [assumption |].
  intros before after r. unfold Strict.processData.
  apply foldM_never_returns. intros s s'. now rewrite Ht.
Qed.

Lemma null_pregnancy_entry_throws_witness :
  (forall st, Salvage.process_client st Edge.client_null_pregnancy = TypeError)
  /\ Strict.validateClient Edge.client_null_pregnancy = TypeError.
Proof.
  assert (H := null_pregnancy_entry_throws Edge.client_null_pregnancy VNull
                 [Sample.pregnancy] [] eq_refl eq_refl).
  split.
  - exact (proj1 H).
  - exact (proj1 (proj2 (proj2 H) eq_refl)).
Defined.

(** X13.  A null or undefined entry in the input array ends the run as well:
    both variants find the client invalid, with the reason that
    [client.pregnancies] is missing, and throw a TypeError when they read its
    id for the list of skipped clients. *)
Theorem null_client_entry_throws (client : value) (before after : list value) :
  nullish client = true ->
  Strict.validateClient client
  = Ok {| valid := false; reason := Some reason_client_pregnancies |}
  /\ Salvage.validateClient client
     = {| valid := false; reason := Some reason_client_pregnancies |}
  /\ (forall st, Strict.process_client st client = TypeError)
  /\ (forall st, Salvage.process_client st client = TypeError)
  /\ (forall r, Strict.processData (VArr (before ++ client :: after)) <> Ok r)
  /\ (forall r, Salvage.processData (VArr (before ++ client :: after)) <> Ok r).
Proof.
  intros Hn.
  assert (H1 : forall st, Strict.process_client st client = TypeError)
    by (intros [out res]; destruct client; try discriminate; reflexivity).
  assert (H2 : forall st, Salvage.process_client st client = TypeError)
    by (intros [out res]; destruct client; try discriminate; reflexivity).
  split; [destruct client; try discriminate; reflexivity |].
  split; [destruct client; try discriminate; reflexivity |].
  split; [assumption |]. split; [assumption |]. split; intros r.
  - unfold Strict.processData. apply foldM_never_returns. intros s s'. now rewrite H1.
  - unfold Salvage.processData. apply foldM_never_returns. intros s s'. now rewrite H2.
Qed.

Lemma null_client_entry_throws_witness :
  Salvage.validateClient VNull
  = {| valid := false; reason := Some reason_client_pregnancies |}
  /\ forall r, Strict.processData (VArr [Sample.client; VNull]) <> Ok r.
Proof.
  split.
  - exact (proj1 (proj2 (null_client_entry_throws VNull [Sample.client] [] eq_refl))).
  - exact (proj1 (proj2 (proj2 (proj2 (proj2
             (null_client_entry_throws VNull [Sample.client] [] eq_refl)))))).
Defined.

(** X14.  A client whose [pregnancies] is present but is no array and no
    string (a number, a boolean, a plain object) passes the client-level check
    of the salvage variant, whose loop over the pregnancies then throws a
    TypeError, the value not being iterable; the strict variant, given a
    number or a boolean there, finds nothing to check and emits the client
    with the value as it is. *)
Theorem salvage_needs_iterable_pregnancies (client v : value) :
  get_opt client "pregnancies" = v ->
  nullish v = false ->
  isArray v = false ->
  (forall s, v <> VStr s) ->
  valid (Salvage.validateClient client) = true
  /\ (forall st, Salvage.process_client st client = TypeError)
  /\ (forall before after r,
        Salvage.processData (VArr (before ++ client :: after)) <> Ok r)
  /\ (typeof_object v = false ->
      Strict.validateClient client = Ok {| valid := true; reason := None |}
      /\ forall fc,
           filterClient Strict.CONFIG client = Ok fc ->
           get_opt fc "pregnancies" = v).
Proof.
  intros Hg Hn Ha Hs.
  assert (Hc : nullish client = false).
  { unfold get_opt in Hg. destruct (nullish client); [|reflexivity].
    subst v. discriminate. }
  assert (Hv : isValidValue v true = true).
  { unfold isValidValue. rewrite Hn, Ha. now rewrite andb_false_r. }
  assert (Hvalid : valid (Salvage.validateClient client) = true)
    by now rewrite salvage_validateClient_valid, Hg.
  assert (Ht : forall st, Salvage.process_client st client = TypeError).
  { intros [out res]. unfold Salvage.process_client. rewrite Hvalid. cbn [negb].
    unfold get_prop. rewrite Hc. cbn [bind].
    unfold get_opt in Hg. rewrite Hc in Hg. rewrite Hg.
    destruct v; try discriminate; try reflexivity. now destruct (Hs s). }
  split; [assumption |]. split; [assumption |]. split.
  { intros before after r. unfold Salvage.processData.
    apply foldM_never_returns. intros s s'. now rewrite Ht. }
  intros Ho. split.
  - apply strict_validateClient_ok. unfold client_ok_strict. rewrite Hg, Hv.
    unfold get_opt in Hg. rewrite Hc in Hg. rewrite Hg.
    destruct v; try discriminate; try reflexivity. now destruct (Hs s).
  - intros fc Hfc. unfold filterClient in Hfc.
    apply update_array_through in Hfc as [T _]; [|reflexivity].
    rewrite get_opt_listed in T by reflexivity.
    unfold listed_field in T. change (mem "pregnancies" (whitelist_client Strict.CONFIG))
      with true in T. cbn iota in T. rewrite Hg in T. unfold through_array in T.
    destruct v; try discriminate; assumption.
Qed.

Lemma salvage_needs_iterable_pregnancies_witness :
  (forall st, Salvage.process_client st Edge.client_number_pregnancies = TypeError)
  /\ Strict.processData (VArr [Edge.client_number_pregnancies])
     = Ok ([Edge.client_number_pregnancies],
           {| Strict.totalClients := 1; Strict.successCount := 1;
              Strict.skippedCount := 0; Strict.skippedClients := [] |}).
Proof.
  split; [|reflexivity].
  exact (proj1 (proj2 (salvage_needs_iterable_pregnancies
                         Edge.client_number_pregnancies (VNum 2)
                         eq_refl eq_refl eq_refl
                         (fun s (H : VNum 2 = VStr s) =>
                            eq_ind (VNum 2)
                                   (fun x => match x with VNum _ => True | _ => False end)
                                   I (VStr s) H)))).
Defined.

Lemma pregnancy_reason_cases p :
  pregnancy_ok_salvage p = false ->
  pregnancy_reason p = Some (reason_pregnancy_field "birth")
  \/ pregnancy_reason p = Some (reason_pregnancy_field "cares_after")
  \/ pregnancy_reason p = Some (reason_pregnancy_field "cares_after_phone")
  \/ pregnancy_reason p = Some reason_birth_children.
Proof.
  unfold pregnancy_reason, pregnancy_ok_salvage.
  destruct (isValidValue (get_opt p "birth") true); cbn [negb andb];
    [|intros _; left; reflexivity].
  destruct (isValidValue (get_opt p "cares_after") true); cbn [negb andb];
    [|intros _; right; left; reflexivity].
  destruct (isValidValue (get_opt p "cares_after_phone") true); cbn [negb andb];
    [|intros _; right; right; left; reflexivity].
  destruct (truthy (get_opt p "birth")); [|discriminate].
  intros Hc. rewrite Hc. right; right; right. reflexivity.
Qed.

Lemma salvage_client_reason c :
  valid (Salvage.validateClient c) = false ->
  reason (Salvage.validateClient c) = Some reason_client_pregnancies.
Proof.
  unfold Salvage.validateClient.
  change (required_client Salvage.CONFIG) with ["pregnancies"].
  cbn [validateEntity].
  destruct (isValidValue (get_opt c "pregnancies") true); [discriminate | reflexivity].
Qed.

(** X15.  The reasons of the salvage variant come from a fixed list.  When
    [processData] returns, every skipped client carries either the reason that
    [client.pregnancies] is missing or the reason that no valid pregnancy
    remains, and every skipped pregnancy names one of [pregnancy.birth],
    [pregnancy.cares_after], [pregnancy.cares_after_phone] and
    [birth.children] as missing. *)
Theorem salvage_reasons_are_fixed (input : value) (out : list value)
    (res : Salvage.results) :
  Salvage.processData input = Ok (out, res) ->
  Forall (fun s => SkippedClient.reason s = Some reason_client_pregnancies
                   \/ SkippedClient.reason s = Some reason_none_left)
         (Salvage.skippedClients res)
  /\ Forall (fun s =>
               SkippedPregnancy.reason s = Some (reason_pregnancy_field "birth")
               \/ SkippedPregnancy.reason s
                  = Some (reason_pregnancy_field "cares_after")
               \/ SkippedPregnancy.reason s
                  = Some (reason_pregnancy_field "cares_after_phone")
               \/ SkippedPregnancy.reason s = Some reason_birth_children)
            (Salvage.skippedPregnancies res).
Proof.
  destruct input as [| |b|n|s|clients|o]; try discriminate. cbn [Salvage.processData].
  intros H. split.
  - revert H.
    apply (foldM_inv
             (fun st => Forall (fun s => SkippedClient.reason s
                                         = Some reason_client_pregnancies
                                         \/ SkippedClient.reason s = Some reason_none_left)
                               (Salvage.skippedClients (snd st)))); [constructor |].
    intros [o1 r1] c [o2 r2] Hs Hstep. cbn [snd] in *.
    apply salvage_process_client_spec in Hstep
      as (_ & [(Hv & _ & ->)|[(_ & _ & _ & ->)|(_ & _ & fc & _ & _ & ->)]]);
      cbn [Salvage.skip_client Salvage.skippedClients add_success add_skipped].
    + apply Forall_app. split; [assumption |]. constructor; [|constructor].
      left. cbn [SkippedClient.reason]. now apply salvage_client_reason.
    + apply Forall_app. split; [assumption |]. constructor; [|constructor].
      right. reflexivity.
    + assumption.
  - apply salvage_loop_spec in H as (new & _ & _ & -> & _). cbn [Salvage.skippedPregnancies app].
    apply Forall_forall. intros s Hs.
    apply in_flat_map in Hs as (c & _ & Hs). unfold skipped_entries in Hs.
    apply in_map_iff in Hs as (p & <- & Hp). unfold invalid_pregnancies in Hp.
    apply filter_In in Hp as [_ Hp]. apply negb_true_iff in Hp.
    cbn [skipped_entry SkippedPregnancy.reason]. now apply pregnancy_reason_cases.
Qed.

Lemma salvage_reasons_are_fixed_witness :
  exists out res,
    Salvage.processData (VArr Sample.dataset) = Ok (out, res)
    /\ map SkippedClient.reason (Salvage.skippedClients res)
       = [Some reason_client_pregnancies]
    /\ map SkippedPregnancy.reason (Salvage.skippedPregnancies res)
       = [Some (reason_pregnancy_field "cares_after")]
    /\ Forall (fun s => SkippedClient.reason s = Some reason_client_pregnancies
                        \/ SkippedClient.reason s = Some reason_none_left)
              (Salvage.skippedClients res).
Proof.
  eexists. eexists. split; [reflexivity |]. split; [reflexivity |].
  split; [reflexivity |].
  exact (proj1 (salvage_reasons_are_fixed (VArr Sample.dataset) _ _ eq_refl)).
Defined.

(* ------------------------------------------------------------------------- *)
(** ** The run over a dataset *)

Lemma strict_validateClient_reason client r :
  Strict.validateClient client = Ok r ->
  valid r = false ->
  reason r = Some reason_client_pregnancies
  \/ exists i p, reason r = Some (strict_pregnancy_reason i p).
Proof.
  unfold Strict.validateClient.
  change (required_client Strict.CONFIG) with ["pregnancies"].
  cbn [validateEntity].
  destruct (isValidValue (get_opt client "pregnancies") true); cbn [negb Entity.valid].
  2: { intros [= <-] _. left. reflexivity. }
  intros H Hv. right.
  apply bind_Ok in H as (pregs & _ & H). apply bind_Ok in H as (ps & _ & H).
  revert H. generalize 0. induction ps as [|p ps IH]; intros i H.
  - injection H as <-. discriminate.
  - cbn [Strict.check_pregnancies] in H.
    destruct (pregnancy_ok_strict p) eqn:Hp.
    + rewrite strict_check_pregnancy_ok in H by assumption. now apply (IH (S i)).
    + destruct (nullish p) eqn:Hn.
      * destruct p; try discriminate.
      * rewrite strict_check_pregnancy_reason in H by assumption.
        apply bind_Ok in H as (c & Hc & H).
        apply bind_Ok in Hc as (shown & _ & [= <-]).
        injection H as <-. exists i, p. reflexivity.
Qed.

Lemma strict_loop_order clients out0 res0 out res :
  foldM Strict.process_client (out0, res0) clients = Ok (out, res) ->
  exists new,
    out = out0 ++ new
    /\ Forall2 (fun c fc => filterClient Strict.CONFIG c = Ok fc)
               (filter client_ok_strict clients) new
    /\ map SkippedClient.id (Strict.skippedClients res)
       = map SkippedClient.id (Strict.skippedClients res0)
           ++ map (fun c => get_own c "id")
                  (filter (fun c => negb (client_ok_strict c)) clients)
    /\ forall P : SkippedClient.t -> Prop,
         (forall s, (SkippedClient.reason s = Some reason_client_pregnancies
                     \/ exists i p, SkippedClient.reason s
                                    = Some (strict_pregnancy_reason i p)) -> P s) ->
         Forall P (Strict.skippedClients res0) ->
         Forall P (Strict.skippedClients res).
Proof.
  revert out0 res0. induction clients as [|c cs IH]; intros out0 res0; cbn [foldM].
  - intros [= <- <-]. exists []. rewrite !app_nil_r. repeat split; auto.
  - intros H. apply bind_Ok in H as ([o1 r1] & Hstep & Hrest).
    unfold Strict.process_client in Hstep.
    apply bind_Ok in Hstep as (v & Hv & Hstep).
    assert (Hok := strict_validateClient_valid _ _ Hv).
    destruct (IH _ _ Hrest) as (new & -> & HF & Hids & HP). clear IH.
    cbn [filter]. destruct (valid v) eqn:Evalid.
    + apply bind_Ok in Hstep as (fc & Hfc & [= <- <-]).
      rewrite <- Hok. cbn [negb]. exists (fc :: new).
      rewrite <- app_assoc. cbn [Strict.skippedClients] in *.
      repeat split; auto.
    + apply bind_Ok in Hstep as (cid & Hcid & [= <- <-]).
      apply get_prop_Ok in Hcid as [-> _].
      rewrite <- Hok. cbn [negb]. exists new.
      cbn [Strict.skippedClients] in *.
      split; [reflexivity |]. split; [assumption |]. split.
      * rewrite Hids, map_app, <- app_assoc. reflexivity.
      * intros P HPs HP0. apply HP; [assumption |].
        apply Forall_app. split; [assumption |]. constructor; [|constructor].
        apply HPs. cbn [SkippedClient.reason].
        now apply (strict_validateClient_reason c v).
Qed.

(** X16.  What the strict variant puts out, in full.  When [processData]
    returns, the output holds the filtered valid clients, in the order of the
    input, and the list of skipped clients holds the ids of the invalid ones,
    in the order of the input, each with a reason: that [client.pregnancies]
    is missing, or the reason of a pregnancy with its index. *)
Theorem strict_output_in_order (clients out : list value) (res : Strict.results) :
  Strict.processData (VArr clients) = Ok (out, res) ->
  Forall2 (fun c fc => filterClient Strict.CONFIG c = Ok fc)
          (filter client_ok_strict clients) out
  /\ map SkippedClient.id (Strict.skippedClients res)
     = map (fun c => get_own c "id")
           (filter (fun c => negb (client_ok_strict c)) clients)
  /\ Forall (fun s =>
               SkippedClient.reason s = Some reason_client_pregnancies
               \/ exists i idtext tail,
                    SkippedClient.reason s
                    = Some ("Pregnancy[" ++ dec_of_nat i ++ "] (id: " ++ idtext
                              ++ "): " ++ tail)%string
                    /\ (tail = reason_pregnancy_field "birth"
                        \/ tail = reason_birth_children))
            (Strict.skippedClients res).
Proof.
  cbn [Strict.processData]. intros H.
  apply strict_loop_order in H as (new & -> & HF & Hids & HP).
  cbn [app map Strict.skippedClients] in *.
  split; [assumption |]. split; [assumption |].
  apply HP; [|constructor].
  intros s [Hs|(i & p & Hs)]; [now left | right].
  exists i, (to_string (get_own p "id")),
    (if nullish (get_opt p "birth") then reason_pregnancy_field "birth"
     else reason_birth_children).
  split; [exact Hs |]. destruct (nullish (get_opt p "birth")); auto.
Qed.

Lemma strict_output_in_order_witness :
  exists out res,
    Strict.processData (VArr [Edge.client_no_children; Sample.client]) = Ok (out, res)
    /\ out = [Sample.client_filtered]
    /\ Forall2 (fun c fc => filterClient Strict.CONFIG c = Ok fc)
               (filter client_ok_strict [Edge.client_no_children; Sample.client]) out
    /\ map SkippedClient.id (Strict.skippedClients res) = [VNum 6].
Proof.
  eexists. eexists. split; [reflexivity |]. split; [reflexivity |]. split.
  - exact (proj1 (strict_output_in_order
                    [Edge.client_no_children; Sample.client] _ _ eq_refl)).
  - reflexivity.
Defined.

Lemma foldM_app {A S} (f : S -> A -> outcome S) xs ys s :
  foldM f s (xs ++ ys) = (s' <- foldM f s xs ;; foldM f s' ys).
Proof.
  revert s. induction xs as [|x xs IH]; intros s; simpl; [reflexivity |].
  destruct (f s x); simpl; auto.
Qed.

(** A loop whose turns add to the state what they add to the neutral state
    does so as a whole. *)
Lemma foldM_shifted {A S} (f : S -> A -> outcome S) (op : S -> S -> S) (z : S) :
  (forall s x, f s x = shifted op s (f z x)) ->
  (forall a b c, op (op a b) c = op a (op b c)) ->
  (forall a, op a z = a) ->
  forall xs s, foldM f s xs = shifted op s (foldM f z xs).
Proof.
  intros Hf Hassoc Hz xs. induction xs as [|x xs IH]; intros s; cbn [foldM].
  - cbn [shifted]. now rewrite Hz.
  - rewrite (Hf s x). destruct (f z x) as [d| | |]; cbn [shifted bind]; try reflexivity.
    rewrite (IH (op s d)), (IH d).
    destruct (foldM f z xs) as [e| | |]; cbn [shifted]; try reflexivity.
    now rewrite Hassoc.
Qed.

Lemma strict_plus_assoc a b c :
  strict_plus (strict_plus a b) c = strict_plus a (strict_plus b c).
Proof.
  unfold strict_plus. cbn. now rewrite !Nat.add_assoc, app_assoc.
Qed.

Lemma strict_plus_zero a : strict_plus a strict_zero = a.
Proof.
  destruct a. unfold strict_plus. cbn. now rewrite !Nat.add_0_r, app_nil_r.
Qed.

Lemma strict_turn_shifted s c :
  Strict.process_client s c
  = shifted strict_join s (Strict.process_client ([], strict_zero) c).
Proof.
  destruct s as [out res]. unfold Strict.process_client.
  destruct (Strict.validateClient c) as [v| | |]; cbn [bind shifted]; try reflexivity.
  destruct (valid v).
  - destruct (filterClient Strict.CONFIG c) as [fc| | |]; cbn [bind shifted];
      try reflexivity.
    unfold strict_join, strict_plus. cbn. destruct res; cbn.
    now rewrite !Nat.add_0_r, app_nil_r, Nat.add_1_r.
  - destruct (get_prop c "id") as [cid| | |]; cbn [bind shifted]; try reflexivity.
    unfold strict_join, strict_plus. cbn. destruct res; cbn.
    now rewrite !Nat.add_0_r, app_nil_r, Nat.add_1_r.
Qed.

Lemma strict_loop_shifted cs s :
  foldM Strict.process_client s cs
  = shifted strict_join s (foldM Strict.process_client ([], strict_zero) cs).
Proof.
  apply foldM_shifted.
  - apply strict_turn_shifted.
  - intros [a1 a2] [b1 b2] [c1 c2]. unfold strict_join. cbn [fst snd].
    now rewrite strict_plus_assoc, app_assoc.
  - intros [a1 a2]. unfold strict_join. cbn [fst snd].
    now rewrite strict_plus_zero, app_nil_r.
Qed.

Lemma salvage_plus_assoc a b c :
  salvage_plus (salvage_plus a b) c = salvage_plus a (salvage_plus b c).
Proof.
  unfold salvage_plus. cbn. now rewrite !Nat.add_assoc, !app_assoc.
Qed.

Lemma salvage_plus_zero a : salvage_plus a salvage_zero = a.
Proof.
  destruct a. unfold salvage_plus. cbn. now rewrite !Nat.add_0_r, !app_nil_r.
Qed.

Lemma salvage_join_assoc a b c :
  salvage_join (salvage_join a b) c = salvage_join a (salvage_join b c).
Proof.
  destruct a, b, c. unfold salvage_join. cbn [fst snd].
  now rewrite salvage_plus_assoc, app_assoc.
Qed.

Lemma salvage_join_zero a : salvage_join a ([], salvage_zero) = a.
Proof.
  destruct a. unfold salvage_join. cbn [fst snd].
  now rewrite salvage_plus_zero, app_nil_r.
Qed.

Lemma salvage_pregnancy_shifted client s p :
  Salvage.process_pregnancy client s p
  = shifted salvage_join s (Salvage.process_pregnancy client ([], salvage_zero) p).
Proof.
  destruct s as [vs res]. unfold Salvage.process_pregnancy.
  destruct (Salvage.validatePregnancy p) as [v| | |]; cbn [bind shifted]; try reflexivity.
  destruct (valid v).
  - cbn [shifted]. unfold salvage_join. cbn [fst snd app].
    now rewrite salvage_plus_zero.
  - destruct (get_prop client "id") as [cid| | |]; cbn [bind shifted]; try reflexivity.
    destruct (get_prop p "id") as [pid| | |]; cbn [bind shifted]; try reflexivity.
    unfold salvage_join, salvage_plus. cbn. destruct res; cbn.
    now rewrite !Nat.add_0_r, !app_nil_r, Nat.add_1_r.
Qed.

Lemma salvage_turn_shifted s c :
  Salvage.process_client s c
  = shifted salvage_join s (Salvage.process_client ([], salvage_zero) c).
Proof.
  destruct s as [out res]. unfold Salvage.process_client.
  destruct (negb (valid (Salvage.validateClient c))).
  - destruct (get_prop c "id") as [cid| | |]; cbn [bind shifted]; try reflexivity.
    unfold salvage_join, salvage_plus, Salvage.skip_client. cbn. destruct res; cbn.
    now rewrite !Nat.add_0_r, !app_nil_r, Nat.add_1_r.
  - destruct (get_prop c "pregnancies") as [pregs| | |]; cbn [bind shifted];
      try reflexivity.
    destruct (iterate pregs) as [ps| | |]; cbn [bind shifted]; try reflexivity.
    rewrite (foldM_shifted (Salvage.process_pregnancy c) salvage_join ([], salvage_zero)
               (salvage_pregnancy_shifted c) salvage_join_assoc salvage_join_zero
               ps ([], res)).
    destruct (foldM (Salvage.process_pregnancy c) ([], salvage_zero) ps)
      as [[vs r']| | |]; cbn [bind shifted]; try reflexivity.
    unfold salvage_join at 1. cbn [fst snd]. rewrite !app_nil_l.
    destruct (List.length vs =? 0)%nat.
    + destruct (get_prop c "id") as [cid| | |]; cbn [bind shifted]; try reflexivity.
      unfold salvage_join, salvage_plus, Salvage.skip_client. cbn. destruct res; cbn.
      now rewrite !app_nil_r, !Nat.add_succ_r, app_assoc.
    + destruct (filterClient Salvage.CONFIG _) as [fc| | |]; cbn [bind shifted];
        try reflexivity.
      unfold salvage_join, salvage_plus. cbn. destruct res; cbn.
      now rewrite !Nat.add_succ_r.
Qed.

Lemma salvage_loop_shifted cs s :
  foldM Salvage.process_client s cs
  = shifted salvage_join s (foldM Salvage.process_client ([], salvage_zero) cs).
Proof.
  apply foldM_shifted.
  - apply salvage_turn_shifted.
  - apply salvage_join_assoc.
  - apply salvage_join_zero.
Qed.

(** X17.  A dataset may be processed in parts.  The run over [xs ++ ys]
    returns exactly when the runs over [xs] and over [ys] return, with their
    outputs one after the other, their counts added and their lists of skipped
    entries one after the other; when the run over [xs] ends otherwise, so does
    the whole run, and likewise for [ys] after [xs]. *)
Theorem processData_in_parts (xs ys : list value) :
  Strict.processData (VArr (xs ++ ys))
  = match Strict.processData (VArr xs) with
    | Ok (o1, r1) =>
        match Strict.processData (VArr ys) with
        | Ok (o2, r2) => Ok (o1 ++ o2, strict_plus r1 r2)
        | TypeError => TypeError
        | Exit1 => Exit1
        | Unmodelled => Unmodelled
        end
    | TypeError => TypeError
    | Exit1 => Exit1
    | Unmodelled => Unmodelled
    end
  /\ Salvage.processData (VArr (xs ++ ys))
     = match Salvage.processData (VArr xs) with
       | Ok (o1, r1) =>
           match Salvage.processData (VArr ys) with
           | Ok (o2, r2) => Ok (o1 ++ o2, salvage_plus r1 r2)
           | TypeError => TypeError
           | Exit1 => Exit1
           | Unmodelled => Unmodelled
           end
       | TypeError => TypeError
       | Exit1 => Exit1
       | Unmodelled => Unmodelled
       end.
Proof.
  split.
  - cbn [Strict.processData].
    rewrite (strict_loop_shifted (xs ++ ys)), (strict_loop_shifted xs),
      (strict_loop_shifted ys), foldM_app.
    destruct (foldM Strict.process_client ([], strict_zero) xs) as [[o1 r1]| | |];
      cbn [bind shifted]; try reflexivity.
    rewrite (strict_loop_shifted ys (o1, r1)).
    destruct (foldM Strict.process_client ([], strict_zero) ys) as [[o2 r2]| | |];
      cbn [bind shifted]; try reflexivity.
    unfold strict_join, strict_plus. cbn. rewrite length_app.
    do 3 f_equal. lia.
  - cbn [Salvage.processData].
    rewrite (salvage_loop_shifted (xs ++ ys)), (salvage_loop_shifted xs),
      (salvage_loop_shifted ys), foldM_app.
    destruct (foldM Salvage.process_client ([], salvage_zero) xs) as [[o1 r1]| | |];
      cbn [bind shifted]; try reflexivity.
    rewrite (salvage_loop_shifted ys (o1, r1)).
    destruct (foldM Salvage.process_client ([], salvage_zero) ys) as [[o2 r2]| | |];
      cbn [bind shifted]; try reflexivity.
    unfold salvage_join, salvage_plus. cbn. rewrite length_app.
    do 3 f_equal. lia.
Qed.

Lemma salvage_ok_strict_ok p :
  pregnancy_ok_salvage p = true -> pregnancy_ok_strict p = true.
Proof.
  unfold pregnancy_ok_salvage, pregnancy_ok_strict. intros H.
  apply andb_true_iff in H as [H Hc]. apply andb_true_iff in H as [H _].
  apply andb_true_iff in H as [Hb _]. rewrite Hc, andb_true_r.
  unfold isValidValue in *. now destruct (nullish (get_opt p "birth")).
Qed.

Lemma complete_client_inv c :
  complete_client c = true ->
  exists o p ps,
    c = VObj o /\ js_object o = true
    /\ lookup "pregnancies" o = Some (VArr (p :: ps))
    /\ forallb pregnancy_ok_salvage (p :: ps) = true.
Proof.
  destruct c as [| |b|n|s|xs|o]; try discriminate. cbn [complete_client].
  intros H. apply andb_true_iff in H as [Hjs H].
  destruct (lookup "pregnancies" o) as [[| |b|n|s|[|p ps]|o']|] eqn:El;
    try discriminate.
  exists o, p, ps. auto.
Qed.

Lemma complete_strict_ok c : complete_client c = true -> client_ok_strict c = true.
Proof.
  intros H. destruct (complete_client_inv c H) as (o & p & ps & -> & _ & Hl & Hok).
  unfold client_ok_strict.
  destruct (get_opt_obj_lookup _ _ _ Hl) as [-> ->]. cbn [isValidValue nullish isArray
    andb List.length Nat.eqb indexed].
  apply forallb_forall. intros q Hq. apply salvage_ok_strict_ok.
  rewrite forallb_forall in Hok. now apply Hok.
Qed.

Lemma salvage_turn_complete out res c :
  complete_client c = true ->
  Salvage.process_client (out, res) c
  = (fc <- filterClient Salvage.CONFIG c ;; Ok (out ++ [fc], add_success res)).
Proof.
  intros H. destruct (complete_client_inv c H) as (o & p & ps & -> & Hjs & Hl & Hok).
  unfold Salvage.process_client. rewrite salvage_validateClient_valid.
  rewrite (proj1 (get_opt_obj_lookup _ _ _ Hl)).
  change (isValidValue (VArr (p :: ps)) true) with true. cbn [negb].
  unfold get_prop. cbn [nullish].
  rewrite (proj2 (get_opt_obj_lookup _ _ _ Hl)). cbn [bind iterate].
  rewrite salvage_inner_loop_total;
    [| reflexivity | now apply pregnancy_ok_salvage_entity].
  cbn [bind]. rewrite app_nil_l, filter_all, filter_none by assumption.
  cbn [map]. rewrite add_skipped_nil. cbn [List.length Nat.eqb].
  rewrite spread_with_js_object by assumption.
  rewrite obj_set_present by (eapply lookup_has_own; eassumption).
  rewrite obj_update_same by assumption.
  reflexivity.
Qed.

Lemma strict_loop_complete cs out res :
  forallb complete_client cs = true ->
  foldM Strict.process_client (out, res) cs
  = (fs <- mapM (filterClient Strict.CONFIG) cs ;;
     Ok (out ++ fs,
         {| Strict.totalClients := Strict.totalClients res;
            Strict.successCount := Strict.successCount res + List.length cs;
            Strict.skippedCount := Strict.skippedCount res;
            Strict.skippedClients := Strict.skippedClients res |})).
Proof.
  revert out res. induction cs as [|c cs IH]; intros out res H; cbn [foldM mapM bind].
  - rewrite app_nil_r. cbn [List.length]. rewrite Nat.add_0_r. now destruct res.
  - cbn [forallb] in H. apply andb_true_iff in H as [Hc H].
    unfold Strict.process_client at 1.
    rewrite strict_validateClient_ok by now apply complete_strict_ok.
    cbn [bind valid].
    destruct (filterClient Strict.CONFIG c) as [fc| | |]; cbn [bind]; try reflexivity.
    rewrite IH by assumption.
    destruct (mapM (filterClient Strict.CONFIG) cs) as [fs| | |]; cbn [bind];
      try reflexivity.
    rewrite <- app_assoc. cbn. do 3 f_equal. lia.
Qed.

Lemma salvage_loop_complete cs out res :
  forallb complete_client cs = true ->
  foldM Salvage.process_client (out, res) cs
  = (fs <- mapM (filterClient Salvage.CONFIG) cs ;;
     Ok (out ++ fs, Nat.iter (List.length cs) add_success res)).
Proof.
  revert out res. induction cs as [|c cs IH]; intros out res H; cbn [foldM mapM bind].
  - now rewrite app_nil_r.
  - cbn [forallb] in H. apply andb_true_iff in H as [Hc H].
    rewrite salvage_turn_complete by assumption.
    destruct (filterClient Salvage.CONFIG c) as [fc| | |]; cbn [bind]; try reflexivity.
    rewrite IH by assumption.
    destruct (mapM (filterClient Salvage.CONFIG) cs) as [fs| | |]; cbn [bind];
      try reflexivity.
    rewrite <- app_assoc. cbn [app List.length]. do 2 f_equal.
    clear. induction (List.length cs) as [|n IHn]; simpl; [reflexivity |].
    now rewrite IHn.
Qed.

(** X18.  Where the two variants agree.  The filters of the two scripts are
    the same functions; and on a dataset of client objects each with a
    non-empty array of pregnancies that all pass the salvage check, both
    variants put out the filtered clients, one for each client of the input
    and in its order, count every client a success and skip nothing. *)
Theorem variants_agree_on_complete_clients (clients : list value) :
  forallb complete_client clients = true ->
  (forall x, filterClient Strict.CONFIG x = filterClient Salvage.CONFIG x)
  /\ Strict.processData (VArr clients)
     = (out <- mapM (filterClient Strict.CONFIG) clients ;;
        Ok (out, {| Strict.totalClients := List.length clients;
                    Strict.successCount := List.length clients;
                    Strict.skippedCount := 0;
                    Strict.skippedClients := [] |}))
  /\ Salvage.processData (VArr clients)
     = (out <- mapM (filterClient Strict.CONFIG) clients ;;
        Ok (out, {| Salvage.totalClients := List.length clients;
                    Salvage.successCount := List.length clients;
                    Salvage.skippedClientsCount := 0;
                    Salvage.skippedClients := [];
                    Salvage.skippedPregnanciesCount := 0;
                    Salvage.skippedPregnancies := [] |})).
Proof.
  intros H. split; [reflexivity |]. split.
  - cbn [Strict.processData]. now rewrite strict_loop_complete.
  - cbn [Salvage.processData]. rewrite salvage_loop_complete by assumption.
    change (filterClient Salvage.CONFIG) with (filterClient Strict.CONFIG).
    destruct (mapM (filterClient Strict.CONFIG) clients) as [fs| | |]; cbn [bind];
      try reflexivity.
    rewrite iter_add_success. cbn. now rewrite Nat.add_0_r.
Qed.

Lemma variants_agree_on_complete_clients_witness :
  Strict.processData (VArr [Edge.client_complete])
  = Ok ([VObj [("id", VNum 8); ("pregnancies", VArr [Sample.pregnancy_filtered])]],
        {| Strict.totalClients := 1; Strict.successCount := 1;
           Strict.skippedCount := 0; Strict.skippedClients := [] |})
  /\ Salvage.processData (VArr [Edge.client_complete])
     = Ok ([VObj [("id", VNum 8); ("pregnancies", VArr [Sample.pregnancy_filtered])]],
           {| Salvage.totalClients := 1; Salvage.successCount := 1;
              Salvage.skippedClientsCount := 0; Salvage.skippedClients := [];
              Salvage.skippedPregnanciesCount := 0; Salvage.skippedPregnancies := [] |}).
Proof.
  assert (H := variants_agree_on_complete_clients [Edge.client_complete] eq_refl).
  split.
  - exact (proj1 (proj2 H)).
  - exact (proj2 (proj2 H)).
Defined.

(* ------------------------------------------------------------------------- *)
(** ** The report *)

Lemma client_lines_printable ss :
  forallb printable (map SkippedClient.id ss) = true ->
  mapM skipped_client_lines ss = Ok (map client_entry ss).
Proof.
  induction ss as [|s ss IH]; cbn [map forallb mapM]; [reflexivity |].
  intros H. apply andb_true_iff in H as [Hs H].
  unfold skipped_client_lines at 1. rewrite template_printable by assumption.
  cbn [bind]. now rewrite IH.
Qed.

Lemma pregnancy_lines_printable ss :
  forallb printable
    (flat_map (fun s => [SkippedPregnancy.clientId s; SkippedPregnancy.pregnancyId s]) ss)
  = true ->
  mapM skipped_pregnancy_lines ss = Ok (map pregnancy_entry ss).
Proof.
  induction ss as [|s ss IH]; cbn [flat_map app forallb mapM map]; [reflexivity |].
  intros H. apply andb_true_iff in H as [Hc H]. apply andb_true_iff in H as [Hp H].
  unfold skipped_pregnancy_lines at 1. rewrite !template_printable by assumption.
  cbn [bind]. now rewrite IH.
Qed.

Lemma section_lines {A} title (entry : A -> list string) xs lines :
  (if (0 <? List.length xs)%nat
   then Ok (lines ++ [repeat_string "-" 60; title; repeat_string "-" 60]
                  ++ concat (map entry xs))
   else Ok lines)
  = Ok (lines ++ report_section title entry xs).
Proof.
  destruct xs as [|x xs]; cbn [List.length Nat.ltb Nat.leb report_section].
  - now rewrite app_nil_r.
  - now rewrite flat_map_concat_map.
Qed.

Lemma length_flat_map_three {A} (entry : A -> list string) xs :
  (forall x, List.length (entry x) = 3) ->
  List.length (flat_map entry xs) = 3 * List.length xs.
Proof.
  intros H. induction xs as [|x xs IH]; cbn [flat_map List.length]; [reflexivity |].
  rewrite length_app, H, IH. lia.
Qed.

Lemma length_report_section {A} title (entry : A -> list string) xs :
  (forall x, List.length (entry x) = 3) ->
  List.length (report_section title entry xs)
  = match xs with [] => 0 | _ :: _ => 3 + 3 * List.length xs end.
Proof.
  intros H. destruct xs as [|x xs]; [reflexivity |].
  unfold report_section. rewrite length_app, length_flat_map_three by assumption.
  reflexivity.
Qed.

(** X19.  The shape of the report when every id it prints has a text.  It
    is the lines of the head with the run date and the counts, then, for a
    list of skipped entries that is not empty, a section with three lines for
    each entry, in the order of the list (in the salvage variant the
    pregnancies before the clients), then the three closing lines; the lines
    are joined by line feeds, with none at the end. *)
Theorem report_shape
    (now : string) (rs : Strict.results) (rv : Salvage.results) :
  forallb printable (strict_report_ids rs) = true ->
  forallb printable (salvage_report_ids rv) = true ->
  (exists head,
      List.length head = 13
      /\ StrictCli.report_lines now rs
         = Ok (head
                 ++ report_section "SKIPPED CLIENTS" client_entry
                      (Strict.skippedClients rs)
                 ++ [repeat_string "=" 60; "END OF REPORT"; repeat_string "=" 60])
      /\ nth_error head 4 = Some ("Run Date: " ++ now)%string
      /\ nth_error head 11
         = Some ("Skipped (Invalid): " ++ dec_of_nat (Strict.skippedCount rs))%string)
  /\ (exists lines,
         StrictCli.report_lines now rs = Ok lines
         /\ StrictCli.generateResultsReport now rs = Ok (String.concat newline lines)
         /\ List.length lines
            = 16 + match Strict.skippedClients rs with
                   | [] => 0
                   | _ :: _ => 3 + 3 * List.length (Strict.skippedClients rs)
                   end)
  /\ (exists head,
         List.length head = 14
         /\ SalvageCli.report_lines now rv
            = Ok (head
                    ++ report_section "SKIPPED PREGNANCIES" pregnancy_entry
                         (Salvage.skippedPregnancies rv)
                    ++ report_section "SKIPPED CLIENTS" client_entry
                         (Salvage.skippedClients rv)
                    ++ [repeat_string "=" 60; "END OF REPORT"; repeat_string "=" 60]))
  /\ (exists lines,
         SalvageCli.report_lines now rv = Ok lines
         /\ SalvageCli.generateResultsReport now rv = Ok (String.concat newline lines)
         /\ List.length lines
            = 17 + match Salvage.skippedPregnancies rv with
                   | [] => 0
                   | _ :: _ => 3 + 3 * List.length (Salvage.skippedPregnancies rv)
                   end
                 + match Salvage.skippedClients rv with
                   | [] => 0
                   | _ :: _ => 3 + 3 * List.length (Salvage.skippedClients rv)
                   end).
Proof.
  intros Hs Hv. unfold strict_report_ids in Hs. unfold salvage_report_ids in Hv.
  rewrite forallb_app in Hv. apply andb_true_iff in Hv as [Hvp Hvc].
  assert (Es : StrictCli.report_lines now rs
               = Ok ([repeat_string "=" 60; "DATA FILTERING RESULTS REPORT";
                      repeat_string "=" 60; ""; ("Run Date: " ++ now)%string; "";
                      repeat_string "-" 60; "SUMMARY"; repeat_string "-" 60;
                      ("Total Clients Processed: "
                         ++ dec_of_nat (Strict.totalClients rs))%string;
                      ("Successfully Transformed: "
                         ++ dec_of_nat (Strict.successCount rs))%string;
                      ("Skipped (Invalid): "
                         ++ dec_of_nat (Strict.skippedCount rs))%string;
                      ""]
                       ++ report_section "SKIPPED CLIENTS" client_entry
                            (Strict.skippedClients rs)
                       ++ [repeat_string "=" 60; "END OF REPORT";
                           repeat_string "=" 60])).
  { unfold StrictCli.report_lines. rewrite client_lines_printable by assumption.
    cbn [bind]. rewrite section_lines. cbn [bind]. now rewrite <- app_assoc. }
  assert (Ev : SalvageCli.report_lines now rv
               = Ok ([repeat_string "=" 60; "DATA FILTERING RESULTS REPORT";
                      repeat_string "=" 60; ""; ("Run Date: " ++ now)%string; "";
                      repeat_string "-" 60; "SUMMARY"; repeat_string "-" 60;
                      ("Total Clients Processed: "
                         ++ dec_of_nat (Salvage.totalClients rv))%string;
                      ("Successfully Transformed: "
                         ++ dec_of_nat (Salvage.successCount rv))%string;
                      ("Skipped Clients: "
                         ++ dec_of_nat (Salvage.skippedClientsCount rv))%string;
                      ("Skipped Pregnancies: "
                         ++ dec_of_nat (Salvage.skippedPregnanciesCount rv))%string;
                      ""]
                       ++ report_section "SKIPPED PREGNANCIES" pregnancy_entry
                            (Salvage.skippedPregnancies rv)
                       ++ report_section "SKIPPED CLIENTS" client_entry
                            (Salvage.skippedClients rv)
                       ++ [repeat_string "=" 60; "END OF REPORT";
                           repeat_string "=" 60])).
  { unfold SalvageCli.report_lines.
    rewrite pregnancy_lines_printable, client_lines_printable by assumption.
    cbn [bind]. rewrite section_lines. cbn [bind]. rewrite section_lines. cbn [bind].
    now rewrite <- !app_assoc. }
  split; [|split; [|split]].
  - eexists. split; [|split; [exact Es | split; reflexivity]]. reflexivity.
  - eexists. split; [exact Es |]. split.
    + unfold StrictCli.generateResultsReport. now rewrite Es.
    + rewrite !length_app, length_report_section by reflexivity.
      cbn [List.length]. lia.
  - eexists. split; [|exact Ev]. reflexivity.
  - eexists. split; [exact Ev |]. split.
    + unfold SalvageCli.generateResultsReport. now rewrite Ev.
    + rewrite !length_app, !length_report_section by reflexivity.
      cbn [List.length]. lia.
Qed.

Lemma report_shape_witness :
  (exists lines,
      StrictCli.report_lines "2026-01-01T00:00:00.000Z" Edge.strict_results = Ok lines
      /\ StrictCli.generateResultsReport "2026-01-01T00:00:00.000Z" Edge.strict_results
         = Ok (String.concat newline lines)
      /\ List.length lines = 22)
  /\ (exists lines,
         SalvageCli.report_lines "2026-01-01T00:00:00.000Z" Edge.salvage_results
         = Ok lines
         /\ SalvageCli.generateResultsReport "2026-01-01T00:00:00.000Z"
              Edge.salvage_results
            = Ok (String.concat newline lines)
         /\ List.length lines = 29).
Proof.
  destruct (report_shape "2026-01-01T00:00:00.000Z" Edge.strict_results
              Edge.salvage_results eq_refl eq_refl) as (_ & H1 & _ & H2).
  split; [exact H1 | exact H2].
Defined.

(* ------------------------------------------------------------------------- *)
(** ** The entry point *)

Section EntryPoint.

Context {W : Type} (N : Node W).

Lemma strict_main_cases argv w :
  (world (StrictCli.main N argv w) = w
   /\ ended (StrictCli.main N argv w) <> Returned)
  \/ exists input out res,
       (2 <=? List.length (skipn 2 argv))%nat = true
       /\ read_input N argv w = inl input
       /\ Strict.processData input = Ok (out, res)
       /\ exists w1 m1,
            writeFileSync N w (outputPath N argv w) (JSON_stringify N out) = (w1, m1)
            /\ ((m1 <> None /\ world (StrictCli.main N argv w) = w1
                 /\ ended (StrictCli.main N argv w) = Exited 1)
                \/ (m1 = None
                    /\ ((world (StrictCli.main N argv w) = w1
                         /\ ended (StrictCli.main N argv w) <> Returned)
                        \/ exists report w2 m2,
                             StrictCli.generateResultsReport (toISOString N w1) res
                             = Ok report
                             /\ writeFileSync N w1 (resultsPath N argv w) report
                                = (w2, m2)
                             /\ world (StrictCli.main N argv w) = w2
                             /\ (ended (StrictCli.main N argv w) = Returned
                                 <-> m2 = None)))).
Proof.
  unfold StrictCli.main, read_input, resultsPath, outputPath.
  destruct (List.length (skipn 2 argv) <? 2)%nat eqn:Hargs;
    [left; split; [reflexivity | cbn [ended]; discriminate] |].
  assert (Hlen : (2 <=? List.length (skipn 2 argv))%nat = true).
  { apply Nat.leb_le. apply Nat.ltb_ge in Hargs. exact Hargs. }
  destruct (match readFileSync N w _ with inl _ => _ | inr _ => _ end)
    as [input|message] eqn:Hread;
    [|left; split; [reflexivity | cbn [ended]; discriminate]].
  destruct (Strict.processData input) as [[out res]| | |] eqn:Hp;
    try (left; split; [reflexivity | cbn [ended]; discriminate]).
  right. exists input, out, res. repeat (split; [assumption || reflexivity |]).
  destruct (writeFileSync N w _ (JSON_stringify N out)) as [w1 [m1|]] eqn:Hw1.
  - exists w1, (Some m1). split; [reflexivity |]. left.
    split; [discriminate | split; reflexivity].
  - exists w1, None. split; [reflexivity |]. right. split; [reflexivity |].
    destruct (StrictCli.generateResultsReport (toISOString N w1) res)
      as [report| | |] eqn:Hr;
      try (left; split; [reflexivity | cbn [ended]; discriminate]).
    right.
    destruct (writeFileSync N w1 _ report) as [w2 [m2|]] eqn:Hw2.
    + exists report, w2, (Some m2). repeat (split; [assumption || reflexivity |]).
      cbn [ended]. split; intros H; discriminate H.
    + exists report, w2, None. repeat (split; [assumption || reflexivity |]).
      split; reflexivity.
Qed.

Lemma salvage_main_cases argv w :
  (world (SalvageCli.main N argv w) = w
   /\ ended (SalvageCli.main N argv w) <> Returned)
  \/ exists input out res,
       (2 <=? List.length (skipn 2 argv))%nat = true
       /\ read_input N argv w = inl input
       /\ Salvage.processData input = Ok (out, res)
       /\ exists w1 m1,
            writeFileSync N w (outputPath N argv w) (JSON_stringify N out) = (w1, m1)
            /\ ((m1 <> None /\ world (SalvageCli.main N argv w) = w1
                 /\ ended (SalvageCli.main N argv w) = Exited 1)
                \/ (m1 = None
                    /\ ((world (SalvageCli.main N argv w) = w1
                         /\ ended (SalvageCli.main N argv w) <> Returned)
                        \/ exists report w2 m2,
                             SalvageCli.generateResultsReport (toISOString N w1) res
                             = Ok report
                             /\ writeFileSync N w1 (resultsPath N argv w) report
                                = (w2, m2)
                             /\ world (SalvageCli.main N argv w) = w2
                             /\ (ended (SalvageCli.main N argv w) = Returned
                                 <-> m2 = None)))).
Proof.
  unfold SalvageCli.main, read_input, resultsPath, outputPath.
  destruct (List.length (skipn 2 argv) <? 2)%nat eqn:Hargs;
    [left; split; [reflexivity | cbn [ended]; discriminate] |].
  assert (Hlen : (2 <=? List.length (skipn 2 argv))%nat = true).
  { apply Nat.leb_le. apply Nat.ltb_ge in Hargs. exact Hargs. }
  destruct (match readFileSync N w _ with inl _ => _ | inr _ => _ end)
    as [input|message] eqn:Hread;
    [|left; split; [reflexivity | cbn [ended]; discriminate]].
  destruct (Salvage.processData input) as [[out res]| | |] eqn:Hp;
    try (left; split; [reflexivity | cbn [ended]; discriminate]).
  right. exists input, out, res. repeat (split; [assumption || reflexivity |]).
  destruct (writeFileSync N w _ (JSON_stringify N out)) as [w1 [m1|]] eqn:Hw1.
  - exists w1, (Some m1). split; [reflexivity |]. left.
    split; [discriminate | split; reflexivity].
  - exists w1, None. split; [reflexivity |]. right. split; [reflexivity |].
    destruct (SalvageCli.generateResultsReport (toISOString N w1) res)
      as [report| | |] eqn:Hr;
      try (left; split; [reflexivity | cbn [ended]; discriminate]).
    right.
    destruct (writeFileSync N w1 _ report) as [w2 [m2|]] eqn:Hw2.
    + exists report, w2, (Some m2). repeat (split; [assumption || reflexivity |]).
      cbn [ended]. split; intros H; discriminate H.
    + exists report, w2, None. repeat (split; [assumption || reflexivity |]).
      split; reflexivity.
Qed.

End EntryPoint.

(** X20.  Nothing is written before the data is processed, and a run that
    ends normally has written both files.  In either variant, when the run
    leaves the world changed or returns, the arguments were two or more, the
    input was read and parsed, and [processData] returned; and when the run
    returns, the output was written first, with the emitted clients, then the
    report, for the results, to [results.txt] in the directory of the output,
    and both writes succeeded. *)
Theorem main_writes_only_after_processing
    {W : Type} (N : Node W) (argv : list string) (w : W) :
  (world (StrictCli.main N argv w) <> w \/ ended (StrictCli.main N argv w) = Returned ->
   exists input out res,
     (2 <=? List.length (skipn 2 argv))%nat = true
     /\ read_input N argv w = inl input
     /\ Strict.processData input = Ok (out, res))
  /\ (world (SalvageCli.main N argv w) <> w
      \/ ended (SalvageCli.main N argv w) = Returned ->
      exists input out res,
        (2 <=? List.length (skipn 2 argv))%nat = true
        /\ read_input N argv w = inl input
        /\ Salvage.processData input = Ok (out, res))
  /\ (ended (StrictCli.main N argv w) = Returned ->
      exists input out res w1 report,
        read_input N argv w = inl input
        /\ Strict.processData input = Ok (out, res)
        /\ writeFileSync N w (outputPath N argv w) (JSON_stringify N out) = (w1, None)
        /\ StrictCli.generateResultsReport (toISOString N w1) res = Ok report
        /\ writeFileSync N w1 (resultsPath N argv w) report
           = (world (StrictCli.main N argv w), None))
  /\ (ended (SalvageCli.main N argv w) = Returned ->
      exists input out res w1 report,
        read_input N argv w = inl input
        /\ Salvage.processData input = Ok (out, res)
        /\ writeFileSync N w (outputPath N argv w) (JSON_stringify N out) = (w1, None)
        /\ SalvageCli.generateResultsReport (toISOString N w1) res = Ok report
        /\ writeFileSync N w1 (resultsPath N argv w) report
           = (world (SalvageCli.main N argv w), None)).
Proof.
  split; [|split; [|split]].
  - intros H.
    destruct (strict_main_cases N argv w)
      as [[Hw He]|(input & out & res & Ha & Hr & Hp & _)];
      [destruct H; contradiction | eauto 6].
  - intros H.
    destruct (salvage_main_cases N argv w)
      as [[Hw He]|(input & out & res & Ha & Hr & Hp & _)];
      [destruct H; contradiction | eauto 6].
  - intros H.
    destruct (strict_main_cases N argv w)
      as [[Hw He]|(input & out & res & Ha & Hr & Hp & w1 & m1 & Hw1 & Hc)];
      [contradiction |].
    destruct Hc as [(_ & _ & He)|(-> & [[_ He]|(report & w2 & m2 & Hrep & Hw2 & Hw & Hiff)])].
    + rewrite He in H. discriminate.
    + contradiction.
    + apply Hiff in H. subst m2. rewrite Hw. exists input, out, res, w1, report. auto.
  - intros H.
    destruct (salvage_main_cases N argv w)
      as [[Hw He]|(input & out & res & Ha & Hr & Hp & w1 & m1 & Hw1 & Hc)];
      [contradiction |].
    destruct Hc as [(_ & _ & He)|(-> & [[_ He]|(report & w2 & m2 & Hrep & Hw2 & Hw & Hiff)])].
    + rewrite He in H. discriminate.
    + contradiction.
    + apply Hiff in H. subst m2. rewrite Hw. exists input, out, res, w1, report. auto.
Qed.

(** X21.  How a run fails before it writes.  With fewer than two arguments
    either variant prints the usage and exits with code 1; when the input
    cannot be read or parsed it reports the message of the error and exits
    with code 1; when the input is no array it reports that and exits with
    code 1; in each case, and when processing throws, the world is as it
    was. *)
Theorem main_fails_before_writing
    {W : Type} (N : Node W) (argv : list string) (w : W) :
  ((List.length argv < 4)%nat ->
   StrictCli.main N argv w = {| world := w; console := usage; ended := Exited 1 |}
   /\ SalvageCli.main N argv w = {| world := w; console := usage; ended := Exited 1 |})
  /\ ((4 <= List.length argv)%nat ->
      forall message,
        read_input N argv w = inr message ->
        StrictCli.main N argv w
        = {| world := w;
             console := [Log ("Reading input file: "
                                ++ path_resolve N w (nth 2 argv ""));
                         Err ("Error reading input file: " ++ message)];
             ended := Exited 1 |}
        /\ SalvageCli.main N argv w = StrictCli.main N argv w)
  /\ ((4 <= List.length argv)%nat ->
      forall input,
        read_input N argv w = inl input ->
        isArray input = false ->
        StrictCli.main N argv w
        = {| world := w;
             console := [Log ("Reading input file: "
                                ++ path_resolve N w (nth 2 argv ""));
                         Log "Processing data...";
                         Err "Error: Input data must be an array"];
             ended := Exited 1 |}
        /\ SalvageCli.main N argv w = StrictCli.main N argv w)
  /\ ((4 <= List.length argv)%nat ->
      forall input,
        read_input N argv w = inl input ->
        (Strict.processData input = TypeError ->
         world (StrictCli.main N argv w) = w
         /\ ended (StrictCli.main N argv w) = Threw)
        /\ (Salvage.processData input = TypeError ->
            world (SalvageCli.main N argv w) = w
            /\ ended (SalvageCli.main N argv w) = Threw)).
Proof.
  assert (Hshort : (List.length argv < 4)%nat ->
                   (List.length (skipn 2 argv) <? 2)%nat = true).
  { intros H. apply Nat.ltb_lt. rewrite length_skipn. lia. }
  assert (Hlong : (4 <= List.length argv)%nat ->
                  (List.length (skipn 2 argv) <? 2)%nat = false).
  { intros H. apply Nat.ltb_ge. rewrite length_skipn. lia. }
  assert (Hnth : nth 0 (skipn 2 argv) "" = nth 2 argv "").
  { destruct argv as [|a [|b l]]; reflexivity. }
  split; [|split; [|split]].
  - intros H. unfold StrictCli.main, SalvageCli.main. now rewrite (Hshort H).
  - intros H message Hr. unfold StrictCli.main, SalvageCli.main.
    rewrite (Hlong H). unfold read_input in Hr. rewrite <- Hnth. rewrite Hr.
    split; reflexivity.
  - intros H input Hr Ha. unfold StrictCli.main, SalvageCli.main.
    rewrite (Hlong H). unfold read_input in Hr. rewrite <- Hnth. rewrite Hr.
    destruct input; try discriminate; split; reflexivity.
  - intros H input Hr. unfold StrictCli.main, SalvageCli.main.
    rewrite (Hlong H). unfold read_input in Hr. rewrite Hr.
    split; intros ->; split; reflexivity.
Qed.

Lemma unprintable_not_printable :
  forall v, unprintable_object v = true -> printable v = false.
Proof.
  fix IH 1. intros [| |b|n|s|xs|o]; cbn [unprintable_object printable];
    try discriminate.
  - revert xs. fix IHl 1. intros [|x l]; [discriminate |].
    intros H. apply orb_true_iff in H as [H|H].
    + now rewrite (IH x H).
    + rewrite (IHl l H). apply andb_false_r.
  - now intros ->.
Qed.

Lemma template_throws v : unprintable_object v = true -> template v = TypeError.
Proof.
  intros H. unfold template. now rewrite (unprintable_not_printable v H), H.
Qed.

Lemma template_cases v :
  (printable v || unprintable_object v)%bool = true ->
  template v = if unprintable_object v then TypeError else Ok (to_string v).
Proof.
  intros H. destruct (unprintable_object v) eqn:Hu; [now apply template_throws |].
  rewrite orb_false_r in H. now apply template_printable.
Qed.

Lemma client_lines_closed ss :
  forallb (fun v => printable v || unprintable_object v) (map SkippedClient.id ss) = true ->
  mapM skipped_client_lines ss
  = if existsb unprintable_object (map SkippedClient.id ss) then TypeError
    else Ok (map client_entry ss).
Proof.
  induction ss as [|s ss IH]; cbn [map forallb existsb mapM]; [reflexivity |].
  intros H. apply andb_true_iff in H as [Hs H].
  unfold skipped_client_lines at 1. rewrite template_cases by assumption.
  destruct (unprintable_object (SkippedClient.id s)); cbn [bind orb]; [reflexivity |].
  rewrite IH by assumption.
  now destruct (existsb unprintable_object (map SkippedClient.id ss)).
Qed.

Lemma pregnancy_lines_closed ss :
  forallb (fun v => printable v || unprintable_object v)
    (flat_map (fun s => [SkippedPregnancy.clientId s; SkippedPregnancy.pregnancyId s]) ss)
  = true ->
  mapM skipped_pregnancy_lines ss
  = if existsb unprintable_object
         (flat_map (fun s => [SkippedPregnancy.clientId s; SkippedPregnancy.pregnancyId s])
                   ss)
    then TypeError
    else Ok (map pregnancy_entry ss).
Proof.
  induction ss as [|s ss IH]; cbn [flat_map mapM map]; [reflexivity |].
  change ([SkippedPregnancy.clientId s; SkippedPregnancy.pregnancyId s] ++ ?l)
    with (SkippedPregnancy.clientId s :: SkippedPregnancy.pregnancyId s :: l).
  cbn [forallb existsb].
  intros H. apply andb_true_iff in H as [Hc H]. apply andb_true_iff in H as [Hp H].
  unfold skipped_pregnancy_lines at 1. rewrite !template_cases by assumption.
  destruct (unprintable_object (SkippedPregnancy.clientId s)); cbn [bind orb];
    [reflexivity |].
  destruct (unprintable_object (SkippedPregnancy.pregnancyId s)); cbn [bind orb];
    [reflexivity |].
  rewrite IH by assumption.
  now destruct (existsb unprintable_object _).
Qed.

(** The salvage report fails exactly when an id is an object with a
    [toString] of its own. *)
Lemma salvage_report_closed now rv :
  forallb (fun v => printable v || unprintable_object v) (salvage_report_ids rv) = true ->
  SalvageCli.generateResultsReport now rv
  = if existsb unprintable_object (salvage_report_ids rv) then TypeError
    else match SalvageCli.report_lines now rv with
         | Ok lines => Ok (String.concat newline lines)
         | _ => Unmodelled
         end.
Proof.
  unfold salvage_report_ids. rewrite forallb_app, existsb_app.
  intros H. apply andb_true_iff in H as [Hp Hc].
  unfold SalvageCli.generateResultsReport, SalvageCli.report_lines.
  rewrite pregnancy_lines_closed, client_lines_closed by assumption.
  destruct (Salvage.skippedPregnancies rv) as [|p ps] eqn:Ep;
    cbn [List.length Nat.ltb Nat.leb flat_map existsb orb bind].
  - destruct (Salvage.skippedClients rv) as [|c cs] eqn:Ec;
      cbn [List.length Nat.ltb Nat.leb map existsb orb bind]; [reflexivity |].
    now destruct (unprintable_object (SkippedClient.id c)
                  || existsb unprintable_object (map SkippedClient.id cs))%bool.
  - destruct (existsb unprintable_object
                (([SkippedPregnancy.clientId p; SkippedPregnancy.pregnancyId p]
                    ++ flat_map (fun s => [SkippedPregnancy.clientId s;
                                           SkippedPregnancy.pregnancyId s]) ps)));
      cbn [bind orb]; [reflexivity |].
    destruct (Salvage.skippedClients rv) as [|c cs] eqn:Ec;
      cbn [List.length Nat.ltb Nat.leb map existsb orb bind]; [reflexivity |].
    now destruct (unprintable_object (SkippedClient.id c)
                  || existsb unprintable_object (map SkippedClient.id cs))%bool.
Qed.

Lemma salvage_counts clients out res :
  Salvage.processData (VArr clients) = Ok (out, res) ->
  Salvage.totalClients res = List.length clients
  /\ Salvage.successCount res = List.length out
  /\ Salvage.skippedClientsCount res = List.length clients - List.length out
  /\ Salvage.skippedClientsCount res = List.length (Salvage.skippedClients res)
  /\ Salvage.skippedPregnanciesCount res = List.length (Salvage.skippedPregnancies res).
Proof.
  cbn [Salvage.processData]. intros H.
  apply salvage_loop_spec in H
    as (new & -> & _ & Hsp & Hspc & Hsc & Hskc & Hskl & Ht).
  cbn [Salvage.totalClients Salvage.successCount Salvage.skippedClientsCount
       Salvage.skippedClients Salvage.skippedPregnancies
       Salvage.skippedPregnanciesCount List.length app Nat.add] in *.
  rewrite !app_nil_l in *. rewrite Hsp. repeat split; lia.
Qed.

(** X22.  A run of the salvage variant that goes through.  With an input
    array that [processData] accepts and two writes that succeed, the run
    writes the emitted clients to the output, then the report to
    [results.txt] beside it, returns, and has printed, after the four lines
    that announce its steps, the number of clients read, of clients emitted,
    of clients skipped (the difference of the two) and of pregnancies
    skipped (the length of their list). *)
Theorem salvage_main_success
    {W : Type} (N : Node W) (argv : list string) (w w1 w2 : W)
    (clients out : list value) (res : Salvage.results) (report : string) :
  (4 <= List.length argv)%nat ->
  read_input N argv w = inl (VArr clients) ->
  Salvage.processData (VArr clients) = Ok (out, res) ->
  writeFileSync N w (outputPath N argv w) (JSON_stringify N out) = (w1, None) ->
  SalvageCli.generateResultsReport (toISOString N w1) res = Ok report ->
  writeFileSync N w1 (resultsPath N argv w) report = (w2, None) ->
  SalvageCli.main N argv w
  = {| world := w2;
       console :=
         [Log ("Reading input file: " ++ path_resolve N w (nth 2 argv ""));
          Log "Processing data...";
          Log ("Writing output file: " ++ outputPath N argv w);
          Log ("Writing results report: " ++ resultsPath N argv w);
          Log "";
          Log "Processing complete!";
          Log ("  Total clients: " ++ dec_of_nat (List.length clients));
          Log ("  Transformed: " ++ dec_of_nat (List.length out));
          Log ("  Skipped clients: "
                 ++ dec_of_nat (List.length clients - List.length out));
          Log ("  Skipped pregnancies: "
                 ++ dec_of_nat (List.length (Salvage.skippedPregnancies res)))];
       ended := Returned |}.
Proof.
  intros Hargs Hread Hp Hw1 Hrep Hw2.
  destruct (salvage_counts clients out res Hp) as (Ht & Hs & Hk & _ & Hsp).
  assert (Hlong : (List.length (skipn 2 argv) <? 2)%nat = false).
  { apply Nat.ltb_ge. rewrite length_skipn. lia. }
  assert (Hnth : nth 0 (skipn 2 argv) "" = nth 2 argv "").
  { destruct argv as [|a [|b l]]; reflexivity. }
  unfold SalvageCli.main. rewrite Hlong.
  unfold read_input in Hread. rewrite Hread, Hp.
  unfold resultsPath, outputPath in *. rewrite Hw1, Hrep, Hw2.
  rewrite Ht, Hs, Hk, Hsp, Hnth. reflexivity.
Qed.

Lemma salvage_main_success_witness :
  ended (SalvageCli.main ToyNode.node ["node"; "filter.js"; "in.json"; "out.json"]
           ToyNode.disk) = Returned
  /\ nth_error
       (console (SalvageCli.main ToyNode.node
                   ["node"; "filter.js"; "in.json"; "out.json"] ToyNode.disk)) 8
     = Some (Log "  Skipped clients: 1").
Proof.
  assert (H := salvage_main_success ToyNode.node
                 ["node"; "filter.js"; "in.json"; "out.json"] ToyNode.disk
                 _ _ Sample.dataset _ _ _
                 (le_n 4) eq_refl eq_refl eq_refl eq_refl eq_refl).
  split.
  - exact (f_equal ended H).
  - exact (f_equal (fun r => nth_error (console r) 8) H).
Defined.

(** X23.  When the report cannot be made, the output stays.  If an id to be
    printed in the report is an object with a [toString] of its own, the
    salvage variant has written the output file when the conversion throws;
    the run reports that the results file could not be written and exits with
    code 1, and no report is written. *)
Theorem salvage_report_failure_keeps_output
    {W : Type} (N : Node W) (argv : list string) (w w1 : W)
    (input : value) (out : list value) (res : Salvage.results) :
  (4 <= List.length argv)%nat ->
  read_input N argv w = inl input ->
  Salvage.processData input = Ok (out, res) ->
  writeFileSync N w (outputPath N argv w) (JSON_stringify N out) = (w1, None) ->
  forallb (fun v => printable v || unprintable_object v) (salvage_report_ids res) = true ->
  existsb unprintable_object (salvage_report_ids res) = true ->
  SalvageCli.generateResultsReport (toISOString N w1) res = TypeError
  /\ SalvageCli.main N argv w
     = {| world := w1;
          console :=
            [Log ("Reading input file: " ++ path_resolve N w (nth 2 argv ""));
             Log "Processing data...";
             Log ("Writing output file: " ++ outputPath N argv w);
             Log ("Writing results report: " ++ resultsPath N argv w);
             Err ("Error writing results file: " ++ conversion_message N)];
          ended := Exited 1 |}.
Proof.
  intros Hargs Hread Hp Hw1 Hall Hex.
  assert (Hrep : SalvageCli.generateResultsReport (toISOString N w1) res = TypeError).
  { rewrite salvage_report_closed by assumption. now rewrite Hex. }
  split; [assumption |].
  assert (Hlong : (List.length (skipn 2 argv) <? 2)%nat = false).
  { apply Nat.ltb_ge. rewrite length_skipn. lia. }
  assert (Hnth : nth 0 (skipn 2 argv) "" = nth 2 argv "").
  { destruct argv as [|a [|b l]]; reflexivity. }
  unfold SalvageCli.main. rewrite Hlong.
  unfold read_input in Hread. rewrite Hread, Hp.
  unfold resultsPath, outputPath in *. rewrite Hw1, Hrep, Hnth. reflexivity.
Qed.

Lemma salvage_report_failure_keeps_output_witness :
  SalvageCli.main ToyNode.node ["node"; "filter.js"; "odd.json"; "out.json"] ToyNode.disk
  = {| world := ("/work/out.json", "<0 clients>") :: ToyNode.disk;
       console :=
         [Log "Reading input file: /work/odd.json";
          Log "Processing data...";
          Log "Writing output file: /work/out.json";
          Log "Writing results report: /work/results.txt";
          Err "Error writing results file: Cannot convert object to primitive value"];
       ended := Exited 1 |}.
Proof.
  exact (proj2 (salvage_report_failure_keeps_output ToyNode.node
                  ["node"; "filter.js"; "odd.json"; "out.json"] ToyNode.disk
                  _ _ _ _ (le_n 4) eq_refl eq_refl eq_refl eq_refl eq_refl)).
Defined.

(** X24.  An output file named [results.txt] is lost.  On a file system
    where a file holds what was last written to it, when the path of the
    report is the path of the output and the run returns, the output file
    holds the report and not the data, in either variant. *)
Theorem results_path_collision
    {W : Type} (N : Node W) (argv : list string) (w : W) :
  (forall w0 p text w', writeFileSync N w0 p text = (w', None) ->
                        readFileSync N w' p = inl text) ->
  resultsPath N argv w = outputPath N argv w ->
  (ended (StrictCli.main N argv w) = Returned ->
   exists input out res w1 report,
     read_input N argv w = inl input
     /\ Strict.processData input = Ok (out, res)
     /\ StrictCli.generateResultsReport (toISOString N w1) res = Ok report
     /\ readFileSync N (world (StrictCli.main N argv w)) (outputPath N argv w)
        = inl report)
  /\ (ended (SalvageCli.main N argv w) = Returned ->
      exists input out res w1 report,
        read_input N argv w = inl input
        /\ Salvage.processData input = Ok (out, res)
        /\ SalvageCli.generateResultsReport (toISOString N w1) res = Ok report
        /\ readFileSync N (world (SalvageCli.main N argv w)) (outputPath N argv w)
           = inl report).
Proof.
  intros Hfs Hpath. split; intros H.
  - destruct (strict_main_cases N argv w)
      as [[Hw He]|(input & out & res & Ha & Hr & Hp & w1 & m1 & Hw1 & Hc)];
      [contradiction |].
    destruct Hc as [(_ & _ & He)|(-> & [[_ He]|(report & w2 & m2 & Hrep & Hw2 & Hw & Hiff)])].
    + rewrite He in H. discriminate.
    + contradiction.
    + apply Hiff in H. subst m2. exists input, out, res, w1, report.
      repeat (split; [assumption |]). rewrite Hw, <- Hpath.
      now apply (Hfs w1 _ report w2).
  - destruct (salvage_main_cases N argv w)
      as [[Hw He]|(input & out & res & Ha & Hr & Hp & w1 & m1 & Hw1 & Hc)];
      [contradiction |].
    destruct Hc as [(_ & _ & He)|(-> & [[_ He]|(report & w2 & m2 & Hrep & Hw2 & Hw & Hiff)])].
    + rewrite He in H. discriminate.
    + contradiction.
    + apply Hiff in H. subst m2. exists input, out, res, w1, report.
      repeat (split; [assumption |]). rewrite Hw, <- Hpath.
      now apply (Hfs w1 _ report w2).
Qed.

Lemma toy_last_write (w0 : ToyNode.files) (p text : string) (w' : ToyNode.files) :
  writeFileSync ToyNode.node w0 p text = (w', None) ->
  readFileSync ToyNode.node w' p = inl text.
Proof.
  cbn. intros [= <-]. cbn. now rewrite String.eqb_refl.
Qed.

Lemma results_path_collision_witness :
  exists input out res w1 report,
    read_input ToyNode.node ["node"; "filter.js"; "in.json"; "results.txt"] ToyNode.disk
    = inl input
    /\ Salvage.processData input = Ok (out, res)
    /\ SalvageCli.generateResultsReport (toISOString ToyNode.node w1) res = Ok report
    /\ readFileSync ToyNode.node
         (world (SalvageCli.main ToyNode.node
                   ["node"; "filter.js"; "in.json"; "results.txt"] ToyNode.disk))
         (outputPath ToyNode.node
            ["node"; "filter.js"; "in.json"; "results.txt"] ToyNode.disk)
       = inl report.
Proof.
  exact (proj2 (results_path_collision ToyNode.node
                  ["node"; "filter.js"; "in.json"; "results.txt"] ToyNode.disk
                  toy_last_write eq_refl) eq_refl).
Defined.

(* ------------------------------------------------------------------------- *)
(** ** What is not listed has no say *)

Lemma pick_fold_ext (o1 o2 : obj) ks acc :
  (forall k, In k ks -> lookup k o1 = lookup k o2) ->
  fold_left (pick_step (VObj o1)) ks acc = fold_left (pick_step (VObj o2)) ks acc.
Proof.
  revert acc. induction ks as [|k ks IH]; intros acc H; cbn [fold_left]; [reflexivity |].
  assert (E : pick_step (VObj o1) acc k = pick_step (VObj o2) acc k).
  { unfold pick_step. cbn [has_property get_own]. unfold has_own.
    now rewrite (H k (or_introl eq_refl)). }
  rewrite E. apply IH. intros k' Hk'. apply H. now right.
Qed.

Lemma pickProperties_ext (o1 o2 : obj) ks :
  (forall k, mem k ks = true -> lookup k o1 = lookup k o2) ->
  pickProperties (VObj o1) ks = pickProperties (VObj o2) ks.
Proof.
  intros H. rewrite !pickProperties_object by reflexivity. f_equal.
  apply pick_fold_ext. intros k Hk. apply H. now apply mem_In.
Qed.

Lemma strict_validateClient_ext (o1 o2 : obj) :
  lookup "pregnancies" o1 = lookup "pregnancies" o2 ->
  Strict.validateClient (VObj o1) = Strict.validateClient (VObj o2).
Proof.
  intros H. unfold Strict.validateClient, get_prop.
  change (required_client Strict.CONFIG) with ["pregnancies"].
  cbn [validateEntity nullish get_opt get_own]. now rewrite H.
Qed.

Lemma foldM_ext {A S} (f g : S -> A -> outcome S) :
  (forall s x, f s x = g s x) -> forall xs s, foldM f s xs = foldM g s xs.
Proof.
  intros H xs. induction xs as [|x xs IH]; intros s; cbn [foldM]; [reflexivity |].
  rewrite H. destruct (g s x); cbn [bind]; auto.
Qed.

Lemma salvage_pregnancy_ext (o1 o2 : obj) :
  lookup "id" o1 = lookup "id" o2 ->
  forall st p,
    Salvage.process_pregnancy (VObj o1) st p = Salvage.process_pregnancy (VObj o2) st p.
Proof.
  intros H [vs res] p. unfold Salvage.process_pregnancy, get_prop.
  cbn [nullish get_own]. now rewrite H.
Qed.

(** X25.  A field that is not listed has no say in what is put out.  Two
    records that agree on the listed fields of their type, whatever else they
    hold and in whatever order, are filtered to the same record, by each of
    the six filters; and two client objects that agree on [id] and
    [pregnancies] take the same turn of the loop of [processData], in either
    variant.  (The lists of the configuration name nothing an object
    inherits.) *)
Theorem filters_read_listed_fields_only (CONFIG : Config) (o1 o2 : obj) :
  plain_config CONFIG = true ->
  ((forall k, mem k (whitelist_client CONFIG) = true -> lookup k o1 = lookup k o2) ->
   filterClient CONFIG (VObj o1) = filterClient CONFIG (VObj o2))
  /\ ((forall k, mem k (whitelist_pregnancy CONFIG) = true -> lookup k o1 = lookup k o2) ->
      filterPregnancy CONFIG (VObj o1) = filterPregnancy CONFIG (VObj o2))
  /\ ((forall k, mem k (whitelist_birth CONFIG) = true -> lookup k o1 = lookup k o2) ->
      filterBirth CONFIG (VObj o1) = filterBirth CONFIG (VObj o2))
  /\ ((forall k, mem k (whitelist_child CONFIG) = true -> lookup k o1 = lookup k o2) ->
      filterChild CONFIG (VObj o1) = filterChild CONFIG (VObj o2))
  /\ ((forall k, mem k (whitelist_careAfter CONFIG) = true -> lookup k o1 = lookup k o2) ->
      filterCareAfter CONFIG (VObj o1) = filterCareAfter CONFIG (VObj o2))
  /\ ((forall k, mem k (whitelist_careAfterPhone CONFIG) = true ->
                 lookup k o1 = lookup k o2) ->
      filterCareAfterPhone CONFIG (VObj o1) = filterCareAfterPhone CONFIG (VObj o2))
  /\ (js_object o1 = true -> js_object o2 = true ->
      lookup "id" o1 = lookup "id" o2 ->
      lookup "pregnancies" o1 = lookup "pregnancies" o2 ->
      (forall st,
          Strict.process_client st (VObj o1) = Strict.process_client st (VObj o2))
      /\ (forall st,
            Salvage.process_client st (VObj o1) = Salvage.process_client st (VObj o2))).
Proof.
  intros _.
  split; [|split; [|split; [|split; [|split; [|split]]]]].
  - intros H. unfold filterClient. now rewrite (pickProperties_ext o1 o2).
  - intros H. unfold filterPregnancy. now rewrite (pickProperties_ext o1 o2).
  - intros H. unfold filterBirth. cbn [truthy negb].
    now rewrite (pickProperties_ext o1 o2).
  - intros H. unfold filterChild. now rewrite (pickProperties_ext o1 o2).
  - intros H. unfold filterCareAfter. now rewrite (pickProperties_ext o1 o2).
  - intros H. unfold filterCareAfterPhone. now rewrite (pickProperties_ext o1 o2).
  - intros J1 J2 Hid Hp.
    assert (Hlisted : forall k, mem k ["id"; "pregnancies"] = true ->
                                lookup k o1 = lookup k o2).
    { intros k Hk. cbn [mem] in Hk.
      destruct (String.eqb_spec k "id") as [E|_]; [now rewrite E |].
      destruct (String.eqb_spec k "pregnancies") as [E|_]; [now rewrite E | discriminate]. }
    split; intros [out res].
    + unfold Strict.process_client.
      rewrite (strict_validateClient_ext o1 o2 Hp).
      unfold filterClient. change (whitelist_client Strict.CONFIG) with ["id"; "pregnancies"].
      rewrite (pickProperties_ext o1 o2 _ Hlisted).
      unfold get_prop. cbn [nullish get_own]. now rewrite Hid.
    + unfold Salvage.process_client.
      assert (Ev : Salvage.validateClient (VObj o1) = Salvage.validateClient (VObj o2)).
      { unfold Salvage.validateClient.
        change (required_client Salvage.CONFIG) with ["pregnancies"].
        cbn [validateEntity nullish get_opt get_own]. now rewrite Hp. }
      assert (Eid : get_prop (VObj o1) "id" = get_prop (VObj o2) "id").
      { unfold get_prop. cbn [nullish get_own]. now rewrite Hid. }
      assert (Epr : get_prop (VObj o1) "pregnancies" = get_prop (VObj o2) "pregnancies").
      { unfold get_prop. cbn [nullish get_own]. now rewrite Hp. }
      rewrite Ev, Eid, Epr.
      destruct (negb (valid (Salvage.validateClient (VObj o2)))); [reflexivity |].
      destruct (get_prop (VObj o2) "pregnancies") as [pregs| | |]; cbn [bind];
        try reflexivity.
      destruct (iterate pregs) as [ps| | |]; cbn [bind]; try reflexivity.
      rewrite (foldM_ext _ _ (salvage_pregnancy_ext o1 o2 Hid)).
      destruct (foldM (Salvage.process_pregnancy (VObj o2)) ([], res) ps)
        as [[vs res']| | |]; cbn [bind]; try reflexivity.
      destruct (List.length vs =? 0)%nat; [reflexivity |].
      rewrite !spread_with_js_object by assumption.
      unfold filterClient. change (whitelist_client Salvage.CONFIG) with ["id"; "pregnancies"].
      rewrite (pickProperties_ext (obj_set "pregnancies" (VArr vs) o1)
                 (obj_set "pregnancies" (VArr vs) o2)); [reflexivity |].
      intros k Hk. rewrite !lookup_obj_set.
      destruct (String.eqb k "pregnancies"); [reflexivity | now apply Hlisted].
Qed.

Lemma filters_read_listed_fields_only_witness :
  filterClient Strict.CONFIG
    (VObj [("name", VStr "Zoe"); ("pregnancies", VArr []); ("id", VNum 1)])
  = filterClient Strict.CONFIG
      (VObj [("id", VNum 1); ("pregnancies", VArr []); ("phone", VStr "555")]).
Proof.
  apply (proj1 (filters_read_listed_fields_only Strict.CONFIG
                  [("name", VStr "Zoe"); ("pregnancies", VArr []); ("id", VNum 1)]
                  [("id", VNum 1); ("pregnancies", VArr []); ("phone", VStr "555")]
                  eq_refl)).
  intros k Hk. cbn [mem whitelist_client Strict.CONFIG] in Hk.
  destruct (String.eqb_spec k "id") as [E|_]; [now rewrite E |].
  destruct (String.eqb_spec k "pregnancies") as [E|_]; [now rewrite E | discriminate].
Defined.

(* ------------------------------------------------------------------------- *)
(** ** The salvage run, client by client *)

Lemma salvage_loop_order clients out0 res0 out res :
  foldM Salvage.process_client (out0, res0) clients = Ok (out, res) ->
  exists new,
    out = out0 ++ new
    /\ Forall2 (fun c fc =>
                  filterClient Salvage.CONFIG
                    (spread_with c "pregnancies" (VArr (valid_pregnancies c))) = Ok fc)
               (filter (fun c => negb (no_valid_pregnancy c)) clients) new
    /\ map SkippedClient.id (Salvage.skippedClients res)
       = map SkippedClient.id (Salvage.skippedClients res0)
           ++ map (fun c => get_own c "id") (filter no_valid_pregnancy clients).
Proof.
  revert out0 res0. induction clients as [|c cs IH]; intros out0 res0; cbn [foldM].
  - intros [= <- <-]. exists []. rewrite !app_nil_r. repeat split; constructor.
  - intros H. apply bind_Ok in H as ([o1 r1] & Hstep & Hrest).
    destruct (IH _ _ Hrest) as (new & -> & HF & Hids). clear IH.
    apply salvage_process_client_spec in Hstep
      as (_ & [(Hv & -> & ->)|[(_ & He & -> & ->)|(_ & He & fc & Hfc & -> & ->)]]);
      cbn [filter].
    + assert (E : no_valid_pregnancy c = true).
      { unfold no_valid_pregnancy, valid_pregnancies, client_pregnancies.
        now rewrite Hv. }
      rewrite E. cbn [negb]. exists new. split; [reflexivity |]. split; [assumption |].
      rewrite Hids. cbn [Salvage.skip_client Salvage.skippedClients].
      rewrite map_app, <- app_assoc. reflexivity.
    + assert (E : no_valid_pregnancy c = true)
        by (unfold no_valid_pregnancy; now rewrite He).
      rewrite E. cbn [negb]. exists new. split; [reflexivity |]. split; [assumption |].
      rewrite Hids.
      cbn [Salvage.skip_client Salvage.skippedClients add_skipped].
      rewrite map_app, <- app_assoc. reflexivity.
    + assert (E : no_valid_pregnancy c = false).
      { unfold no_valid_pregnancy. destruct (valid_pregnancies c); congruence. }
      rewrite E. cbn [negb]. exists (fc :: new). rewrite <- app_assoc.
      split; [reflexivity |]. split; [now constructor |].
      rewrite Hids. reflexivity.
Qed.

(** X26.  What the salvage variant puts out, client by client.  When
    [processData] returns, the output holds, in the order of the input, one
    client for each client of the input that has a valid pregnancy: the copy
    of the client with its valid pregnancies only, filtered; and the list of
    skipped clients holds the ids of the other clients, in the order of the
    input. *)
Theorem salvage_output_in_order (clients out : list value) (res : Salvage.results) :
  Salvage.processData (VArr clients) = Ok (out, res) ->
  Forall2 (fun c fc =>
             filterClient Salvage.CONFIG
               (spread_with c "pregnancies" (VArr (valid_pregnancies c))) = Ok fc)
          (filter (fun c => negb (no_valid_pregnancy c)) clients) out
  /\ map SkippedClient.id (Salvage.skippedClients res)
     = map (fun c => get_own c "id") (filter no_valid_pregnancy clients).
Proof.
  cbn [Salvage.processData]. intros H.
  apply salvage_loop_order in H as (new & -> & HF & Hids).
  rewrite app_nil_l. split; assumption.
Qed.

Lemma salvage_output_in_order_witness :
  exists out res,
    Salvage.processData (VArr [Sample.client_no_pregnancies; Sample.client]) = Ok (out, res)
    /\ out = [VObj [("id", VNum 1); ("pregnancies", VArr [Sample.pregnancy_filtered])]]
    /\ Forall2 (fun c fc =>
                  filterClient Salvage.CONFIG
                    (spread_with c "pregnancies" (VArr (valid_pregnancies c))) = Ok fc)
               (filter (fun c => negb (no_valid_pregnancy c))
                       [Sample.client_no_pregnancies; Sample.client]) out
    /\ map SkippedClient.id (Salvage.skippedClients res) = [VNum 2].
Proof.
  eexists. eexists. split; [reflexivity |]. split; [reflexivity |]. split.
  - exact (proj1 (salvage_output_in_order
                    [Sample.client_no_pregnancies; Sample.client] _ _ eq_refl)).
  - reflexivity.
Defined.
